(** * Be-Humming: quality search and best-of selection, checked against the code

    A shallow embedding of the Python sources

    - [be_humming/utils/shell.py]            ([Shell])
    - [be_humming/utils/metrics.py]          ([Metrics])
    - [be_humming/utils/image_ops.py]        ([ImageOps])
    - [be_humming/mods/hybrid_perceptual.py] ([Hybrid])
    - [be_humming/mods/jpeg_binary_search.py] ([JpegSearch])
    - [be_humming/mods/perceptual.py]        ([Perceptual])
    - [be_humming/mods/lossless.py]          ([Lossless])

    Python functions that touch the file system, spawn processes or raise
    are functions in the monad [M]: a state monad over [world] (the files on
    disk, the counter behind [tempfile.mkdtemp], and two logs) with Python
    exceptions as a second outcome.  Everything outside the repository that
    the code calls (Pillow, numpy, scikit-image, the operating system running
    an encoder binary) is an oracle collected in the record [externals]. *)

From Stdlib Require Import ZArith PrimFloat Floats Uint63 Ascii String.
From stdpp Require Import gmap strings list pretty.

Open Scope string_scope.
Open Scope list_scope.
Open Scope Z_scope.

(** ** Python values *)

Module Py.

(** Python's [float] is IEEE 754 binary64, as is [PrimFloat.float]. *)
Abbreviation float := PrimFloat.float.

(** [a <= b] and [a >= b] on floats; both are [False] when an operand is NaN. *)
Definition le (a b : float) : bool := PrimFloat.leb a b.
Definition ge (a b : float) : bool := PrimFloat.leb b a.

(** [bool(x)] of a float: every value but [0.0] and [-0.0] is true. *)
Definition truthy (x : float) : bool := negb (PrimFloat.eqb x 0%float).

(** [x or 0] where [x] is [None] or a float. *)
Definition or_zero (x : option float) : float :=
  match x with
  | Some v => if truthy v then v else 0%float
  | None => 0%float
  end.

(** [bool(s)] where [s] is [None] or a string. *)
Definition truthy_str (s : option string) : bool :=
  match s with
  | Some s => negb (String.eqb s "")
  | None => false
  end.

(** [min(l, key=key)] on a non-empty list [x :: l]: the first element whose
    key is minimal (a later element replaces the current one only when its
    key is strictly smaller). *)
Definition min_by {A} (key : A → Z) (x : A) (l : list A) : A :=
  foldl (λ best c, if key c <? key best then c else best) x l.

(** [int(x)] of a non-negative file size, and [str(n)] of an integer. *)
Definition str (n : Z) : string := pretty n.

(** [float(n)] of an integer of absolute value below 2^63; the conversion
    is exact below 2^53. *)
Definition of_int (n : Z) : float :=
  if n <? 0 then PrimFloat.opp (PrimFloat.of_uint63 (Uint63.of_Z (- n)))
  else PrimFloat.of_uint63 (Uint63.of_Z n).

(** [num / den] rounded to the nearest integer, a tie going to the even one. *)
Definition round_half_even (num den : Z) : Z :=
  let q := num `div` den in
  let r := num `mod` den in
  if 2 * r <? den then q
  else if den <? 2 * r then q + 1
  else if Z.even q then q else q + 1.

(** [round(x, 2)]: the float nearest to the decimal with two places that is
    nearest to the exact value of [x] (a tie going to the even last digit).
    A float is [m * 2^e]; with [e >= 0] it is an integer already.  The
    hundredths [k] stay below 2^53 for every [x] below 2^46, so that
    [k / 100] is rounded once, like the decimal string Python converts. *)
Definition round2 (x : float) : float :=
  match Prim2SF x with
  | S754_finite s m e =>
      if 0 <=? e then x
      else
        let k := round_half_even (Z.pos m * 100) (2 ^ (- e)) in
        let r := PrimFloat.div (of_int k) (of_int 100) in
        if s then PrimFloat.opp r else r
  | _ => x
  end.

(** [to_kb(size_bytes)] of [perceptual] and [lossless]:
    [round(size_bytes / 1024, 2)]. *)
Definition to_kb (size_bytes : Z) : float :=
  round2 (PrimFloat.div (of_int size_bytes) (of_int 1024)).

(** Index of the last ['.'] of a name, [name.rfind('.')], or [None]. *)
Fixpoint rfind_dot (s : string) (i : nat) : option nat :=
  match s with
  | EmptyString => None
  | String c s' =>
      match rfind_dot s' (S i) with
      | Some j => Some j
      | None => if Ascii.eqb c "."%char then Some i else None
      end
  end.

(** [PurePath.stem]: the name up to its last dot, when that dot is neither
    the first nor the last character. *)
Definition stem (name : string) : string :=
  match rfind_dot name 0 with
  | Some i =>
      if ((0 <? i)%nat && (i <? String.length name - 1)%nat)%bool
      then String.substring 0 i name
      else name
  | None => name
  end.

(** [PurePath.suffix]. *)
Definition suffix (name : string) : string :=
  match rfind_dot name 0 with
  | Some i =>
      if ((0 <? i)%nat && (i <? String.length name - 1)%nat)%bool
      then String.substring i (String.length name - i) name
      else ""
  | None => ""
  end.

End Py.

Abbreviation float := PrimFloat.float.

(** ** Paths and files *)

(** Where a path starts: a string given by the user (an input or output
  directory, or any string handed to [Path(...)]), or a directory that
  [tempfile.mkdtemp] created. *)
Inductive anchor :=
| Given (s : string)
| Temp (prefix : string) (id : nat).

(** A [pathlib.Path]: an anchor and the components appended with [/]. *)
Record path := Path { anchor_of : anchor; parts : list string }.

Global Instance anchor_eq_dec : EqDecision anchor.
Proof. solve_decision. Defined.

Global Instance path_eq_dec : EqDecision path.
Proof. solve_decision. Defined.

Global Instance anchor_countable : Countable anchor.
Proof.
refine (inj_countable'
  (λ a, match a with Given s => inl s | Temp p n => inr (p, n) end)
  (λ x, match x with inl s => Given s | inr (p, n) => Temp p n end) _).
by intros [].
Defined.

Global Instance path_countable : Countable path.
Proof.
refine (inj_countable'
  (λ p, (anchor_of p, parts p)) (λ x, Path x.1 x.2) _).
by intros [].
Defined.

(** [d / name] *)
Definition child (d : path) (name : string) : path :=
Path (anchor_of d) (parts d ++ [name]).
Infix "//" := child (at level 40, left associativity).

(** [p.name], [p.stem] and [p.with_suffix(s).name] *)
Definition path_name (p : path) : string :=
match last (parts p) with
| Some n => n
| None => match anchor_of p with Given s => s | Temp pre n => pre +:+ pretty n end
end.
Definition path_stem (p : path) : string := Py.stem (path_name p).

(** [str(p)] *)
Definition anchor_str (a : anchor) : string :=
match a with
| Given s => s
| Temp pre n => "/tmp/" +:+ pre +:+ pretty n
end.
Definition path_str (p : path) : string :=
foldl (λ acc c, acc +:+ "/" +:+ c) (anchor_str (anchor_of p)) (parts p).

(** [repr(p)], on a POSIX system *)
Definition path_repr (p : path) : string := "PosixPath('" +:+ path_str p +:+ "')".

(** [p] lies inside directory [d] (at any depth). *)
Definition inside (d p : path) : bool :=
bool_decide (anchor_of p = anchor_of d) &&
bool_decide (parts d `prefix_of` parts p) &&
bool_decide (parts p ≠ parts d).

(** A regular file is its bytes. *)
Abbreviation content := (list Byte.byte).
Definition size_of (c : content) : Z := Z.of_nat (length c).

(** ** The world *)

Inductive proc_event :=
| EvSpawn (cmd : list string)
| EvKill (cmd : list string).

Record world := World {
files : gmap path content;   (* regular files on disk *)
next_tmp : nat;              (* names [mkdtemp] has not used yet *)
procs : list proc_event;     (* child processes started and killed, latest first *)
encode_log : list Z;         (* qualities at which a search called its encoder, latest first *)
}.

Definition set_files (f : gmap path content → gmap path content) (w : world) : world :=
World (f (files w)) (next_tmp w) (procs w) (encode_log w).

(** ** Exceptions and the monad *)

Inductive exn :=
| FileNotFoundError (msg : string)
| SameFileError (msg : string)
| TimeoutExpired (msg : string)
| IndexError (msg : string)
| TypeError (msg : string)
| OSError (msg : string).

(** [str(e)] *)
Definition exn_str (e : exn) : string :=
match e with
| FileNotFoundError m | SameFileError m | TimeoutExpired m
| IndexError m | TypeError m | OSError m => m
end.

Inductive outcome (A : Type) :=
| Ok (a : A)
| Raise (e : exn).
Arguments Ok {A} a.
Arguments Raise {A} e.

Definition M (A : Type) : Type := world → outcome A * world.

Global Instance M_ret : MRet M := λ A a w, (Ok a, w).
Global Instance M_bind : MBind M := λ A B f m w,
match m w with
| (Ok a, w') => f a w'
| (Raise e, w') => (Raise e, w')
end.

Definition raise {A} (e : exn) : M A := λ w, (Raise e, w).

(** [try: m  except Exception as e: h e] *)
Definition try_except {A} (m : M A) (h : exn → M A) : M A := λ w,
match m w with
| (Ok a, w') => (Ok a, w')
| (Raise e, w') => h e w'
end.

(** [try: m  finally: f] *)
Definition try_finally {A} (m : M A) (f : M unit) : M A := λ w,
match m w with
| (r, w') =>
    match f w' with
    | (Ok _, w'') => (r, w'')
    | (Raise e, w'') => (Raise e, w'')
    end
end.

Definition get_files : M (gmap path content) := λ w, (Ok (files w), w).
Definition modify_files (f : gmap path content → gmap path content) : M unit :=
λ w, (Ok tt, set_files f w).

(** ** File-system operations of [pathlib], [shutil] and [tempfile] *)

Module FS.

(** [p.exists()] *)
Definition exists_ (p : path) : M bool :=
  fs ← get_files; mret (bool_decide (is_Some (fs !! p))).

(** [p.stat().st_size] *)
Definition stat_size (p : path) : M Z :=
  fs ← get_files;
  match fs !! p with
  | Some c => mret (size_of c)
  | None => raise (FileNotFoundError ("[Errno 2] No such file or directory: '" +:+ path_str p +:+ "'"))
  end.

(** [p.unlink()] *)
Definition unlink (p : path) : M unit :=
  fs ← get_files;
  match fs !! p with
  | Some _ => modify_files (delete p)
  | None => raise (FileNotFoundError ("[Errno 2] No such file or directory: '" +:+ path_str p +:+ "'"))
  end.

(** [shutil.move(src, dst)] of a regular file onto a file path. *)
Definition move (src dst : path) : M unit :=
  fs ← get_files;
  match fs !! src with
  | Some c => modify_files (λ fs, <[dst := c]> (delete src fs))
  | None => raise (FileNotFoundError ("[Errno 2] No such file or directory: '" +:+ path_str src +:+ "'"))
  end.

(** [shutil.copy2(src, dst)], called with two [Path] objects *)
Definition copy2 (src dst : path) : M unit :=
  fs ← get_files;
  match fs !! src with
  | Some c =>
      if bool_decide (src = dst)
      then raise (SameFileError (path_repr src +:+ " and " +:+ path_repr dst
                                 +:+ " are the same file"))
      else modify_files (<[dst := c]>)
  | None => raise (FileNotFoundError ("[Errno 2] No such file or directory: '" +:+ path_str src +:+ "'"))
  end.

(** [shutil.rmtree(d, ignore_errors=True)] *)
Definition rmtree (d : path) : M unit :=
  modify_files (filter (λ kv, inside d kv.1 = false)).

(** [Path(tempfile.mkdtemp(prefix=prefix))]: a directory no earlier call returned. *)
Definition mkdtemp (prefix : string) : M path := λ w,
  (Ok (Path (Temp prefix (next_tmp w)) []),
   World (files w) (S (next_tmp w)) (procs w) (encode_log w)).

End FS.

(** ** External collaborators *)

(** What the operating system reports for one child process. *)
Inductive proc_status :=
| NotFound                                       (* no such executable: [Popen] raises [FileNotFoundError] *)
| SpawnError (msg : string)                      (* [Popen] raises another exception *)
| TimedOut                                       (* [communicate] raises [TimeoutExpired] *)
| Exited (returncode : Z) (stdout stderr : string).

(** A child process that ran may have created or overwritten files. *)
Record proc_result := ProcResult {
status : proc_status;
writes : list (path * content);
}.

(** What Pillow reads off an opened image. *)
Record image_info := ImageInfo {
width : Z;
height : Z;
exif : bool;        (* [img.info.get("exif")] is a non-empty value *)
}.

(** Keyword arguments of [img.save]. *)
Record save_opts := SaveOpts {
format : option string;
quality : option Z;
optimize : bool;
progressive : bool;
subsampling : option Z;
exif_kept : bool;       (* [exif=...] is passed *)
transposed : bool;      (* [ImageOps.exif_transpose] was applied first *)
}.

Record externals := Externals {
(* the operating system running [cmd] on the current files *)
os_exec : list string → gmap path content → proc_result;
(* [Image.open]: the reason it raises, or what the image is *)
pil_open : content → string + image_info;
(* [img.save(out, **kwargs)]: the reason it raises, or the bytes written *)
pil_save : content → save_opts → string + content;
(* [img.resize((w, h), LANCZOS).save(out)] *)
pil_resize_save : content → Z → string + content;
(* mean squared error and PSNR of two decoded images; [None] when the computation raises *)
psnr_pixels : content → content → option (float * float);
(* whether scikit-image and numpy could be imported, and its SSIM *)
have_skimage : bool;
ssim_pixels : content → content → option float;
(* [re.search] for the first decimal number of a tool's output, as a float *)
first_number : string → option float;
}.

(** ** utils/shell.py *)

Module Shell.
Section Shell.
Context (E : externals).

(** A [subprocess.Popen] object. *)
Record process := Process { args : list string; result : proc_result }.

(** [subprocess.Popen(cmd, ...)]; POSIX: the executable is [cmd[0]]. *)
Definition Popen (cmd : list string) : M process := λ w,
  match cmd with
  | [] => (Raise (IndexError "list index out of range"), w)
  | exe :: _ =>
      let r := os_exec E cmd (files w) in
      match status r with
      | NotFound =>
          (Raise (FileNotFoundError ("[Errno 2] No such file or directory: '" +:+ exe +:+ "'")), w)
      | SpawnError msg => (Raise (OSError msg), w)
      | _ => (Ok (Process cmd r),
              World (files w) (next_tmp w) (EvSpawn cmd :: procs w) (encode_log w))
      end
  end.

(** [process.communicate(timeout=timeout)]: the child runs (its writes
    reach the disk) until it exits or the timeout expires. *)
Definition communicate (p : process) (timeout : Z) : M (string * string) :=
  modify_files (λ fs, foldl (λ fs kv, <[kv.1 := kv.2]> fs) fs (writes (result p)));;
  match status (result p) with
  | Exited _ stdout stderr => mret (stdout, stderr)
  | _ => raise (TimeoutExpired ("Command timed out after " +:+ Py.str timeout +:+ " seconds"))
  end.

(** [process.returncode] after [communicate] returned. *)
Definition returncode (p : process) : Z :=
  match status (result p) with
  | Exited rc _ _ => rc
  | _ => 0
  end.

(** [process.kill()] *)
Definition kill (p : process) : M unit := λ w,
  (Ok tt, World (files w) (next_tmp w) (EvKill (args p) :: procs w) (encode_log w)).

(** [cmd[0]] *)
Definition first_arg (cmd : list string) : M string :=
  match cmd with
  | c :: _ => mret c
  | [] => raise (IndexError "list index out of range")
  end.

(** [try: x = m; rest x  except Exception as e: h e], where the handler
    may use [x] if the exception came after it was bound. *)
Definition try_bound {A B} (m : M A) (rest : A → M B) (h : option A → exn → M B) : M B :=
  λ w,
    match m w with
    | (Raise e, w1) => h None e w1
    | (Ok x, w1) =>
        match rest x w1 with
        | (Raise e, w2) => h (Some x) e w2
        | ok => ok
        end
    end.

(** The loop over [expected_outpaths]. *)
Fixpoint check_outpaths (expected : list path) (full_output : string) : M (bool * string) :=
  match expected with
  | [] => mret (true, full_output)
  | p :: rest =>
      ex ← FS.exists_ p;
      missing ← (if negb ex then mret true
                 else sz ← FS.stat_size p; mret (sz =? 0));
      if (missing : bool)
      then mret (false, "Expected output not produced: " +:+ path_str p
                        +:+ ". Cmd output: " +:+ full_output)
      else check_outpaths rest full_output
  end.

(** The three [except] clauses, in order. *)
Definition on_exception (cmd : list string) (timeout : Z)
    (bound : option process) (e : exn) : M (bool * string) :=
  match e with
  | TimeoutExpired _ =>
      match bound with
      | Some process => kill process
      | None => raise (TypeError "local variable 'process' referenced before assignment")
      end;;
      c ← first_arg cmd;
      mret (false, "Command timed out after " +:+ Py.str timeout +:+ "s: " +:+ c)
  | FileNotFoundError _ =>
      c ← first_arg cmd;
      mret (false, "Command not found: " +:+ c +:+ ". Please ensure it's in your PATH.")
  | e => mret (false, "An unexpected error occurred: " +:+ exn_str e)
  end.

(** [run_cmd(cmd, expected_outpaths=None, timeout=60)]; an absent
    [expected_outpaths] is the empty list (both are skipped by
    [if expected_outpaths:]). *)
Definition run_cmd (cmd : list string) (expected_outpaths : list path) (timeout : Z)
    : M (bool * string) :=
  try_bound (Popen cmd)
    (λ process,
      '(stdout, stderr) ← communicate process timeout;
      let returncode := returncode process in
      let full_output := stdout +:+ stderr in
      if negb (returncode =? 0)
      then c ← first_arg cmd;
           mret (false, "Command failed (code " +:+ Py.str returncode +:+ "): " +:+ c
                        +:+ ". Error: " +:+ full_output)
      else check_outpaths expected_outpaths full_output)
    (on_exception cmd timeout).

End Shell.
End Shell.

(** ** Pillow calls *)

Module Pil.
Section Pil.
Context (E : externals).

Record image := Image { pixels : content; info : image_info }.

(** [Image.open(p)] *)
Definition open (p : path) : M image :=
  fs ← get_files;
  match fs !! p with
  | None => raise (FileNotFoundError ("[Errno 2] No such file or directory: '" +:+ path_str p +:+ "'"))
  | Some c =>
      match pil_open E c with
      | inl msg => raise (OSError msg)
      | inr i => mret (Image c i)
      end
  end.

(** [img.save(out, **kwargs)] *)
Definition save (img : image) (out : path) (kwargs : save_opts) : M unit :=
  match pil_save E (pixels img) kwargs with
  | inl msg => raise (OSError msg)
  | inr c => modify_files (<[out := c]>)
  end.

(** [img.resize((max_width, new_h), LANCZOS).save(out)] *)
Definition resize_save (img : image) (max_width : Z) (out : path) : M unit :=
  match pil_resize_save E (pixels img) max_width with
  | inl msg => raise (OSError msg)
  | inr c => modify_files (<[out := c]>)
  end.

End Pil.
End Pil.

(** ** utils/metrics.py *)

Module Metrics.
Section Metrics.
Context (E : externals).

(** [compute_mse_psnr(orig_path, comp_path)]: both branches (with and
    without numpy) open the two images, compute, and fall back to
    [(None, 0.0)] on any exception. *)
Definition compute_mse_psnr (orig_path comp_path : path) : M (option float * float) :=
  try_except
    (o ← Pil.open E orig_path;
     c ← Pil.open E comp_path;
     match psnr_pixels E (Pil.pixels o) (Pil.pixels c) with
     | Some (mse, psnr) => mret (Some mse, psnr)
     | None => raise (OSError "PSNR compute failed")
     end)
    (λ _, mret (None, 0%float)).

(** [compute_ssim_skimage(orig_path, comp_path)] *)
Definition compute_ssim_skimage (orig_path comp_path : path) : M (option float) :=
  if negb (have_skimage E) then mret None
  else
    try_except
      (o ← Pil.open E orig_path;
       c ← Pil.open E comp_path;
       match ssim_pixels E (Pil.pixels o) (Pil.pixels c) with
       | Some score => mret (Some score)
       | None => raise (OSError "SSIM compute failed")
       end)
      (λ _, mret None).

(** [run_butteraugli(orig_path, comp_path, butter_bin)] *)
Definition run_butteraugli (orig_path comp_path : path) (butter_bin : option string)
    : M (option float) :=
  match butter_bin with
  | Some bin =>
      if negb (Py.truthy_str butter_bin) then mret None
      else
        try_except
          ('(ok, out) ← Shell.run_cmd E [bin; path_str orig_path; path_str comp_path] [] 30;
           if negb ok then mret None
           else mret (first_number E out))
          (λ _, mret None)
  | None => mret None
  end.

End Metrics.
End Metrics.

(** ** utils/image_ops.py *)

Module ImageOps.
Section ImageOps.
Context (E : externals).

(** A string used where a path is expected. *)
Definition as_path (s : string) : path := Path (Given s) [].

(** [smart_resize_width_only(in_path, out_path, max_width=3000)]; on an
    exception the second component is the message, which the caller goes
    on to use as a path. *)
Definition smart_resize_width_only (in_path out_path : path) (max_width : Z)
    : M (bool * path) :=
  try_except
    (img ← Pil.open E in_path;
     if max_width <? width (Pil.info img)
     then Pil.resize_save E img max_width out_path;; mret (true, out_path)
     else FS.copy2 in_path out_path;; mret (false, out_path))
    (λ e, mret (false, as_path (exn_str e))).

End ImageOps.
End ImageOps.

(** ** The [while lo <= hi] loop of both quality searches *)

Module Search.

(** One iteration computes [mid = (lo + hi) // 2] and probes it.  The probe
    yields the record to remember when the candidate passes; the loop then
    sets [best] and [hi = mid - 1].  When the encoder fails ([continue]) or
    the candidate does not pass, the loop sets [lo = mid + 1].  The range
    shrinks on every iteration, so [hi + 1 - lo] iterations always suffice
    ([bisect_unfold] below is the loop's own equation). *)
Fixpoint bisect_loop {B} (n : nat) (probe : Z → M (option B)) (lo hi : Z) (best : option B)
    : M (option B) :=
  match n with
  | O => mret best
  | S n' =>
      if lo <=? hi then
        let mid := (lo + hi) `div` 2 in
        r ← probe mid;
        match r with
        | Some b => bisect_loop n' probe lo (mid - 1) (Some b)
        | None => bisect_loop n' probe (mid + 1) hi best
        end
      else mret best
  end.

Definition bisect {B} (probe : Z → M (option B)) (lo hi : Z) (best : option B)
    : M (option B) :=
  bisect_loop (Z.to_nat (hi + 1 - lo)) probe lo hi best.

(** The search is about to call its encoder at quality [q]. *)
Definition log_encode (q : Z) : M unit := λ w,
  (Ok tt, World (files w) (next_tmp w) (procs w) (q :: encode_log w)).

End Search.

(** ** [concurrent.futures] *)

Module Pool.

(** [executor.submit(job)]: the job runs to its end, and the future holds
    what it returned or the exception it raised. *)
Definition submit {A} (job : M A) : M (outcome A) := λ w,
  match job w with (r, w') => (Ok r, w') end.

(** [fut.result()] *)
Definition future_result {A} (fut : outcome A) : M A :=
  match fut with Ok r => mret r | Raise e => raise e end.

(** [as_completed(futures)]: the futures in the order in which they
    completed.  That order is not the program's to choose: [completed]
    lists the positions of the futures in it, and is a permutation of
    [0 .. len(futures) - 1]. *)
Definition as_completed {A} (completed : list nat) (futures : list A) : list A :=
  omap (λ i, futures !! i) completed.

End Pool.

(** ** mods/hybrid_perceptual.py *)

Module Hybrid.

Inductive mode := Jpeg | Best.

Global Instance mode_eq_dec : EqDecision mode.
Proof. solve_decision. Defined.

(** The [argparse] namespace of the [hybrid-perceptual] sub-command. *)
Record args := Args {
  mode_of : mode;
  min_q : Z;
  max_q : Z;
  target_psnr : float;
  use_ssim : bool;
  target_ssim : float;
  target_butter : float;
  keep_exif : bool;
}.

(** [bins]: what [which_bin] found for each tool. *)
Record bins := Bins {
  cjpeg : option string;
  cwebp : option string;
  avifenc : option string;
  butter : option string;
}.

(** The metrics map [{"psnr": ..., "ssim": ..., "butter": ...}]. *)
Record metrics := Metrics {
  m_psnr : option float;
  m_ssim : option float;
  m_butter : option float;
}.

(** [best = {"q": mid, "path": cand, "metrics": m}] *)
Record best := BestOf { best_q : Z; best_path : path; best_metrics : metrics }.

(** [{"success": True, "q": ..., "path": ..., "metrics": ...}] or [{"success": False}] *)
Inductive search_result :=
| Success (q : Z) (p : path) (m : metrics)
| Failure.

Definition success (r : search_result) : bool :=
  match r with Success _ _ _ => true | Failure => false end.

(** [{"fmt": ..., "bytes": ..., "path": ..., "q": ...}] *)
Record candidate := Candidate {
  fmt : string;
  bytes : Z;
  cand_path : path;
  cand_q : Z;
}.

(** The result dictionary [res]; a key that is not set is [None]. *)
Record job_result := JobResult {
  file : string;
  original_bytes : Z;
  method : string;
  final_bytes : option Z;
  error : option string;
}.

(** The second component of an encoder's [(ok, note)] pair. *)
Definition note := option string.

(** Lines 66-72: which threshold decides. *)
Definition threshold_passes (a : args) (m : metrics) : bool :=
  match Py.truthy (target_butter a), m_butter m, use_ssim a, m_ssim m with
  | true, Some b, _, _ => Py.le b (target_butter a)
  | _, _, true, Some s => Py.ge s (target_ssim a)
  | _, _, _, _ => Py.ge (Py.or_zero (m_psnr m)) (target_psnr a)
  end.

(** The body of the [while] loop of [binary_search_quality] at [mid]. *)
Definition try_quality
    (make_cand_fn : Z → path → M (bool * note))
    (metrics_fn : path → path → option string → M metrics)
    (orig : path) (a : args) (butter_bin : option string) (tmpdir : path) (mid : Z)
    : M (option best) :=
  let cand := tmpdir // ("q" +:+ Py.str mid +:+ ".tmp") in
  Search.log_encode mid;;
  '(ok, _) ← make_cand_fn mid cand;
  if negb ok then mret None
  else
    m ← metrics_fn orig cand butter_bin;
    if threshold_passes a m
    then mret (Some (BestOf mid cand m))
    else mret None.

(** [binary_search_quality(make_cand_fn, metrics_fn, orig, lo, hi, args, butter_bin)] *)
Definition binary_search_quality
    (make_cand_fn : Z → path → M (bool * note))
    (metrics_fn : path → path → option string → M metrics)
    (orig : path) (lo hi : Z) (a : args) (butter_bin : option string)
    : M search_result :=
  tmpdir ← FS.mkdtemp "search_";
  try_finally
    (best ← Search.bisect
       (try_quality make_cand_fn metrics_fn orig a butter_bin tmpdir) lo hi None;
     match best with
     | Some b =>
         let dest := tmpdir // ("best_q" +:+ Py.str (best_q b) +:+ ".bin") in
         FS.move (best_path b) dest;;
         mret (Success (best_q b) dest (best_metrics b))
     | None => mret Failure
     end)
    (mret tt).   (* finally: pass *)

Section Hybrid.
Context (E : externals).

Definition with_note (m : M (bool * string)) : M (bool * note) :=
  '(ok, msg) ← m; mret (ok, Some msg).

Definition mozjpeg_save (in_path out_path : path) (cjpeg_bin : string) (q : Z)
    : M (bool * note) :=
  let cmd := [cjpeg_bin; "-quality"; Py.str q; "-optimize"; "-progressive";
              "-sample"; "1x1"; "-outfile"; path_str out_path; path_str in_path] in
  with_note (Shell.run_cmd E cmd [out_path] 60).

Definition pillow_save_jpeg (in_path out_path : path) (q : Z) (keep_exif : bool)
    : M (bool * note) :=
  try_except
    (img ← Pil.open E in_path;
     let kwargs := SaveOpts (Some "JPEG") (Some q) true true (Some 0)
                     (keep_exif && exif (Pil.info img)) false in
     Pil.save E img out_path kwargs;;
     mret (true, None))
    (λ e, mret (false, Some (exn_str e))).

Definition cwebp_save (in_path out_path : path) (cwebp_bin : string) (q : Z)
    : M (bool * note) :=
  let cmd := [cwebp_bin; "-q"; Py.str q; path_str in_path; "-o"; path_str out_path] in
  with_note (Shell.run_cmd E cmd [out_path] 60).

Definition pillow_save_webp (in_path out_path : path) (q : Z) : M (bool * note) :=
  try_except
    (img ← Pil.open E in_path;
     Pil.save E img out_path (SaveOpts (Some "WEBP") (Some q) false false None false false);;
     mret (true, None))
    (λ _, mret (false, Some "Pillow fail")).

(** [cq = max(0, min(63, int(q * 63 / 100)))]: [int] truncates toward zero. *)
Definition avifenc_save (in_path out_path : path) (avif_bin : string) (q : Z)
    : M (bool * note) :=
  let cq := Z.max 0 (Z.min 63 (Z.quot (q * 63) 100)) in
  let cmd := [avif_bin; "--min"; Py.str cq; "--max"; Py.str cq;
              path_str in_path; path_str out_path] in
  with_note (Shell.run_cmd E cmd [out_path] 60).

(** The closure [metrics_fn] of [process_file]. *)
Definition metrics_fn (orig cand : path) (butter : option string) : M metrics :=
  '(mse, psnr) ← Metrics.compute_mse_psnr E orig cand;
  s ← Metrics.compute_ssim_skimage E orig cand;
  b ← (if Py.truthy_str butter then Metrics.run_butteraugli E orig cand butter
       else mret None);
  mret (Metrics (Some psnr) s b).

(** The closures [make_jpeg], [make_webp] and [make_avif] of
    [process_file], with the variables they capture as arguments. *)
Definition make_jpeg (work_in : path) (a : args) (b : bins) (q : Z) (p : path)
    : M (bool * note) :=
  if Py.truthy_str (cjpeg b)
  then mozjpeg_save work_in p (default "" (cjpeg b)) q
  else pillow_save_jpeg work_in p q (keep_exif a).

Definition make_webp (work_in : path) (b : bins) (q : Z) (p : path) : M (bool * note) :=
  if Py.truthy_str (cwebp b)
  then cwebp_save work_in p (default "" (cwebp b)) q
  else pillow_save_webp work_in p q.

Definition make_avif (work_in : path) (b : bins) (q : Z) (p : path) : M (bool * note) :=
  avifenc_save work_in p (default "" (avifenc b)) q.

(** [if r["success"]: candidates.append({...})] *)
Definition appended (format : string) (r : search_result) : M (list candidate) :=
  match r with
  | Success q p _ => size ← FS.stat_size p; mret [Candidate format size p q]
  | Failure => mret []
  end.

(** Lines 104-130: the searches, in the order JPEG, WebP, AVIF. *)
Definition collect_candidates (work_in : path) (a : args) (b : bins)
    : M (list candidate) :=
  jpg ← (if bool_decide (mode_of a = Jpeg ∨ mode_of a = Best) then
           r ← binary_search_quality (make_jpeg work_in a b) metrics_fn work_in
                 (min_q a) (max_q a) a (butter b);
           appended "jpg" r
         else mret []);
  webp ← (if bool_decide (mode_of a = Best) then
            r ← binary_search_quality (make_webp work_in b) metrics_fn work_in
                  10 100 a (butter b);
            appended "webp" r
          else mret []);
  avif ← (if bool_decide (mode_of a = Best) && Py.truthy_str (avifenc b) then
            r ← binary_search_quality (make_avif work_in b) metrics_fn work_in
                  10 90 a (butter b);
            appended "avif" r
          else mret []);
  mret ((jpg ++ webp ++ avif)%list).

(** Lines 132-140: keep the smallest candidate, or fall back to the original. *)
Definition select_output (in_path out_dir : path) (res : job_result)
    (candidates : list candidate) : M job_result :=
  match candidates with
  | c :: cs =>
      let best := Py.min_by bytes c cs in
      let out_path := out_dir // (path_stem in_path +:+ "." +:+ fmt best) in
      FS.move (cand_path best) out_path;;
      mret (JobResult (file res) (original_bytes res)
              (fmt best +:+ " (q=" +:+ Py.str (cand_q best) +:+ ")")
              (Some (bytes best)) (error res))
  | [] =>
      FS.copy2 in_path (out_dir // path_name in_path);;
      mret (JobResult (file res) (original_bytes res) (method res) (final_bytes res)
              (Some "No candidates met criteria"))
  end.

(** [process_file(in_file, out_dir, args, bins)].  [res] is only assigned
    to after the last statement of the [try] block that can raise, so the
    handler sees it as it was created. *)
Definition process_file (in_path out_dir : path) (a : args) (b : bins) : M job_result :=
  size ← FS.stat_size in_path;
  let res := JobResult (path_str in_path) size "none" None None in
  workdir ← FS.mkdtemp "work_";
  try_finally
    (try_except
       ('(resized, work_in) ←
          ImageOps.smart_resize_width_only E in_path (workdir // path_name in_path) 3000;
        candidates ← collect_candidates work_in a b;
        select_output in_path out_dir res candidates)
       (λ e, mret (JobResult (file res) (original_bytes res) (method res) (final_bytes res)
                     (Some (exn_str e)))))
    (FS.rmtree workdir).

(** The worker pool of [run]: every file found by the glob is submitted and
    runs to the end; then [results.append(fut.result())] for each future of
    [as_completed(futures)].  The first [fut.result()] that raises ends the
    loop; leaving the [with] block waits for the jobs that are left. *)
Definition run (completed : list nat) (files : list path) (out_dir : path)
    (a : args) (b : bins) : M (list job_result) :=
  futures ← mapM (λ f, Pool.submit (process_file f out_dir a b)) files;
  mapM Pool.future_result (Pool.as_completed completed futures).

End Hybrid.
End Hybrid.


(** ** mods/jpeg_binary_search.py *)

Module JpegSearch.

(** [best = {"q": ..., "path": ..., "psnr": ..., "ssim": ..., "bytes": ...}] *)
Record best := BestOf {
  best_q : Z;
  best_path : path;
  best_psnr : float;
  best_ssim : option float;
  best_bytes : Z;
}.

(** [{"success": True, **best}] or [{"success": False, "reason": ...}] *)
Inductive search_result :=
| Success (b : best)
| Failure (reason : string).

Definition success (r : search_result) : bool :=
  match r with Success _ => true | Failure _ => false end.

(** The pass test of [find_best_jpeg]; [psnr_val] is always a float, as
    [compute_mse_psnr] never returns [None] in its second component. *)
Definition threshold_passes (use_ssim : bool) (target_psnr target_ssim : float)
    (psnr_val : float) (ssim_val : option float) : bool :=
  match use_ssim, ssim_val with
  | true, Some s => Py.ge s target_ssim
  | _, _ => Py.ge psnr_val target_psnr
  end.

Section JpegSearch.
Context (E : externals).

(** [save_jpeg_pillow(in_path, out_path, q, subsampling=0, progressive=True,
    optimize=True, keep_exif=False)] *)
Definition save_jpeg_pillow (in_path out_path : path) (q : Z) (subsampling : option Z)
    (progressive optimize keep_exif : bool) : M (bool * option string) :=
  try_except
    (img ← Pil.open E in_path;
     let exif_bytes := exif (Pil.info img) in
     let save_kwargs := SaveOpts (Some "JPEG") (Some q) optimize progressive subsampling
                          (keep_exif && exif_bytes) true in
     Pil.save E img out_path save_kwargs;;
     mret (true, None))
    (λ e, mret (false, Some (exn_str e))).

(** The body of the [while] loop of [find_best_jpeg] at [mid]. *)
Definition try_quality (in_work_path orig_path tmp_dir : path)
    (target_psnr target_ssim : float) (use_ssim : bool) (mid : Z) : M (option best) :=
  let cand_path := tmp_dir // ("cand_q" +:+ Py.str mid +:+ ".jpg") in
  Search.log_encode mid;;
  '(ok, _) ← save_jpeg_pillow in_work_path cand_path mid (Some 0) true true false;
  if negb ok then mret None
  else
    '(mse, psnr_val) ← Metrics.compute_mse_psnr E orig_path cand_path;
    ssim_val ← (if use_ssim then Metrics.compute_ssim_skimage E orig_path cand_path
                else mret None);
    if threshold_passes use_ssim target_psnr target_ssim psnr_val ssim_val
    then size ← FS.stat_size cand_path;
         mret (Some (BestOf mid cand_path psnr_val ssim_val size))
    else mret None.

(** [find_best_jpeg(in_work_path, orig_path, tmp_dir, min_q, max_q,
    target_psnr, target_ssim, use_ssim)] *)
Definition find_best_jpeg (in_work_path orig_path tmp_dir : path) (min_q max_q : Z)
    (target_psnr target_ssim : float) (use_ssim : bool) : M search_result :=
  best ← Search.bisect
    (try_quality in_work_path orig_path tmp_dir target_psnr target_ssim use_ssim)
    min_q max_q None;
  match best with
  | Some b => mret (Success b)
  | None => mret (Failure "no q met thresholds")
  end.

End JpegSearch.
End JpegSearch.

(** ** mods/perceptual.py *)

Module Perceptual.

Record args := Args {
  resize : option Z;
  quality : Z;
  quality_avif : Z;
  ssim : float;
  webp : bool;
  avif : bool;
}.

Record bins := Bins {
  cjpeg : option string;
  cwebp : option string;
  avifenc : option string;
}.

(** What an encoding step returns: [(True, method, size)] or [(False, note, None)]. *)
Inductive attempt :=
| Done (method : string) (size : Z)
| Failed (note : string).

(** [{"method": ..., "file": ..., "size": ...}] *)
Record candidate := Candidate {
  method : string;
  cand_file : path;
  size : Z;
}.

(** The result dictionary; a key that is not set is [None].  The two
    sizes are in KB, as [to_kb] gives them. *)
Record job_result := JobResult {
  file : string;
  original_size : option float;
  final_size : option float;
  method_used : option string;
  output_file : option string;
  error : option string;
}.

Section Perceptual.
(** The encoding steps [resize_image], [optimize_jpeg_advanced],
    [convert_to_webp] and [convert_to_avif] are taken as they come: any
    function of the files that returns an [(ok, ...)] tuple or raises. *)
Context (resize_image : path → path → Z → M (bool * string)).
Context (optimize_jpeg_advanced : path → path → string → float → M attempt).
Context (convert_to_webp : path → path → string → Z → float → M attempt).
Context (convert_to_avif : path → path → string → Z → float → M attempt).

(** [if ok: candidates.append({...})] *)
Definition appended (r : attempt) (out : path) : list candidate :=
  match r with
  | Done method size => [Candidate method out size]
  | Failed _ => []
  end.

(** [if p.exists(): p.unlink()] *)
Definition unlink_if_exists (p : path) : M unit :=
  ex ← FS.exists_ p; if (ex : bool) then FS.unlink p else mret tt.

(** Lines 115-133 of [process_file]: report failure when no step produced a
    candidate; otherwise promote the smallest one and clean up. *)
Definition finish (in_path out_dir temp_resized_file : path) (orig_size : Z)
    (candidates : list candidate) : M job_result :=
  match candidates with
  | [] =>
      unlink_if_exists temp_resized_file;;
      mret (JobResult (path_str in_path) (Some (Py.to_kb orig_size))
              (Some (Py.to_kb orig_size)) (Some "none") None
              (Some "No compression method was successful or met quality threshold."))
  | c :: cs =>
      let best_candidate := Py.min_by size c cs in
      let final_out_path := out_dir // path_name (cand_file best_candidate) in
      FS.move (cand_file best_candidate) final_out_path;;
      mapM (λ cand, unlink_if_exists (cand_file cand)) (c :: cs);;
      unlink_if_exists temp_resized_file;;
      mret (JobResult (path_str in_path) (Some (Py.to_kb orig_size))
              (Some (Py.to_kb (size best_candidate)))
              (Some (method best_candidate)) (Some (path_name final_out_path)) None)
  end.

(** Lines 99-114 of [process_file]: the encoding steps, in the order JPEG,
    WebP, AVIF. *)
Definition collect_candidates (source_file_for_compression temp_dir : path)
    (base_name : string) (a : args) (b : bins) : M (list candidate) :=
  jpeg ← (if Py.truthy_str (cjpeg b) then
            let jpeg_out := temp_dir // (base_name +:+ "_optim.jpg") in
            r ← optimize_jpeg_advanced source_file_for_compression jpeg_out
                  (default "" (cjpeg b)) (ssim a);
            mret (appended r jpeg_out)
          else mret []);
  webp ← (if webp a && Py.truthy_str (cwebp b) then
            let webp_out := temp_dir // (base_name +:+ ".webp") in
            r ← convert_to_webp source_file_for_compression webp_out
                  (default "" (cwebp b)) (quality a) (ssim a);
            mret (appended r webp_out)
          else mret []);
  avif ← (if avif a && Py.truthy_str (avifenc b) then
            let avif_out := temp_dir // (base_name +:+ ".avif") in
            r ← convert_to_avif source_file_for_compression avif_out
                  (default "" (avifenc b)) (quality_avif a) (ssim a);
            mret (appended r avif_out)
          else mret []);
  mret (jpeg ++ webp ++ avif).

(** [process_file(in_path, out_dir, args, bins)] *)
Definition process_file (in_path out_dir : path) (a : args) (b : bins) : M job_result :=
  let base_name := path_stem in_path in
  orig_size ← FS.stat_size in_path;
  let temp_dir := out_dir // "temp" in
  let temp_resized_file := temp_dir // (base_name +:+ Py.suffix (path_name in_path)) in
  resized ← (match resize a with
             | Some max_dim =>
                 if max_dim =? 0 then mret (inr in_path)
                 else
                   '(ok, note) ← resize_image in_path temp_resized_file max_dim;
                   if negb ok then mret (inl note) else mret (inr temp_resized_file)
             | None => mret (inr in_path)
             end);
  match resized with
  | inl note =>
      mret (JobResult (path_str in_path) None None None None
              (Some ("Resize failed: " +:+ note)))
  | inr source_file_for_compression =>
      candidates ← collect_candidates source_file_for_compression temp_dir base_name a b;
      finish in_path out_dir temp_resized_file orig_size candidates
  end.

(** The worker pool of [run]: every file is submitted and runs to the end;
    then, for each future of [as_completed(futures)],
    [try: results.append(fut.result()) except Exception: Log.error(...)]. *)
Definition run (completed : list nat) (files : list path) (out_dir : path)
    (a : args) (b : bins) : M (list job_result) :=
  futures ← mapM (λ f, Pool.submit (process_file f out_dir a b)) files;
  mret (omap (λ fut, match fut with Ok r => Some r | Raise _ => None end)
          (Pool.as_completed completed futures)).

End Perceptual.
End Perceptual.


(** ** mods/lossless.py *)

Module Lossless.

Record args := Args {
  target_kb : option Z;
  allow_lossy : bool;
  lossy_quality : option Z;
  oxipng_level : Z;
  zopfli_iter : Z;
}.

Record bins := Bins {
  oxipng : option string;
  zopflipng : option string;
  cwebp : option string;
}.

(** A tuple [(method, file, ok, note)] of [candidates]. *)
Record candidate := Candidate {
  method : string;
  cand_file : path;
  ok : bool;
  note : option string;
}.

(** [best = {"method": ..., "file": ..., "final_size": ..., "note": ...}] *)
Record best := BestOf {
  best_method : string;
  best_file : path;
  best_size : Z;
  best_note : option string;
}.

(** The result dictionary; a key that is not set is [None].  The two
    sizes are in KB, as [to_kb] gives them. *)
Record job_result := JobResult {
  file : string;
  original_size : float;
  final_size : float;
  method_used : string;
  note_of : option (option string);
  error : option string;
}.

(** [bool(n)] where [n] is [None] or an integer. *)
Definition truthy_int (n : option Z) : bool :=
  match n with Some k => negb (k =? 0) | None => false end.

Section Lossless.
(** The optimizers are taken as they come: any function of the files that
    returns [(ok, note)] (for [compress_to_webp_target]: the method and the
    final size) or raises. *)
Context (optimize_with_pillow : path → path → M (bool * option string)).
Context (optimize_with_oxipng : path → path → string → Z → M (bool * option string)).
Context (optimize_with_zopflipng : path → path → string → Z → M (bool * option string)).
Context (convert_to_webp : path → path → string → bool → Z → M (bool * option string)).
Context (files_identical : path → path → M bool).
Context (compress_to_webp_target : path → path → string → Z → M (option (string * Z))).

(** [if ok: candidates.append((method, out, True, note))] *)
Definition appended (method : string) (out : path) (r : bool * option string)
    : list candidate :=
  if r.1 then [Candidate method out true r.2] else [].

(** The loop that picks [best] among [candidates]. *)
Fixpoint pick (a : args) (candidates : list candidate) (best_so_far : option best)
    : M (option best) :=
  match candidates with
  | [] => mret best_so_far
  | c :: rest =>
      ex ← FS.exists_ (cand_file c);
      if negb (ok c) || negb ex then pick a rest best_so_far
      else
        size ← FS.stat_size (cand_file c);
        if truthy_int (target_kb a) && (default 0 (target_kb a) * 1024 <? size)
        then pick a rest best_so_far
        else
          match best_so_far with
          | Some b =>
              if size <? best_size b
              then pick a rest (Some (BestOf (method c) (cand_file c) size (note c)))
              else pick a rest best_so_far
          | None => pick a rest (Some (BestOf (method c) (cand_file c) size (note c)))
          end
  end.

(** The end of [process_file], from [if not best:] on: report failure, or
    move the chosen file to [out_dir / in_path.name] and delete the others. *)
Definition finish (in_path out_dir : path) (orig_size : Z)
    (candidates : list candidate) (chosen : option best) : M job_result :=
  match chosen with
  | None =>
      mapM (λ c, ex ← FS.exists_ (cand_file c);
                 if (ex : bool) then FS.unlink (cand_file c) else mret tt) candidates;;
      mret (JobResult (path_str in_path) (Py.to_kb orig_size) (Py.to_kb orig_size) "none" None
              (Some "No valid compression met criteria"))
  | Some bst =>
      let final_out := out_dir // path_name in_path in
      FS.move (best_file bst) final_out;;
      mapM (λ c, ex ← FS.exists_ (cand_file c);
                 if (ex : bool) && bool_decide (cand_file c ≠ final_out)
                 then FS.unlink (cand_file c) else mret tt) candidates;;
      mret (JobResult (path_str in_path) (Py.to_kb orig_size) (Py.to_kb (best_size bst))
              (best_method bst) (Some (best_note bst)) None)
  end.

(** [process_file(in_path, out_dir, args, bins)] *)
Definition process_file (in_path out_dir : path) (a : args) (b : bins) : M job_result :=
  let base_name := path_stem in_path in
  orig_size ← FS.stat_size in_path;
  let pillow_out := out_dir // (base_name +:+ "_pillow.png") in
  r ← optimize_with_pillow in_path pillow_out;
  let c1 := appended "pillow" pillow_out r in
  c2 ← (if Py.truthy_str (oxipng b) then
          let oxi_out := out_dir // (base_name +:+ "_oxipng.png") in
          r ← optimize_with_oxipng in_path oxi_out (default "" (oxipng b)) (oxipng_level a);
          mret (appended "oxipng" oxi_out r)
        else mret []);
  c3 ← (if Py.truthy_str (zopflipng b) then
          let zop_out := out_dir // (base_name +:+ "_zopfli.png") in
          r ← optimize_with_zopflipng in_path zop_out (default "" (zopflipng b)) (zopfli_iter a);
          mret (appended "zopfli" zop_out r)
        else mret []);
  c4 ← (if Py.truthy_str (cwebp b) then
          let webp_out := out_dir // (base_name +:+ "_lossless.webp") in
          '(ok, note) ← convert_to_webp in_path webp_out (default "" (cwebp b)) true 100;
          same ← (if (ok : bool) then files_identical in_path webp_out else mret false);
          mret (appended "webp_lossless" webp_out (same, note))
        else mret []);
  c5 ← (if allow_lossy a && truthy_int (lossy_quality a) && Py.truthy_str (cwebp b) then
          let lossy_out := out_dir // (base_name +:+ "_lossy.webp") in
          let lq := default 0 (lossy_quality a) in
          r ← convert_to_webp in_path lossy_out (default "" (cwebp b)) false lq;
          mret (appended ("webp_q" +:+ Py.str lq) lossy_out r)
        else mret []);
  let candidates := (c1 ++ c2 ++ c3 ++ c4 ++ c5)%list in
  picked ← pick a candidates None;
  chosen ← (match picked with
            | None =>
                if truthy_int (target_kb a) && Py.truthy_str (cwebp b) then
                  let forced_out := out_dir // (base_name +:+ ".webp") in
                  r ← compress_to_webp_target in_path forced_out (default "" (cwebp b))
                        (default 0 (target_kb a));
                  match r with
                  | Some (method, final_size) =>
                      mret (Some (BestOf method forced_out final_size (Some "forced lossy")))
                  | None => mret None
                  end
                else mret None
            | Some bst => mret (Some bst)
            end);
  finish in_path out_dir orig_size candidates chosen.

End Lossless.
End Lossless.


(** * The rest of the four modes

    The functions of the same files that the searches and the selection
    call, or are called from: [which_bin], the remaining metric and resize
    helpers, the encoders of [perceptual] and [lossless], the job of
    [jpeg_binary_search], and the rows of the CSV report. *)

(** ** Library calls not needed so far *)

Record library := Library {
(* [shutil.which(name)] *)
shutil_which : string → option string;
(* [img.mode] of an image that opened *)
pil_mode : content → string;
(* [ImageChops.difference(i1, i2).getbbox()] is a box (not [None]); or the
   reason the computation raises *)
difference_bbox : content → content → string + bool;
(* [ImageOps.exif_transpose(img).size], or the reason it raises *)
transposed_size : content → string + Z * Z;
(* [exif_transpose(img).resize(...).save(out)]: the long side, which is the
   width when the flag is set, becomes the given number of pixels *)
pil_transpose_resize_save : content → bool → Z → string + content;
(* [img.thumbnail((d, d), LANCZOS); img.save(out)] *)
pil_thumbnail_save : content → Z → string + content;
(* OpenCV could be imported *)
have_cv2 : bool;
(* [cv2.imread] gives an array (not [None]) *)
cv2_imread : content → bool;
(* the grey-scale SSIM that [compute_ssim_cv2] computes from two arrays;
   [None] when a step of it raises *)
cv2_ssim : content → content → option float;
(* [f"{x:.3f}"] *)
format_3f : float → string;
}.

(** ** utils/shell.py: [which_bin] *)

Module Bins.
Section Bins.
Context (L : library).

(** [which_bin(names)] *)
Fixpoint which_bin (names : list string) : option string :=
  match names with
  | [] => None
  | n :: rest =>
      let p := shutil_which L n in
      if Py.truthy_str p then p else which_bin rest
  end.

(** The [bins] dictionaries that [run] builds in [hybrid_perceptual],
    [perceptual] and [lossless]. *)
Definition hybrid_bins (use_butter : bool) : Hybrid.bins :=
  Hybrid.Bins (which_bin ["cjpeg"; "mozjpeg"]) (which_bin ["cwebp"]) (which_bin ["avifenc"])
    (if use_butter then which_bin ["butteraugli"; "butteraugli.exe"] else None).

Definition perceptual_bins : Perceptual.bins :=
  Perceptual.Bins (which_bin ["cjpeg"; "mozjpeg"]) (which_bin ["cwebp"])
    (which_bin ["avifenc"]).

Definition lossless_bins : Lossless.bins :=
  Lossless.Bins (which_bin ["oxipng"]) (which_bin ["zopflipng"]) (which_bin ["cwebp"]).

End Bins.
End Bins.

(** ** utils/metrics.py: [files_identical], [compute_ssim_cv2], the SSIM windows *)

Module PixelMetrics.

(** Lines 84-91 of [compute_ssim_skimage]: [None] where the function
    returns 1.0 without computing anything, else the window handed to
    scikit-image. *)
Definition skimage_window (h w : Z) : option Z :=
  let min_dim := Z.min h w in
  if min_dim <? 7 then None
  else
    let desired_win := 7 in
    let win := Z.min desired_win (if min_dim `mod` 2 =? 1 then min_dim else min_dim - 1) in
    Some (if win <? 3 then 3 else win).

(** Lines 121-123 of [compute_ssim_cv2]: the window for a grey image of
    shape [(h, w)]. *)
Definition cv2_window (h w : Z) : Z :=
  let win_size := Z.min 7 (Z.min h w `div` 2) in
  let win_size := if win_size `mod` 2 =? 0 then win_size - 1 else win_size in
  if win_size <? 3 then 3 else win_size.

Section PixelMetrics.
Context (E : externals) (L : library).

(** [files_identical(f1, f2)] *)
Definition files_identical (f1 f2 : path) : M bool :=
  try_except
    (i1 ← Pil.open E f1;
     i2 ← Pil.open E f2;
     if negb (String.eqb (pil_mode L (Pil.pixels i1)) (pil_mode L (Pil.pixels i2)))
        || negb ((width (Pil.info i1) =? width (Pil.info i2))
                 && (height (Pil.info i1) =? height (Pil.info i2)))
     then mret false
     else
       match difference_bbox L (Pil.pixels i1) (Pil.pixels i2) with
       | inl msg => raise (OSError msg)
       | inr box => mret (negb box)
       end)
    (λ _, mret false).

(** [cv2.imread(str(p))]: [None] for a file that is missing or does not
    decode; it does not raise. *)
Definition imread (fs : gmap path content) (p : path) : option content :=
  match fs !! p with
  | Some c => if cv2_imread L c then Some c else None
  | None => None
  end.

(** [compute_ssim_cv2(original_path, compressed_path)] *)
Definition compute_ssim_cv2 (original_path compressed_path : path) : M (option float) :=
  if negb (have_cv2 L) then mret None
  else
    try_except
      (fs ← get_files;
       match imread fs original_path, imread fs compressed_path with
       | Some original, Some compressed =>
           match cv2_ssim L original compressed with
           | Some score => mret (Some score)
           | None => raise (OSError "SSIM compute failed")
           end
       | _, _ => mret (Some 0%float)
       end)
      (λ _, mret (Some 0%float)).

End PixelMetrics.
End PixelMetrics.

(** ** utils/image_ops.py: the other two resize helpers *)

Module Resize.
Section Resize.
Context (E : externals) (L : library).

(** [resize_max_dimension(in_file, out_file, max_dim)] *)
Definition resize_max_dimension (in_file out_file : path) (max_dim : Z) : M (bool * string) :=
  try_except
    (img ← Pil.open E in_file;
     if max_dim <? Z.max (width (Pil.info img)) (height (Pil.info img))
     then
       match pil_thumbnail_save L (Pil.pixels img) max_dim with
       | inl msg => raise (OSError msg)
       | inr c => modify_files (<[out_file := c]>)
       end;;
       mret (true, "Resized")
     else FS.copy2 in_file out_file;; mret (true, "No resize needed"))
    (λ e, mret (false, exn_str e)).

(** [resize_orientation_aware_r2(in_path, out_path, max_side=3000)]; as in
    [smart_resize_width_only], the second component is the message when an
    exception was caught. *)
Definition resize_orientation_aware_r2 (in_path out_path : path) (max_side : Z)
    : M (bool * path) :=
  try_except
    (img ← Pil.open E in_path;
     match transposed_size L (Pil.pixels img) with
     | inl msg => raise (OSError msg)
     | inr (w, h) =>
         let landscape := h <=? w in
         if (if landscape then max_side <? w else max_side <? h)
         then
           match pil_transpose_resize_save L (Pil.pixels img) landscape max_side with
           | inl msg => raise (OSError msg)
           | inr c => modify_files (<[out_path := c]>)
           end;;
           mret (true, out_path)
         else FS.copy2 in_path out_path;; mret (false, out_path)
     end)
    (λ e, mret (false, ImageOps.as_path (exn_str e))).

End Resize.
End Resize.

(** ** [range] with a negative step *)

Module Range.

Fixpoint down_from (n : nat) (q stop step : Z) : list Z :=
  match n with
  | O => []
  | S n' => if stop <? q then q :: down_from n' (q - step) stop step else []
  end.

(** [list(range(start, stop, -step))] for [step ≥ 1]: from [start] down, as
    long as the value is above [stop]; there are at most [start - stop]
    such values. *)
Definition down (start stop step : Z) : list Z :=
  down_from (Z.to_nat (start - stop)) start stop step.

End Range.

(** ** mods/perceptual.py: the encoding steps *)

Module PerceptualTools.
Import Perceptual.
Section PerceptualTools.
Context (E : externals) (L : library).

(** [resize_image(in_file, out_file, max_dim)]: the text of
    [image_ops.resize_max_dimension]. *)
Definition resize_image (in_file out_file : path) (max_dim : Z) : M (bool * string) :=
  Resize.resize_max_dimension E L in_file out_file max_dim.

(** A comparison of what [compute_ssim_cv2] returned with a float: a
    [TypeError] when it returned [None]. *)
Definition compared {A} (op : string) (s : option float) (k : float → M A) : M A :=
  match s with
  | Some v => k v
  | None => raise (TypeError ("'" +:+ op +:+ "' not supported between instances of "
                              +:+ "'NoneType' and 'float'"))
  end.

(** [f"{s:.3f}"] *)
Definition formatted (s : option float) : M string :=
  match s with
  | Some v => mret (format_3f L v)
  | None => raise (TypeError "unsupported format string passed to NoneType.__format__")
  end.

Definition cjpeg_cmd (cjpeg_bin : string) (q : Z) (in_file out_file : path) : list string :=
  [cjpeg_bin; "-quality"; Py.str q; "-optimize"; "-progressive";
   "-outfile"; path_str out_file; path_str in_file].

(** The [for q in range(quality_start, quality_min - 1, -2)] loop of
    [optimize_jpeg_advanced]; [best] is [(best_q, best_size)]. *)
Fixpoint jpeg_loop (qs : list Z) (in_file out_file : path) (cjpeg_bin : string)
    (ssim_threshold : float) (best : option (Z * Z)) : M (option (Z * Z)) :=
  match qs with
  | [] => mret best
  | q :: rest =>
      '(ok, note) ← Shell.run_cmd E (cjpeg_cmd cjpeg_bin q in_file out_file) [out_file] 60;
      if negb ok then jpeg_loop rest in_file out_file cjpeg_bin ssim_threshold best
      else
        current_ssim ← PixelMetrics.compute_ssim_cv2 L in_file out_file;
        compared ">=" current_ssim (λ s,
          if Py.ge s ssim_threshold
          then current_size ← FS.stat_size out_file;
               jpeg_loop rest in_file out_file cjpeg_bin ssim_threshold
                 (Some (q, current_size))
          else mret best)
  end.

(** [optimize_jpeg_advanced(in_file, out_file, cjpeg_bin, quality_start=90,
    quality_min=50, ssim_threshold=0.98)] *)
Definition optimize_jpeg_advanced (in_file out_file : path) (cjpeg_bin : string)
    (quality_start quality_min : Z) (ssim_threshold : float) : M attempt :=
  best ← jpeg_loop (Range.down quality_start (quality_min - 1) 2)
            in_file out_file cjpeg_bin ssim_threshold None;
  match best with
  | Some (best_q, _) =>
      Shell.run_cmd E (cjpeg_cmd cjpeg_bin best_q in_file out_file) [out_file] 60;;
      final_ssim ← PixelMetrics.compute_ssim_cv2 L in_file out_file;
      shown ← formatted final_ssim;
      size ← FS.stat_size out_file;
      mret (Done ("jpeg_q" +:+ Py.str best_q +:+ "_ssim" +:+ shown) size)
  | None =>
      unlink_if_exists out_file;;
      mret (Failed "Could not meet SSIM threshold")
  end.

(** What [convert_to_webp] and [convert_to_avif] do once they have their
    command: run it, measure, and keep or delete the output. *)
Definition convert (cmd : list string) (in_file out_file : path) (ssim_threshold : float)
    (kind label : string) : M attempt :=
  '(ok, note) ← Shell.run_cmd E cmd [out_file] 60;
  ex ← (if (ok : bool) then FS.exists_ out_file else mret false);
  if negb ok || negb ex then mret (Failed note)
  else
    final_ssim ← PixelMetrics.compute_ssim_cv2 L in_file out_file;
    compared "<" final_ssim (λ s,
      if PrimFloat.ltb s ssim_threshold
      then unlink_if_exists out_file;;
           mret (Failed (kind +:+ " SSIM " +:+ format_3f L s +:+ " below threshold"))
      else size ← FS.stat_size out_file;
           mret (Done (label +:+ "_ssim" +:+ format_3f L s) size)).

(** [convert_to_webp(in_file, out_file, cwebp_bin, quality=85, ssim_threshold=0.98)] *)
Definition convert_to_webp (in_file out_file : path) (cwebp_bin : string) (quality : Z)
    (ssim_threshold : float) : M attempt :=
  let cmd := [cwebp_bin; "-q"; Py.str quality; "-m"; "6"; "-pass"; "10"; "-low_memory";
              path_str in_file; "-o"; path_str out_file] in
  convert cmd in_file out_file ssim_threshold "WebP" ("webp_q" +:+ Py.str quality).

(** [convert_to_avif(in_file, out_file, avifenc_bin, quality=50, ssim_threshold=0.98)] *)
Definition convert_to_avif (in_file out_file : path) (avifenc_bin : string) (quality : Z)
    (ssim_threshold : float) : M attempt :=
  let cmd := [avifenc_bin; "-j"; "all"; "-s"; "4"; "-y"; "420";
              "--min"; Py.str (quality - 5); "--max"; Py.str (quality + 5);
              path_str in_file; path_str out_file] in
  convert cmd in_file out_file ssim_threshold "AVIF" ("avif_cq" +:+ Py.str quality).

(** Lines 99-114 of [process_file] with its own encoding steps; the JPEG
    step is called with its default qualities 90 and 50. *)
Definition collect_candidates (source temp_dir : path) (base_name : string)
    (a : args) (b : bins) : M (list candidate) :=
  Perceptual.collect_candidates
    (λ source out bin threshold, optimize_jpeg_advanced source out bin 90 50 threshold)
    convert_to_webp convert_to_avif source temp_dir base_name a b.

(** [process_file] of [perceptual] with its own encoding steps; the JPEG
    step is called with its default qualities 90 and 50. *)
Definition process_file (in_path out_dir : path) (a : args) (b : bins) : M job_result :=
  Perceptual.process_file resize_image
    (λ source out bin threshold, optimize_jpeg_advanced source out bin 90 50 threshold)
    convert_to_webp convert_to_avif in_path out_dir a b.

End PerceptualTools.
End PerceptualTools.

(** ** mods/lossless.py: the optimizers *)

Module LosslessTools.
Import Lossless.
Section LosslessTools.
Context (E : externals) (L : library).

(** [p.with_suffix(s)] for a path with a component after its anchor. *)
Definition with_suffix (p : path) (s : string) : path :=
  match reverse (parts p) with
  | name :: rest => Path (anchor_of p) (reverse rest ++ [Py.stem name +:+ s])
  | [] => p
  end.

(** [optimize_with_pillow(in_file, out_file)] *)
Definition optimize_with_pillow (in_file out_file : path) : M (bool * option string) :=
  try_except
    (img ← Pil.open E in_file;
     Pil.save E img out_file (SaveOpts (Some "PNG") None true false None false false);;
     mret (true, None))
    (λ e, mret (false, Some (exn_str e))).

(** [optimize_with_oxipng(in_file, out_file, oxipng_bin, level=4)] *)
Definition optimize_with_oxipng (in_file out_file : path) (oxipng_bin : string) (level : Z)
    : M (bool * option string) :=
  let cmd := [oxipng_bin; "-o"; Py.str level; "--strip"; "safe"; "-out";
              path_str out_file; path_str in_file] in
  Hybrid.with_note (Shell.run_cmd E cmd [out_file] 60).

(** [optimize_with_zopflipng(in_file, out_file, zopfli_bin, iterations=15)] *)
Definition optimize_with_zopflipng (in_file out_file : path) (zopfli_bin : string)
    (iterations : Z) : M (bool * option string) :=
  let cmd := [zopfli_bin; "-y"; "-m"; "-i"; Py.str iterations;
              path_str in_file; path_str out_file] in
  Hybrid.with_note (Shell.run_cmd E cmd [out_file] 60).

(** [convert_to_webp(in_file, out_file, cwebp_bin, lossless=True, q=100)] *)
Definition convert_to_webp (in_file out_file : path) (cwebp_bin : string)
    (lossless : bool) (q : Z) : M (bool * option string) :=
  let cmd :=
    if lossless
    then [cwebp_bin; "-lossless"; "-q"; "100"; path_str in_file; "-o"; path_str out_file]
    else [cwebp_bin; "-q"; Py.str q; path_str in_file; "-o"; path_str out_file] in
  Hybrid.with_note (Shell.run_cmd E cmd [out_file] 60).

(** The [for q in range(max_q, min_q - 1, -step)] loop of
    [compress_to_webp_target]: the quality and the size in bytes of the
    first output that is small enough.  [size_kb <= target_kb] compares
    [size / 1024] with an integer, which is [size <= target_kb * 1024]
    (dividing a file size by 1024 is exact in binary64).  As in the
    searches, the quality about to be tried is noted in the encode log. *)
Fixpoint target_loop (qs : list Z) (in_file temp_out : path) (cwebp_bin : string)
    (target_kb : Z) : M (option (Z * Z)) :=
  match qs with
  | [] => mret None
  | q :: rest =>
      Search.log_encode q;;
      '(ok, note) ← convert_to_webp in_file temp_out cwebp_bin false q;
      if negb ok then target_loop rest in_file temp_out cwebp_bin target_kb
      else
        size ← FS.stat_size temp_out;
        if size <=? target_kb * 1024 then mret (Some (q, size))
        else target_loop rest in_file temp_out cwebp_bin target_kb
  end.

(** [compress_to_webp_target(in_file, out_file, cwebp_bin, target_kb,
    min_q=30, max_q=95, step=5)]: [(True, method, size)] is [Some], and
    [int(final_size * 1024)] is the size in bytes again. *)
Definition compress_to_webp_target (in_file out_file : path) (cwebp_bin : string)
    (target_kb min_q max_q step : Z) : M (option (string * Z)) :=
  let temp_out := with_suffix out_file ".webp" in
  best ← target_loop (Range.down max_q (min_q - 1) step) in_file temp_out cwebp_bin target_kb;
  match best with
  | Some (used_q, size) =>
      FS.move temp_out out_file;;
      mret (Some ("webp-q" +:+ Py.str used_q, size))
  | None => mret None
  end.

(** [process_file] of [lossless] with its own optimizers;
    [compress_to_webp_target] is called with its default qualities. *)
Definition process_file (in_path out_dir : path) (a : args) (b : bins) : M job_result :=
  Lossless.process_file optimize_with_pillow optimize_with_oxipng optimize_with_zopflipng
    convert_to_webp (PixelMetrics.files_identical E L)
    (λ source out bin target, compress_to_webp_target source out bin target 30 95 5)
    in_path out_dir a b.

End LosslessTools.
End LosslessTools.

(** ** mods/jpeg_binary_search.py: one job *)

Module JpegJob.
Import JpegSearch.

(** The [argparse] namespace of the [jpeg-binary-search] sub-command. *)
Record args := Args {
  max_side : Z;
  min_q : Z;
  max_q : Z;
  fallback_q : Z;
  use_ssim : bool;
  target_ssim : float;
  target_psnr : float;
  target_size_kb : Z;
  keep_exif : bool;
}.

(** The result dictionary; [quality] is a key that may not be set. *)
Record job_result := JobResult {
  file : string;
  original_bytes : Z;
  final_bytes : Z;
  resized : bool;
  error : option string;
  quality : option Z;
}.

(** [kb_to_bytes(k)] for an integer [k] *)
Definition kb_to_bytes (k : Z) : Z := k * 1024.

(** Lines 116-118: whether a lower quality still passes. *)
Definition still_passes (a : args) (psnr_t : float) (ssim_t : option float) : bool :=
  match use_ssim a, ssim_t with
  | true, Some s =>
      if Py.truthy s then Py.ge s (target_ssim a)
      else Py.truthy psnr_t && Py.ge psnr_t (target_psnr a)
  | _, _ => Py.truthy psnr_t && Py.ge psnr_t (target_psnr a)
  end.

Section JpegJob.
Context (E : externals) (L : library).

(** The [while q_try >= args.min_q] loop, which goes on below the quality
    found while the file is above the target size; it returns the final
    [(cand_path, q)]. *)
Fixpoint lower_loop (n : nat) (a : args) (in_path work_in tmp_root : path)
    (q_try : Z) (cand_path : path) (q : Z) : M (path * Z) :=
  match n with
  | O => mret (cand_path, q)
  | S n' =>
      if min_q a <=? q_try then
        let try_path := tmp_root // ("try_q" +:+ Py.str q_try +:+ ".jpg") in
        '(ok, _) ← save_jpeg_pillow E work_in try_path q_try (Some 0) true true (keep_exif a);
        if negb ok then mret (cand_path, q)
        else
          '(_, psnr_t) ← Metrics.compute_mse_psnr E in_path try_path;
          ssim_t ← (if use_ssim a then Metrics.compute_ssim_skimage E in_path try_path
                    else mret None);
          if still_passes a psnr_t ssim_t then
            size ← FS.stat_size try_path;
            if size <=? kb_to_bytes (target_size_kb a) then mret (try_path, q_try)
            else lower_loop n' a in_path work_in tmp_root (q_try - 1) try_path q_try
          else mret (cand_path, q)
      else mret (cand_path, q)
  end.

(** Lines 82-132: the [try] block once the work image is there. *)
Definition search_and_promote (in_path out_dir tmp_root work_in : path) (a : args)
    (result : job_result) : M job_result :=
  search ← find_best_jpeg E work_in in_path tmp_root (min_q a) (max_q a)
             (target_psnr a) (target_ssim a) (use_ssim a);
  match search with
  | Failure _ =>
      let fallback := tmp_root // "fallback.jpg" in
      '(ok, note) ← save_jpeg_pillow E work_in fallback (fallback_q a) (Some 0) true true
                      (keep_exif a);
      let final_path := out_dir // path_name in_path in
      if (ok : bool) then
        FS.move fallback final_path;;
        final ← FS.stat_size final_path;
        mret (JobResult (file result) (original_bytes result) final (resized result)
                (error result) (Some (fallback_q a)))
      else
        FS.copy2 in_path final_path;;
        mret result
  | Success b =>
      cand_bytes ← FS.stat_size (best_path b);
      '(cand_path, q) ←
        (if negb (target_size_kb a =? 0) && (kb_to_bytes (target_size_kb a) <? cand_bytes)
         then lower_loop (Z.to_nat (best_q b - min_q a)) a in_path work_in tmp_root
                (best_q b - 1) (best_path b) (best_q b)
         else mret (best_path b, best_q b));
      let final_out := out_dir // (path_stem in_path +:+ ".jpg") in
      FS.move cand_path final_out;;
      final ← FS.stat_size final_out;
      mret (JobResult (file result) (original_bytes result) final (resized result)
              (error result) (Some q))
  end.

(** [process_file(in_file, out_dir, args)].  [result["resized"]] is set as
    soon as the resize has returned; the other keys are only assigned to
    after the last statement that can raise. *)
Definition process_file (in_path out_dir : path) (a : args) : M job_result :=
  size ← FS.stat_size in_path;
  size' ← FS.stat_size in_path;
  let result := JobResult (path_str in_path) size size' false None None in
  tmp_root ← FS.mkdtemp "jpgopt_";
  try_finally
    (Shell.try_bound
       (Resize.resize_orientation_aware_r2 E L in_path (tmp_root // path_name in_path)
          (max_side a))
       (λ '(was_resized, work_in),
          search_and_promote in_path out_dir tmp_root work_in a
            (JobResult (file result) (original_bytes result) (final_bytes result)
               was_resized None None))
       (λ bound e,
          mret (JobResult (file result) (original_bytes result) (final_bytes result)
                  (match bound with Some (was_resized, _) => was_resized | None => false end)
                  (Some (exn_str e)) None)))
    (try_except (FS.rmtree tmp_root) (λ _, mret tt)).

End JpegJob.
End JpegJob.

(** ** utils/reporting.py: the rows of the CSV report *)

Module Report.

(** The values found in a result dictionary: [None], a flag, an integer, a
    float (the sizes in KB), a string. *)
Inductive value :=
| VNone
| VBool (b : bool)
| VInt (n : Z)
| VFloat (x : float)
| VStr (s : string).

(** A [dict], with its keys in insertion order. *)
Definition dict := list (string * value).

(** [d.get(key)] *)
Fixpoint get (d : dict) (key : string) : option value :=
  match d with
  | [] => None
  | (k, v) :: rest => if String.eqb k key then Some v else get rest key
  end.

(** A key that is only there when it was assigned to. *)
Definition when_set {A} (key : string) (v : option A) (f : A → value) : dict :=
  match v with
  | Some x => [(key, f x)]
  | None => []
  end.

Definition str_or_none (s : option string) : value :=
  match s with Some s => VStr s | None => VNone end.

(** The dictionaries that the four [process_file] return. *)
Definition of_hybrid (r : Hybrid.job_result) : dict :=
  [("file", VStr (Hybrid.file r));
   ("original_bytes", VInt (Hybrid.original_bytes r));
   ("method", VStr (Hybrid.method r))]
  ++ when_set "final_bytes" (Hybrid.final_bytes r) VInt
  ++ when_set "error" (Hybrid.error r) VStr.

Definition of_jpeg (r : JpegJob.job_result) : dict :=
  [("file", VStr (JpegJob.file r));
   ("original_bytes", VInt (JpegJob.original_bytes r));
   ("final_bytes", VInt (JpegJob.final_bytes r));
   ("resized", VBool (JpegJob.resized r));
   ("error", str_or_none (JpegJob.error r))]
  ++ when_set "quality" (JpegJob.quality r) VInt.

Definition of_perceptual (r : Perceptual.job_result) : dict :=
  [("file", VStr (Perceptual.file r))]
  ++ when_set "original_size" (Perceptual.original_size r) VFloat
  ++ when_set "final_size" (Perceptual.final_size r) VFloat
  ++ when_set "method" (Perceptual.method_used r) VStr
  ++ when_set "output_file" (Perceptual.output_file r) VStr
  ++ when_set "error" (Perceptual.error r) VStr.

Definition of_lossless (r : Lossless.job_result) : dict :=
  [("file", VStr (Lossless.file r));
   ("original_size", VFloat (Lossless.original_size r));
   ("final_size", VFloat (Lossless.final_size r));
   ("method", VStr (Lossless.method_used r))]
  ++ when_set "note" (Lossless.note_of r) str_or_none
  ++ when_set "error" (Lossless.error r) VStr.

(** The [fieldnames] that all four [run] pass to [save_csv_report]. *)
Definition fieldnames : list string :=
  ["file"; "original_size"; "final_size"; "method"; "output_file"; "error"].

(** What [csv.DictWriter(f, fieldnames, extrasaction='ignore')] hands to the
    underlying writer for one row: [rowdict.get(key, restval)] for each
    field name, where [restval] is the empty string; keys that are not
    field names are dropped. *)
Definition dict_to_list (fieldnames : list string) (rowdict : dict) : list value :=
  (λ key, default (VStr "") (get rowdict key)) <$> fieldnames.

(** [writer.writeheader(); writer.writerows(results_list)] *)
Definition csv_rows (fieldnames : list string) (results_list : list dict)
    : list (list value) :=
  (VStr <$> fieldnames) :: (dict_to_list fieldnames <$> results_list).

End Report.


(** * Specifications *)

(** ** What the searches are measured against *)

Module SearchSpec.

(** Passing is monotonic on [lo..hi]: once a quality passes, every higher
    quality of the range passes. *)
Definition monotone (passes : Z → bool) (lo hi : Z) : Prop :=
  ∀ q q', lo ≤ q → q ≤ q' → q' ≤ hi → passes q = true → passes q' = true.

Definition none_passes (passes : Z → bool) (lo hi : Z) : Prop :=
  ∀ q, lo ≤ q ≤ hi → passes q = false.

(** [q] is the least quality of [lo..hi] that passes. *)
Definition least_passing (passes : Z → bool) (lo hi q : Z) : Prop :=
  lo ≤ q ≤ hi ∧ passes q = true ∧ ∀ q', lo ≤ q' < q → passes q' = false.

(** The encode attempts [visited] of a search over [lo..hi]: all inside the
    range, none for an empty range, and no more than [2 * size] subsets'
    worth, that is [length visited ≤ log2 size + 1]. *)
Definition few (lo hi : Z) (visited : list Z) : Prop :=
  Forall (λ q, lo ≤ q ≤ hi) visited ∧
  (hi < lo → visited = []) ∧
  (lo ≤ hi → 2 ^ Z.of_nat (length visited) ≤ 2 * (hi + 1 - lo)).

Section Probe.
Context {B : Type} (probe : Z → M (option B)) (key : B → Z).
Context (passes : Z → bool) (Inv : world → Prop) (Post : B → world → Prop).
Context (lo0 hi0 : Z).

(** A probe that always returns and logs the quality it tried. *)
Definition probe_runs : Prop :=
  ∀ q w, lo0 ≤ q ≤ hi0 → Inv w →
    ∃ r w', probe q w = (Ok r, w') ∧ Inv w' ∧ encode_log w' = q :: encode_log w.

(** A probe that moreover yields a record exactly when the quality passes,
    and keeps what is known of earlier records. *)
Definition probe_spec : Prop :=
  ∀ q w, lo0 ≤ q ≤ hi0 → Inv w →
    ∃ r w', probe q w = (Ok r, w') ∧ Inv w' ∧
      encode_log w' = q :: encode_log w ∧
      (∀ b, Post b w → Post b w') ∧
      match r with
      | Some b => passes q = true ∧ key b = q ∧ Post b w'
      | None => passes q = false
      end.

(** A probe that always returns, logs the quality it tried, keeps what is
    known of earlier records, and yields only a record of the quality it
    tried, of which [Post] then holds. *)
Definition probe_sound : Prop :=
  ∀ q w, lo0 ≤ q ≤ hi0 → Inv w →
    ∃ r w', probe q w = (Ok r, w') ∧ Inv w' ∧
      encode_log w' = q :: encode_log w ∧
      (∀ b, Post b w → Post b w') ∧
      (∀ b, r = Some b → key b = q ∧ Post b w').

(** [r] is the record of the least passing quality of [lo..hi], or [best]
    if none passes. *)
Definition least_or (lo hi : Z) (best r : option B) : Prop :=
  (none_passes passes lo hi ∧ r = best) ∨
  (∃ b, r = Some b ∧ least_passing passes lo hi (key b)).

End Probe.
End SearchSpec.

(** ** What the metric functions return, read off the files *)

Module MetricsSpec.
Section MetricsSpec.
Context (E : externals).

(** The result of [compute_mse_psnr] for two files as they are on disk. *)
Definition psnr_of (orig comp : option content) : option float * float :=
  match orig, comp with
  | Some o, Some c =>
      match pil_open E o, pil_open E c, psnr_pixels E o c with
      | inr _, inr _, Some (mse, psnr) => (Some mse, psnr)
      | _, _, _ => (None, 0%float)
      end
  | _, _ => (None, 0%float)
  end.

(** The result of [compute_ssim_skimage]. *)
Definition ssim_of (orig comp : option content) : option float :=
  if have_skimage E then
    match orig, comp with
    | Some o, Some c =>
        match pil_open E o, pil_open E c with
        | inr _, inr _ => ssim_pixels E o c
        | _, _ => None
        end
    | _, _ => None
    end
  else None.

End MetricsSpec.
End MetricsSpec.

(** ** Passing, for [find_best_jpeg] *)

Module JpegSpec.
Import JpegSearch MetricsSpec.
Section JpegSpec.
Context (E : externals).

(** The bytes Pillow writes for the work image at quality [q], if it does. *)
Definition encoded (input : option content) (q : Z) : option content :=
  match input with
  | Some i =>
      match pil_open E i,
            pil_save E i (SaveOpts (Some "JPEG") (Some q) true true (Some 0) false true) with
      | inr _, inr c => Some c
      | _, _ => None
      end
  | None => None
  end.

(** Quality [q] passes: Pillow encodes the work image [input] at [q] and the
    result, measured against [orig], meets the threshold. *)
Definition passes (input orig : option content)
    (target_psnr target_ssim : float) (use_ssim : bool) (q : Z) : bool :=
  match encoded input q with
  | Some c =>
      threshold_passes use_ssim target_psnr target_ssim
        (psnr_of E orig (Some c)).2
        (if use_ssim then ssim_of E orig (Some c) else None)
  | None => false
  end.

(** No candidate file of the search is [p]. *)
Definition not_a_candidate (tmp_dir p : path) : Prop :=
  ∀ q, tmp_dir // ("cand_q" +:+ Py.str q +:+ ".jpg") ≠ p.

End JpegSpec.
End JpegSpec.

(** ** Passing, for [binary_search_quality] and its two callbacks *)

Module HybridSpec.
Import Hybrid.

(** A call keeps the encode log and deletes no file. *)
Definition keeps (w w' : world) : Prop :=
  encode_log w' = encode_log w ∧
  ∀ p, is_Some (files w !! p) → is_Some (files w' !! p).

(** A call that, besides, takes no new temporary name. *)
Definition grows (w w' : world) : Prop :=
  next_tmp w' = next_tmp w ∧ keeps w w'.

(** An encoder callback that always returns, and has written the file
    when it reports success. *)
Definition encoder_runs (make_cand_fn : Z → path → M (bool * note)) : Prop :=
  ∀ q p w, ∃ ok note w',
    make_cand_fn q p w = (Ok (ok, note), w') ∧ grows w w' ∧
    (ok = true → is_Some (files w' !! p)).

(** A metrics callback that always returns. *)
Definition metrics_runs (metrics_fn : path → path → option string → M metrics) : Prop :=
  ∀ orig p butter_bin w, ∃ m w',
    metrics_fn orig p butter_bin w = (Ok m, w') ∧ grows w w'.

(** The three encoder callbacks that [process_file] hands to the search. *)
Inductive encoder_of (E : externals) (work_in : path) (a : args) (b : bins)
    : (Z → path → M (bool * note)) → Prop :=
| jpeg_encoder : encoder_of E work_in a b (make_jpeg E work_in a b)
| webp_encoder : encoder_of E work_in a b (make_webp E work_in b)
| avif_encoder : encoder_of E work_in a b (make_avif E work_in b).


Section Adapter.
Context (make_cand_fn : Z → path → M (bool * note)).
Context (metrics_fn : path → path → option string → M metrics).
Context (orig : path) (butter_bin : option string) (a : args).
Context (Inv : gmap path content → Prop) (dir : path).
Context (encode : Z → option content) (measure : content → metrics).

(** The two laws speak of the calls that a search makes: on a path inside
    its own directory [dir], and on files of which [Inv] holds, which is
    what the search found when it started and what every call has to leave
    in place (that the work image is still what it was, say). *)

(** [make_cand_fn] is an encoder adapter for [encode]: at quality [q] it
    reports success exactly when [encode q] is an artifact, which it has then
    written to the path it was given. *)
Definition encoder_law : Prop :=
  ∀ q p w, Inv (files w) → inside dir p = true →
    ∃ note w',
      make_cand_fn q p w = (Ok (bool_decide (is_Some (encode q)), note), w') ∧
      keeps w w' ∧ Inv (files w') ∧
      ∀ c, encode q = Some c → files w' !! p = Some c.

(** [metrics_fn] is a metric evaluator for [measure]: a function of the
    candidate's bytes (and of the fixed original). *)
Definition metrics_law : Prop :=
  ∀ p c w, Inv (files w) → inside dir p = true → files w !! p = Some c →
    ∃ w', metrics_fn orig p butter_bin w = (Ok (measure c), w') ∧
          keeps w w' ∧ Inv (files w').

(** Quality [q] passes: the encoder produces an artifact whose metrics meet
    the authoritative threshold. *)
Definition passes (q : Z) : bool :=
  match encode q with
  | Some c => threshold_passes a (measure c)
  | None => false
  end.

(** What stays true of a remembered [best] while the search goes on. *)
Definition kept (b : best) (w : world) : Prop :=
  is_Some (files w !! best_path b) ∧
  ∃ c, encode (best_q b) = Some c ∧ best_metrics b = measure c.

End Adapter.

Section Pillow.
Context (E : externals).

(** What the Pillow callbacks of [process_file] encode: the bytes that
    [img.save] writes for the work image [input] at quality [q], when the
    image opens and the save does not raise. *)
Definition pillow_encode (kwargs : image_info → Z → save_opts) (input : option content)
    (q : Z) : option content :=
  match input with
  | Some i =>
      match pil_open E i with
      | inr info =>
          match pil_save E i (kwargs info q) with
          | inr c => Some c
          | inl _ => None
          end
      | inl _ => None
      end
  | None => None
  end.

Definition jpeg_kwargs (keep_exif : bool) (info : image_info) (q : Z) : save_opts :=
  SaveOpts (Some "JPEG") (Some q) true true (Some 0) (keep_exif && exif info) false.

Definition webp_kwargs (info : image_info) (q : Z) : save_opts :=
  SaveOpts (Some "WEBP") (Some q) false false None false false.


End Pillow.

Section Job.
Context (E : externals).

(** Lines 96-130 of [process_file]: the resize and the searches of one job. *)
Definition searches (in_path workdir : path) (a : args) (b : bins) : M (list candidate) :=
  '(resized, work_in) ←
     ImageOps.smart_resize_width_only E in_path (workdir // path_name in_path) 3000;
  collect_candidates E work_in a b.

End Job.
End HybridSpec.

(** ** Selection *)

Module SelectSpec.

(** [best] is the first element of [l] whose key is minimal. *)
Definition first_smallest {A} (key : A → Z) (best : A) (l : list A) : Prop :=
  ∃ l1 l2, l = l1 ++ best :: l2 ∧
    (∀ x, x ∈ l1 → key best < key x) ∧
    (∀ x, x ∈ l2 → key best ≤ key x).

(** A step that yields at most one candidate, tagged [t]. *)
Definition at_most_one {A T} (tag : A → T) (t : T) (l : list A) : Prop :=
  l = [] ∨ ∃ c, l = [c] ∧ tag c = t.

End SelectSpec.

(** ** The pipelines of a job and what they contribute *)

Module PipelineSpec.

Section Ran.
Context {T R C : Type}.
(** What the pipeline tagged [t] contributes to the candidates when it has
    returned [r] and left the files [fs]. *)
Context (yield : T → R → gmap path content → list C → Prop).

(** The pipelines ran one after the other from world [w] to world [w'],
    each of them returning; [rs] are their results and [cands] what they
    contributed, both in the order of the pipelines. *)
Inductive ran : list (T * M R) → world → list R → list C → world → Prop :=
| ran_nil w : ran [] w [] [] w
| ran_cons t m ps w r w1 l rs cs w2 :
    m w = (Ok r, w1) → yield t r (files w1) l → ran ps w1 rs cs w2 →
    ran ((t, m) :: ps) w (r :: rs) (l ++ cs) w2.

End Ran.

(** [hybrid_perceptual]: a successful search contributes one candidate,
    which carries the format of the pipeline, the quality and the path that
    the search returned, and the size of the file at that path. *)
Definition hybrid_yield (fmt : string) (r : Hybrid.search_result)
    (fs : gmap path content) (l : list Hybrid.candidate) : Prop :=
  match r with
  | Hybrid.Success q p _ =>
      ∃ data, fs !! p = Some data ∧ l = [Hybrid.Candidate fmt (size_of data) p q]
  | Hybrid.Failure => l = []
  end.

(** The pipelines of a [hybrid_perceptual] job, in the order in which they
    are declared: JPEG for the modes [jpeg] and [best], WebP for [best],
    AVIF for [best] when [avifenc] was found. *)
Definition hybrid_pipelines (E : externals) (work_in : path) (a : Hybrid.args)
    (b : Hybrid.bins) : list (string * M Hybrid.search_result) :=
  (if bool_decide (Hybrid.mode_of a = Hybrid.Jpeg ∨ Hybrid.mode_of a = Hybrid.Best)
   then [("jpg", Hybrid.binary_search_quality (Hybrid.make_jpeg E work_in a b)
                   (Hybrid.metrics_fn E) work_in (Hybrid.min_q a) (Hybrid.max_q a) a
                   (Hybrid.butter b))]
   else []) ++
  (if bool_decide (Hybrid.mode_of a = Hybrid.Best)
   then [("webp", Hybrid.binary_search_quality (Hybrid.make_webp E work_in b)
                    (Hybrid.metrics_fn E) work_in 10 100 a (Hybrid.butter b))]
   else []) ++
  (if bool_decide (Hybrid.mode_of a = Hybrid.Best) && Py.truthy_str (Hybrid.avifenc b)
   then [("avif", Hybrid.binary_search_quality (Hybrid.make_avif E work_in b)
                    (Hybrid.metrics_fn E) work_in 10 90 a (Hybrid.butter b))]
   else []).

(** The file of a candidate is there, in the directory of a search that is
    over. *)
Definition settled (w : world) (c : Hybrid.candidate) : Prop :=
  is_Some (files w !! Hybrid.cand_path c) ∧
  ∃ n, (n < next_tmp w)%nat ∧ anchor_of (Hybrid.cand_path c) = Temp "search_" n.

(** [perceptual]: a successful step contributes one candidate, which
    carries the method and the size that the step returned, the size being
    that of the output file of the step. *)
Definition perceptual_yield (out : path) (r : Perceptual.attempt)
    (fs : gmap path content) (l : list Perceptual.candidate) : Prop :=
  match r with
  | Perceptual.Done method size =>
      (∃ data, fs !! out = Some data ∧ size_of data = size) ∧
      l = [Perceptual.Candidate method out size]
  | Perceptual.Failed _ => l = []
  end.

Definition done (r : Perceptual.attempt) : bool :=
  match r with Perceptual.Done _ _ => true | Perceptual.Failed _ => false end.

(** The pipelines of a [perceptual] job, each with its output file: JPEG
    when [cjpeg] was found, WebP when asked for and [cwebp] was found, AVIF
    when asked for and [avifenc] was found. *)
Definition perceptual_pipelines (E : externals) (L : library) (source temp_dir : path)
    (base_name : string) (a : Perceptual.args) (b : Perceptual.bins)
    : list (path * M Perceptual.attempt) :=
  (if Py.truthy_str (Perceptual.cjpeg b)
   then [(temp_dir // (base_name +:+ "_optim.jpg"),
          PerceptualTools.optimize_jpeg_advanced E L source
            (temp_dir // (base_name +:+ "_optim.jpg"))
            (default "" (Perceptual.cjpeg b)) 90 50 (Perceptual.ssim a))]
   else []) ++
  (if Perceptual.webp a && Py.truthy_str (Perceptual.cwebp b)
   then [(temp_dir // (base_name +:+ ".webp"),
          PerceptualTools.convert_to_webp E L source (temp_dir // (base_name +:+ ".webp"))
            (default "" (Perceptual.cwebp b)) (Perceptual.quality a) (Perceptual.ssim a))]
   else []) ++
  (if Perceptual.avif a && Py.truthy_str (Perceptual.avifenc b)
   then [(temp_dir // (base_name +:+ ".avif"),
          PerceptualTools.convert_to_avif E L source (temp_dir // (base_name +:+ ".avif"))
            (default "" (Perceptual.avifenc b)) (Perceptual.quality_avif a)
            (Perceptual.ssim a))]
   else []).

End PipelineSpec.


(** ** [run_cmd] *)

Module ShellSpec.

(** The file [p] is there and is not empty. *)
Definition produced (fs : gmap path content) (p : path) : bool :=
  match fs !! p with
  | Some c => negb (size_of c =? 0)
  | None => false
  end.

(** The files once a child process has written [ws]. *)
Definition after_writes (ws : list (path * content)) (fs : gmap path content)
    : gmap path content :=
  foldl (λ fs kv, <[kv.1 := kv.2]> fs) fs ws.

End ShellSpec.

(** ** What a job may touch *)

Module FrameSpec.

(** A path the user gave (an input file, something in the output
    directory), as opposed to one under a [mkdtemp] directory. *)
Definition is_given (p : path) : bool :=
  match anchor_of p with
  | Given _ => true
  | Temp _ _ => false
  end.

(** The external tools write under temporary directories only. *)
Definition tools_confined (E : externals) : Prop :=
  ∀ cmd fs p c, (p, c) ∈ writes (os_exec E cmd fs) → is_given p = false.

(** Running [m] leaves every given path as it was, and what it returns
    satisfies [Q]. *)
Definition holds {A} (Q : A → Prop) (m : M A) : Prop :=
  ∀ w,
    (∀ p, is_given p = true → files (m w).2 !! p = files w !! p) ∧
    (∀ a, (m w).1 = Ok a → Q a).

Definition preserves {A} (m : M A) : Prop := holds (λ _, True) m.

(** [Q] of the record, if there is one. *)
Definition if_some {B} (Q : B → Prop) (r : option B) : Prop :=
  ∀ b, r = Some b → Q b.

(** What the searches of [hybrid_perceptual] hand on lies under temporary
    directories, and a candidate's format is one of the three. *)
Definition temp_best (b : Hybrid.best) : Prop := is_given (Hybrid.best_path b) = false.

Definition temp_result (r : Hybrid.search_result) : Prop :=
  ∀ q p m, r = Hybrid.Success q p m → is_given p = false.

Definition temp_candidates (l : list Hybrid.candidate) : Prop :=
  Forall (λ c, is_given (Hybrid.cand_path c) = false ∧
               Hybrid.fmt c ∈ ["jpg"; "webp"; "avif"]) l.

End FrameSpec.

(** * Scenarios

    Concrete encoders, tools and files on which the statements below are
    tried out. *)

Module Scenario.

(** A file of [n] bytes. *)
Definition blob (n : nat) : content := replicate n Byte.x2a.

Definition no_opts_quality (o : save_opts) : Z := default 0 (quality o).

(** ** "Passes iff quality ≥ 52", range 30..95, PSNR ≥ 38.0 *)

Definition args38 : Hybrid.args :=
  Hybrid.Args Hybrid.Jpeg 30 95 38%float false 1%float 1%float false.

Definition original : path := Path (Given "/in") ["photo.png"].

(** Pillow for this scenario: every file opens as a 100x100 image without
    EXIF, [save] writes two bytes from quality 52 on and one byte below, and
    the PSNR of a two-byte file is 40 dB, that of any other 30 dB. *)
Definition pillow52 : externals := {|
  os_exec := λ _ _, ProcResult NotFound [];
  pil_open := λ _, inr (ImageInfo 100 100 false);
  pil_save := λ _ o, inr (if 52 <=? no_opts_quality o then blob 2 else blob 1);
  pil_resize_save := λ c _, inr c;
  psnr_pixels := λ _ c, Some (1%float, if (length c =? 2)%nat then 40%float else 30%float);
  have_skimage := false;
  ssim_pixels := λ _ _, None;
  first_number := λ _, None;
|}.

Definition jpeg_tmp : path := Path (Temp "jpgopt_" 0) [].
Definition jpeg_work : path := jpeg_tmp // "photo.jpg".
Definition jpeg_orig : path := Path (Given "/in") ["photo.jpg"].
Definition jpeg_world : world :=
  World (<[jpeg_work := blob 3]> (<[jpeg_orig := blob 3]> ∅)) 1 [] [].

(** ** An input named like a candidate of [find_best_jpeg] *)

(** Pillow for which the image as it came (three bytes) encodes to two bytes
    from quality 70 on and to one byte below, and an image that has been
    through the encoder already encodes to one byte at every quality; two
    bytes measure 40 dB against the original, anything else 30 dB. *)
Definition pillow70 : externals := {|
  os_exec := λ _ _, ProcResult NotFound [];
  pil_open := λ _, inr (ImageInfo 100 100 false);
  pil_save := λ c o,
    inr (if (length c =? 3)%nat && (70 <=? no_opts_quality o) then blob 2 else blob 1);
  pil_resize_save := λ c _, inr c;
  psnr_pixels := λ _ c, Some (1%float, if (length c =? 2)%nat then 40%float else 30%float);
  have_skimage := false;
  ssim_pixels := λ _ _, None;
  first_number := λ _, None;
|}.

Definition cand_q62 : path := Path (Given "/in") ["cand_q62.jpg"].
Definition cand_q62_world : world := World {[cand_q62 := blob 3]} 0 [] [].
Definition photo_jpg_world : world := World {[jpeg_orig := blob 3]} 0 [] [].

(** ** Two pipelines: A gives 120000 bytes, B gives 95000 bytes *)

Definition cand_a : Hybrid.candidate :=
  Hybrid.Candidate "jpg" 120000 (Path (Temp "search_" 1) ["best_q60.bin"]) 60.
Definition cand_b : Hybrid.candidate :=
  Hybrid.Candidate "webp" 95000 (Path (Temp "search_" 2) ["best_q40.bin"]) 40.
Definition out_dir : path := Path (Given "/out") [].
Definition two_world : world :=
  World (<[Hybrid.cand_path cand_a := blob 4]> (<[Hybrid.cand_path cand_b := blob 3]> ∅))
    3 [] [].
Definition fresh_result : Hybrid.job_result :=
  Hybrid.JobResult "/in/photo.png" 200000 "none" None None.

(** ** A butteraugli score with a zero butteraugli target *)

Definition args_butter0 : Hybrid.args :=
  Hybrid.Args Hybrid.Best 30 95 38%float false 1%float 0%float false.
Definition metrics_butter5 : Hybrid.metrics :=
  Hybrid.Metrics (Some 50%float) None (Some 5%float).

(** ** One job: a JPEG search over 50..52 with Pillow *)

Definition args_50_52 : Hybrid.args :=
  Hybrid.Args Hybrid.Jpeg 50 52 38%float false 1%float 1%float false.
Definition args_unreachable : Hybrid.args :=
  Hybrid.Args Hybrid.Jpeg 50 52 99%float false 1%float 1%float false.
Definition no_bins : Hybrid.bins := Hybrid.Bins None None None None.
Definition one_file_world : world := World {[original := blob 3]} 0 [] [].

(** A batch of two files. *)
Definition second : path := Path (Given "/in") ["second.png"].
Definition two_files_world : world :=
  World (<[second := blob 3]> {[original := blob 3]}) 0 [] [].

(** ** A batch with a file that can no longer be read *)

Definition gone : path := Path (Given "/in") ["gone.png"].
Definition perceptual_args : Perceptual.args :=
  Perceptual.Args None 85 30 1%float true true.
Definition perceptual_no_bins : Perceptual.bins := Perceptual.Bins None None None.
Definition never_resize (src out : path) (max_dim : Z) : M (bool * string) :=
  mret (false, "unused").
Definition never_jpeg (src out : path) (bin : string) (ssim : float) : M Perceptual.attempt :=
  mret (Perceptual.Failed "unused").
Definition never_convert (src out : path) (bin : string) (q : Z) (ssim : float)
    : M Perceptual.attempt :=
  mret (Perceptual.Failed "unused").

(** ** An encoder that reports success and leaves a zero-byte file *)




(** ** Names of promoted files *)

Definition perceptual_cjpeg : Perceptual.bins := Perceptual.Bins (Some "cjpeg") None None.

(** [lossless] with only a lossless WebP that matches the input. *)
Definition lossless_args : Lossless.args := Lossless.Args None false None 4 15.
Definition lossless_cwebp : Lossless.bins := Lossless.Bins None None (Some "cwebp").
Definition pillow_fails (src out : path) : M (bool * option string) :=
  mret (false, Some "cannot write").
Definition never_optimize (src out : path) (bin : string) (level : Z)
    : M (bool * option string) :=
  mret (false, Some "unused").
Definition webp_writer (src out : path) (bin : string) (lossless : bool) (q : Z)
    : M (bool * option string) :=
  modify_files (<[out := blob 2]>);; mret (true, Some "").
Definition always_identical (f1 f2 : path) : M bool := mret true.
Definition never_forced (src out : path) (bin : string) (target_kb : Z)
    : M (option (string * Z)) :=
  mret None.

End Scenario.

(** * Notions used for the rest of the code *)

Module StepSpec.

(** Running [m] takes a world to one related to it by [R], and what it
    returns satisfies [Q]. *)
Definition step (R : world → world → Prop) {A} (Q : A → Prop) (m : M A) : Prop :=
  ∀ w, R w (m w).2 ∧ ∀ a, (m w).1 = Ok a → Q a.

(** Every file the user gave that is there is still there. *)
Definition inputs_stay (w w' : world) : Prop :=
  ∀ p, FrameSpec.is_given p = true → is_Some (files w !! p) → is_Some (files w' !! p).

(** Nothing is said about the worlds. *)
Definition any_world (w w' : world) : Prop := True.

End StepSpec.

Module JobSpec.

(** What every result of a [hybrid_perceptual] job for [file] of [size]
    bytes looks like: either a final size or an error, and the method
    "none" with an error. *)
Definition well_formed (file : string) (size : Z) (r : Hybrid.job_result) : Prop :=
  Hybrid.file r = file ∧ Hybrid.original_bytes r = size ∧
  (Hybrid.error r = None ↔ is_Some (Hybrid.final_bytes r)) ∧
  (Hybrid.error r ≠ None → Hybrid.method r = "none").

End JobSpec.

Module ToolSpec.

(** The file [p] is there and Pillow opens it. *)
Definition readable (E : externals) (fs : gmap path content) (p : path) : bool :=
  match fs !! p with
  | Some c => match pil_open E c with inr _ => true | inl _ => false end
  | None => false
  end.

(** Line 50 of [hybrid_perceptual]: the quantizer handed to [avifenc]. *)
Definition avif_cq (q : Z) : Z := Z.max 0 (Z.min 63 (Z.quot (q * 63) 100)).

(** The score that [compute_ssim_cv2] gives when OpenCV is there: 0.0 for a
    file that is missing or does not decode, and for a computation that
    fails. *)
Definition cv2_score (L : library) (fs : gmap path content) (p1 p2 : path) : float :=
  match PixelMetrics.imread L fs p1, PixelMetrics.imread L fs p2 with
  | Some original, Some compressed => default 0%float (cv2_ssim L original compressed)
  | _, _ => 0%float
  end.

(** How many child processes were started. *)
Fixpoint spawns (evs : list proc_event) : nat :=
  match evs with
  | [] => 0%nat
  | EvSpawn _ :: rest => S (spawns rest)
  | EvKill _ :: rest => spawns rest
  end.

(** The commands of [convert_to_webp] and [convert_to_avif] of [perceptual]. *)
Definition webp_cmd (bin : string) (quality : Z) (in_file out_file : path) : list string :=
  [bin; "-q"; Py.str quality; "-m"; "6"; "-pass"; "10"; "-low_memory";
   path_str in_file; "-o"; path_str out_file].

Definition avif_cmd (bin : string) (quality : Z) (in_file out_file : path) : list string :=
  [bin; "-j"; "all"; "-s"; "4"; "-y"; "420";
   "--min"; Py.str (quality - 5); "--max"; Py.str (quality + 5);
   path_str in_file; path_str out_file].

(** What a converter of [perceptual] that ran [cmd] from world [w] and
    returned [r] in world [w'] has done.  It started at most one process.
    On success the command answered [True], nothing else was changed, the
    output file is there and is not empty, [size] is its size, and the score
    [s] that [compute_ssim_cv2] gives for the input and this output is not
    below the threshold and is the one in the method.  A failure is either
    that of the command, or a score [s] of the output below the threshold, in
    which case the output file has been deleted. *)
Definition converted (E : externals) (L : library) (cmd : list string)
    (in_file out_file : path) (threshold : float) (kind label : string)
    (w : world) (r : Perceptual.attempt) (w' : world) : Prop :=
  (spawns (procs w') ≤ S (spawns (procs w)))%nat ∧
  match r with
  | Perceptual.Done method size =>
      ∃ msg data s,
        Shell.run_cmd E cmd [out_file] 60 w = (Ok (true, msg), w') ∧
        PixelMetrics.compute_ssim_cv2 L in_file out_file w' = (Ok (Some s), w') ∧
        files w' !! out_file = Some data ∧ size_of data = size ∧ 0 < size ∧
        method = label +:+ "_ssim" +:+ format_3f L s ∧
        PrimFloat.ltb s threshold = false
  | Perceptual.Failed note =>
      Shell.run_cmd E cmd [out_file] 60 w = (Ok (false, note), w') ∨
      ∃ msg w1 s,
        Shell.run_cmd E cmd [out_file] 60 w = (Ok (true, msg), w1) ∧
        PixelMetrics.compute_ssim_cv2 L in_file out_file w1 = (Ok (Some s), w1) ∧
        note = kind +:+ " SSIM " +:+ format_3f L s +:+ " below threshold" ∧
        PrimFloat.ltb s threshold = true ∧
        w' = set_files (delete out_file) w1
  end.

End ToolSpec.

Module LosslessSpec.
Import Lossless.

(** The size of a candidate's file, as [file.stat().st_size] gives it. *)
Definition size_in (fs : gmap path content) (c : candidate) : Z :=
  match fs !! cand_file c with
  | Some data => size_of data
  | None => 0
  end.

(** The loop over [candidates] considers a candidate: its file is there and,
    when a target size is set, is not above it. *)
Definition eligible (a : args) (fs : gmap path content) (c : candidate) : bool :=
  ok c && bool_decide (is_Some (fs !! cand_file c)) &&
  negb (truthy_int (target_kb a) && (default 0 (target_kb a) * 1024 <? size_in fs c)).

(** The record [best] made of a candidate. *)
Definition as_best (fs : gmap path content) (c : candidate) : best :=
  BestOf (method c) (cand_file c) (size_in fs c) (note c).

(** A later candidate replaces [best] only when it is strictly smaller. *)
Definition smaller (fs : gmap path content) (best c : candidate) : candidate :=
  if size_in fs c <? size_in fs best then c else best.

(** The loop over [candidates], read off the files. *)
Fixpoint picked (a : args) (fs : gmap path content) (candidates : list candidate)
    (best_so_far : option candidate) : option candidate :=
  match candidates with
  | [] => best_so_far
  | c :: rest =>
      if eligible a fs c
      then picked a fs rest (Some (match best_so_far with
                                   | Some b => smaller fs b c
                                   | None => c
                                   end))
      else picked a fs rest best_so_far
  end.

(** What [process_file] has chosen, just before it promotes it: the file
    is there, has the size recorded, and respects the target if one is set. *)
Definition sized (a : args) (fs : gmap path content) (b : best) : Prop :=
  ∃ data, fs !! best_file b = Some data ∧ size_of data = best_size b ∧
          ∀ k, target_kb a = Some k → k ≠ 0 → best_size b ≤ k * 1024.

End LosslessSpec.

Module More.

(** A library without OpenCV in which nothing is found on the [PATH]. *)
Definition bare : library := {|
  shutil_which := λ _, None;
  pil_mode := λ _, "RGB";
  difference_bbox := λ _ _, inr false;
  transposed_size := λ _, inr (100, 100);
  pil_transpose_resize_save := λ c _ _, inr c;
  pil_thumbnail_save := λ c _, inr c;
  have_cv2 := false;
  cv2_imread := λ _, true;
  cv2_ssim := λ _ _, None;
  format_3f := λ _, "1.000";
|}.

(** A library with OpenCV, for which any two images have SSIM 1. *)
Definition with_cv2 : library := {|
  shutil_which := λ _, None;
  pil_mode := λ _, "RGB";
  difference_bbox := λ _ _, inr false;
  transposed_size := λ _, inr (100, 100);
  pil_transpose_resize_save := λ c _ _, inr c;
  pil_thumbnail_save := λ c _, inr c;
  have_cv2 := true;
  cv2_imread := λ _, true;
  cv2_ssim := λ _ _, Some 1%float;
  format_3f := λ _, "1.000";
|}.

(** An encoder binary that exits with status 0 having written two bytes to
    [out]; Pillow opens every file. *)
Definition writer (out : path) : externals := {|
  os_exec := λ _ _, ProcResult (Exited 0 "" "") [(out, Scenario.blob 2)];
  pil_open := λ _, inr (ImageInfo 100 100 false);
  pil_save := λ c _, inr c;
  pil_resize_save := λ c _, inr c;
  psnr_pixels := λ _ _, Some (0%float, infinity);
  have_skimage := false;
  ssim_pixels := λ _ _, None;
  first_number := λ _, None;
|}.

(** A library for which a two-byte file (what the encoder binary writes)
    is an RGB image and any other file a palette image, so that
    [files_identical] tells them apart by their modes. *)
Definition palette : library := {|
  shutil_which := λ _, None;
  pil_mode := λ c, if (length c =? 2)%nat then "RGB" else "P";
  difference_bbox := λ _ _, inr false;
  transposed_size := λ _, inr (100, 100);
  pil_transpose_resize_save := λ c _ _, inr c;
  pil_thumbnail_save := λ c _, inr c;
  have_cv2 := false;
  cv2_imread := λ _, true;
  cv2_ssim := λ _ _, None;
  format_3f := λ _, "1.000";
|}.

Definition lossless_webp : path := Scenario.out_dir // "photo_lossless.webp".
Definition temp_webp : path := Scenario.out_dir // "temp" // "photo.webp".
Definition temp_jpeg : path := Scenario.out_dir // "temp" // "photo_optim.jpg".

(** Pillow opens no file. *)
Definition cannot_open : externals := {|
  os_exec := λ _ _, ProcResult NotFound [];
  pil_open := λ _, inl "cannot identify image file";
  pil_save := λ c _, inr c;
  pil_resize_save := λ c _, inr c;
  psnr_pixels := λ _ _, None;
  have_skimage := false;
  ssim_pixels := λ _ _, None;
  first_number := λ _, None;
|}.

(** [jpeg-binary-search] with its default qualities, searching for 38 dB. *)
Definition jpeg_args : JpegJob.args :=
  JpegJob.Args 3000 30 95 95 false 1%float 38%float 450 false.

(** [lossless] with a target of one kilobyte. *)
Definition lossless_target1 : Lossless.args := Lossless.Args (Some 1) false None 4 15.

End More.

(** * Proofs *)

(** ** The monad *)

Lemma bind_ok {A B} (m : M A) (f : A → M B) w a w' :
  m w = (Ok a, w') → (m ≫= f) w = f a w'.
Proof. intros H. unfold mbind, M_bind. by rewrite H. Qed.

Lemma bind_raise {A B} (m : M A) (f : A → M B) w e w' :
  m w = (Raise e, w') → (m ≫= f) w = (Raise e, w').
Proof. intros H. unfold mbind, M_bind. by rewrite H. Qed.

Lemma ret_run {A} (a : A) w : (mret a : M A) w = (Ok a, w).
Proof. reflexivity. Qed.

(** ** The loop *)

Module SearchFacts.
Import Search SearchSpec.

Lemma mid_bounds lo hi : lo ≤ hi → lo ≤ (lo + hi) `div` 2 ≤ hi.
Proof. intros. split; [apply Z.div_le_lower_bound | apply Z.div_le_upper_bound]; lia. Qed.

Lemma bisect_loop_enough {B} (probe : Z → M (option B)) n m lo hi best w :
  (Z.to_nat (hi + 1 - lo) ≤ n)%nat → (Z.to_nat (hi + 1 - lo) ≤ m)%nat →
  bisect_loop n probe lo hi best w = bisect_loop m probe lo hi best w.
Proof.
  revert m lo hi best w.
  induction n as [|n IH]; intros [|m] lo hi best w Hn Hm; simpl; try reflexivity.
  - destruct (Z.leb_spec lo hi); [lia | reflexivity].
  - destruct (Z.leb_spec lo hi); [lia | reflexivity].
  - destruct (Z.leb_spec lo hi) as [Hle|]; [|reflexivity].
    pose proof (mid_bounds lo hi Hle).
    unfold mbind, M_bind. destruct (probe _ w) as [[[b|]|e] w1]; [| |reflexivity];
      apply IH; lia.
Qed.

(** The loop's own equation: the model runs exactly the [while lo <= hi] loop. *)
Lemma bisect_unfold {B} (probe : Z → M (option B)) lo hi best w :
  bisect probe lo hi best w =
  (if lo <=? hi then
     r ← probe ((lo + hi) `div` 2);
     match r with
     | Some b => bisect probe lo ((lo + hi) `div` 2 - 1) (Some b)
     | None => bisect probe ((lo + hi) `div` 2 + 1) hi best
     end
   else mret best) w.
Proof.
  unfold bisect. destruct (Z.leb_spec lo hi) as [Hle|Hgt].
  - pose proof (mid_bounds lo hi Hle).
    destruct (Z.to_nat (hi + 1 - lo)) as [|n] eqn:Hn; [lia|].
    simpl. destruct (Z.leb_spec lo hi); [|lia].
    unfold mbind, M_bind. destruct (probe _ w) as [[[b|]|e] w1]; [| |reflexivity];
      apply bisect_loop_enough; lia.
  - replace (Z.to_nat (hi + 1 - lo)) with 0%nat by lia. reflexivity.
Qed.

Lemma few_empty lo hi : hi < lo → few lo hi [].
Proof. intros. split; [constructor|]. split; [done|lia]. Qed.

(** One more attempt at the midpoint, then a search of the lower half. *)
Lemma few_lower lo hi vis :
  lo ≤ hi → few lo ((lo + hi) `div` 2 - 1) vis → few lo hi (vis ++ [(lo + hi) `div` 2]).
Proof.
  intros Hle (Hall & Hnil & Hpow). pose proof (mid_bounds lo hi Hle) as Hmid.
  set (mid := (lo + hi) `div` 2) in *. split; [|split].
  - apply Forall_app. split.
    + eapply Forall_impl; [exact Hall|]. simpl. lia.
    + constructor; [lia | constructor].
  - lia.
  - intros _. rewrite length_app. simpl.
    destruct (Z_lt_le_dec (mid - 1) lo) as [Hsm|Hbig].
    + rewrite (Hnil Hsm). simpl. lia.
    + specialize (Hpow Hbig).
      replace (Z.of_nat (length vis + 1)) with (Z.succ (Z.of_nat (length vis))) by lia.
      rewrite Z.pow_succ_r by lia. subst mid.
      Z.to_euclidean_division_equations. lia.
Qed.

(** One more attempt at the midpoint, then a search of the upper half. *)
Lemma few_upper lo hi vis :
  lo ≤ hi → few ((lo + hi) `div` 2 + 1) hi vis → few lo hi (vis ++ [(lo + hi) `div` 2]).
Proof.
  intros Hle (Hall & Hnil & Hpow). pose proof (mid_bounds lo hi Hle) as Hmid.
  set (mid := (lo + hi) `div` 2) in *. split; [|split].
  - apply Forall_app. split.
    + eapply Forall_impl; [exact Hall|]. simpl. lia.
    + constructor; [lia | constructor].
  - lia.
  - intros _. rewrite length_app. simpl.
    destruct (Z_lt_le_dec hi (mid + 1)) as [Hsm|Hbig].
    + rewrite (Hnil Hsm). simpl. lia.
    + specialize (Hpow Hbig).
      replace (Z.of_nat (length vis + 1)) with (Z.succ (Z.of_nat (length vis))) by lia.
      rewrite Z.pow_succ_r by lia. subst mid.
      Z.to_euclidean_division_equations. lia.
Qed.

(** The bound in its logarithmic form. *)
Lemma few_log2 lo hi vis :
  few lo hi vis → lo ≤ hi → Z.of_nat (length vis) ≤ Z.log2 (hi - lo + 1) + 1.
Proof.
  intros (_ & _ & Hpow) Hle. specialize (Hpow Hle).
  destruct (Z.log2_spec (hi - lo + 1)) as [_ Hup]; [lia|].
  pose proof (Z.log2_nonneg (hi - lo + 1)) as Hnn.
  rewrite Z.pow_succ_r in Hup by done.
  assert (Hlt : 2 ^ Z.of_nat (length vis) < 2 ^ (Z.log2 (hi - lo + 1) + 2)).
  { replace (Z.log2 (hi - lo + 1) + 2) with (Z.succ (Z.succ (Z.log2 (hi - lo + 1)))) by lia.
    rewrite !Z.pow_succ_r by lia. lia. }
  apply Z.pow_lt_mono_r_iff in Hlt; lia.
Qed.

Section Loop.
Context {B : Type} (probe : Z → M (option B)) (key : B → Z).
Context (passes : Z → bool) (Inv : world → Prop) (Post : B → world → Prop).
Context (lo0 hi0 : Z).

(** The loop ends, after few attempts, whatever the probe answers. *)
Lemma bisect_total :
  probe_runs probe Inv lo0 hi0 →
  ∀ n lo hi best w,
    Z.to_nat (hi + 1 - lo) = n → lo0 ≤ lo → hi ≤ hi0 → Inv w →
    ∃ r w' visited,
      bisect probe lo hi best w = (Ok r, w') ∧ Inv w' ∧
      encode_log w' = visited ++ encode_log w ∧ few lo hi visited.
Proof.
  intros Hprobe n. induction (lt_wf n) as [n _ IH].
  intros lo hi best w Hn Hlo Hhi HInv.
  rewrite bisect_unfold. destruct (Z.leb_spec lo hi) as [Hle|Hgt].
  - pose proof (mid_bounds lo hi Hle) as Hmid.
    destruct (Hprobe ((lo + hi) `div` 2) w ltac:(lia) HInv) as (r & w1 & Hrun & HInv1 & Hlog1).
    rewrite (bind_ok _ _ _ _ _ Hrun).
    destruct r as [b|].
    + destruct (IH (Z.to_nat ((lo + hi) `div` 2 - 1 + 1 - lo)) ltac:(lia) lo
                  ((lo + hi) `div` 2 - 1) (Some b) w1 eq_refl Hlo ltac:(lia) HInv1)
        as (r & w' & vis & Hrun' & HInv' & Hlog' & Hfew).
      exists r, w', (vis ++ [(lo + hi) `div` 2]).
      split; [exact Hrun'|]. split; [exact HInv'|].
      split; [by rewrite Hlog', Hlog1, <- app_assoc|]. by apply few_lower.
    + destruct (IH (Z.to_nat (hi + 1 - ((lo + hi) `div` 2 + 1))) ltac:(lia)
                  ((lo + hi) `div` 2 + 1) hi best w1 eq_refl ltac:(lia) Hhi HInv1)
        as (r & w' & vis & Hrun' & HInv' & Hlog' & Hfew).
      exists r, w', (vis ++ [(lo + hi) `div` 2]).
      split; [exact Hrun'|]. split; [exact HInv'|].
      split; [by rewrite Hlog', Hlog1, <- app_assoc|]. by apply few_upper.
  - exists best, w, []. rewrite ret_run. split; [done|]. split; [done|].
    split; [done|]. by apply few_empty.
Qed.

(** With a probe that answers by [passes], and [passes] monotone, the loop
    ends on the least passing quality. *)
Lemma bisect_spec :
  probe_spec probe key passes Inv Post lo0 hi0 →
  ∀ n lo hi best w,
    Z.to_nat (hi + 1 - lo) = n →
    lo0 ≤ lo → hi ≤ hi0 → Inv w → (∀ b, best = Some b → Post b w) →
    ∃ r w' visited,
      bisect probe lo hi best w = (Ok r, w') ∧ Inv w' ∧
      (∀ b, r = Some b → Post b w') ∧
      encode_log w' = visited ++ encode_log w ∧
      few lo hi visited ∧
      (monotone passes lo hi → least_or key passes lo hi best r).
Proof.
  intros Hprobe n. induction (lt_wf n) as [n _ IH].
  intros lo hi best w Hn Hlo Hhi HInv Hbest.
  rewrite bisect_unfold. destruct (Z.leb_spec lo hi) as [Hle|Hgt].
  - pose proof (mid_bounds lo hi Hle) as Hmid.
    destruct (Hprobe ((lo + hi) `div` 2) w ltac:(lia) HInv) as (r & w1 & Hrun & HInv1 & Hlog1 & Hkeep & Hr).
    rewrite (bind_ok _ _ _ _ _ Hrun).
    set (mid := (lo + hi) `div` 2) in *.
    destruct r as [b|].
    + destruct Hr as (Hp & Hk & HPost).
      destruct (IH (Z.to_nat (mid - 1 + 1 - lo)) ltac:(lia) lo (mid - 1) (Some b) w1
                  eq_refl Hlo ltac:(lia) HInv1)
        as (r & w' & vis & Hrun' & HInv' & HP' & Hlog' & Hfew & Hleast).
      { intros b' [= <-]. exact HPost. }
      exists r, w', (vis ++ [mid]). split; [exact Hrun'|]. split; [exact HInv'|].
      split; [exact HP'|]. split; [by rewrite Hlog', Hlog1, <- app_assoc|].
      split; [by apply few_lower|].
      intros Hmono.
      destruct Hleast as [[Hnone ->]|(b' & -> & Hb' & Hpb' & Hmin)].
      { intros q q' ? ? ?. apply Hmono; lia. }
      * right. exists b. unfold least_passing. rewrite Hk. split; [done|]. split; [lia|].
        split; [done|]. intros q Hq. apply Hnone. lia.
      * right. exists b'. split; [done|]. split; [lia|]. split; [done|]. exact Hmin.
    + destruct (IH (Z.to_nat (hi + 1 - (mid + 1))) ltac:(lia) (mid + 1) hi best w1
                  eq_refl ltac:(lia) Hhi HInv1)
        as (r & w' & vis & Hrun' & HInv' & HP' & Hlog' & Hfew & Hleast).
      { intros b' Hb'. apply Hkeep. by apply Hbest. }
      exists r, w', (vis ++ [mid]). split; [exact Hrun'|]. split; [exact HInv'|].
      split; [exact HP'|]. split; [by rewrite Hlog', Hlog1, <- app_assoc|].
      split; [by apply few_upper|].
      intros Hmono.
      assert (Hlow : ∀ q, lo ≤ q ≤ mid → passes q = false).
      { intros q Hq. destruct (passes q) eqn:Hpq; [|done].
        rewrite <- Hr. symmetry. apply (Hmono q mid); lia || done. }
      destruct Hleast as [[Hnone ->]|(b' & -> & Hb' & Hpb' & Hmin)].
      { intros q q' ? ? ?. apply Hmono; lia. }
      * left. split; [|done]. intros q Hq.
        destruct (Z_le_gt_dec q mid); [apply Hlow | apply Hnone]; lia.
      * right. exists b'. split; [done|]. split; [lia|]. split; [done|].
        intros q Hq. destruct (Z_le_gt_dec q mid); [apply Hlow | apply Hmin]; lia.
  - exists best, w, []. rewrite ret_run. split; [done|]. split; [done|].
    split; [done|]. split; [done|]. split; [by apply few_empty|].
    intros _. left. split; [|done]. intros q Hq. lia.
Qed.

(** With a probe that yields only records of what it tried, the loop ends
    on [best] or on the record of a quality it tried. *)
Lemma bisect_sound :
  probe_sound probe key Inv Post lo0 hi0 →
  ∀ n lo hi best w,
    Z.to_nat (hi + 1 - lo) = n →
    lo0 ≤ lo → hi ≤ hi0 → Inv w → (∀ b, best = Some b → Post b w) →
    ∃ r w' visited,
      bisect probe lo hi best w = (Ok r, w') ∧ Inv w' ∧
      (∀ b, r = Some b → Post b w') ∧
      encode_log w' = visited ++ encode_log w ∧
      few lo hi visited ∧
      (r = best ∨ ∃ b, r = Some b ∧ key b ∈ visited).
Proof.
  intros Hprobe n. induction (lt_wf n) as [n _ IH].
  intros lo hi best w Hn Hlo Hhi HInv Hbest.
  rewrite bisect_unfold. destruct (Z.leb_spec lo hi) as [Hle|Hgt].
  - pose proof (mid_bounds lo hi Hle) as Hmid.
    destruct (Hprobe ((lo + hi) `div` 2) w ltac:(lia) HInv)
      as (r & w1 & Hrun & HInv1 & Hlog1 & Hkeep & Hr).
    rewrite (bind_ok _ _ _ _ _ Hrun).
    set (mid := (lo + hi) `div` 2) in *.
    destruct r as [b|].
    + destruct (Hr b eq_refl) as [Hk HPost].
      destruct (IH (Z.to_nat (mid - 1 + 1 - lo)) ltac:(lia) lo (mid - 1) (Some b) w1
                  eq_refl Hlo ltac:(lia) HInv1)
        as (r & w' & vis & Hrun' & HInv' & HP' & Hlog' & Hfew & Hsound).
      { intros b' [= <-]. exact HPost. }
      exists r, w', (vis ++ [mid]). split; [exact Hrun'|]. split; [exact HInv'|].
      split; [exact HP'|]. split; [by rewrite Hlog', Hlog1, <- app_assoc|].
      split; [by apply few_lower|].
      right. destruct Hsound as [->|(b' & -> & Hin)].
      * exists b. split; [done|]. rewrite Hk. apply elem_of_app. right. by left.
      * exists b'. split; [done|]. apply elem_of_app. by left.
    + destruct (IH (Z.to_nat (hi + 1 - (mid + 1))) ltac:(lia) (mid + 1) hi best w1
                  eq_refl ltac:(lia) Hhi HInv1)
        as (r & w' & vis & Hrun' & HInv' & HP' & Hlog' & Hfew & Hsound).
      { intros b' Hb'. apply Hkeep. by apply Hbest. }
      exists r, w', (vis ++ [mid]). split; [exact Hrun'|]. split; [exact HInv'|].
      split; [exact HP'|]. split; [by rewrite Hlog', Hlog1, <- app_assoc|].
      split; [by apply few_upper|].
      destruct Hsound as [->|(b' & -> & Hin)]; [by left|].
      right. exists b'. split; [done|]. apply elem_of_app. by left.
  - exists best, w, []. rewrite ret_run. split; [done|]. split; [done|].
    split; [done|]. split; [done|]. split; [by apply few_empty|]. by left.
Qed.

End Loop.
End SearchFacts.

(** ** The metric functions *)

Module MetricsFacts.
Import MetricsSpec.
Section MetricsFacts.
Context (E : externals).

Lemma compute_mse_psnr_run orig comp w :
  Metrics.compute_mse_psnr E orig comp w =
  (Ok (psnr_of E (files w !! orig) (files w !! comp)), w).
Proof.
  unfold Metrics.compute_mse_psnr, try_except, Pil.open, psnr_of, get_files,
    mbind, M_bind, mret, M_ret, raise.
  simpl. destruct (files w !! orig) as [o|]; simpl; [|done].
  destruct (pil_open E o); simpl.
  { by destruct (files w !! comp). }
  destruct (files w !! comp) as [c|]; simpl; [|done].
  destruct (pil_open E c); simpl; [done|].
  by destruct (psnr_pixels E o c) as [[? ?]|].
Qed.

Lemma compute_ssim_skimage_run orig comp w :
  Metrics.compute_ssim_skimage E orig comp w =
  (Ok (ssim_of E (files w !! orig) (files w !! comp)), w).
Proof.
  unfold Metrics.compute_ssim_skimage, try_except, Pil.open, ssim_of, get_files,
    mbind, M_bind, mret, M_ret, raise.
  destruct (have_skimage E); simpl; [|done].
  destruct (files w !! orig) as [o|]; simpl; [|done].
  destruct (pil_open E o); simpl.
  { by destruct (files w !! comp). }
  destruct (files w !! comp) as [c|]; simpl; [|done].
  destruct (pil_open E c); simpl; [done|].
  by destruct (ssim_pixels E o c).
Qed.

End MetricsFacts.
End MetricsFacts.

(** ** [find_best_jpeg] *)

Module JpegFacts.
Import JpegSearch JpegSpec MetricsSpec SearchSpec SearchFacts MetricsFacts.
Section JpegFacts.
Context (E : externals).
Context (in_work_path orig_path tmp_dir : path).
Context (target_psnr target_ssim : float) (use_ssim : bool).

Lemma save_jpeg_pillow_run out_path q w :
  ∃ note,
    save_jpeg_pillow E in_work_path out_path q (Some 0) true true false w =
    match encoded E (files w !! in_work_path) q with
    | Some c => (Ok (true, None), set_files (<[out_path := c]>) w)
    | None => (Ok (false, Some note), w)
    end.
Proof.
  unfold save_jpeg_pillow, try_except, Pil.open, Pil.save, encoded, get_files,
    modify_files, mbind, M_bind, mret, M_ret, raise.
  simpl. destruct (files w !! in_work_path) as [i|]; simpl; [|by eexists].
  destruct (pil_open E i); simpl; [by eexists|].
  destruct (pil_save E i _); simpl; [by eexists|by exists ""].
Qed.

(** One iteration, step by step. *)
Lemma jpeg_try_quality_run q w :
  let cand := tmp_dir // ("cand_q" +:+ Py.str q +:+ ".jpg") in
  let w1 := World (files w) (next_tmp w) (procs w) (q :: encode_log w) in
  try_quality E in_work_path orig_path tmp_dir target_psnr target_ssim use_ssim q w =
  match encoded E (files w !! in_work_path) q with
  | Some c =>
      let w2 := set_files (<[cand := c]>) w1 in
      let psnr_val := (psnr_of E (files w2 !! orig_path) (Some c)).2 in
      let ssim_val := if use_ssim then ssim_of E (files w2 !! orig_path) (Some c) else None in
      (Ok (if threshold_passes use_ssim target_psnr target_ssim psnr_val ssim_val
           then Some (BestOf q cand psnr_val ssim_val (size_of c)) else None), w2)
  | None => (Ok None, w1)
  end.
Proof.
  intros cand w1. unfold try_quality. fold cand.
  destruct (save_jpeg_pillow_run cand q w1) as [note Hsave].
  unfold mbind at 1, M_bind at 1. simpl. fold w1.
  unfold mbind at 1, M_bind at 1. rewrite Hsave. simpl.
  destruct (encoded E (files w !! in_work_path) q) as [c|]; simpl; [|done].
  unfold mbind at 1, M_bind at 1. rewrite compute_mse_psnr_run. simpl.
  rewrite lookup_insert_eq.
  destruct (psnr_of E _ (Some c)) as [mse psnr_val] eqn:Hpsnr. simpl.
  unfold mbind at 1, M_bind at 1.
  assert (Hssim :
    (if use_ssim then Metrics.compute_ssim_skimage E orig_path cand else mret None)
      (set_files <[cand:=c]> w1)
    = (Ok (if use_ssim then ssim_of E (<[cand:=c]> (files w) !! orig_path) (Some c) else None),
       set_files <[cand:=c]> w1)).
  { destruct use_ssim; [|done]. rewrite compute_ssim_skimage_run. simpl.
    by rewrite lookup_insert_eq. }
  rewrite Hssim.
  destruct (threshold_passes _ _ _ _ _); [|done].
  unfold FS.stat_size, get_files, mbind, M_bind, mret, M_ret. simpl.
  by rewrite lookup_insert_eq.
Qed.

Lemma jpeg_try_quality_runs lo hi :
  probe_runs (try_quality E in_work_path orig_path tmp_dir target_psnr target_ssim use_ssim)
    (λ _, True) lo hi.
Proof.
  intros q w _ _. rewrite jpeg_try_quality_run.
  destruct (encoded E _ q); eexists _, _; (split; [reflexivity|]); done.
Qed.

Lemma jpeg_try_quality_spec input orig lo hi :
  not_a_candidate tmp_dir in_work_path → not_a_candidate tmp_dir orig_path →
  probe_spec (try_quality E in_work_path orig_path tmp_dir target_psnr target_ssim use_ssim)
    best_q (passes E input orig target_psnr target_ssim use_ssim)
    (λ w, files w !! in_work_path = input ∧ files w !! orig_path = orig)
    (λ _ _, True) lo hi.
Proof.
  intros Hin Horig q w _ [Hi Ho]. rewrite jpeg_try_quality_run. unfold passes.
  rewrite Hi. destruct (encoded E input q) as [c|]; simpl.
  - rewrite !lookup_insert_ne, Ho by apply Horig.
    destruct (threshold_passes _ _ _ _ _); eexists _, _; (split; [reflexivity|]); simpl;
      rewrite !lookup_insert_ne by (apply Hin || apply Horig); done.
  - eexists _, _. split; [reflexivity|]. done.
Qed.

(** When Pillow cannot encode the work image at any quality of the range,
    nothing is written and nothing passes. *)
Lemma jpeg_try_quality_fails input lo hi :
  (∀ q, lo ≤ q ≤ hi → encoded E input q = None) →
  probe_spec (try_quality E in_work_path orig_path tmp_dir target_psnr target_ssim use_ssim)
    best_q (λ _, false) (λ w, files w !! in_work_path = input) (λ _ _, True) lo hi.
Proof.
  intros Hnone q w Hq Hi. rewrite jpeg_try_quality_run, Hi, (Hnone q Hq).
  eexists _, _. split; [reflexivity|]. done.
Qed.

Lemma find_best_jpeg_total min_q max_q w :
  ∃ r w' visited,
    find_best_jpeg E in_work_path orig_path tmp_dir min_q max_q
      target_psnr target_ssim use_ssim w = (Ok r, w') ∧
    encode_log w' = visited ++ encode_log w ∧ few min_q max_q visited.
Proof.
  destruct (bisect_total _ _ min_q max_q (jpeg_try_quality_runs min_q max_q)
              _ min_q max_q None w eq_refl ltac:(lia) ltac:(lia) I)
    as (r & w' & vis & Hrun & _ & Hlog & Hfew).
  unfold find_best_jpeg. rewrite (bind_ok _ _ _ _ _ Hrun).
  destruct r; eexists _, _, vis; (split; [reflexivity|]); done.
Qed.

Lemma find_best_jpeg_least min_q max_q w :
  not_a_candidate tmp_dir in_work_path → not_a_candidate tmp_dir orig_path →
  let passes := passes E (files w !! in_work_path) (files w !! orig_path)
                  target_psnr target_ssim use_ssim in
  monotone passes min_q max_q →
  ∃ r w',
    find_best_jpeg E in_work_path orig_path tmp_dir min_q max_q
      target_psnr target_ssim use_ssim w = (Ok r, w') ∧
    ((none_passes passes min_q max_q ∧ r = Failure "no q met thresholds") ∨
     (∃ b, r = Success b ∧ least_passing passes min_q max_q (best_q b))).
Proof.
  intros Hin Horig passes Hmono.
  destruct (bisect_spec _ _ _ _ _ min_q max_q
              (jpeg_try_quality_spec (files w !! in_work_path) (files w !! orig_path)
                 min_q max_q Hin Horig)
              _ min_q max_q None w eq_refl ltac:(lia) ltac:(lia)
              (conj eq_refl eq_refl) ltac:(done))
    as (r & w' & vis & Hrun & _ & _ & _ & _ & Hleast).
  unfold find_best_jpeg. rewrite (bind_ok _ _ _ _ _ Hrun).
  destruct (Hleast Hmono) as [[Hnone ->]|(b & -> & Hb)]; eexists _, _;
    (split; [reflexivity|]); [left|right]; eauto.
Qed.

Lemma jpeg_try_quality_sound lo hi :
  probe_sound (try_quality E in_work_path orig_path tmp_dir target_psnr target_ssim use_ssim)
    best_q (λ _, True)
    (λ b _, threshold_passes use_ssim target_psnr target_ssim (best_psnr b) (best_ssim b)
            = true) lo hi.
Proof.
  intros q w _ _. rewrite jpeg_try_quality_run.
  destruct (encoded E _ q) as [c|]; simpl.
  - destruct (threshold_passes _ _ _ _ _) eqn:Hthr; eexists _, _;
      (split; [reflexivity|]); (split; [done|]); (split; [done|]); (split; [done|]).
    + by intros b [= <-].
    + by intros b [=].
  - eexists _, _. split; [reflexivity|]. split; [done|]. split; [done|]. split; [done|].
    by intros b [=].
Qed.

(** The search ends, after few attempts, and a success names a quality it
    tried whose recorded scores meet the threshold. *)
Lemma find_best_jpeg_sound min_q max_q w :
  ∃ r w' visited,
    find_best_jpeg E in_work_path orig_path tmp_dir min_q max_q
      target_psnr target_ssim use_ssim w = (Ok r, w') ∧
    encode_log w' = visited ++ encode_log w ∧ few min_q max_q visited ∧
    (max_q < min_q → r = Failure "no q met thresholds") ∧
    (∀ b, r = Success b →
       best_q b ∈ visited ∧
       threshold_passes use_ssim target_psnr target_ssim (best_psnr b) (best_ssim b) = true).
Proof.
  destruct (bisect_sound _ _ _ _ min_q max_q (jpeg_try_quality_sound min_q max_q)
              _ min_q max_q None w eq_refl ltac:(lia) ltac:(lia) I ltac:(done))
    as (r & w' & vis & Hrun & _ & HPost & Hlog & Hfew & Hsound).
  unfold find_best_jpeg. rewrite (bind_ok _ _ _ _ _ Hrun).
  destruct r as [b|]; eexists _, _, vis; (split; [reflexivity|]);
    (split; [exact Hlog|]); (split; [exact Hfew|]).
  - split.
    + intros Hlt. destruct Hfew as (_ & Hnil & _). rewrite (Hnil Hlt) in Hsound.
      destruct Hsound as [[=]|(b' & _ & Hin)]. by apply elem_of_nil in Hin.
    + intros b' [= <-]. split; [|by apply HPost].
      destruct Hsound as [[=]|(b' & [= <-] & Hin)]. done.
  - split; [done|]. by intros b [=].
Qed.

Lemma find_best_jpeg_encode_fails min_q max_q w :
  (∀ q, min_q ≤ q ≤ max_q → encoded E (files w !! in_work_path) q = None) →
  ∃ w',
    find_best_jpeg E in_work_path orig_path tmp_dir min_q max_q
      target_psnr target_ssim use_ssim w = (Ok (Failure "no q met thresholds"), w').
Proof.
  intros Hnone.
  destruct (bisect_spec _ _ _ _ _ min_q max_q
              (jpeg_try_quality_fails (files w !! in_work_path) min_q max_q Hnone)
              _ min_q max_q None w eq_refl ltac:(lia) ltac:(lia) eq_refl ltac:(done))
    as (r & w' & vis & Hrun & _ & _ & _ & _ & Hleast).
  unfold find_best_jpeg. rewrite (bind_ok _ _ _ _ _ Hrun).
  destruct Hleast as [[_ ->]|(b & _ & _ & [=] & _)]; [done|]. by eexists.
Qed.

End JpegFacts.
End JpegFacts.

(** ** [binary_search_quality] *)

Module HybridFacts.
Import Hybrid HybridSpec SearchSpec SearchFacts.

Lemma inside_child d name : inside d (d // name) = true.
Proof.
  unfold inside, child. simpl.
  rewrite bool_decide_true by done.
  rewrite bool_decide_true by by apply prefix_app_r.
  rewrite bool_decide_true; [done|].
  intros H. apply (f_equal length) in H. rewrite length_app in H. simpl in H. lia.
Qed.

Section Adapter.
Context (make_cand_fn : Z → path → M (bool * note)).
Context (metrics_fn : path → path → option string → M metrics).
Context (orig : path) (butter_bin : option string) (a : args).
Context (Inv : gmap path content → Prop) (dir : path).
Context (encode : Z → option content) (measure : content → metrics).
Context (Henc : encoder_law make_cand_fn Inv dir encode).
Context (Hmet : metrics_law metrics_fn orig butter_bin Inv dir measure).

Lemma hybrid_try_quality_spec lo hi :
  probe_spec (try_quality make_cand_fn metrics_fn orig a butter_bin dir) best_q
    (passes a encode measure) (λ w, Inv (files w)) (kept encode measure) lo hi.
Proof.
  intros q w _ HInv. unfold try_quality, passes.
  set (cand := dir // _).
  set (w1 := World (files w) (next_tmp w) (procs w) (q :: encode_log w)).
  destruct (Henc q cand w1 HInv (inside_child _ _))
    as (note & w2 & Hrun & [Hlog2 Hkeep2] & HInv2 & Hfile).
  unfold mbind at 1, M_bind at 1. simpl. fold w1.
  rewrite (bind_ok _ _ _ _ _ Hrun).
  assert (Hkept1 : ∀ b, kept encode measure b w → kept encode measure b w2).
  { intros b [Hb Hc]. split; [|done]. apply Hkeep2. exact Hb. }
  destruct (encode q) as [c|] eqn:Hq; simpl.
  - destruct (Hmet cand c w2 HInv2 (inside_child _ _) (Hfile c eq_refl))
      as (w3 & Hrun3 & [Hlog3 Hkeep3] & HInv3).
    rewrite (bind_ok _ _ _ _ _ Hrun3).
    assert (Hkept3 : ∀ b, kept encode measure b w → kept encode measure b w3).
    { intros b Hb. destruct (Hkept1 b Hb) as [Hb2 Hc]. split; [|done]. by apply Hkeep3. }
    destruct (threshold_passes a (measure c)); eexists _, _; (split; [reflexivity|]);
      (split; [done|]); (split; [by rewrite Hlog3, Hlog2|]); (split; [done|]); [|done].
    split; [done|]. split; [done|]. split; simpl.
    + apply Hkeep3. rewrite (Hfile c eq_refl). eauto.
    + eauto.
  - eexists _, _. split; [reflexivity|]. split; [done|]. split; [done|]. done.
Qed.

(** The whole search, under the two laws. *)
Lemma binary_search_quality_spec lo hi w :
  dir = Path (Temp "search_" (next_tmp w)) [] →
  Inv (files w) →
  ∃ r w' visited,
    binary_search_quality make_cand_fn metrics_fn orig lo hi a butter_bin w = (Ok r, w') ∧
    encode_log w' = visited ++ encode_log w ∧
    few lo hi visited ∧
    (monotone (passes a encode measure) lo hi →
       (none_passes (passes a encode measure) lo hi ∧ r = Failure) ∨
       (∃ q p c, r = Success q p (measure c) ∧ encode q = Some c ∧
                 is_Some (files w' !! p) ∧
                 least_passing (passes a encode measure) lo hi q)).
Proof.
  intros Hdir HInv. unfold binary_search_quality.
  set (w0 := World (files w) (S (next_tmp w)) (procs w) (encode_log w)).
  destruct (bisect_spec _ _ _ _ _ lo hi (hybrid_try_quality_spec lo hi)
              _ lo hi None w0 eq_refl ltac:(lia) ltac:(lia) HInv ltac:(done))
    as (r & w1 & vis & Hrun & _ & Hpost & Hlog & Hfew & Hleast).
  unfold mbind at 1, M_bind at 1. simpl. fold w0. rewrite <- Hdir.
  unfold try_finally, mbind at 1, M_bind at 1. rewrite Hrun.
  destruct r as [b|].
  - destruct (Hpost b eq_refl) as [[c0 Hfile] (c & Hc & Hm)].
    unfold FS.move, get_files, modify_files, mbind, M_bind, mret, M_ret. simpl.
    rewrite Hfile. simpl.
    eexists _, _, vis. split; [reflexivity|]. split; [exact Hlog|]. split; [exact Hfew|].
    intros Hmono. right.
    destruct (Hleast Hmono) as [[_ [=]]|(b' & [= <-] & Hb)].
    exists (best_q b), (dir // ("best_q" +:+ Py.str (best_q b) +:+ ".bin")), c.
    rewrite Hm. split; [done|]. split; [done|]. split; [|done].
    simpl. rewrite lookup_insert_eq. eauto.
  - simpl. eexists _, _, vis. split; [reflexivity|]. split; [exact Hlog|]. split; [exact Hfew|].
    intros Hmono. left.
    destruct (Hleast Hmono) as [[Hnone _]|(b' & [=] & _)]. done.
Qed.

End Adapter.
End HybridFacts.


(** * The searches *)

(** ** The Pillow callbacks of [process_file] are adapters *)

Module PillowFacts.
Import Hybrid HybridSpec MetricsSpec.

Lemma pillow_save_jpeg_run E work_in p q keep w :
  ∃ note,
    pillow_save_jpeg E work_in p q keep w =
    match pillow_encode E (jpeg_kwargs keep) (files w !! work_in) q with
    | Some c => (Ok (true, None), set_files (<[p := c]>) w)
    | None => (Ok (false, Some note), w)
    end.
Proof.
  unfold pillow_save_jpeg, try_except, Pil.open, Pil.save, pillow_encode, jpeg_kwargs,
    get_files, modify_files, mbind, M_bind, mret, M_ret, raise.
  simpl. destruct (files w !! work_in) as [i|]; simpl; [|by eexists].
  destruct (pil_open E i); simpl; [by eexists|].
  destruct (pil_save E i _); simpl; [by eexists|by exists ""].
Qed.

Lemma pillow_save_webp_run E work_in p q w :
  ∃ note,
    pillow_save_webp E work_in p q w =
    match pillow_encode E webp_kwargs (files w !! work_in) q with
    | Some c => (Ok (true, None), set_files (<[p := c]>) w)
    | None => (Ok (false, Some note), w)
    end.
Proof.
  unfold pillow_save_webp, try_except, Pil.open, Pil.save, pillow_encode, webp_kwargs,
    get_files, modify_files, mbind, M_bind, mret, M_ret, raise.
  simpl. destruct (files w !! work_in) as [i|]; simpl; [|by eexists].
  destruct (pil_open E i); simpl; [by eexists|].
  destruct (pil_save E i _); simpl; [by eexists|by exists ""].
Qed.


Section Laws.
Context (E : externals) (work_in : path) (input : option content) (dir : path).
Context (Hwork : inside dir work_in = false).






End Laws.


End PillowFacts.


(** ** The "passes iff quality ≥ 52" scenario *)

Module ScenarioFacts.
Import Scenario.

Lemma monotone_from (passes : Z → bool) (t lo hi : Z) :
  (∀ q, passes q = (t <=? q)) → SearchSpec.monotone passes lo hi.
Proof. intros H q q' _ Hqq' _. rewrite !H. lia. Qed.


Lemma jpeg_files :
  files jpeg_world !! jpeg_work = Some (blob 3) ∧
  files jpeg_world !! jpeg_orig = Some (blob 3).
Proof. split; reflexivity. Qed.

Lemma jpeg_passes52 q :
  JpegSpec.passes pillow52 (files jpeg_world !! jpeg_work) (files jpeg_world !! jpeg_orig)
    38%float 1%float false q = (52 <=? q).
Proof.
  destruct jpeg_files as [-> ->].
  unfold JpegSpec.passes, JpegSpec.encoded. simpl.
  unfold no_opts_quality. simpl. by destruct (52 <=? q).
Qed.

Lemma jpeg_work_not_a_candidate : JpegSpec.not_a_candidate jpeg_tmp jpeg_work.
Proof. intros q. unfold jpeg_work, child. simpl. intros [=]. Qed.

Lemma jpeg_orig_not_a_candidate : JpegSpec.not_a_candidate jpeg_tmp jpeg_orig.
Proof. intros q. unfold jpeg_orig, child. simpl. intros [=]. Qed.

(** The scenario of the specification, run with the Pillow callback of
    [process_file]: the search settles on 52. *)
Example binary_search_quality_52 :
  (Hybrid.binary_search_quality (Hybrid.make_jpeg pillow52 original args38 no_bins)
     (Hybrid.metrics_fn pillow52) original 30 95 args38 None one_file_world).1
  = Ok (Hybrid.Success 52 (Path (Temp "search_" 0) ["best_q52.bin"])
          (Hybrid.Metrics (Some 40%float) None None)).
Proof. vm_compute. reflexivity. Qed.

Example find_best_jpeg_52 :
  JpegSearch.best_q <$>
    (match (JpegSearch.find_best_jpeg pillow52 jpeg_work jpeg_orig jpeg_tmp 30 95
              38%float 1%float false jpeg_world).1 with
     | Ok (JpegSearch.Success b) => Some b
     | _ => None
     end)
  = Some 52.
Proof. vm_compute. reflexivity. Qed.

End ScenarioFacts.


(** Under monotonic passing, with at least one passing quality in the
    range, [find_best_jpeg] returns a successful result whose recorded
    quality is the least passing quality of the range, whatever Pillow and
    the metric functions compute, provided that neither the work image nor
    the original is one of the candidate files [tmp_dir / cand_q<N>.jpg] that
    the search writes. *)
Theorem find_best_jpeg_least_passing E in_work_path orig_path tmp_dir min_q max_q
    target_psnr target_ssim use_ssim w :
  JpegSpec.not_a_candidate tmp_dir in_work_path →
  JpegSpec.not_a_candidate tmp_dir orig_path →
  SearchSpec.monotone
    (JpegSpec.passes E (files w !! in_work_path) (files w !! orig_path)
       target_psnr target_ssim use_ssim) min_q max_q →
  (∃ q, min_q ≤ q ≤ max_q ∧
        JpegSpec.passes E (files w !! in_work_path) (files w !! orig_path)
          target_psnr target_ssim use_ssim q = true) →
  ∃ b w',
    JpegSearch.find_best_jpeg E in_work_path orig_path tmp_dir min_q max_q
      target_psnr target_ssim use_ssim w = (Ok (JpegSearch.Success b), w') ∧
    SearchSpec.least_passing
      (JpegSpec.passes E (files w !! in_work_path) (files w !! orig_path)
         target_psnr target_ssim use_ssim) min_q max_q (JpegSearch.best_q b).
Proof.
  intros Hin Horig Hmono (q0 & Hq0 & Hp0).
  destruct (JpegFacts.find_best_jpeg_least E in_work_path orig_path tmp_dir
              target_psnr target_ssim use_ssim min_q max_q w Hin Horig Hmono)
    as (r & w' & Hrun & [[Hnone _]|(b & -> & Hb)]).
  - rewrite (Hnone q0 Hq0) in Hp0. discriminate.
  - exists b, w'. done.
Qed.

Lemma find_best_jpeg_least_passing_witness :
  ∃ b w',
    JpegSearch.find_best_jpeg Scenario.pillow52 Scenario.jpeg_work Scenario.jpeg_orig
      Scenario.jpeg_tmp 30 95 38%float 1%float false Scenario.jpeg_world
      = (Ok (JpegSearch.Success b), w') ∧
    SearchSpec.least_passing
      (JpegSpec.passes Scenario.pillow52
         (files Scenario.jpeg_world !! Scenario.jpeg_work)
         (files Scenario.jpeg_world !! Scenario.jpeg_orig) 38%float 1%float false)
      30 95 (JpegSearch.best_q b).
Proof.
  apply find_best_jpeg_least_passing.
  - exact ScenarioFacts.jpeg_work_not_a_candidate.
  - exact ScenarioFacts.jpeg_orig_not_a_candidate.
  - exact (ScenarioFacts.monotone_from _ 52 30 95 ScenarioFacts.jpeg_passes52).
  - exists 60. split; [lia|]. reflexivity.
Defined.

(** C1 at its failing input.  With Pillow as in [pillow70], passing is
    monotonic: the image passes exactly from quality 70 on.  For a file named
    [photo.jpg], a job of [jpeg_binary_search] with the default range 30..95
    settles on 70.  For the same bytes in a file named [cand_q62.jpg], the
    work image is [tmp_root / cand_q62.jpg], which is also where
    [find_best_jpeg] writes its first candidate (the midpoint of 30..95 is
    62): the work image is replaced by its encoding at quality 62, every
    later attempt encodes that, none passes, the search fails, and the job
    falls back to quality 95 and an output that does not meet the target. *)
Theorem search_overwrites_work_image_named_like_candidate :
  (∀ q, JpegSpec.passes Scenario.pillow70 (Some (Scenario.blob 3)) (Some (Scenario.blob 3))
          38%float 1%float false q = (70 <=? q))
  ∧
  (JpegJob.process_file Scenario.pillow70 More.bare Scenario.jpeg_orig Scenario.out_dir
     More.jpeg_args Scenario.photo_jpg_world).1
  = Ok (JpegJob.JobResult "/in/photo.jpg" 3 2 false None (Some 70))
  ∧
  (let r := JpegSearch.find_best_jpeg Scenario.pillow70
              (Path (Temp "jpgopt_" 0) ["cand_q62.jpg"]) Scenario.cand_q62
              (Path (Temp "jpgopt_" 0) []) 30 95 38%float 1%float false
              (World (<[Path (Temp "jpgopt_" 0) ["cand_q62.jpg"] := Scenario.blob 3]>
                        (files Scenario.cand_q62_world)) 1 [] []) in
   r.1 = Ok (JpegSearch.Failure "no q met thresholds") ∧
   encode_log r.2 = [95; 94; 93; 91; 87; 79; 62] ∧
   files r.2 !! Path (Temp "jpgopt_" 0) ["cand_q62.jpg"] = Some (Scenario.blob 1))
  ∧
  (let r := JpegJob.process_file Scenario.pillow70 More.bare Scenario.cand_q62
              Scenario.out_dir More.jpeg_args Scenario.cand_q62_world in
   r.1 = Ok (JpegJob.JobResult "/in/cand_q62.jpg" 3 1 false None (Some 95)) ∧
   files r.2 !! (Scenario.out_dir // "cand_q62.jpg") = Some (Scenario.blob 1)).
Proof.
  split; [|split; [|split]].
  - intros q. unfold JpegSpec.passes, JpegSpec.encoded. simpl.
    unfold Scenario.no_opts_quality. simpl. by destruct (70 <=? q).
  - vm_compute. reflexivity.
  - vm_compute. done.
  - vm_compute. done.
Qed.

Lemma none_passes_monotone passes lo hi :
  SearchSpec.none_passes passes lo hi → SearchSpec.monotone passes lo hi.
Proof. intros Hnone q q' Hq Hqq' Hq' Hp. rewrite Hnone in Hp by lia. discriminate. Qed.

Lemma none_passes_empty passes lo hi : hi < lo → SearchSpec.none_passes passes lo hi.
Proof. intros Hlt q Hq. lia. Qed.

(** ** [run_cmd] *)

Module ShellFacts.
Import Shell ShellSpec.
Section ShellFacts.
Context (E : externals).

Lemma check_outpaths_run expected full_output w :
  ∃ msg,
    check_outpaths expected full_output w
      = (Ok (forallb (produced (files w)) expected, msg), w) ∧
    (forallb (produced (files w)) expected = true → msg = full_output).
Proof.
  induction expected as [|p rest IH]; simpl.
  - by exists full_output.
  - unfold FS.exists_, FS.stat_size, get_files, produced, mbind, M_bind, mret, M_ret.
    simpl. destruct (files w !! p) as [c|] eqn:Hp; simpl.
    + rewrite Hp. simpl. destruct (size_of c =? 0); simpl.
      * eexists. split; [reflexivity|]. discriminate.
      * exact IH.
    + eexists. split; [reflexivity|]. discriminate.
Qed.

(** Every way [run_cmd] can go. *)
Lemma run_cmd_cases cmd expected_outpaths timeout w :
  ∃ ok msg w',
    run_cmd E cmd expected_outpaths timeout w = (Ok (ok, msg), w') ∧
    match cmd with
    | [] => ok = false ∧ w' = w
    | exe :: _ =>
        let r := os_exec E cmd (files w) in
        match status r with
        | NotFound =>
            ok = false ∧ w' = w ∧
            msg = "Command not found: " +:+ exe +:+ ". Please ensure it's in your PATH."
        | SpawnError m =>
            ok = false ∧ w' = w ∧ msg = "An unexpected error occurred: " +:+ m
        | TimedOut =>
            ok = false ∧
            procs w' = EvKill cmd :: EvSpawn cmd :: procs w ∧
            files w' = after_writes (writes r) (files w) ∧
            msg = "Command timed out after " +:+ Py.str timeout +:+ "s: " +:+ exe
        | Exited returncode stdout stderr =>
            procs w' = EvSpawn cmd :: procs w ∧
            files w' = after_writes (writes r) (files w) ∧
            if returncode =? 0
            then ok = forallb (produced (files w')) expected_outpaths ∧
                 (ok = true → msg = stdout +:+ stderr)
            else ok = false ∧
                 msg = "Command failed (code " +:+ Py.str returncode +:+ "): " +:+ exe
                       +:+ ". Error: " +:+ (stdout +:+ stderr)
        end
    end.
Proof.
  unfold run_cmd, try_bound, Popen.
  destruct cmd as [|exe rest]; simpl.
  { eexists _, _, _. split; [reflexivity|]. done. }
  destruct (os_exec E (exe :: rest) (files w)) as [st ws] eqn:Hexec. simpl.
  destruct st as [|m| |rc out err]; simpl.
  - eexists _, _, _. split; [reflexivity|]. done.
  - eexists _, _, _. split; [reflexivity|]. done.
  - unfold communicate, modify_files, mbind, M_bind, raise. simpl.
    eexists _, _, _. split; [reflexivity|]. done.
  - unfold communicate, returncode, modify_files, mbind at 1, M_bind at 1.
    simpl. unfold mbind at 1, M_bind at 1. simpl.
    destruct (rc =? 0) eqn:Hrc; simpl.
    + set (w1 := set_files _ _).
      destruct (check_outpaths_run expected_outpaths (out +:+ err) w1)
        as (msg & Hrun & Hmsg).
      rewrite Hrun. eexists _, _, _. split; [reflexivity|]. done.
    + eexists _, _, _. split; [reflexivity|]. done.
Qed.

End ShellFacts.
End ShellFacts.

(** C10.  [run_cmd] never raises: for every command, list of expected
    outputs and timeout it returns a pair [(success, message)].  The pair is
    [(False, ...)] when the command is empty, when the executable is missing,
    when starting it raises anything else, on timeout (the child is then
    killed), and on a non-zero exit status; after exit status 0 it is [True]
    exactly when every expected output exists with a size other than zero. *)
Theorem run_cmd_never_raises E cmd expected_outpaths timeout w :
  ∃ ok msg w',
    Shell.run_cmd E cmd expected_outpaths timeout w = (Ok (ok, msg), w') ∧
    match cmd with
    | [] => ok = false ∧ w' = w
    | exe :: _ =>
        let r := os_exec E cmd (files w) in
        match status r with
        | NotFound =>
            ok = false ∧ w' = w ∧
            msg = "Command not found: " +:+ exe +:+ ". Please ensure it's in your PATH."
        | SpawnError m =>
            ok = false ∧ w' = w ∧ msg = "An unexpected error occurred: " +:+ m
        | TimedOut =>
            ok = false ∧
            procs w' = EvKill cmd :: EvSpawn cmd :: procs w ∧
            files w' = ShellSpec.after_writes (writes r) (files w) ∧
            msg = "Command timed out after " +:+ Py.str timeout +:+ "s: " +:+ exe
        | Exited returncode stdout stderr =>
            procs w' = EvSpawn cmd :: procs w ∧
            files w' = ShellSpec.after_writes (writes r) (files w) ∧
            if returncode =? 0
            then ok = forallb (ShellSpec.produced (files w')) expected_outpaths ∧
                 (ok = true → msg = stdout +:+ stderr)
            else ok = false ∧
                 msg = "Command failed (code " +:+ Py.str returncode +:+ "): " +:+ exe
                       +:+ ". Error: " +:+ (stdout +:+ stderr)
        end
    end.
Proof. apply ShellFacts.run_cmd_cases. Qed.

(** ** Selection *)

Module SelectFacts.
Import SelectSpec.

Lemma first_smallest_le {A} (key : A → Z) best l x :
  first_smallest key best l → x ∈ l → key best ≤ key x.
Proof.
  intros (l1 & l2 & -> & H1 & H2) Hx.
  apply elem_of_app in Hx as [Hx|Hx]; [specialize (H1 x Hx); lia|].
  apply elem_of_cons in Hx as [->|Hx]; [lia|]. by apply H2.
Qed.

Lemma first_smallest_elem {A} (key : A → Z) best l :
  first_smallest key best l → best ∈ l.
Proof. intros (l1 & l2 & -> & _). apply elem_of_app. right. left. Qed.

Lemma foldl_first_smallest {A} (key : A → Z) cs :
  ∀ seen best,
    first_smallest key best seen →
    first_smallest key
      (foldl (λ best c, if key c <? key best then c else best) best cs) (seen ++ cs).
Proof.
  induction cs as [|x cs IH]; intros seen best Hbest; simpl.
  - by rewrite app_nil_r.
  - replace (seen ++ x :: cs) with ((seen ++ [x]) ++ cs) by by rewrite <- app_assoc.
    apply IH. destruct (Z.ltb_spec (key x) (key best)) as [Hlt|Hge].
    + exists seen, []. split; [done|]. split.
      * intros y Hy. pose proof (first_smallest_le key best seen y Hbest Hy). lia.
      * intros y Hy. by apply elem_of_nil in Hy.
    + destruct Hbest as (l1 & l2 & -> & H1 & H2).
      exists l1, (l2 ++ [x]). split; [by rewrite <- app_assoc|]. split; [exact H1|].
      intros y Hy. apply elem_of_app in Hy as [Hy|Hy]; [by apply H2|].
      apply list_elem_of_singleton in Hy as ->. lia.
Qed.

(** [min(l, key=...)] returns the first smallest element. *)
Lemma min_by_first_smallest {A} (key : A → Z) c cs :
  first_smallest key (Py.min_by key c cs) (c :: cs).
Proof.
  apply (foldl_first_smallest key cs [c] c).
  exists [], []. split; [done|]. split; intros y Hy; by apply elem_of_nil in Hy.
Qed.

(** Three steps in a row, each contributing its own candidates. *)
Lemma three_steps {A} (s1 s2 s3 : M (list A)) (P1 P2 P3 : list A → Prop) :
  (∀ w l w', s1 w = (Ok l, w') → P1 l) →
  (∀ w l w', s2 w = (Ok l, w') → P2 l) →
  (∀ w l w', s3 w = (Ok l, w') → P3 l) →
  ∀ w l w',
    (l1 ← s1; l2 ← s2; l3 ← s3; mret (l1 ++ l2 ++ l3)) w = (Ok l, w') →
    ∃ l1 l2 l3, l = l1 ++ l2 ++ l3 ∧ P1 l1 ∧ P2 l2 ∧ P3 l3.
Proof.
  intros H1 H2 H3 w l w'. unfold mbind, M_bind, mret, M_ret.
  destruct (s1 w) as [[l1|e1] w1] eqn:E1; [|done].
  destruct (s2 w1) as [[l2|e2] w2] eqn:E2; [|done].
  destruct (s3 w2) as [[l3|e3] w3] eqn:E3; [|done].
  intros [= <- <-]. exists l1, l2, l3.
  split; [done|]. split; [by eapply H1|]. split; [by eapply H2|by eapply H3].
Qed.

Lemma at_most_one_sublist {A T} (tag : A → T) t1 t2 t3 l1 l2 l3 :
  at_most_one tag t1 l1 → at_most_one tag t2 l2 → at_most_one tag t3 l3 →
  tag <$> (l1 ++ l2 ++ l3) `sublist_of` [t1; t2; t3].
Proof.
  intros [->|(c1 & -> & <-)] [->|(c2 & -> & <-)] [->|(c3 & -> & <-)]; simpl;
    repeat first [apply sublist_nil_l | apply sublist_skip; fail | constructor ].
Qed.

Lemma hybrid_appended_one format r w l w' :
  Hybrid.appended format r w = (Ok l, w') → at_most_one Hybrid.fmt format l.
Proof.
  unfold Hybrid.appended. destruct r as [q p m|].
  - unfold FS.stat_size, get_files, mbind, M_bind, mret, M_ret, raise. simpl.
    destruct (files w !! p); simpl; [|done].
    intros [= <- <-]. right. by eexists.
  - intros [= <- <-]. by left.
Qed.

Lemma hybrid_stage_one (cond : bool) (m : M Hybrid.search_result) format w l w' :
  (if cond then r ← m; Hybrid.appended format r else mret []) w = (Ok l, w') →
  at_most_one Hybrid.fmt format l.
Proof.
  destruct cond.
  - unfold mbind, M_bind. destruct (m w) as [[r|e] w1]; [|done].
    apply hybrid_appended_one.
  - intros [= <- <-]. by left.
Qed.

(** The candidates of a job come in the order JPEG, WebP, AVIF. *)
Lemma hybrid_candidates_in_order E work_in a b w l w' :
  Hybrid.collect_candidates E work_in a b w = (Ok l, w') →
  Hybrid.fmt <$> l `sublist_of` ["jpg"; "webp"; "avif"].
Proof.
  intros Hrun. unfold Hybrid.collect_candidates in Hrun.
  eapply three_steps in Hrun as (l1 & l2 & l3 & -> & H1 & H2 & H3);
    [by apply at_most_one_sublist
    | intros ? ? ?; apply hybrid_stage_one ..].
Qed.

Lemma perceptual_stage_one (cond : bool) (m : M Perceptual.attempt) out w l w' :
  (if cond then r ← m; mret (Perceptual.appended r out) else mret []) w = (Ok l, w') →
  at_most_one Perceptual.cand_file out l.
Proof.
  destruct cond.
  - unfold mbind, M_bind, mret, M_ret. destruct (m w) as [[[method size|note]|e] w1]; [| |done].
    + intros [= <- <-]. right. by eexists.
    + intros [= <- <-]. by left.
  - intros [= <- <-]. by left.
Qed.

Lemma perceptual_candidates_in_order oj cw ca source temp_dir base_name a b w l w' :
  Perceptual.collect_candidates oj cw ca source temp_dir base_name a b w = (Ok l, w') →
  Perceptual.cand_file <$> l `sublist_of`
    [temp_dir // (base_name +:+ "_optim.jpg");
     temp_dir // (base_name +:+ ".webp");
     temp_dir // (base_name +:+ ".avif")].
Proof.
  intros Hrun. unfold Perceptual.collect_candidates in Hrun.
  eapply three_steps in Hrun as (l1 & l2 & l3 & -> & H1 & H2 & H3);
    [by apply at_most_one_sublist
    | intros ? ? ?; apply perceptual_stage_one ..].
Qed.

Lemma unlink_if_exists_run p w :
  ∃ w', Perceptual.unlink_if_exists p w = (Ok tt, w').
Proof.
  unfold Perceptual.unlink_if_exists, FS.exists_, FS.unlink, get_files, modify_files,
    mbind, M_bind, mret, M_ret. simpl.
  destruct (files w !! p) as [d|] eqn:Hp; simpl; [|by eexists].
  rewrite Hp. by eexists.
Qed.

Lemma unlink_all_run (l : list Perceptual.candidate) w :
  ∃ r w', mapM (λ cand, Perceptual.unlink_if_exists (Perceptual.cand_file cand)) l w
          = (Ok r, w').
Proof.
  revert w. induction l as [|c l IH]; intros w; simpl.
  - by eexists _, _.
  - destruct (unlink_if_exists_run (Perceptual.cand_file c) w) as [w1 Hrun1].
    rewrite (bind_ok _ _ _ _ _ Hrun1).
    destruct (IH w1) as (r & w' & Hrun).
    rewrite (bind_ok _ _ _ _ _ Hrun). by eexists _, _.
Qed.

End SelectFacts.

(** The scenario of the specification: A is 120000 bytes, B is 95000 bytes;
    B is promoted and the recorded size is 95000. *)
Example select_output_picks_b :
  (Hybrid.select_output Scenario.original Scenario.out_dir Scenario.fresh_result
     [Scenario.cand_a; Scenario.cand_b] Scenario.two_world).1
  = Ok (Hybrid.JobResult "/in/photo.png" 200000 "webp (q=40)" (Some 95000) None).
Proof. vm_compute. reflexivity. Qed.

(** A tie goes to the candidate listed first. *)
Example min_by_tie :
  Py.min_by Hybrid.bytes
    (Hybrid.Candidate "jpg" 7 Scenario.original 1)
    [Hybrid.Candidate "webp" 7 Scenario.original 2;
     Hybrid.Candidate "avif" 9 Scenario.original 3]
  = Hybrid.Candidate "jpg" 7 Scenario.original 1.
Proof. reflexivity. Qed.

(** ** The threshold *)

(** C4, as stated, fails: with [--target-butter 0] a butteraugli score that
    is present does not decide.  Here the score 5.0 is above the target 0.0,
    so the butteraugli threshold would reject, yet the candidate passes on
    its PSNR of 50 dB. *)
Lemma butter_score_present_but_not_authoritative :
  Hybrid.m_butter Scenario.metrics_butter5 = Some 5%float ∧
  Py.le 5%float (Hybrid.target_butter Scenario.args_butter0) = false ∧
  Hybrid.threshold_passes Scenario.args_butter0 Scenario.metrics_butter5 = true.
Proof. repeat split; reflexivity. Qed.

(** C4, amended.  Exactly one threshold decides, by fixed priority: the
    butteraugli threshold ([score <= target]) when the butteraugli target is
    non-zero and the score is present; otherwise the SSIM threshold
    ([score >= target]) when SSIM is requested and present; otherwise the PSNR
    threshold ([score >= target]), a missing or zero PSNR counting as 0.  A
    metrics map with missing entries falls through this order, and the loop
    body goes on to return instead of raising. *)
Theorem threshold_priority_order a m :
  (∀ b, Py.truthy (Hybrid.target_butter a) = true → Hybrid.m_butter m = Some b →
        Hybrid.threshold_passes a m = Py.le b (Hybrid.target_butter a))
  ∧
  (∀ s, Py.truthy (Hybrid.target_butter a) = false ∨ Hybrid.m_butter m = None →
        Hybrid.use_ssim a = true → Hybrid.m_ssim m = Some s →
        Hybrid.threshold_passes a m = Py.ge s (Hybrid.target_ssim a))
  ∧
  (Py.truthy (Hybrid.target_butter a) = false ∨ Hybrid.m_butter m = None →
   Hybrid.use_ssim a = false ∨ Hybrid.m_ssim m = None →
   Hybrid.threshold_passes a m
     = Py.ge (Py.or_zero (Hybrid.m_psnr m)) (Hybrid.target_psnr a))
  ∧
  (∀ make_cand_fn metrics_fn orig butter_bin Inv encode tmpdir q w,
     Inv (files w) →
     HybridSpec.encoder_law make_cand_fn Inv tmpdir encode →
     HybridSpec.metrics_law metrics_fn orig butter_bin Inv tmpdir (λ _, m) →
     ∃ r w',
       Hybrid.try_quality make_cand_fn metrics_fn orig a butter_bin tmpdir q w = (Ok r, w') ∧
       (r = None ∨ r = Some (Hybrid.BestOf q (tmpdir // ("q" +:+ Py.str q +:+ ".tmp")) m)) ∧
       (is_Some r ↔ is_Some (encode q) ∧ Hybrid.threshold_passes a m = true)).
Proof.
  split; [|split; [|split]].
  - unfold Hybrid.threshold_passes. intros b -> ->. done.
  - unfold Hybrid.threshold_passes. intros s Hb -> ->. destruct Hb as [-> | ->]; [done|].
    by destruct (Py.truthy _).
  - unfold Hybrid.threshold_passes. intros Hb Hs.
    destruct Hb as [-> | ->], Hs as [-> | ->]; try done;
      repeat match goal with
        | |- context [match ?x with _ => _ end] => destruct x; try done
        end.
  - intros make_cand_fn metrics_fn orig butter_bin Inv encode tmpdir q w HInv Henc Hmet.
    unfold Hybrid.try_quality.
    set (cand := tmpdir // _).
    set (w1 := World (files w) (next_tmp w) (procs w) (q :: encode_log w)).
    destruct (Henc q cand w1 HInv (HybridFacts.inside_child _ _))
      as (note & w2 & Hrun2 & _ & HInv2 & Hfile).
    unfold mbind at 1, M_bind at 1. simpl. fold w1.
    rewrite (bind_ok _ _ _ _ _ Hrun2).
    destruct (encode q) as [c|] eqn:Hc; simpl.
    + destruct (Hmet cand c w2 HInv2 (HybridFacts.inside_child _ _) (Hfile c eq_refl))
        as (w3 & Hrun3 & _).
      rewrite (bind_ok _ _ _ _ _ Hrun3).
      destruct (Hybrid.threshold_passes a m) eqn:Hthr; eexists _, _;
        (split; [reflexivity|]).
      * split; [by right|]. split; [eauto|eauto].
      * split; [by left|]. split; [intros [? [=]]|]. intros [_ [=]].
    + eexists _, _. split; [reflexivity|]. split; [by left|].
      split; [intros [? [=]]|]. intros [[? [=]] _].
Qed.

Lemma threshold_priority_order_witness :
  Hybrid.threshold_passes Scenario.args38 (Hybrid.Metrics None (Some 1%float) (Some 2%float))
  = Py.le 2%float 1%float ∧
  Hybrid.threshold_passes Scenario.args_butter0 Scenario.metrics_butter5
  = Py.ge (Py.or_zero (Some 50%float)) 38%float.
Proof.
  split.
  - exact (proj1 (threshold_priority_order Scenario.args38
                    (Hybrid.Metrics None (Some 1%float) (Some 2%float)))
             2%float eq_refl eq_refl).
  - exact (proj1 (proj2 (proj2 (threshold_priority_order Scenario.args_butter0
                                  Scenario.metrics_butter5)))
             (or_introl eq_refl) (or_introl eq_refl)).
Defined.

(** ** The encoders *)

Module EncoderFacts.
Import Hybrid ShellSpec.
Section EncoderFacts.
Context (E : externals).

(** A [run_cmd] that answers [True] has found its expected output, not empty. *)
Lemma run_cmd_true_produced cmd out timeout w msg w' :
  Shell.run_cmd E cmd [out] timeout w = (Ok (true, msg), w') →
  produced (files w') out = true.
Proof.
  intros Hrun.
  destruct (ShellFacts.run_cmd_cases E cmd [out] timeout w)
    as (ok & msg' & w2 & Hrun' & Hcases).
  rewrite Hrun in Hrun'. injection Hrun' as <- <- <-.
  destruct cmd as [|exe rest]; [by destruct Hcases|].
  simpl in Hcases. destruct (status _) as [|m| |rc out' err].
  - by destruct Hcases.
  - by destruct Hcases.
  - by destruct Hcases.
  - destruct Hcases as (_ & _ & Hok). destruct (rc =? 0).
    + destruct Hok as [Hok _]. simpl in Hok. symmetry in Hok.
      by apply andb_true_iff in Hok as [? _].
    + by destruct Hok.
Qed.





End EncoderFacts.
End EncoderFacts.

(** ** The searches of [process_file], whatever the tools do *)

Module RunFacts.
Import Hybrid HybridSpec SearchSpec SearchFacts ShellSpec.

Lemma grows_refl w : grows w w.
Proof. by repeat split. Qed.

Lemma grows_trans w1 w2 w3 : grows w1 w2 → grows w2 w3 → grows w1 w3.
Proof.
  intros (Hn1 & Hl1 & Hf1) (Hn2 & Hl2 & Hf2).
  split; [congruence|]. split; [congruence|]. eauto.
Qed.

Lemma writes_grow ws (fs : gmap path content) p :
  is_Some (fs !! p) → is_Some (foldl (λ fs kv, <[kv.1 := kv.2]> fs) fs ws !! p).
Proof.
  revert fs. induction ws as [|[q c] ws IH]; intros fs Hs; simpl; [done|].
  apply IH. simpl. apply lookup_insert_is_Some'. by right.
Qed.

Lemma grows_write p c w : grows w (set_files (<[p := c]>) w).
Proof.
  split; [done|]. split; [done|]. intros p' Hs. simpl.
  apply lookup_insert_is_Some'. by right.
Qed.

Lemma produced_is_Some fs p : produced fs p = true → is_Some (fs !! p).
Proof. unfold produced. destruct (fs !! p); [by eexists|done]. Qed.

Section Tools.
Context (E : externals).

(** [run_cmd] returns, takes no temporary name, leaves the encode log
    alone and deletes nothing; when it answers [True] the expected outputs
    are there. *)
Lemma run_cmd_grows cmd outs timeout w :
  ∃ ok msg w',
    Shell.run_cmd E cmd outs timeout w = (Ok (ok, msg), w') ∧ grows w w' ∧
    (ok = true → forallb (produced (files w')) outs = true).
Proof.
  unfold Shell.run_cmd, Shell.try_bound, Shell.Popen.
  destruct cmd as [|exe rest]; simpl.
  { eexists _, _, _. split; [reflexivity|]. split; [apply grows_refl|done]. }
  destruct (os_exec E (exe :: rest) (files w)) as [st ws] eqn:Hexec. simpl.
  assert (Hgrow : ∀ pr,
            grows w (World (foldl (λ fs kv, <[kv.1 := kv.2]> fs) (files w) ws)
                       (next_tmp w) pr (encode_log w))).
  { intros pr. split; [done|]. split; [done|]. intros p Hs. simpl. by apply writes_grow. }
  destruct st as [|m| |rc out err]; simpl.
  - eexists _, _, _. split; [reflexivity|]. split; [apply grows_refl|done].
  - eexists _, _, _. split; [reflexivity|]. split; [apply grows_refl|done].
  - unfold Shell.communicate, modify_files, mbind, M_bind, raise. simpl.
    eexists _, _, _. split; [reflexivity|]. split; [apply Hgrow|done].
  - unfold Shell.communicate, Shell.returncode, modify_files, mbind at 1, M_bind at 1.
    simpl. unfold mbind at 1, M_bind at 1. simpl.
    destruct (rc =? 0) eqn:Hrc; simpl.
    + set (w1 := set_files _ _).
      destruct (ShellFacts.check_outpaths_run outs (out +:+ err) w1) as (msg & Hrun & Hmsg).
      rewrite Hrun. eexists _, _, _. split; [reflexivity|]. split; [apply Hgrow|done].
    + eexists _, _, _. split; [reflexivity|]. split; [apply Hgrow|done].
Qed.

Lemma with_note_runs cmd out w :
  ∃ ok note w',
    with_note (Shell.run_cmd E cmd [out] 60) w = (Ok (ok, note), w') ∧ grows w w' ∧
    (ok = true → is_Some (files w' !! out)).
Proof.
  destruct (run_cmd_grows cmd [out] 60 w) as (ok & msg & w' & Hrun & Hg & Hok).
  exists ok, (Some msg), w'. unfold with_note. rewrite (bind_ok _ _ _ _ _ Hrun).
  split; [done|]. split; [done|]. intros ->. specialize (Hok eq_refl). simpl in Hok.
  apply andb_true_iff in Hok as [Hok _]. by apply produced_is_Some.
Qed.

Lemma pillow_save_jpeg_runs work_in keep : encoder_runs (λ q p, pillow_save_jpeg E work_in p q keep).
Proof.
  intros q p w. destruct (PillowFacts.pillow_save_jpeg_run E work_in p q keep w) as [note H].
  rewrite H. destruct (pillow_encode _ _ _ _) as [c|]; eexists _, _, _;
    (split; [reflexivity|]).
  - split; [apply grows_write|]. intros _. simpl. rewrite lookup_insert_eq. by eexists.
  - split; [apply grows_refl|done].
Qed.

Lemma pillow_save_webp_runs work_in : encoder_runs (λ q p, pillow_save_webp E work_in p q).
Proof.
  intros q p w. destruct (PillowFacts.pillow_save_webp_run E work_in p q w) as [note H].
  rewrite H. destruct (pillow_encode _ _ _ _) as [c|]; eexists _, _, _;
    (split; [reflexivity|]).
  - split; [apply grows_write|]. intros _. simpl. rewrite lookup_insert_eq. by eexists.
  - split; [apply grows_refl|done].
Qed.

(** Each of the three callbacks of [process_file] always returns. *)
Lemma encoder_of_runs work_in a b make : encoder_of E work_in a b make → encoder_runs make.
Proof.
  intros [ | | ] q p w.
  - unfold make_jpeg. destruct (Py.truthy_str (cjpeg b)).
    + apply with_note_runs.
    + apply pillow_save_jpeg_runs.
  - unfold make_webp. destruct (Py.truthy_str (cwebp b)).
    + apply with_note_runs.
    + apply pillow_save_webp_runs.
  - apply with_note_runs.
Qed.

Lemma run_butteraugli_runs orig cand butter w :
  ∃ r w', Metrics.run_butteraugli E orig cand butter w = (Ok r, w') ∧ grows w w'.
Proof.
  unfold Metrics.run_butteraugli. destruct butter as [bin|].
  2:{ eexists _, _. split; [reflexivity|]. apply grows_refl. }
  destruct (negb _).
  { eexists _, _. split; [reflexivity|]. apply grows_refl. }
  destruct (run_cmd_grows [bin; path_str orig; path_str cand] [] 30 w)
    as (ok & msg & w' & Hrun & Hg & _).
  unfold try_except. rewrite (bind_ok _ _ _ _ _ Hrun).
  destruct ok; simpl; eexists _, _; (split; [reflexivity|]); done.
Qed.

Lemma metrics_fn_runs : metrics_runs (metrics_fn E).
Proof.
  intros orig p butter w. unfold metrics_fn.
  unfold mbind at 1, M_bind at 1. rewrite MetricsFacts.compute_mse_psnr_run.
  destruct (MetricsSpec.psnr_of E _ _) as [mse psnr]. simpl.
  unfold mbind at 1, M_bind at 1. rewrite MetricsFacts.compute_ssim_skimage_run.
  destruct (Py.truthy_str butter).
  - destruct (run_butteraugli_runs orig p butter w) as (r & w' & Hrun & Hg).
    rewrite (bind_ok _ _ _ _ _ Hrun). by eexists _, _.
  - eexists _, _. split; [reflexivity|]. apply grows_refl.
Qed.

End Tools.

Section Search.
Context (make_cand_fn : Z → path → M (bool * note)).
Context (metrics_fn : path → path → option string → M metrics).
Context (orig : path) (butter_bin : option string) (a : args).
Context (Hmake : encoder_runs make_cand_fn) (Hmet : metrics_runs metrics_fn).

Lemma hybrid_try_quality_sound dir n (fs0 : gmap path content) lo hi :
  probe_sound (try_quality make_cand_fn metrics_fn orig a butter_bin dir) best_q
    (λ w, next_tmp w = n ∧ ∀ p, is_Some (fs0 !! p) → is_Some (files w !! p))
    (λ b w, is_Some (files w !! best_path b) ∧ inside dir (best_path b) = true ∧
            threshold_passes a (best_metrics b) = true) lo hi.
Proof.
  intros q w _ [Hn Hfs]. unfold try_quality.
  set (cand := dir // _).
  set (w1 := World (files w) (next_tmp w) (procs w) (q :: encode_log w)).
  destruct (Hmake q cand w1) as (ok & note & w2 & Hrun & (Hn2 & Hlog2 & Hkeep2) & Hok).
  assert (Hn2' : next_tmp w2 = n) by (by rewrite Hn2).
  unfold mbind at 1, M_bind at 1. simpl. fold w1.
  rewrite (bind_ok _ _ _ _ _ Hrun).
  destruct ok; simpl.
  - destruct (Hmet orig cand butter_bin w2) as (m & w3 & Hrun3 & Hn3 & Hlog3 & Hkeep3).
    rewrite (bind_ok _ _ _ _ _ Hrun3).
    destruct (threshold_passes a m) eqn:Hthr; eexists _, _; (split; [reflexivity|]);
      (split; [split; [by rewrite Hn3|]; intros p Hp; apply Hkeep3, Hkeep2, Hfs, Hp|]);
      (split; [by rewrite Hlog3, Hlog2|]);
      (split; [intros b (Hb & Hin & Hp); split; [by apply Hkeep3, Hkeep2|done]|]).
    + intros b [= <-]. simpl. split; [done|]. split; [by apply Hkeep3, Hok|].
      split; [apply HybridFacts.inside_child|done].
    + by intros b [=].
  - eexists _, _. split; [reflexivity|].
    split; [split; [done|]; intros p Hp; apply Hkeep2, Hfs, Hp|].
    split; [done|].
    split; [intros b (Hb & Hin & Hp); split; [by apply Hkeep2|done]|].
    by intros b [=].
Qed.

(** The search returns, after few attempts; it takes one temporary name and
    deletes nothing outside its own directory; a success names a quality it
    tried, whose metrics meet the threshold, and the file [best_q<N>.bin] of
    its directory, which is there. *)
Lemma search_runs lo hi w :
  ∃ r w' visited,
    binary_search_quality make_cand_fn metrics_fn orig lo hi a butter_bin w = (Ok r, w') ∧
    next_tmp w' = S (next_tmp w) ∧
    encode_log w' = visited ++ encode_log w ∧ few lo hi visited ∧
    (∀ p, inside (Path (Temp "search_" (next_tmp w)) []) p = false →
          is_Some (files w !! p) → is_Some (files w' !! p)) ∧
    (hi < lo → r = Failure) ∧
    (∀ q p m, r = Success q p m →
       q ∈ visited ∧ threshold_passes a m = true ∧ is_Some (files w' !! p) ∧
       p = Path (Temp "search_" (next_tmp w)) [] // ("best_q" +:+ Py.str q +:+ ".bin")).
Proof.
  unfold binary_search_quality.
  set (dir := Path (Temp "search_" (next_tmp w)) []).
  set (w0 := World (files w) (S (next_tmp w)) (procs w) (encode_log w)).
  destruct (bisect_sound _ _ _ _ lo hi
              (hybrid_try_quality_sound dir (S (next_tmp w)) (files w) lo hi)
              _ lo hi None w0 eq_refl ltac:(lia) ltac:(lia) ltac:(done) ltac:(done))
    as (r & w1 & vis & Hrun & [Hn1 Hfs1] & HPost & Hlog & Hfew & Hsound).
  unfold mbind at 1, M_bind at 1. simpl. fold w0. fold dir.
  unfold try_finally, mbind at 1, M_bind at 1. rewrite Hrun.
  destruct r as [b|].
  - destruct (HPost b eq_refl) as ([c Hfile] & Hin & Hthr).
    unfold FS.move, get_files, modify_files, mbind, M_bind, mret, M_ret. simpl.
    rewrite Hfile. simpl.
    eexists _, _, vis. split; [reflexivity|]. simpl.
    split; [done|]. split; [exact Hlog|]. split; [exact Hfew|]. split; [|split].
    + intros p Hout Hs. apply lookup_insert_is_Some'. right.
      rewrite lookup_delete_ne; [by apply Hfs1|]. intros <-. congruence.
    + intros Hlt. destruct Hfew as (_ & Hnil & _). rewrite (Hnil Hlt) in Hsound.
      destruct Hsound as [[=]|(b' & _ & Hb')]. by apply elem_of_nil in Hb'.
    + intros q p m [= <- <- <-]. split; [|split; [done|split; [|done]]].
      * destruct Hsound as [[=]|(b' & [= <-] & Hb')]. done.
      * rewrite lookup_insert_eq. by eexists.
  - simpl. eexists _, _, vis. split; [reflexivity|].
    split; [done|]. split; [exact Hlog|]. split; [exact Hfew|].
    split; [intros p _ Hs; by apply Hfs1|]. split; [done|]. by intros q p m [=].
Qed.

(** When the encoder fails at every quality of the range, so does the search. *)
Lemma search_of_failing_encoder lo hi w :
  (∀ q p w1, lo ≤ q ≤ hi → ∃ note w2, make_cand_fn q p w1 = (Ok (false, note), w2)) →
  ∃ w', binary_search_quality make_cand_fn metrics_fn orig lo hi a butter_bin w
        = (Ok Failure, w').
Proof.
  intros Hfail. unfold binary_search_quality.
  set (dir := Path (Temp "search_" (next_tmp w)) []).
  set (w0 := World (files w) (S (next_tmp w)) (procs w) (encode_log w)).
  assert (Hprobe : probe_spec (try_quality make_cand_fn metrics_fn orig a butter_bin dir)
                     best_q (λ _, false) (λ _, True) (λ _ _, True) lo hi).
  { intros q w1 Hq _. unfold try_quality.
    set (cand := dir // _).
    set (w2 := World (files w1) (next_tmp w1) (procs w1) (q :: encode_log w1)).
    destruct (Hfail q cand w2 Hq) as (note & w3 & Hrun).
    destruct (Hmake q cand w2) as (ok & note' & w3' & Hrun' & (_ & Hlog & _) & _).
    rewrite Hrun in Hrun'. injection Hrun' as <- <- <-.
    unfold mbind at 1, M_bind at 1. simpl. fold w2.
    rewrite (bind_ok _ _ _ _ _ Hrun). simpl.
    eexists _, _. split; [reflexivity|]. done. }
  destruct (bisect_spec _ _ _ _ _ lo hi Hprobe _ lo hi None w0 eq_refl
              ltac:(lia) ltac:(lia) I ltac:(done))
    as (r & w1 & vis & Hrun & _ & _ & _ & _ & Hleast).
  unfold mbind at 1, M_bind at 1. simpl. fold w0. fold dir.
  unfold try_finally, mbind at 1, M_bind at 1. rewrite Hrun.
  destruct Hleast as [[_ ->]|(b & _ & _ & [=] & _)].
  { intros q q' _ _ _ [=]. }
  simpl. by eexists.
Qed.

End Search.
End RunFacts.

(** C5.  Both quality searches end, for every range and whatever the tools
    do, after at most [log2 (hi - lo + 1) + 1] encode attempts, all at
    qualities of the range; an empty range is a failure without any attempt;
    a success names a quality that was tried and whose scores met the
    threshold, so that a search in which no attempt passes fails; and a
    search whose encoder fails at every quality of the range fails.  For
    [binary_search_quality] this is stated with each of the three encoder
    callbacks and the metrics callback of [process_file]; moreover, for any
    callbacks that are adapters for [encode] and [measure], it fails when no
    quality of the range passes.  For [find_best_jpeg] it is stated for
    whatever Pillow and the metric functions compute. *)
Theorem quality_search_terminates_with_few_attempts :
  (∀ E work_in a b make lo hi w,
     HybridSpec.encoder_of E work_in a b make →
     ∃ r w' visited,
       Hybrid.binary_search_quality make (Hybrid.metrics_fn E) work_in lo hi a
         (Hybrid.butter b) w = (Ok r, w') ∧
       encode_log w' = visited ++ encode_log w ∧
       Forall (λ q, lo ≤ q ≤ hi) visited ∧
       (lo ≤ hi → Z.of_nat (length visited) ≤ Z.log2 (hi - lo + 1) + 1) ∧
       (hi < lo → visited = [] ∧ r = Hybrid.Failure) ∧
       (∀ q p m, r = Hybrid.Success q p m →
          q ∈ visited ∧ Hybrid.threshold_passes a m = true) ∧
       ((∀ q p w1, lo ≤ q ≤ hi → ∃ note w2, make q p w1 = (Ok (false, note), w2)) →
        r = Hybrid.Failure))
  ∧
  (∀ make_cand_fn metrics_fn orig butter_bin a Inv encode measure lo hi w,
     Inv (files w) →
     HybridSpec.encoder_law make_cand_fn Inv (Path (Temp "search_" (next_tmp w)) []) encode →
     HybridSpec.metrics_law metrics_fn orig butter_bin Inv
       (Path (Temp "search_" (next_tmp w)) []) measure →
     SearchSpec.none_passes (HybridSpec.passes a encode measure) lo hi →
     ∃ w', Hybrid.binary_search_quality make_cand_fn metrics_fn orig lo hi a butter_bin w
           = (Ok Hybrid.Failure, w'))
  ∧
  (∀ E in_work_path orig_path tmp_dir min_q max_q target_psnr target_ssim use_ssim w,
     ∃ r w' visited,
       JpegSearch.find_best_jpeg E in_work_path orig_path tmp_dir min_q max_q
         target_psnr target_ssim use_ssim w = (Ok r, w') ∧
       encode_log w' = visited ++ encode_log w ∧
       Forall (λ q, min_q ≤ q ≤ max_q) visited ∧
       (min_q ≤ max_q → Z.of_nat (length visited) ≤ Z.log2 (max_q - min_q + 1) + 1) ∧
       (max_q < min_q → visited = [] ∧ r = JpegSearch.Failure "no q met thresholds") ∧
       (∀ b, r = JpegSearch.Success b →
          JpegSearch.best_q b ∈ visited ∧
          JpegSearch.threshold_passes use_ssim target_psnr target_ssim
            (JpegSearch.best_psnr b) (JpegSearch.best_ssim b) = true) ∧
       ((∀ q, min_q ≤ q ≤ max_q → JpegSpec.encoded E (files w !! in_work_path) q = None) →
        r = JpegSearch.Failure "no q met thresholds")).
Proof.
  split; [|split].
  - intros E work_in a b make lo hi w Hmake.
    pose proof (RunFacts.encoder_of_runs E work_in a b make Hmake) as Hruns.
    destruct (RunFacts.search_runs make (Hybrid.metrics_fn E) work_in (Hybrid.butter b) a
                Hruns (RunFacts.metrics_fn_runs E) lo hi w)
      as (r & w' & vis & Hrun & _ & Hlog & Hfew & _ & Hempty & Hsound).
    exists r, w', vis. split; [exact Hrun|]. split; [exact Hlog|].
    split; [by destruct Hfew|]. split; [by apply SearchFacts.few_log2|].
    split; [|split].
    + intros Hlt. split; [|by apply Hempty]. destruct Hfew as (_ & Hnil & _). by apply Hnil.
    + intros q p m Hr. destruct (Hsound q p m Hr) as (Hq & Hthr & _). done.
    + intros Hfail.
      destruct (RunFacts.search_of_failing_encoder make (Hybrid.metrics_fn E) work_in (Hybrid.butter b) a
                  Hruns lo hi w Hfail) as [w2 Hrun2].
      rewrite Hrun in Hrun2. by injection Hrun2.
  - intros make_cand_fn metrics_fn orig butter_bin a Inv encode measure lo hi w
      HInv Henc Hmet Hnone.
    destruct (HybridFacts.binary_search_quality_spec make_cand_fn metrics_fn orig
                butter_bin a Inv _ encode measure Henc Hmet lo hi w eq_refl HInv)
      as (r & w' & vis & Hrun & _ & _ & Hleast).
    exists w'. rewrite Hrun.
    destruct (Hleast (none_passes_monotone _ _ _ Hnone))
      as [[_ ->]|(q & p & c & _ & _ & _ & Hq & Hp & _)]; [done|].
    rewrite (Hnone q Hq) in Hp. discriminate.
  - intros E in_work_path orig_path tmp_dir min_q max_q target_psnr target_ssim use_ssim w.
    destruct (JpegFacts.find_best_jpeg_sound E in_work_path orig_path tmp_dir
                target_psnr target_ssim use_ssim min_q max_q w)
      as (r & w' & vis & Hrun & Hlog & Hfew & Hempty & Hsound).
    exists r, w', vis. split; [exact Hrun|]. split; [exact Hlog|].
    split; [by destruct Hfew|]. split; [by apply SearchFacts.few_log2|].
    split; [|split; [exact Hsound|]].
    + intros Hlt. split; [|by apply Hempty]. destruct Hfew as (_ & Hnil & _). by apply Hnil.
    + intros Hnone.
      destruct (JpegFacts.find_best_jpeg_encode_fails E in_work_path orig_path tmp_dir
                  target_psnr target_ssim use_ssim min_q max_q w Hnone) as [w2 Hrun2].
      rewrite Hrun in Hrun2. by injection Hrun2.
Qed.

Lemma quality_search_terminates_with_few_attempts_witness :
  ∃ r w' visited,
    Hybrid.binary_search_quality
      (Hybrid.make_jpeg Scenario.pillow52 Scenario.original Scenario.args38 Scenario.no_bins)
      (Hybrid.metrics_fn Scenario.pillow52) Scenario.original 30 95 Scenario.args38
      (Hybrid.butter Scenario.no_bins) Scenario.one_file_world = (Ok r, w') ∧
    encode_log w' = visited ++ encode_log Scenario.one_file_world ∧
    Forall (λ q, 30 ≤ q ≤ 95) visited ∧
    (30 ≤ 95 → Z.of_nat (length visited) ≤ Z.log2 (95 - 30 + 1) + 1) ∧
    (95 < 30 → visited = [] ∧ r = Hybrid.Failure) ∧
    (∀ q p m, r = Hybrid.Success q p m →
       q ∈ visited ∧ Hybrid.threshold_passes Scenario.args38 m = true) ∧
    ((∀ q p w1, 30 ≤ q ≤ 95 →
        ∃ note w2,
          Hybrid.make_jpeg Scenario.pillow52 Scenario.original Scenario.args38
            Scenario.no_bins q p w1 = (Ok (false, note), w2)) →
     r = Hybrid.Failure).
Proof.
  apply (proj1 quality_search_terminates_with_few_attempts Scenario.pillow52
           Scenario.original Scenario.args38 Scenario.no_bins _ 30 95
           Scenario.one_file_world).
  apply HybridSpec.jpeg_encoder.
Defined.


(** ** An attempt that leaves no output *)

Module UnproducedFacts.
Import ShellSpec MetricsSpec.

Section Unproduced.
Context (E : externals) (msg : string).
Context (Hopen : pil_open E [] = inl msg).








End Unproduced.
End UnproducedFacts.




(** C3 at its failing input.  A JPEG job searching 50..52 with Pillow tries
    51 (fails the threshold) and 52 (passes).  After [process_file] has
    returned, having promoted the winner and removed its [work_] directory,
    the candidate written for 51 is still in the [search_] directory that
    [binary_search_quality] made and never removes.  When every quality
    fails the threshold, both candidates stay behind. *)
Theorem search_candidates_left_behind :
  (let r := Hybrid.process_file Scenario.pillow52 Scenario.original Scenario.out_dir
              Scenario.args_50_52 Scenario.no_bins Scenario.one_file_world in
   r.1 = Ok (Hybrid.JobResult "/in/photo.png" 3 "jpg (q=52)" (Some 2) None) ∧
   files r.2 !! (Scenario.out_dir // "photo.jpg") = Some (Scenario.blob 2) ∧
   files r.2 !! Path (Temp "search_" 1) ["q51.tmp"] = Some (Scenario.blob 1) ∧
   size (files r.2) = 3%nat)
  ∧
  (let r := Hybrid.process_file Scenario.pillow52 Scenario.original Scenario.out_dir
              Scenario.args_unreachable Scenario.no_bins Scenario.one_file_world in
   r.1 = Ok (Hybrid.JobResult "/in/photo.png" 3 "none" None
               (Some "No candidates met criteria")) ∧
   files r.2 !! (Scenario.out_dir // "photo.png") = Some (Scenario.blob 3) ∧
   files r.2 !! Path (Temp "search_" 1) ["q51.tmp"] = Some (Scenario.blob 1) ∧
   files r.2 !! Path (Temp "search_" 1) ["q52.tmp"] = Some (Scenario.blob 2) ∧
   size (files r.2) = 4%nat).
Proof. split; vm_compute; done. Qed.

Lemma two_orders (completed : list nat) :
  [0; 1]%nat ≡ₚ completed → completed = [0; 1]%nat ∨ completed = [1; 0]%nat.
Proof. apply Permutation_length_2_inv. Qed.

(** C6 at its failing input.  A batch of two files, the first of which can
    no longer be read when its job starts ([in_path.stat()] raises before
    the [try] block of [process_file]).  In whichever order the two jobs
    complete: in [hybrid_perceptual.run] the exception leaves
    [fut.result()] and ends the run, so that no result is returned, although
    the second job did run and wrote its output; in [perceptual.run] the
    exception is caught and logged, and the file is missing from the
    results. *)
Theorem failed_job_aborts_or_is_omitted (completed : list nat) :
  [0; 1]%nat ≡ₚ completed →
  (let r := Hybrid.run Scenario.pillow52 completed [Scenario.gone; Scenario.original]
              Scenario.out_dir Scenario.args_50_52 Scenario.no_bins
              Scenario.one_file_world in
   r.1 = Raise (FileNotFoundError "[Errno 2] No such file or directory: '/in/gone.png'") ∧
   files r.2 !! (Scenario.out_dir // "photo.jpg") = Some (Scenario.blob 2))
  ∧
  (Perceptual.run Scenario.never_resize Scenario.never_jpeg Scenario.never_convert
     Scenario.never_convert completed [Scenario.gone; Scenario.original] Scenario.out_dir
     Scenario.perceptual_args Scenario.perceptual_no_bins Scenario.one_file_world).1
  = Ok [Perceptual.JobResult "/in/photo.png" (Some (Py.to_kb 3)) (Some (Py.to_kb 3))
          (Some "none") None
          (Some "No compression method was successful or met quality threshold.")].
Proof. intros [-> | ->]%two_orders; split; vm_compute; done. Qed.

Lemma failed_job_aborts_or_is_omitted_witness :
  (Hybrid.run Scenario.pillow52 [1; 0]%nat [Scenario.gone; Scenario.original]
     Scenario.out_dir Scenario.args_50_52 Scenario.no_bins Scenario.one_file_world).1
  = Raise (FileNotFoundError "[Errno 2] No such file or directory: '/in/gone.png'").
Proof.
  apply (failed_job_aborts_or_is_omitted [1; 0]%nat). apply Permutation_swap.
Defined.

(** ** What a job may touch *)

Module FrameFacts.
Import FrameSpec.

Lemma holds_ret {A} (Q : A → Prop) (a : A) : Q a → holds Q (mret a).
Proof. intros Ha w. split; [done|]. by intros a' [= <-]. Qed.

Lemma holds_raise {A} (Q : A → Prop) e : holds Q (raise e).
Proof. intros w. split; [done|]. intros a [=]. Qed.

Lemma holds_weaken {A} (Q R : A → Prop) (m : M A) :
  holds Q m → (∀ a, Q a → R a) → holds R m.
Proof. intros Hm HQR w. destruct (Hm w) as [Hf Hq]. split; [done|]. eauto. Qed.

Lemma holds_bind {A B} (Q : A → Prop) (R : B → Prop) (m : M A) (f : A → M B) :
  holds Q m → (∀ a, Q a → holds R (f a)) → holds R (m ≫= f).
Proof.
  intros Hm Hf w. destruct (Hm w) as [Hfr Hq].
  unfold mbind, M_bind. destruct (m w) as [[a|e] w1]; simpl in *.
  - destruct (Hf a (Hq a eq_refl) w1) as [Hfr' Hr]. split; [|done].
    intros p Hp. rewrite Hfr' by done. by apply Hfr.
  - split; [done|]. intros b [=].
Qed.

Lemma holds_try_except {A} (Q : A → Prop) (m : M A) (h : exn → M A) :
  holds Q m → (∀ e, holds Q (h e)) → holds Q (try_except m h).
Proof.
  intros Hm Hh w. destruct (Hm w) as [Hfr Hq].
  unfold try_except. destruct (m w) as [[a|e] w1]; simpl in *; [done|].
  destruct (Hh e w1) as [Hfr' Hr]. split; [|done].
  intros p Hp. rewrite Hfr' by done. by apply Hfr.
Qed.

Lemma holds_try_finally {A} (Q : A → Prop) (m : M A) (f : M unit) :
  holds Q m → preserves f → holds Q (try_finally m f).
Proof.
  intros Hm Hf w. destruct (Hm w) as [Hfr Hq].
  unfold try_finally. destruct (m w) as [r w1]; simpl in *.
  destruct (Hf w1) as [Hfr' _].
  destruct (f w1) as [[[]|e] w2]; simpl in *.
  - split; [|done]. intros p Hp. rewrite Hfr' by done. by apply Hfr.
  - split; [|intros a [=]]. intros p Hp. rewrite Hfr' by done. by apply Hfr.
Qed.

Lemma holds_if {A} (Q : A → Prop) (c : bool) (m1 m2 : M A) :
  holds Q m1 → holds Q m2 → holds Q (if c then m1 else m2).
Proof. by destruct c. Qed.

Lemma holds_get_files : preserves get_files.
Proof. by intros w. Qed.

Lemma holds_modify_files f :
  (∀ fs p, is_given p = true → f fs !! p = fs !! p) → preserves (modify_files f).
Proof. intros Hf w. split; [|done]. intros p Hp. simpl. by apply Hf. Qed.

Lemma not_given_ne p q : is_given p = true → is_given q = false → q ≠ p.
Proof. intros Hp Hq ->. congruence. Qed.

Lemma holds_write out c : is_given out = false → preserves (modify_files (<[out := c]>)).
Proof.
  intros Hout. apply holds_modify_files. intros fs p Hp.
  apply lookup_insert_ne. by apply not_given_ne.
Qed.

Lemma holds_stat_size p : preserves (FS.stat_size p).
Proof.
  eapply holds_bind; [apply holds_get_files|]. intros fs _.
  destruct (fs !! p); [by apply holds_ret | apply holds_raise].
Qed.

Lemma holds_exists p : preserves (FS.exists_ p).
Proof.
  eapply holds_bind; [apply holds_get_files|]. intros fs _. by apply holds_ret.
Qed.

Lemma holds_move src dst :
  is_given src = false → is_given dst = false → preserves (FS.move src dst).
Proof.
  intros Hsrc Hdst.
  eapply holds_bind; [apply holds_get_files|]. intros fs _.
  destruct (fs !! src); [|apply holds_raise].
  apply holds_modify_files. intros fs' p Hp.
  rewrite lookup_insert_ne by by apply not_given_ne.
  apply lookup_delete_ne. by apply not_given_ne.
Qed.

Lemma holds_copy2 src dst : is_given dst = false → preserves (FS.copy2 src dst).
Proof.
  intros Hdst. eapply holds_bind; [apply holds_get_files|]. intros fs _.
  destruct (fs !! src); [|apply holds_raise].
  apply holds_if; [apply holds_raise | by apply holds_write].
Qed.

Lemma holds_mkdtemp prefix : holds (λ d, is_given d = false) (FS.mkdtemp prefix).
Proof. intros w. split; [done|]. by intros d [= <-]. Qed.

Lemma inside_not_given d p : is_given d = false → is_given p = true → inside d p = false.
Proof.
  unfold inside, is_given. intros Hd Hp.
  rewrite bool_decide_false; [done|].
  intros Heq. rewrite Heq in Hp. congruence.
Qed.

Lemma holds_rmtree d : is_given d = false → preserves (FS.rmtree d).
Proof.
  intros Hd. apply holds_modify_files. intros fs p Hp.
  rewrite map_lookup_filter. destruct (fs !! p) as [c|]; simpl; [|done].
  rewrite option_guard_True; [done|]. simpl. by apply inside_not_given.
Qed.

Lemma holds_log_encode q : preserves (Search.log_encode q).
Proof. by intros w. Qed.

Lemma holds_bisect_loop {B} (Q : B → Prop) (probe : Z → M (option B)) n :
  (∀ q, holds (if_some Q) (probe q)) →
  ∀ lo hi best, if_some Q best → holds (if_some Q) (Search.bisect_loop n probe lo hi best).
Proof.
  intros Hprobe. induction n as [|n IH]; intros lo hi best Hbest; simpl.
  - by apply holds_ret.
  - apply holds_if; [|by apply holds_ret].
    eapply holds_bind; [apply Hprobe|]. intros [b|] Hb; apply IH; done.
Qed.

Lemma holds_bisect {B} (Q : B → Prop) (probe : Z → M (option B)) lo hi :
  (∀ q, holds (if_some Q) (probe q)) →
  holds (if_some Q) (Search.bisect probe lo hi None).
Proof. intros. by apply holds_bisect_loop. Qed.

Section Tools.
Context (E : externals) (Hconf : tools_confined E).

Lemma after_writes_given ws fs p :
  (∀ q c, (q, c) ∈ ws → is_given q = false) → is_given p = true →
  ShellSpec.after_writes ws fs !! p = fs !! p.
Proof.
  unfold ShellSpec.after_writes. revert fs.
  induction ws as [|[q c] ws IH]; intros fs Hws Hp; simpl; [done|].
  rewrite IH; [|intros q' c' Hq'; apply (Hws q' c'); by right|done].
  apply lookup_insert_ne. apply not_given_ne; [done|]. apply (Hws q c). by left.
Qed.

Lemma holds_run_cmd cmd expected timeout : preserves (Shell.run_cmd E cmd expected timeout).
Proof.
  intros w. split; [|done]. intros p Hp.
  destruct (ShellFacts.run_cmd_cases E cmd expected timeout w) as (ok & msg & w' & Hrun & Hc).
  rewrite Hrun. simpl.
  destruct cmd as [|exe rest]; [by destruct Hc as [_ ->]|].
  simpl in Hc. destruct (status _) as [|m| |rc out err] eqn:Hst.
  - by destruct Hc as (_ & -> & _).
  - by destruct Hc as (_ & -> & _).
  - destruct Hc as (_ & _ & -> & _). apply after_writes_given; [|done].
    intros q c Hq. by eapply Hconf.
  - destruct Hc as (_ & -> & _). apply after_writes_given; [|done].
    intros q c Hq. by eapply Hconf.
Qed.

Lemma holds_pil_open p : preserves (Pil.open E p).
Proof.
  eapply holds_bind; [apply holds_get_files|]. intros fs _.
  destruct (fs !! p) as [c|]; [|apply holds_raise].
  destruct (pil_open E c); [apply holds_raise | by apply holds_ret].
Qed.

Lemma holds_pil_save img out kwargs :
  is_given out = false → preserves (Pil.save E img out kwargs).
Proof.
  intros Hout. unfold Pil.save.
  destruct (pil_save E _ _); [apply holds_raise | by apply holds_write].
Qed.

Lemma holds_pil_resize_save img max_width out :
  is_given out = false → preserves (Pil.resize_save E img max_width out).
Proof.
  intros Hout. unfold Pil.resize_save.
  destruct (pil_resize_save E _ _); [apply holds_raise | by apply holds_write].
Qed.

Lemma holds_compute_mse_psnr orig comp :
  preserves (Metrics.compute_mse_psnr E orig comp).
Proof. intros w. split; [|done]. intros p _. by rewrite MetricsFacts.compute_mse_psnr_run. Qed.

Lemma holds_compute_ssim_skimage orig comp :
  preserves (Metrics.compute_ssim_skimage E orig comp).
Proof. intros w. split; [|done]. intros p _. by rewrite MetricsFacts.compute_ssim_skimage_run. Qed.

Lemma holds_run_butteraugli orig comp butter_bin :
  preserves (Metrics.run_butteraugli E orig comp butter_bin).
Proof.
  unfold Metrics.run_butteraugli. destruct butter_bin as [bin|]; [|by apply holds_ret].
  apply holds_if; [by apply holds_ret|].
  apply holds_try_except; [|intros; by apply holds_ret].
  eapply holds_bind; [apply holds_run_cmd|]. intros [ok out] _.
  apply holds_if; by apply holds_ret.
Qed.

Lemma holds_metrics_fn orig cand butter :
  preserves (Hybrid.metrics_fn E orig cand butter).
Proof.
  unfold Hybrid.metrics_fn.
  eapply holds_bind; [apply holds_compute_mse_psnr|]. intros [mse psnr] _.
  eapply holds_bind; [apply holds_compute_ssim_skimage|]. intros s _.
  eapply holds_bind; [|intros; by apply holds_ret].
  apply holds_if; [apply holds_run_butteraugli | by apply holds_ret].
Qed.

Lemma holds_with_note m : preserves m → preserves (Hybrid.with_note m).
Proof.
  intros Hm. eapply holds_bind; [exact Hm|]. intros [ok msg] _. by apply holds_ret.
Qed.

Lemma holds_pillow_save_jpeg in_path out_path q keep_exif :
  is_given out_path = false →
  preserves (Hybrid.pillow_save_jpeg E in_path out_path q keep_exif).
Proof.
  intros Hout. apply holds_try_except; [|intros; by apply holds_ret].
  eapply holds_bind; [apply holds_pil_open|]. intros img _.
  eapply holds_bind; [by apply holds_pil_save|]. intros; by apply holds_ret.
Qed.

Lemma holds_pillow_save_webp in_path out_path q :
  is_given out_path = false →
  preserves (Hybrid.pillow_save_webp E in_path out_path q).
Proof.
  intros Hout. apply holds_try_except; [|intros; by apply holds_ret].
  eapply holds_bind; [apply holds_pil_open|]. intros img _.
  eapply holds_bind; [by apply holds_pil_save|]. intros; by apply holds_ret.
Qed.

End Tools.

(** One iteration and one whole search, for callbacks that preserve. *)
Lemma holds_try_quality make_cand_fn metrics_fn orig a butter_bin tmpdir mid :
  (∀ q p, is_given p = false → preserves (make_cand_fn q p)) →
  (∀ o c b, preserves (metrics_fn o c b)) →
  is_given tmpdir = false →
  holds (if_some temp_best)
    (Hybrid.try_quality make_cand_fn metrics_fn orig a butter_bin tmpdir mid).
Proof.
  intros Hmake Hmet Htmp. unfold Hybrid.try_quality.
  eapply holds_bind; [apply holds_log_encode|]. intros _ _.
  eapply holds_bind; [by apply Hmake|]. intros [ok note] _.
  apply holds_if; [by apply holds_ret|].
  eapply holds_bind; [apply Hmet|]. intros m _.
  apply holds_if; apply holds_ret; [|done]. by intros b [= <-].
Qed.

Lemma holds_binary_search_quality make_cand_fn metrics_fn orig lo hi a butter_bin :
  (∀ q p, is_given p = false → preserves (make_cand_fn q p)) →
  (∀ o c b, preserves (metrics_fn o c b)) →
  holds temp_result
    (Hybrid.binary_search_quality make_cand_fn metrics_fn orig lo hi a butter_bin).
Proof.
  intros Hmake Hmet. unfold Hybrid.binary_search_quality.
  eapply holds_bind; [apply holds_mkdtemp|]. intros tmpdir Htmp.
  apply holds_try_finally; [|by apply holds_ret].
  eapply holds_bind; [apply holds_bisect; intros q; by apply holds_try_quality|].
  intros [b|] Hb; [|apply holds_ret; by intros q p m [=]].
  eapply holds_bind; [apply holds_move; [by apply Hb | done]|]. intros _ _.
  apply holds_ret. by intros q p m [= _ <- _].
Qed.

Section Job.
Context (E : externals) (Hconf : tools_confined E).

Lemma holds_mozjpeg_save in_path out_path bin q :
  preserves (Hybrid.mozjpeg_save E in_path out_path bin q).
Proof. apply holds_with_note. by apply holds_run_cmd. Qed.

Lemma holds_cwebp_save in_path out_path bin q :
  preserves (Hybrid.cwebp_save E in_path out_path bin q).
Proof. apply holds_with_note. by apply holds_run_cmd. Qed.

Lemma holds_avifenc_save in_path out_path bin q :
  preserves (Hybrid.avifenc_save E in_path out_path bin q).
Proof. apply holds_with_note. by apply holds_run_cmd. Qed.

Lemma holds_appended format r :
  temp_result r → format ∈ ["jpg"; "webp"; "avif"] →
  holds temp_candidates (Hybrid.appended format r).
Proof.
  intros Hr Hfmt. unfold Hybrid.appended. destruct r as [q p m|].
  - eapply holds_bind; [apply holds_stat_size|]. intros size _.
    apply holds_ret. constructor; [|constructor]. split; [|done]. by eapply Hr.
  - apply holds_ret. constructor.
Qed.

Lemma temp_candidates_nil : temp_candidates [].
Proof. constructor. Qed.

Lemma holds_collect_candidates work_in a b :
  holds temp_candidates (Hybrid.collect_candidates E work_in a b).
Proof.
  unfold Hybrid.collect_candidates.
  apply (holds_bind temp_candidates).
  { apply holds_if; [|apply holds_ret, temp_candidates_nil].
    apply (holds_bind temp_result).
    - apply holds_binary_search_quality; [|intros; by apply holds_metrics_fn].
      intros q p Hp. apply holds_if;
        [by apply holds_mozjpeg_save | by apply holds_pillow_save_jpeg].
    - intros r Hr. apply holds_appended; [done|set_solver]. }
  intros jpg Hjpg. apply (holds_bind temp_candidates).
  { apply holds_if; [|apply holds_ret, temp_candidates_nil].
    apply (holds_bind temp_result).
    - apply holds_binary_search_quality; [|intros; by apply holds_metrics_fn].
      intros q p Hp. apply holds_if;
        [by apply holds_cwebp_save | by apply holds_pillow_save_webp].
    - intros r Hr. apply holds_appended; [done|set_solver]. }
  intros webp Hwebp. apply (holds_bind temp_candidates).
  { apply holds_if; [|apply holds_ret, temp_candidates_nil].
    apply (holds_bind temp_result).
    - apply holds_binary_search_quality; [|intros; by apply holds_metrics_fn].
      intros q p Hp. by apply holds_avifenc_save.
    - intros r Hr. apply holds_appended; [done|set_solver]. }
  intros avif Havif. apply holds_ret.
  unfold temp_candidates. rewrite !Forall_app. done.
Qed.

Lemma holds_smart_resize in_path out_path max_width :
  is_given out_path = false →
  preserves (ImageOps.smart_resize_width_only E in_path out_path max_width).
Proof.
  intros Hout. apply holds_try_except; [|intros; by apply holds_ret].
  eapply holds_bind; [apply holds_pil_open|]. intros img _.
  apply holds_if.
  - eapply holds_bind; [by apply holds_pil_resize_save|]. intros; by apply holds_ret.
  - eapply holds_bind; [by apply holds_copy2|]. intros; by apply holds_ret.
Qed.

Lemma holds_searches in_path workdir a b :
  is_given workdir = false →
  holds temp_candidates (HybridSpec.searches E in_path workdir a b).
Proof.
  intros Hwork. unfold HybridSpec.searches.
  eapply holds_bind; [by apply holds_smart_resize|]. intros [resized work_in] _.
  apply holds_collect_candidates.
Qed.

(** The [try] block of [process_file] is the searches followed by the
    selection. *)
Lemma process_body in_path out_dir res workdir a b w :
  ('(resized, work_in) ←
     ImageOps.smart_resize_width_only E in_path (workdir // path_name in_path) 3000;
   candidates ← Hybrid.collect_candidates E work_in a b;
   Hybrid.select_output in_path out_dir res candidates) w
  = (HybridSpec.searches E in_path workdir a b
     ≫= Hybrid.select_output in_path out_dir res) w.
Proof.
  unfold HybridSpec.searches, mbind, M_bind.
  by destruct (ImageOps.smart_resize_width_only E _ _ _ w) as [[[resized work_in]|e] w1].
Qed.

End Job.
End FrameFacts.

(** ** One job of [hybrid_perceptual], [perceptual] and [lossless] *)

Module JobFacts.
Import FrameSpec FrameFacts.

Lemma stat_size_run p c w :
  files w !! p = Some c → FS.stat_size p w = (Ok (size_of c), w).
Proof.
  intros Hp. unfold FS.stat_size, get_files, mbind, M_bind. simpl. by rewrite Hp.
Qed.

Lemma copy2_run src dst c w :
  files w !! src = Some c → src ≠ dst →
  FS.copy2 src dst w = (Ok tt, set_files (<[dst := c]>) w).
Proof.
  intros Hp Hne. unfold FS.copy2, get_files, mbind, M_bind. simpl. rewrite Hp.
  by rewrite bool_decide_false.
Qed.

Lemma move_run src dst c w :
  files w !! src = Some c →
  FS.move src dst w = (Ok tt, set_files (λ fs, <[dst := c]> (delete src fs)) w).
Proof.
  intros Hp. unfold FS.move, get_files, mbind, M_bind. simpl. by rewrite Hp.
Qed.

Lemma rmtree_given d w p :
  is_given d = false → is_given p = true →
  files (FS.rmtree d w).2 !! p = files w !! p.
Proof. intros Hd Hp. by apply (holds_rmtree d Hd w). Qed.

Lemma all_fail_run E in_path out_dir a b w data w3 :
  FrameSpec.tools_confined E →
  FrameSpec.is_given in_path = true →
  FrameSpec.is_given out_dir = true →
  files w !! in_path = Some data →
  in_path ≠ out_dir // path_name in_path →
  HybridSpec.searches E in_path (Path (Temp "work_" (next_tmp w)) []) a b
    (World (files w) (S (next_tmp w)) (procs w) (encode_log w)) = (Ok [], w3) →
  ∃ w',
    Hybrid.process_file E in_path out_dir a b w
      = (Ok (Hybrid.JobResult (path_str in_path) (size_of data) "none" None
               (Some "No candidates met criteria")), w') ∧
    files w' !! (out_dir // path_name in_path) = Some data ∧
    files w' !! in_path = Some data ∧
    ∀ p, FrameSpec.is_given p = true → p ≠ out_dir // path_name in_path →
         files w' !! p = files w !! p.
Proof.
  intros Hconf Hin Hout Hdata Hne Hsearch.
  set (workdir := Path (Temp "work_" (next_tmp w)) []) in *.
  set (w1 := World (files w) (S (next_tmp w)) (procs w) (encode_log w)) in *.
  assert (Hwork : FrameSpec.is_given workdir = false) by done.
  destruct (FrameFacts.holds_searches E Hconf in_path workdir a b Hwork w1) as [Hframe _].
  rewrite Hsearch in Hframe. simpl in Hframe.
  unfold Hybrid.process_file.
  rewrite (bind_ok _ _ _ _ _ (stat_size_run _ _ _ Hdata)).
  unfold mbind at 1, M_bind at 1. simpl. fold workdir w1.
  unfold try_finally, try_except.
  rewrite (FrameFacts.process_body E).
  rewrite (bind_ok _ _ _ _ _ Hsearch).
  unfold Hybrid.select_output.
  assert (Hdata3 : files w3 !! in_path = Some data) by by rewrite Hframe.
  rewrite (bind_ok _ _ _ _ _ (copy2_run _ _ _ _ Hdata3 Hne)).
  simpl. eexists. split; [reflexivity|].
  assert (Hgiven : FrameSpec.is_given (out_dir // path_name in_path) = true) by done.
  pose proof (rmtree_given workdir
                (set_files <[out_dir // path_name in_path := data]> w3)) as Hrm.
  simpl in Hrm.
  split; [|split].
  - rewrite Hrm by done. apply lookup_insert_eq.
  - rewrite Hrm by done. by rewrite lookup_insert_ne.
  - intros p Hp Hpne. rewrite Hrm by done. rewrite lookup_insert_ne by done.
    by apply Hframe.
Qed.


Lemma stat_size_missing p w :
  files w !! p = None → ∃ e, FS.stat_size p w = (Raise e, w).
Proof.
  intros Hp. unfold FS.stat_size, get_files, mbind, M_bind. simpl. rewrite Hp. by eexists.
Qed.

Lemma move_missing src dst w :
  files w !! src = None → ∃ e, FS.move src dst w = (Raise e, w).
Proof.
  intros Hp. unfold FS.move, get_files, mbind, M_bind. simpl. rewrite Hp. by eexists.
Qed.

Lemma hybrid_output_name E in_path out_dir a b w r w' :
  FrameSpec.tools_confined E →
  FrameSpec.is_given in_path = true →
  FrameSpec.is_given out_dir = true →
  Hybrid.process_file E in_path out_dir a b w = (Ok r, w') →
  Hybrid.error r = None →
  ∃ best data,
    Hybrid.fmt best ∈ ["jpg"; "webp"; "avif"] ∧
    Hybrid.final_bytes r = Some (Hybrid.bytes best) ∧
    Hybrid.method r
      = Hybrid.fmt best +:+ " (q=" +:+ Py.str (Hybrid.cand_q best) +:+ ")" ∧
    files w' !! (out_dir // (path_stem in_path +:+ "." +:+ Hybrid.fmt best)) = Some data ∧
    ∀ p, FrameSpec.is_given p = true →
         p ≠ out_dir // (path_stem in_path +:+ "." +:+ Hybrid.fmt best) →
         files w' !! p = files w !! p.
Proof.
  intros Hconf Hin Hout Hrun Herr.
  unfold Hybrid.process_file in Hrun.
  destruct (files w !! in_path) as [data0|] eqn:Hdata.
  2:{ destruct (stat_size_missing _ _ Hdata) as [e He].
      rewrite (bind_raise _ _ _ _ _ He) in Hrun. discriminate. }
  rewrite (bind_ok _ _ _ _ _ (stat_size_run _ _ _ Hdata)) in Hrun.
  unfold mbind at 1, M_bind at 1 in Hrun. simpl in Hrun.
  set (workdir := Path (Temp "work_" (next_tmp w)) []) in *.
  set (w1 := World (files w) (S (next_tmp w)) (procs w) (encode_log w)) in *.
  assert (Hwork : FrameSpec.is_given workdir = false) by done.
  destruct (FrameFacts.holds_searches E Hconf in_path workdir a b Hwork w1)
    as [Hframe Htemp].
  unfold try_finally, try_except in Hrun.
  rewrite (FrameFacts.process_body E) in Hrun.
  unfold mbind at 1, M_bind at 1 in Hrun.
  destruct (HybridSpec.searches E in_path workdir a b w1) as [[l|e] w3] eqn:Hsearch.
  2:{ simpl in Hrun. injection Hrun as <- _. discriminate. }
  simpl in Hframe. specialize (Htemp l eq_refl).
  destruct l as [|c cs].
  { unfold Hybrid.select_output in Hrun.
    unfold mbind at 1, M_bind at 1 in Hrun.
    destruct (FS.copy2 _ _ w3) as [[[]|e] w4]; simpl in Hrun;
      injection Hrun as <- _; discriminate. }
  unfold Hybrid.select_output in Hrun.
  set (best := Py.min_by Hybrid.bytes c cs) in *.
  assert (Hbest : best ∈ c :: cs).
  { eapply SelectFacts.first_smallest_elem, SelectFacts.min_by_first_smallest. }
  unfold FrameSpec.temp_candidates in Htemp. rewrite Forall_forall in Htemp.
  destruct (Htemp best Hbest) as [Hbt Hfmt].
  destruct (files w3 !! Hybrid.cand_path best) as [data|] eqn:Hfile.
  2:{ destruct (move_missing _ (out_dir // (path_stem in_path +:+ "." +:+ Hybrid.fmt best))
                  _ Hfile) as [e He].
      rewrite (bind_raise _ _ _ _ _ He) in Hrun. simpl in Hrun.
      injection Hrun as <- _. discriminate. }
  rewrite (bind_ok _ _ _ _ _ (move_run _ _ _ _ Hfile)) in Hrun.
  simpl in Hrun. injection Hrun as <- <-.
  exists best, data. split; [done|]. split; [done|]. split; [done|].
  set (out_path := out_dir // (path_stem in_path +:+ "." +:+ Hybrid.fmt best)).
  pose proof (rmtree_given workdir
    (set_files (λ fs, <[out_path := data]> (delete (Hybrid.cand_path best) fs)) w3)) as Hrm.
  simpl in Hrm. split.
  - rewrite Hrm by done. apply lookup_insert_eq.
  - intros p Hp Hpne. rewrite Hrm by done. rewrite lookup_insert_ne by done.
    rewrite lookup_delete_ne by by apply FrameFacts.not_given_ne.
    by apply Hframe.
Qed.

Lemma bind_inv {A B} (m : M A) (f : A → M B) w r w' :
  (m ≫= f) w = (Ok r, w') → ∃ a w1, m w = (Ok a, w1) ∧ f a w1 = (Ok r, w').
Proof.
  unfold mbind, M_bind. destruct (m w) as [[a|e] w1]; [|done]. eauto.
Qed.

Lemma move_inv src dst w u w' :
  FS.move src dst w = (Ok u, w') →
  ∃ c, files w !! src = Some c ∧ files w' = <[dst := c]> (delete src (files w)).
Proof.
  unfold FS.move, get_files, mbind, M_bind. simpl.
  destruct (files w !! src) as [c|]; [|done]. simpl. intros [= _ <-]. eauto.
Qed.

Lemma path_name_child d name : path_name (d // name) = name.
Proof. unfold path_name, child. simpl. by rewrite last_snoc. Qed.

Lemma child_ne_grandchild d n1 n2 n3 : d // n1 ≠ d // n2 // n3.
Proof.
  unfold child. simpl. intros [= H]. apply (f_equal length) in H.
  rewrite !length_app in H. simpl in H. lia.
Qed.

Lemma unlink_if_exists_other p' p w :
  p' ≠ p → files (Perceptual.unlink_if_exists p' w).2 !! p = files w !! p.
Proof.
  intros Hne.
  unfold Perceptual.unlink_if_exists, FS.exists_, FS.unlink, get_files, modify_files,
    mbind, M_bind, mret, M_ret. simpl.
  destruct (files w !! p') as [d|] eqn:Hp; simpl; [|done].
  rewrite Hp. simpl. by apply lookup_delete_ne.
Qed.

Lemma unlink_all_other (l : list Perceptual.candidate) p w :
  (∀ c, c ∈ l → Perceptual.cand_file c ≠ p) →
  files (mapM (λ cand, Perceptual.unlink_if_exists (Perceptual.cand_file cand)) l w).2 !! p
  = files w !! p.
Proof.
  revert w. induction l as [|c l IH]; intros w Hl; simpl; [done|].
  destruct (SelectFacts.unlink_if_exists_run (Perceptual.cand_file c) w) as [w1 Hrun1].
  rewrite (bind_ok _ _ _ _ _ Hrun1).
  destruct (SelectFacts.unlink_all_run l w1) as (r & w2 & Hrun2).
  rewrite (bind_ok _ _ _ _ _ Hrun2). simpl.
  specialize (IH w1 ltac:(intros c' Hc'; apply Hl; by right)).
  rewrite Hrun2 in IH. simpl in IH. rewrite IH.
  pose proof (unlink_if_exists_other (Perceptual.cand_file c) p w
                ltac:(apply Hl; by left)) as H1.
  by rewrite Hrun1 in H1.
Qed.

Lemma perceptual_output_name resize_image optimize_jpeg_advanced convert_to_webp
    convert_to_avif in_path out_dir a b w r w' :
  Perceptual.process_file resize_image optimize_jpeg_advanced convert_to_webp
    convert_to_avif in_path out_dir a b w = (Ok r, w') →
  Perceptual.error r = None →
  ∃ name data,
    Perceptual.output_file r = Some name ∧
    name ∈ [path_stem in_path +:+ "_optim.jpg";
            path_stem in_path +:+ ".webp";
            path_stem in_path +:+ ".avif"] ∧
    files w' !! (out_dir // name) = Some data.
Proof.
  intros Hrun Herr. unfold Perceptual.process_file in Hrun.
  apply bind_inv in Hrun as (orig_size & w1 & _ & Hrun).
  apply bind_inv in Hrun as (resized & w2 & _ & Hrun).
  destruct resized as [note|source].
  { injection Hrun as <- _. discriminate. }
  apply bind_inv in Hrun as (l & w3 & Hcollect & Hrun).
  apply SelectFacts.perceptual_candidates_in_order in Hcollect.
  destruct l as [|c cs]; unfold Perceptual.finish in Hrun.
  { apply bind_inv in Hrun as (u & w4 & _ & Hrun). injection Hrun as <- _. discriminate. }
  set (best := Py.min_by Perceptual.size c cs) in *.
  set (temp_dir := out_dir // "temp") in *.
  assert (Hbest : Perceptual.cand_file best ∈
            [temp_dir // (path_stem in_path +:+ "_optim.jpg");
             temp_dir // (path_stem in_path +:+ ".webp");
             temp_dir // (path_stem in_path +:+ ".avif")]).
  { eapply elem_of_sublist; [|exact Hcollect]. apply list_elem_of_fmap_2.
    eapply SelectFacts.first_smallest_elem, SelectFacts.min_by_first_smallest. }
  assert (Hfiles : ∀ c', c' ∈ c :: cs →
            ∃ n, Perceptual.cand_file c' = temp_dir // n).
  { intros c' Hc'.
    assert (Perceptual.cand_file c' ∈
              [temp_dir // (path_stem in_path +:+ "_optim.jpg");
               temp_dir // (path_stem in_path +:+ ".webp");
               temp_dir // (path_stem in_path +:+ ".avif")]) as Hin.
    { eapply elem_of_sublist; [|exact Hcollect]. by apply list_elem_of_fmap_2. }
    apply list_elem_of_In in Hin. simpl in Hin.
    destruct Hin as [<-|[<-|[<-|[]]]]; by eexists. }
  apply bind_inv in Hrun as (u & w4 & Hmove & Hrun).
  apply move_inv in Hmove as (data & Hsrc & Hw4).
  apply bind_inv in Hrun as (us & w5 & Hclean & Hrun).
  apply bind_inv in Hrun as (u' & w6 & Hunlink & Hrun).
  injection Hrun as <- <-. simpl.
  exists (path_name (Perceptual.cand_file best)), data.
  split; [by rewrite path_name_child|].
  split.
  { apply list_elem_of_In in Hbest. simpl in Hbest.
    destruct Hbest as [<-|[<-|[<-|[]]]]; rewrite path_name_child;
      apply list_elem_of_In; simpl; auto. }
  set (final := out_dir // path_name (Perceptual.cand_file best)) in *.
  pose proof (unlink_if_exists_other
                (temp_dir // (path_stem in_path +:+ Py.suffix (path_name in_path)))
                final w5) as H6.
  rewrite Hunlink in H6. simpl in H6. rewrite H6.
  2:{ intros Heq. symmetry in Heq. by apply child_ne_grandchild in Heq. }
  pose proof (unlink_all_other (c :: cs) final w4) as H5.
  rewrite Hclean in H5. simpl in H5. rewrite H5.
  2:{ intros c' Hc' Heq. destruct (Hfiles c' Hc') as [n Hn]. rewrite Hn in Heq.
      symmetry in Heq. by apply child_ne_grandchild in Heq. }
  rewrite Hw4. apply lookup_insert_eq.
Qed.

Lemma lossless_cleanup_step final (c : Lossless.candidate) w :
  ∃ w1,
    (ex ← FS.exists_ (Lossless.cand_file c);
     if (ex : bool) && bool_decide (Lossless.cand_file c ≠ final)
     then FS.unlink (Lossless.cand_file c) else mret tt) w = (Ok tt, w1) ∧
    files w1 !! final = files w !! final.
Proof.
  unfold FS.exists_, FS.unlink, get_files, modify_files, mbind, M_bind, mret, M_ret. simpl.
  destruct (files w !! Lossless.cand_file c) as [d|] eqn:Hc; simpl; [|by eexists].
  destruct (decide (Lossless.cand_file c = final)) as [Heq|Hne].
  - rewrite bool_decide_false by (intros H; by apply H). by eexists.
  - rewrite bool_decide_true by done. rewrite Hc. simpl.
    eexists. split; [done|]. simpl. by apply lookup_delete_ne.
Qed.

Lemma lossless_cleanup final (l : list Lossless.candidate) w :
  ∃ r w',
    mapM (λ c, ex ← FS.exists_ (Lossless.cand_file c);
               if (ex : bool) && bool_decide (Lossless.cand_file c ≠ final)
               then FS.unlink (Lossless.cand_file c) else mret tt) l w = (Ok r, w') ∧
    files w' !! final = files w !! final.
Proof.
  revert w. induction l as [|c l IH]; intros w; simpl.
  - by eexists _, _.
  - destruct (lossless_cleanup_step final c w) as (w1 & Hrun1 & H1).
    rewrite (bind_ok _ _ _ _ _ Hrun1).
    destruct (IH w1) as (r & w2 & Hrun2 & H2).
    rewrite (bind_ok _ _ _ _ _ Hrun2). eexists _, _. split; [done|]. congruence.
Qed.

Lemma lossless_output_name optimize_with_pillow optimize_with_oxipng
    optimize_with_zopflipng convert_to_webp files_identical compress_to_webp_target
    in_path out_dir a b w r w' :
  Lossless.process_file optimize_with_pillow optimize_with_oxipng optimize_with_zopflipng
    convert_to_webp files_identical compress_to_webp_target in_path out_dir a b w
    = (Ok r, w') →
  Lossless.error r = None →
  ∃ data, files w' !! (out_dir // path_name in_path) = Some data.
Proof.
  intros Hrun Herr. unfold Lossless.process_file in Hrun.
  apply bind_inv in Hrun as (orig_size & w1 & _ & Hrun).
  apply bind_inv in Hrun as (r1 & w2 & _ & Hrun).
  apply bind_inv in Hrun as (c2 & w3 & _ & Hrun).
  apply bind_inv in Hrun as (c3 & w4 & _ & Hrun).
  apply bind_inv in Hrun as (c4 & w5 & _ & Hrun).
  apply bind_inv in Hrun as (c5 & w6 & _ & Hrun).
  apply bind_inv in Hrun as (picked & w7 & _ & Hrun).
  apply bind_inv in Hrun as (chosen & w8 & _ & Hrun).
  unfold Lossless.finish in Hrun. destruct chosen as [bst|].
  - apply bind_inv in Hrun as (u & w9 & Hmove & Hrun).
    apply move_inv in Hmove as (data & Hsrc & Hw9).
    apply bind_inv in Hrun as (us & w10 & Hclean & Hrun).
    injection Hrun as <- <-.
    destruct (lossless_cleanup (out_dir // path_name in_path)
                (Lossless.appended "pillow" (out_dir // (path_stem in_path +:+ "_pillow.png")) r1
                 ++ c2 ++ c3 ++ c4 ++ c5) w9) as (r' & w' & Hclean' & Hkeep).
    rewrite Hclean in Hclean'. injection Hclean' as <- <-.
    exists data. rewrite Hkeep, Hw9. apply lookup_insert_eq.
  - apply bind_inv in Hrun as (us & w9 & _ & Hrun). injection Hrun as <- _. discriminate.
Qed.

End JobFacts.

(** ** The scenarios, for the job *)

Lemma pillow52_confined : FrameSpec.tools_confined Scenario.pillow52.
Proof. intros cmd fs p c Hin. simpl in Hin. by apply elem_of_nil in Hin. Qed.

(** C8, as stated, fails: when every pipeline fails, the error field reads
    "No candidates met criteria", not "no pipeline met thresholds".  Here the
    JPEG search over 50..52 cannot reach 99 dB, so the job has no candidate. *)
Lemma all_fail_error_is_no_candidates :
  (HybridSpec.searches Scenario.pillow52 Scenario.original (Path (Temp "work_" 0) [])
     Scenario.args_unreachable Scenario.no_bins (World (files Scenario.one_file_world) 1 [] [])).1
  = Ok [] ∧
  Hybrid.error <$>
    (match (Hybrid.process_file Scenario.pillow52 Scenario.original Scenario.out_dir
              Scenario.args_unreachable Scenario.no_bins Scenario.one_file_world).1 with
     | Ok r => Some r
     | Raise _ => None
     end)
  = Some (Some "No candidates met criteria") ∧
  "No candidates met criteria" ≠ "no pipeline met thresholds".
Proof. split; [|split]; [vm_compute; reflexivity .. | discriminate]. Qed.

(** C8, amended.  For every job in which all pipelines fail, whose input is
    a file the user gave that is not itself [out_dir / in_path.name], and
    with encoders that write under temporary directories only: the result
    has no chosen candidate (method "none", no final size), its error field
    is "No candidates met criteria", and the original is copied unchanged to
    [out_dir / in_path.name]; the input stays as it was and nothing else the
    user gave is touched. *)
Theorem all_pipelines_fail_keeps_original E in_path out_dir a b w data w3 :
  FrameSpec.tools_confined E →
  FrameSpec.is_given in_path = true →
  FrameSpec.is_given out_dir = true →
  files w !! in_path = Some data →
  in_path ≠ out_dir // path_name in_path →
  HybridSpec.searches E in_path (Path (Temp "work_" (next_tmp w)) []) a b
    (World (files w) (S (next_tmp w)) (procs w) (encode_log w)) = (Ok [], w3) →
  ∃ w',
    Hybrid.process_file E in_path out_dir a b w
      = (Ok (Hybrid.JobResult (path_str in_path) (size_of data) "none" None
               (Some "No candidates met criteria")), w') ∧
    files w' !! (out_dir // path_name in_path) = Some data ∧
    files w' !! in_path = Some data ∧
    ∀ p, FrameSpec.is_given p = true → p ≠ out_dir // path_name in_path →
         files w' !! p = files w !! p.
Proof. apply JobFacts.all_fail_run. Qed.

Lemma all_pipelines_fail_keeps_original_witness :
  ∃ w',
    Hybrid.process_file Scenario.pillow52 Scenario.original Scenario.out_dir
      Scenario.args_unreachable Scenario.no_bins Scenario.one_file_world
      = (Ok (Hybrid.JobResult "/in/photo.png" 3 "none" None
               (Some "No candidates met criteria")), w') ∧
    files w' !! (Scenario.out_dir // "photo.png") = Some (Scenario.blob 3) ∧
    files w' !! Scenario.original = Some (Scenario.blob 3) ∧
    ∀ p, FrameSpec.is_given p = true → p ≠ Scenario.out_dir // "photo.png" →
         files w' !! p = files Scenario.one_file_world !! p.
Proof.
  destruct (HybridSpec.searches Scenario.pillow52 Scenario.original
              (Path (Temp "work_" (next_tmp Scenario.one_file_world)) [])
              Scenario.args_unreachable Scenario.no_bins
              (World (files Scenario.one_file_world)
                 (S (next_tmp Scenario.one_file_world))
                 (procs Scenario.one_file_world)
                 (encode_log Scenario.one_file_world))) as [r w3] eqn:Hsearch.
  assert (Hr : r = Ok []).
  { change r with (r, w3).1. rewrite <- Hsearch. vm_compute. reflexivity. }
  subst r.
  exact (all_pipelines_fail_keeps_original Scenario.pillow52 Scenario.original
           Scenario.out_dir Scenario.args_unreachable Scenario.no_bins
           Scenario.one_file_world (Scenario.blob 3) w3
           pillow52_confined eq_refl eq_refl eq_refl ltac:(discriminate) Hsearch).
Defined.

(** C9 at its failing inputs, each a job on [/in/photo.png] that ends
    without an error.  In [lossless], when the lossless WebP made by [cwebp]
    is smaller than the PNG that Pillow wrote and decodes to the same
    pixels, it wins and is moved to [out/photo.png]: the output has the
    extension of the input, not that of the winning pipeline, and there is
    no [photo.webp].  In [lossless] again, when the WebP does not compare
    identical (here the PNG is a palette image), it is not a candidate and
    is never deleted: the output directory holds two files, [photo.png] and
    the stray [photo_lossless.webp].  In [perceptual] a winning JPEG is
    promoted under the name of its temporary file, [photo_optim.jpg], not
    [photo.jpg]. *)
Theorem output_name_and_count_diverge :
  (let r := LosslessTools.process_file (More.writer More.lossless_webp) More.bare
              Scenario.original Scenario.out_dir Scenario.lossless_args
              Scenario.lossless_cwebp Scenario.one_file_world in
   r.1 = Ok (Lossless.JobResult "/in/photo.png" (Py.to_kb 3) (Py.to_kb 2) "webp_lossless"
               (Some (Some "")) None) ∧
   files r.2 !! (Scenario.out_dir // "photo.png") = Some (Scenario.blob 2) ∧
   files r.2 !! (Scenario.out_dir // "photo.webp") = None ∧
   size (files r.2) = 2%nat)
  ∧
  (let r := LosslessTools.process_file (More.writer More.lossless_webp) More.palette
              Scenario.original Scenario.out_dir Scenario.lossless_args
              Scenario.lossless_cwebp Scenario.one_file_world in
   r.1 = Ok (Lossless.JobResult "/in/photo.png" (Py.to_kb 3) (Py.to_kb 3) "pillow"
               (Some None) None) ∧
   files r.2 !! (Scenario.out_dir // "photo.png") = Some (Scenario.blob 3) ∧
   files r.2 !! (Scenario.out_dir // "photo_lossless.webp") = Some (Scenario.blob 2) ∧
   size (files r.2) = 3%nat)
  ∧
  (let r := PerceptualTools.process_file (More.writer More.temp_jpeg) More.with_cv2
              Scenario.original Scenario.out_dir Scenario.perceptual_args
              Scenario.perceptual_cjpeg Scenario.one_file_world in
   r.1 = Ok (Perceptual.JobResult "/in/photo.png" (Some (Py.to_kb 3)) (Some (Py.to_kb 2))
               (Some "jpeg_q50_ssim1.000") (Some "photo_optim.jpg") None) ∧
   path_stem Scenario.original +:+ ".jpg" = "photo.jpg" ∧
   files r.2 !! (Scenario.out_dir // "photo_optim.jpg") = Some (Scenario.blob 2) ∧
   files r.2 !! (Scenario.out_dir // "photo.jpg") = None ∧
   size (files r.2) = 2%nat).
Proof. repeat split; vm_compute; reflexivity. Qed.

(** Where the output of a job that ends without an error is.  A job of
    [hybrid_perceptual] whose tools write under temporary directories only,
    and whose input and output directory are paths that the user gave,
    changes exactly one of the user's files: the one in the output directory
    named by the input's stem plus the winning format ([jpg], [webp] or
    [avif]).  A job of [perceptual], whatever its encoding steps do, leaves
    its output in the output directory under the name of the winner's
    temporary file, which is the stem plus [_optim.jpg], [.webp] or [.avif].
    A job of [lossless], whatever its optimizers do, leaves its output in
    the output directory under the input's own file name. *)
Theorem promoted_file_names :
  (∀ E in_path out_dir a b w r w',
     FrameSpec.tools_confined E →
     FrameSpec.is_given in_path = true →
     FrameSpec.is_given out_dir = true →
     Hybrid.process_file E in_path out_dir a b w = (Ok r, w') →
     Hybrid.error r = None →
     ∃ best data,
       Hybrid.fmt best ∈ ["jpg"; "webp"; "avif"] ∧
       Hybrid.final_bytes r = Some (Hybrid.bytes best) ∧
       Hybrid.method r
         = Hybrid.fmt best +:+ " (q=" +:+ Py.str (Hybrid.cand_q best) +:+ ")" ∧
       files w' !! (out_dir // (path_stem in_path +:+ "." +:+ Hybrid.fmt best)) = Some data ∧
       ∀ p, FrameSpec.is_given p = true →
            p ≠ out_dir // (path_stem in_path +:+ "." +:+ Hybrid.fmt best) →
            files w' !! p = files w !! p)
  ∧
  (∀ resize_image optimize_jpeg_advanced convert_to_webp convert_to_avif
     in_path out_dir a b w r w',
     Perceptual.process_file resize_image optimize_jpeg_advanced convert_to_webp
       convert_to_avif in_path out_dir a b w = (Ok r, w') →
     Perceptual.error r = None →
     ∃ name data,
       Perceptual.output_file r = Some name ∧
       name ∈ [path_stem in_path +:+ "_optim.jpg";
               path_stem in_path +:+ ".webp";
               path_stem in_path +:+ ".avif"] ∧
       files w' !! (out_dir // name) = Some data)
  ∧
  (∀ optimize_with_pillow optimize_with_oxipng optimize_with_zopflipng
     convert_to_webp files_identical compress_to_webp_target in_path out_dir a b w r w',
     Lossless.process_file optimize_with_pillow optimize_with_oxipng
       optimize_with_zopflipng convert_to_webp files_identical compress_to_webp_target
       in_path out_dir a b w = (Ok r, w') →
     Lossless.error r = None →
     ∃ data, files w' !! (out_dir // path_name in_path) = Some data).
Proof.
  split; [|split].
  - exact JobFacts.hybrid_output_name.
  - exact JobFacts.perceptual_output_name.
  - exact JobFacts.lossless_output_name.
Qed.

Lemma promoted_file_names_witness :
  ∃ best data,
    Hybrid.fmt best ∈ ["jpg"; "webp"; "avif"] ∧
    Hybrid.final_bytes
      (Hybrid.JobResult "/in/photo.png" 3 "jpg (q=52)" (Some 2) None)
      = Some (Hybrid.bytes best) ∧
    Hybrid.method (Hybrid.JobResult "/in/photo.png" 3 "jpg (q=52)" (Some 2) None)
      = Hybrid.fmt best +:+ " (q=" +:+ Py.str (Hybrid.cand_q best) +:+ ")" ∧
    files (Hybrid.process_file Scenario.pillow52 Scenario.original Scenario.out_dir
             Scenario.args_50_52 Scenario.no_bins Scenario.one_file_world).2
      !! (Scenario.out_dir // (path_stem Scenario.original +:+ "." +:+ Hybrid.fmt best))
      = Some data ∧
    ∀ p, FrameSpec.is_given p = true →
         p ≠ Scenario.out_dir // (path_stem Scenario.original +:+ "." +:+ Hybrid.fmt best) →
         files (Hybrid.process_file Scenario.pillow52 Scenario.original Scenario.out_dir
                  Scenario.args_50_52 Scenario.no_bins Scenario.one_file_world).2 !! p
         = files Scenario.one_file_world !! p.
Proof.
  destruct (Hybrid.process_file Scenario.pillow52 Scenario.original Scenario.out_dir
              Scenario.args_50_52 Scenario.no_bins Scenario.one_file_world)
    as [r w'] eqn:Hrun.
  assert (Hr : r = Ok (Hybrid.JobResult "/in/photo.png" 3 "jpg (q=52)" (Some 2) None)).
  { change r with (r, w').1. rewrite <- Hrun. vm_compute. reflexivity. }
  subst r.
  exact (proj1 promoted_file_names Scenario.pillow52 Scenario.original Scenario.out_dir
           Scenario.args_50_52 Scenario.no_bins Scenario.one_file_world _ w'
           pillow52_confined eq_refl eq_refl Hrun eq_refl).
Defined.

(** * The rest of the code *)

(** ** [which_bin] *)

(** [which_bin] returns the path of the first name that [shutil.which]
    finds, skipping names that are not found, and [None] when none is. *)
Theorem which_bin_first_found L names :
  match Bins.which_bin L names with
  | Some p =>
      p ≠ "" ∧
      ∃ before n after,
        names = before ++ n :: after ∧ shutil_which L n = Some p ∧
        Forall (λ m, Py.truthy_str (shutil_which L m) = false) before
  | None => Forall (λ m, Py.truthy_str (shutil_which L m) = false) names
  end.
Proof.
  induction names as [|n rest IH]; simpl; [constructor|].
  destruct (Py.truthy_str (shutil_which L n)) eqn:Hn.
  - destruct (shutil_which L n) as [p|] eqn:Hp; [|done]. split.
    + intros ->. done.
    + exists [], n, rest. by repeat split.
  - destruct (Bins.which_bin L rest) as [p|].
    + destruct IH as (Hne & before & m & after & -> & Hm & Hbefore).
      split; [done|]. exists (n :: before), m, after. repeat split; [done|].
      by constructor.
    + by constructor.
Qed.

(** ** The SSIM windows *)

(** Whenever [compute_ssim_skimage] calls scikit-image the window is 7: an
    image with a side below 7 gets the score 1.0 without any comparison,
    and the two adjustments of the window never apply.  The window of
    [compute_ssim_cv2] is 3 below a short side of 10, 5 below 14, and 7
    from there on, so it exceeds an image whose short side is below 3. *)
Theorem ssim_windows h w :
  PixelMetrics.skimage_window h w = (if Z.min h w <? 7 then None else Some 7) ∧
  PixelMetrics.cv2_window h w
  = (if Z.min h w <? 10 then 3 else if Z.min h w <? 14 then 5 else 7).
Proof.
  unfold PixelMetrics.skimage_window, PixelMetrics.cv2_window.
  set (d := Z.min h w). clearbody d. split.
  - destruct (Z.ltb_spec d 7); [done|].
    destruct (Z.eqb_spec (d `mod` 2) 1).
    + rewrite Z.min_l by lia. done.
    + rewrite Z.min_l by (Z.to_euclidean_division_equations; lia). done.
  - assert (Hdiv : d `div` 2 * 2 ≤ d < d `div` 2 * 2 + 2).
    { pose proof (Z.div_mod d 2 ltac:(lia)). pose proof (Z.mod_pos_bound d 2 ltac:(lia)). lia. }
    destruct (Z.ltb_spec d 10).
    + assert (Hm : Z.min 7 (d `div` 2) = d `div` 2) by lia. rewrite Hm.
      set (k := d `div` 2) in *.
      destruct (Z.eqb_spec (k `mod` 2) 0) as [Hev|Hodd].
      * destruct (Z.ltb_spec (k - 1) 3); lia.
      * destruct (Z.ltb_spec k 3); [lia|].
        clearbody k. Z.to_euclidean_division_equations. lia.
    + destruct (Z.ltb_spec d 14).
      * assert (Hm : Z.min 7 (d `div` 2) = d `div` 2) by lia. rewrite Hm.
        assert (Hc : d `div` 2 = 5 ∨ d `div` 2 = 6) by lia.
        destruct Hc as [-> | ->]; reflexivity.
      * assert (Hm : Z.min 7 (d `div` 2) = 7) by lia. rewrite Hm. reflexivity.
Qed.

(** ** The quantizer of the AVIF search *)

(** [avifenc_save] runs [avifenc] with [--min] and [--max] set to the same
    quantizer, which lies in 0..63 whatever the quality is and does not
    decrease when the quality grows; the search range 10..90 of [process_file]
    maps onto 6..56. *)
Theorem avif_quantizer_of_quality :
  (∀ E in_path out_path bin q,
     Hybrid.avifenc_save E in_path out_path bin q
     = Hybrid.with_note
         (Shell.run_cmd E
            [bin; "--min"; Py.str (ToolSpec.avif_cq q); "--max"; Py.str (ToolSpec.avif_cq q);
             path_str in_path; path_str out_path] [out_path] 60)) ∧
  (∀ q, 0 ≤ ToolSpec.avif_cq q ≤ 63) ∧
  (∀ q q', q ≤ q' → ToolSpec.avif_cq q ≤ ToolSpec.avif_cq q') ∧
  ToolSpec.avif_cq 10 = 6 ∧ ToolSpec.avif_cq 90 = 56.
Proof.
  split; [done|]. split; [intros q; unfold ToolSpec.avif_cq; lia|].
  split; [|done]. intros q q' Hle. unfold ToolSpec.avif_cq.
  assert (Z.quot (q * 63) 100 ≤ Z.quot (q' * 63) 100) by (apply Z.quot_le_mono; lia).
  lia.
Qed.

Lemma avif_quantizer_of_quality_witness : ToolSpec.avif_cq 10 ≤ ToolSpec.avif_cq 90.
Proof. apply (proj1 (proj2 (proj2 avif_quantizer_of_quality)) 10 90). lia. Defined.

(** ** The CSV report *)

(** The row of the CSV report for a job of each mode.  The results of
    [hybrid_perceptual] and [jpeg_binary_search] keep their sizes under the
    keys [original_bytes] and [final_bytes], which are not field names: the
    size columns of their rows are empty, as is the method of a
    [jpeg_binary_search] row.  No [lossless] row names its output file. *)
Theorem csv_report_columns :
  (∀ r, Report.dict_to_list Report.fieldnames (Report.of_hybrid r)
        = [Report.VStr (Hybrid.file r); Report.VStr ""; Report.VStr "";
           Report.VStr (Hybrid.method r); Report.VStr "";
           from_option Report.VStr (Report.VStr "") (Hybrid.error r)]) ∧
  (∀ r, Report.dict_to_list Report.fieldnames (Report.of_jpeg r)
        = [Report.VStr (JpegJob.file r); Report.VStr ""; Report.VStr "";
           Report.VStr ""; Report.VStr ""; Report.str_or_none (JpegJob.error r)]) ∧
  (∀ r, Report.dict_to_list Report.fieldnames (Report.of_perceptual r)
        = [Report.VStr (Perceptual.file r);
           from_option Report.VFloat (Report.VStr "") (Perceptual.original_size r);
           from_option Report.VFloat (Report.VStr "") (Perceptual.final_size r);
           from_option Report.VStr (Report.VStr "") (Perceptual.method_used r);
           from_option Report.VStr (Report.VStr "") (Perceptual.output_file r);
           from_option Report.VStr (Report.VStr "") (Perceptual.error r)]) ∧
  (∀ r, Report.dict_to_list Report.fieldnames (Report.of_lossless r)
        = [Report.VStr (Lossless.file r); Report.VFloat (Lossless.original_size r);
           Report.VFloat (Lossless.final_size r); Report.VStr (Lossless.method_used r);
           Report.VStr "";
           from_option Report.VStr (Report.VStr "") (Lossless.error r)]).
Proof.
  repeat split.
  - intros [f o m [fb|] [e|]]; reflexivity.
  - intros [f o fb rs e [q|]]; reflexivity.
  - intros [f [o|] [fs|] [m|] [out|] [e|]]; reflexivity.
  - intros [f o fs m [n|] [e|]]; reflexivity.
Qed.

(** ** The metric helpers *)

(** [compute_mse_psnr] and [compute_ssim_skimage] never raise and change
    nothing.  When one of the two files is missing or is not an image they
    give [(None, 0.0)] and [None]; without scikit-image the SSIM is [None]. *)
Theorem psnr_and_ssim_fall_back E orig comp w :
  ∃ mse psnr s,
    Metrics.compute_mse_psnr E orig comp w = (Ok (mse, psnr), w) ∧
    Metrics.compute_ssim_skimage E orig comp w = (Ok s, w) ∧
    (ToolSpec.readable E (files w) orig && ToolSpec.readable E (files w) comp = false →
       mse = None ∧ psnr = 0%float ∧ s = None) ∧
    (have_skimage E = false → s = None).
Proof.
  rewrite MetricsFacts.compute_mse_psnr_run, MetricsFacts.compute_ssim_skimage_run.
  destruct (MetricsSpec.psnr_of E (files w !! orig) (files w !! comp)) as [mse psnr] eqn:Hp.
  exists mse, psnr, (MetricsSpec.ssim_of E (files w !! orig) (files w !! comp)).
  split; [done|]. split; [done|]. split.
  - unfold ToolSpec.readable, MetricsSpec.psnr_of, MetricsSpec.ssim_of in *.
    destruct (files w !! orig) as [o|], (files w !! comp) as [c|]; simpl.
    + destruct (pil_open E o), (pil_open E c); simpl; intros Hr; try done;
        injection Hp as <- <-; by destruct (have_skimage E).
    + intros _. injection Hp as <- <-. by destruct (have_skimage E).
    + intros _. injection Hp as <- <-. by destruct (have_skimage E).
    + intros _. injection Hp as <- <-. by destruct (have_skimage E).
  - unfold MetricsSpec.ssim_of. by intros ->.
Qed.

Lemma psnr_and_ssim_fall_back_witness :
  ∃ mse psnr s,
    Metrics.compute_mse_psnr Scenario.pillow52 Scenario.original Scenario.gone
      Scenario.one_file_world = (Ok (mse, psnr), Scenario.one_file_world) ∧
    Metrics.compute_ssim_skimage Scenario.pillow52 Scenario.original Scenario.gone
      Scenario.one_file_world = (Ok s, Scenario.one_file_world) ∧
    mse = None ∧ psnr = 0%float ∧ s = None.
Proof.
  destruct (psnr_and_ssim_fall_back Scenario.pillow52 Scenario.original Scenario.gone
              Scenario.one_file_world) as (mse & psnr & s & H1 & H2 & H3 & _).
  exists mse, psnr, s. split; [exact H1|]. split; [exact H2|]. apply H3. reflexivity.
Defined.

(** [run_butteraugli] never raises.  Without a binary it returns [None] and
    starts no process; a score is the first number in the output of a run
    that exited with status 0. *)
Theorem run_butteraugli_cases E orig comp butter_bin w :
  ∃ score w',
    Metrics.run_butteraugli E orig comp butter_bin w = (Ok score, w') ∧
    (Py.truthy_str butter_bin = false → score = None ∧ w' = w) ∧
    (∀ v, score = Some v →
       ∃ bin out err,
         butter_bin = Some bin ∧
         status (os_exec E [bin; path_str orig; path_str comp] (files w)) = Exited 0 out err ∧
         first_number E (out +:+ err) = Some v).
Proof.
  unfold Metrics.run_butteraugli. destruct butter_bin as [bin|].
  2:{ exists None, w. split; [done|]. split; [done|]. intros v [=]. }
  destruct (Py.truthy_str (Some bin)) eqn:Ht; simpl.
  2:{ exists None, w. split; [done|]. split; [done|]. intros v [=]. }
  destruct (ShellFacts.run_cmd_cases E [bin; path_str orig; path_str comp] [] 30 w)
    as (ok & msg & w' & Hrun & Hc).
  unfold try_except. rewrite (bind_ok _ _ _ _ _ Hrun).
  destruct ok; simpl.
  - exists (first_number E msg), w'. split; [done|]. split; [done|].
    intros v Hv. exists bin. simpl in Hc.
    destruct (status _) as [|m| |rc out err]; try (by destruct Hc as [[=] _]).
    destruct Hc as (_ & _ & Hc). destruct (Z.eqb_spec rc 0) as [->|];
      [|by destruct Hc as [[=] _]].
    destruct Hc as [_ Hmsg]. exists out, err. rewrite <- (Hmsg eq_refl). done.
  - exists None, w'. split; [done|]. split; [done|]. intros v [=].
Qed.

Lemma files_identical_run E L f1 f2 w :
  ∃ same,
    PixelMetrics.files_identical E L f1 f2 w = (Ok same, w) ∧
    (same = true ↔
       ∃ c1 c2 i1 i2,
         files w !! f1 = Some c1 ∧ files w !! f2 = Some c2 ∧
         pil_open E c1 = inr i1 ∧ pil_open E c2 = inr i2 ∧
         pil_mode L c1 = pil_mode L c2 ∧
         width i1 = width i2 ∧ height i1 = height i2 ∧
         difference_bbox L c1 c2 = inr false).
Proof.
  unfold PixelMetrics.files_identical, try_except, Pil.open, get_files, mbind, M_bind, raise.
  simpl.
  destruct (files w !! f1) as [c1|] eqn:H1; simpl.
  2:{ exists false. split; [done|]. split; [done|]. by intros (? & ? & ? & ? & [=] & _). }
  destruct (pil_open E c1) as [m1|i1] eqn:Ho1; simpl.
  { exists false. split; [done|]. split; [done|].
    intros (? & ? & ? & ? & [= <-] & _ & Ho & _). congruence. }
  destruct (files w !! f2) as [c2|] eqn:H2; simpl.
  2:{ exists false. split; [done|]. split; [done|]. by intros (? & ? & ? & ? & _ & [=] & _). }
  destruct (pil_open E c2) as [m2|i2] eqn:Ho2; simpl.
  { exists false. split; [done|]. split; [done|].
    intros (? & ? & ? & ? & _ & [= <-] & _ & Ho & _). congruence. }
  destruct (String.eqb_spec (pil_mode L c1) (pil_mode L c2)) as [Hmode|Hmode]; simpl.
  2:{ exists false. split; [done|]. split; [done|].
      intros (? & ? & ? & ? & [= <-] & [= <-] & _ & _ & Hm & _). done. }
  destruct (Z.eqb_spec (width i1) (width i2)) as [Hw|Hw]; simpl.
  2:{ exists false. split; [done|]. split; [done|].
      intros (? & ? & ? & ? & [= <-] & [= <-] & Ha & Hb & _ & Hw' & _). congruence. }
  destruct (Z.eqb_spec (height i1) (height i2)) as [Hh|Hh]; simpl.
  2:{ exists false. split; [done|]. split; [done|].
      intros (? & ? & ? & ? & [= <-] & [= <-] & Ha & Hb & _ & _ & Hh' & _). congruence. }
  destruct (difference_bbox L c1 c2) as [msg|box] eqn:Hd; simpl.
  { exists false. split; [done|]. split; [done|].
    intros (? & ? & ? & ? & [= <-] & [= <-] & _ & _ & _ & _ & _ & Hd'). congruence. }
  exists (negb box). split; [done|]. split.
  - intros Hb. exists c1, c2, i1, i2. destruct box; [done|]. done.
  - intros (? & ? & ? & ? & [= <-] & [= <-] & _ & _ & _ & _ & _ & Hd').
    rewrite Hd in Hd'. by injection Hd' as ->.
Qed.

(** [files_identical] never raises and changes nothing; it answers [True]
    exactly when both files open as images of the same mode and size whose
    difference has no bounding box. *)
Theorem files_identical_cases E L f1 f2 w :
  ∃ same,
    PixelMetrics.files_identical E L f1 f2 w = (Ok same, w) ∧
    (same = true ↔
       ∃ c1 c2 i1 i2,
         files w !! f1 = Some c1 ∧ files w !! f2 = Some c2 ∧
         pil_open E c1 = inr i1 ∧ pil_open E c2 = inr i2 ∧
         pil_mode L c1 = pil_mode L c2 ∧
         width i1 = width i2 ∧ height i1 = height i2 ∧
         difference_bbox L c1 c2 = inr false).
Proof. apply files_identical_run. Qed.

Lemma compute_ssim_cv2_run L original_path compressed_path w :
  PixelMetrics.compute_ssim_cv2 L original_path compressed_path w
  = (Ok (if have_cv2 L
         then Some (ToolSpec.cv2_score L (files w) original_path compressed_path)
         else None), w).
Proof.
  unfold PixelMetrics.compute_ssim_cv2, ToolSpec.cv2_score.
  destruct (have_cv2 L); [|done]. simpl.
  unfold try_except, get_files, mbind, M_bind. simpl.
  destruct (PixelMetrics.imread L (files w) original_path) as [o|]; [|done].
  destruct (PixelMetrics.imread L (files w) compressed_path) as [c|]; [|done].
  by destruct (cv2_ssim L o c).
Qed.

(** [compute_ssim_cv2] never raises and changes nothing.  It returns [None]
    exactly when OpenCV is missing.  With OpenCV, a file that is missing or
    that [imread] does not decode, and any failure of the computation, give
    the score 0.0; otherwise the score is the one computed. *)
Theorem compute_ssim_cv2_cases L original_path compressed_path w :
  ∃ score,
    PixelMetrics.compute_ssim_cv2 L original_path compressed_path w = (Ok score, w) ∧
    (score = None ↔ have_cv2 L = false) ∧
    (have_cv2 L = true →
     (PixelMetrics.imread L (files w) original_path = None ∨
      PixelMetrics.imread L (files w) compressed_path = None ∨
      ∃ original compressed,
        PixelMetrics.imread L (files w) original_path = Some original ∧
        PixelMetrics.imread L (files w) compressed_path = Some compressed ∧
        cv2_ssim L original compressed = None) →
     score = Some 0%float) ∧
    (∀ original compressed s,
       have_cv2 L = true →
       PixelMetrics.imread L (files w) original_path = Some original →
       PixelMetrics.imread L (files w) compressed_path = Some compressed →
       cv2_ssim L original compressed = Some s →
       score = Some s).
Proof.
  eexists. split; [apply compute_ssim_cv2_run|]. unfold ToolSpec.cv2_score.
  destruct (have_cv2 L).
  - split; [by split|]. split.
    + intros _ [->|[->|(o & c & -> & -> & ->)]]; try done.
      by destruct (PixelMetrics.imread L (files w) original_path).
    + by intros o c s _ -> -> ->.
  - split; [by split|]. split; [done|]. by intros o c s [=].
Qed.

(** ** Steps up to a relation *)

Module StepFacts.
Import StepSpec.

Section Rel.
Context (R : world → world → Prop).
Context (Rrefl : ∀ w, R w w).
Context (Rtrans : ∀ w1 w2 w3, R w1 w2 → R w2 w3 → R w1 w3).

Lemma step_ret {A} (Q : A → Prop) (a : A) : Q a → step R Q (mret a).
Proof. intros Ha w. split; [apply Rrefl|]. by intros a' [= <-]. Qed.

Lemma step_raise {A} (Q : A → Prop) e : step R Q (raise e).
Proof. intros w. split; [apply Rrefl|]. intros a [=]. Qed.

Lemma step_weaken {A} (P Q : A → Prop) (m : M A) :
  step R P m → (∀ a, P a → Q a) → step R Q m.
Proof. intros Hm HPQ w. destruct (Hm w) as [Hr Hp]. split; [done|]. eauto. Qed.

Lemma step_bind {A B} (P : A → Prop) (Q : B → Prop) (m : M A) (f : A → M B) :
  step R P m → (∀ a, P a → step R Q (f a)) → step R Q (m ≫= f).
Proof.
  intros Hm Hf w. destruct (Hm w) as [Hr Hp].
  unfold mbind, M_bind. destruct (m w) as [[a|e] w1]; simpl in *.
  - destruct (Hf a (Hp a eq_refl) w1) as [Hr' Hq]. split; [|done]. by eapply Rtrans.
  - split; [done|]. intros b [=].
Qed.

Lemma step_try_except {A} (Q : A → Prop) (m : M A) (h : exn → M A) :
  step R Q m → (∀ e, step R Q (h e)) → step R Q (try_except m h).
Proof.
  intros Hm Hh w. destruct (Hm w) as [Hr Hq].
  unfold try_except. destruct (m w) as [[a|e] w1]; simpl in *; [done|].
  destruct (Hh e w1) as [Hr' Hq']. split; [|done]. by eapply Rtrans.
Qed.

Lemma step_try_finally {A} (Q : A → Prop) (m : M A) (f : M unit) :
  step R Q m → step R (λ _, True) f → step R Q (try_finally m f).
Proof.
  intros Hm Hf w. destruct (Hm w) as [Hr Hq].
  unfold try_finally. destruct (m w) as [r w1]; simpl in *.
  destruct (Hf w1) as [Hr' _].
  destruct (f w1) as [[[]|e] w2]; simpl in *.
  - split; [|done]. by eapply Rtrans.
  - split; [|intros a [=]]. by eapply Rtrans.
Qed.

Lemma step_try_bound {A B} (P : A → Prop) (Q : B → Prop) (m : M A) (rest : A → M B)
    (h : option A → exn → M B) :
  step R P m → (∀ x, P x → step R Q (rest x)) →
  (∀ e, step R Q (h None e)) → (∀ x e, P x → step R Q (h (Some x) e)) →
  step R Q (Shell.try_bound m rest h).
Proof.
  intros Hm Hrest Hnone Hsome w. destruct (Hm w) as [Hr Hp].
  unfold Shell.try_bound. destruct (m w) as [[x|e] w1]; simpl in *.
  - destruct (Hrest x (Hp x eq_refl) w1) as [Hr1 Hq1].
    destruct (rest x w1) as [[b|e] w2]; simpl in *.
    + split; [|done]. by eapply Rtrans.
    + destruct (Hsome x e (Hp x eq_refl) w2) as [Hr2 Hq2]. split; [|done].
      eapply Rtrans; [|exact Hr2]. by eapply Rtrans.
  - destruct (Hnone e w1) as [Hr1 Hq1]. split; [|done]. by eapply Rtrans.
Qed.

Lemma step_if {A} (Q : A → Prop) (c : bool) (m1 m2 : M A) :
  step R Q m1 → step R Q m2 → step R Q (if c then m1 else m2).
Proof. by destruct c. Qed.

Lemma step_bisect_loop {B} (Q : B → Prop) (probe : Z → M (option B)) n :
  (∀ q, step R (FrameSpec.if_some Q) (probe q)) →
  ∀ lo hi best, FrameSpec.if_some Q best →
    step R (FrameSpec.if_some Q) (Search.bisect_loop n probe lo hi best).
Proof.
  intros Hprobe. induction n as [|n IH]; intros lo hi best Hbest; simpl.
  - by apply step_ret.
  - apply step_if; [|by apply step_ret].
    eapply step_bind; [apply Hprobe|]. intros [b|] Hb; apply IH; done.
Qed.

Lemma step_bisect {B} (Q : B → Prop) (probe : Z → M (option B)) lo hi :
  (∀ q, step R (FrameSpec.if_some Q) (probe q)) →
  step R (FrameSpec.if_some Q) (Search.bisect probe lo hi None).
Proof. intros. by apply step_bisect_loop. Qed.

(** A step that leaves the world as it is. *)
Lemma step_pure {A} (Q : A → Prop) (m : M A) :
  (∀ w, (m w).2 = w) → (∀ w a, (m w).1 = Ok a → Q a) → step R Q m.
Proof. intros Hw Hq w. rewrite Hw. split; [apply Rrefl|]. apply Hq. Qed.

End Rel.

(** Whatever a step does, it relates the worlds by [any_world]. *)
Lemma step_any {A} (m : M A) : step any_world (λ _, True) m.
Proof. by intros w. Qed.

Lemma any_world_refl w : any_world w w.
Proof. done. Qed.

Lemma any_world_trans w1 w2 w3 : any_world w1 w2 → any_world w2 w3 → any_world w1 w3.
Proof. done. Qed.

Lemma inputs_stay_refl w : inputs_stay w w.
Proof. by intros p. Qed.

Lemma inputs_stay_trans w1 w2 w3 : inputs_stay w1 w2 → inputs_stay w2 w3 → inputs_stay w1 w3.
Proof. intros H1 H2 p Hp Hs. apply H2; [done|]. by apply H1. Qed.

End StepFacts.

(** ** One job of [hybrid_perceptual], for any tools *)

Module HybridJobFacts.
Import StepSpec StepFacts JobSpec.

Lemma select_output_well_formed in_path out_dir file size candidates :
  step any_world (well_formed file size)
    (Hybrid.select_output in_path out_dir (Hybrid.JobResult file size "none" None None)
       candidates).
Proof.
  unfold Hybrid.select_output. destruct candidates as [|c cs].
  - eapply (step_bind _ any_world_trans); [apply step_any|]. intros _ _.
    apply (step_ret _ any_world_refl).
    repeat split; simpl; try done; by intros [? [=]].
  - eapply (step_bind _ any_world_trans); [apply step_any|]. intros _ _.
    apply (step_ret _ any_world_refl). repeat split; simpl; try done; by eexists.
Qed.

Lemma rmtree_inside d w p :
  inside d p = true → files (FS.rmtree d w).2 !! p = None.
Proof.
  intros Hin. simpl. rewrite map_lookup_filter.
  destruct (files w !! p) as [c|]; simpl; [|done].
  rewrite option_guard_False; [done|]. simpl. by rewrite Hin.
Qed.

(** A [try] whose handler returns cannot raise. *)
Lemma try_except_returns {A} (m : M A) (h : exn → M A) w :
  (∀ e w1, ∃ a w', h e w1 = (Ok a, w')) → ∃ a w', try_except m h w = (Ok a, w').
Proof.
  intros Hh. unfold try_except. destruct (m w) as [[a|e] w1]; [by eexists _, _|apply Hh].
Qed.

Lemma hybrid_process_file_run E in_path out_dir a b w c :
  files w !! in_path = Some c →
  ∃ r w',
    Hybrid.process_file E in_path out_dir a b w = (Ok r, w') ∧
    well_formed (path_str in_path) (size_of c) r ∧
    (∀ p, inside (Path (Temp "work_" (next_tmp w)) []) p = true → files w' !! p = None).
Proof.
  intros Hc. unfold Hybrid.process_file.
  rewrite (bind_ok _ _ _ _ _ (JobFacts.stat_size_run _ _ _ Hc)).
  unfold mbind at 1, M_bind at 1. simpl.
  set (workdir := Path (Temp "work_" (next_tmp w)) []).
  set (w1 := World (files w) (S (next_tmp w)) (procs w) (encode_log w)).
  set (body := try_except _ _).
  assert (Hbody : step any_world (well_formed (path_str in_path) (size_of c)) body).
  { apply (step_try_except _ any_world_trans).
    - eapply (step_bind _ any_world_trans); [apply step_any|]. intros [resized work_in] _.
      eapply (step_bind _ any_world_trans); [apply step_any|]. intros candidates _.
      apply select_output_well_formed.
    - intros e. apply (step_ret _ any_world_refl).
      repeat split; simpl; try done; by intros [? [=]]. }
  assert (Hok : ∃ r w2, body w1 = (Ok r, w2)).
  { apply try_except_returns. intros e w2. by eexists _, _. }
  destruct Hok as (r & w2 & Hrun).
  destruct (Hbody w1) as [_ Hq]. rewrite Hrun in Hq.
  exists r, (FS.rmtree workdir w2).2.
  unfold try_finally. rewrite Hrun. simpl. split; [done|]. split; [by apply Hq|].
  intros p Hp. by apply (rmtree_inside workdir w2 p).
Qed.

End HybridJobFacts.

(** ** No job of [hybrid_perceptual] deletes a file the user gave *)

Module StayFacts.
Import StepSpec StepFacts FrameSpec.

Abbreviation stays := (step inputs_stay).
Abbreviation stay_bind := (step_bind inputs_stay inputs_stay_trans).
Abbreviation stay_ret := (step_ret inputs_stay inputs_stay_refl).
Abbreviation stay_raise := (step_raise inputs_stay inputs_stay_refl).
Abbreviation stay_try_except := (step_try_except inputs_stay inputs_stay_trans).
Abbreviation stay_try_finally := (step_try_finally inputs_stay inputs_stay_trans).

Lemma stay_same_files {A} (Q : A → Prop) (m : M A) :
  (∀ w, files (m w).2 = files w) → (∀ w a, (m w).1 = Ok a → Q a) → stays Q m.
Proof.
  intros Hf Hq w. split; [|apply Hq]. intros p _ Hs. by rewrite Hf.
Qed.

Lemma stay_get_files : stays (λ _, True) get_files.
Proof. by apply stay_same_files. Qed.

Lemma stay_modify_files f :
  (∀ fs p, is_given p = true → is_Some (fs !! p) → is_Some (f fs !! p)) →
  stays (λ _, True) (modify_files f).
Proof. intros Hf w. split; [|done]. intros p Hp Hs. simpl. by apply Hf. Qed.

Lemma stay_write out c : stays (λ _, True) (modify_files (<[out := c]>)).
Proof.
  apply stay_modify_files. intros fs p _ Hs.
  destruct (decide (out = p)) as [->|Hne].
  - rewrite lookup_insert_eq. by eexists.
  - by rewrite lookup_insert_ne.
Qed.

Lemma stay_stat_size p : stays (λ _, True) (FS.stat_size p).
Proof.
  eapply stay_bind; [apply stay_get_files|]. intros fs _.
  destruct (fs !! p); [by apply stay_ret | apply stay_raise].
Qed.

Lemma stay_move src dst : is_given src = false → stays (λ _, True) (FS.move src dst).
Proof.
  intros Hsrc. eapply stay_bind; [apply stay_get_files|]. intros fs _.
  destruct (fs !! src); [|apply stay_raise].
  apply stay_modify_files. intros fs' p Hp Hs.
  destruct (decide (dst = p)) as [->|Hne].
  - rewrite lookup_insert_eq. by eexists.
  - rewrite lookup_insert_ne by done. rewrite lookup_delete_ne; [done|].
    by apply FrameFacts.not_given_ne.
Qed.

Lemma stay_copy2 src dst : stays (λ _, True) (FS.copy2 src dst).
Proof.
  eapply stay_bind; [apply stay_get_files|]. intros fs _.
  destruct (fs !! src); [|apply stay_raise].
  destruct (bool_decide (src = dst)); [apply stay_raise | apply stay_write].
Qed.

Lemma stay_mkdtemp prefix : stays (λ d, is_given d = false) (FS.mkdtemp prefix).
Proof. apply stay_same_files; [done|]. by intros w d [= <-]. Qed.

Lemma stay_rmtree d : is_given d = false → stays (λ _, True) (FS.rmtree d).
Proof.
  intros Hd. apply stay_modify_files. intros fs p Hp [c Hc].
  exists c. rewrite map_lookup_filter, Hc. simpl.
  rewrite option_guard_True; [done|]. simpl. by apply FrameFacts.inside_not_given.
Qed.

Lemma stay_log_encode q : stays (λ _, True) (Search.log_encode q).
Proof. by apply stay_same_files. Qed.

Lemma after_writes_is_Some ws fs p :
  is_Some (fs !! p) → is_Some (ShellSpec.after_writes ws fs !! p).
Proof.
  unfold ShellSpec.after_writes. revert fs.
  induction ws as [|[q c] ws IH]; intros fs Hs; simpl; [done|].
  apply IH. simpl. destruct (decide (q = p)) as [->|Hne].
  - rewrite lookup_insert_eq. by eexists.
  - by rewrite lookup_insert_ne.
Qed.

Section Tools.
Context (E : externals).

Lemma stay_run_cmd cmd expected timeout :
  stays (λ _, True) (Shell.run_cmd E cmd expected timeout).
Proof.
  intros w. split; [|done]. intros p Hp Hs.
  destruct (ShellFacts.run_cmd_cases E cmd expected timeout w) as (ok & msg & w' & Hrun & Hc).
  rewrite Hrun. simpl.
  destruct cmd as [|exe rest]; [by destruct Hc as [_ ->]|].
  simpl in Hc. destruct (status _) as [|m| |rc out err] eqn:Hst.
  - by destruct Hc as (_ & -> & _).
  - by destruct Hc as (_ & -> & _).
  - destruct Hc as (_ & _ & -> & _). by apply after_writes_is_Some.
  - destruct Hc as (_ & -> & _). by apply after_writes_is_Some.
Qed.

Lemma stay_pil_open p : stays (λ _, True) (Pil.open E p).
Proof.
  eapply stay_bind; [apply stay_get_files|]. intros fs _.
  destruct (fs !! p) as [c|]; [|apply stay_raise].
  destruct (pil_open E c); [apply stay_raise | by apply stay_ret].
Qed.

Lemma stay_pil_save img out kwargs : stays (λ _, True) (Pil.save E img out kwargs).
Proof. unfold Pil.save. destruct (pil_save E _ _); [apply stay_raise | apply stay_write]. Qed.

Lemma stay_pil_resize_save img max_width out :
  stays (λ _, True) (Pil.resize_save E img max_width out).
Proof.
  unfold Pil.resize_save.
  destruct (pil_resize_save E _ _); [apply stay_raise | apply stay_write].
Qed.

Lemma stay_compute_mse_psnr orig comp :
  stays (λ _, True) (Metrics.compute_mse_psnr E orig comp).
Proof.
  apply stay_same_files; [|done]. intros w. by rewrite MetricsFacts.compute_mse_psnr_run.
Qed.

Lemma stay_compute_ssim_skimage orig comp :
  stays (λ _, True) (Metrics.compute_ssim_skimage E orig comp).
Proof.
  apply stay_same_files; [|done]. intros w. by rewrite MetricsFacts.compute_ssim_skimage_run.
Qed.

Lemma stay_run_butteraugli orig comp butter_bin :
  stays (λ _, True) (Metrics.run_butteraugli E orig comp butter_bin).
Proof.
  unfold Metrics.run_butteraugli. destruct butter_bin as [bin|]; [|by apply stay_ret].
  destruct (negb _); [by apply stay_ret|].
  apply stay_try_except; [|intros; by apply stay_ret].
  eapply stay_bind; [apply stay_run_cmd|]. intros [ok out] _.
  destruct (negb ok); by apply stay_ret.
Qed.

Lemma stay_metrics_fn orig cand butter :
  stays (λ _, True) (Hybrid.metrics_fn E orig cand butter).
Proof.
  unfold Hybrid.metrics_fn.
  eapply stay_bind; [apply stay_compute_mse_psnr|]. intros [mse psnr] _.
  eapply stay_bind; [apply stay_compute_ssim_skimage|]. intros s _.
  eapply stay_bind; [|intros; by apply stay_ret].
  destruct (Py.truthy_str butter); [apply stay_run_butteraugli | by apply stay_ret].
Qed.

Lemma stay_with_note m : stays (λ _, True) m → stays (λ _, True) (Hybrid.with_note m).
Proof.
  intros Hm. eapply stay_bind; [exact Hm|]. intros [ok msg] _. by apply stay_ret.
Qed.

Lemma stay_pillow_save_jpeg in_path out_path q keep_exif :
  stays (λ _, True) (Hybrid.pillow_save_jpeg E in_path out_path q keep_exif).
Proof.
  apply stay_try_except; [|intros; by apply stay_ret].
  eapply stay_bind; [apply stay_pil_open|]. intros img _.
  eapply stay_bind; [apply stay_pil_save|]. intros; by apply stay_ret.
Qed.

Lemma stay_pillow_save_webp in_path out_path q :
  stays (λ _, True) (Hybrid.pillow_save_webp E in_path out_path q).
Proof.
  apply stay_try_except; [|intros; by apply stay_ret].
  eapply stay_bind; [apply stay_pil_open|]. intros img _.
  eapply stay_bind; [apply stay_pil_save|]. intros; by apply stay_ret.
Qed.

End Tools.

Lemma stay_try_quality make_cand_fn metrics_fn orig a butter_bin tmpdir mid :
  (∀ q p, stays (λ _, True) (make_cand_fn q p)) →
  (∀ o c b, stays (λ _, True) (metrics_fn o c b)) →
  is_given tmpdir = false →
  stays (if_some temp_best)
    (Hybrid.try_quality make_cand_fn metrics_fn orig a butter_bin tmpdir mid).
Proof.
  intros Hmake Hmet Htmp. unfold Hybrid.try_quality.
  eapply stay_bind; [apply stay_log_encode|]. intros _ _.
  eapply stay_bind; [by apply Hmake|]. intros [ok note] _.
  destruct (negb ok); [by apply stay_ret|].
  eapply stay_bind; [apply Hmet|]. intros m _.
  destruct (Hybrid.threshold_passes a m); apply stay_ret; [|done]. by intros b [= <-].
Qed.

Lemma stay_binary_search_quality make_cand_fn metrics_fn orig lo hi a butter_bin :
  (∀ q p, stays (λ _, True) (make_cand_fn q p)) →
  (∀ o c b, stays (λ _, True) (metrics_fn o c b)) →
  stays temp_result
    (Hybrid.binary_search_quality make_cand_fn metrics_fn orig lo hi a butter_bin).
Proof.
  intros Hmake Hmet. unfold Hybrid.binary_search_quality.
  eapply stay_bind; [apply stay_mkdtemp|]. intros tmpdir Htmp.
  apply stay_try_finally; [|by apply stay_ret].
  eapply stay_bind.
  { apply (step_bisect inputs_stay inputs_stay_refl inputs_stay_trans).
    intros q. by apply stay_try_quality. }
  intros [b|] Hb; [|apply stay_ret; by intros q p m [=]].
  eapply stay_bind; [apply stay_move; by apply Hb|]. intros _ _.
  apply stay_ret. by intros q p m [= _ <- _].
Qed.

Section Job.
Context (E : externals).

Lemma stay_appended format r :
  temp_result r → format ∈ ["jpg"; "webp"; "avif"] →
  stays temp_candidates (Hybrid.appended format r).
Proof.
  intros Hr Hfmt. unfold Hybrid.appended. destruct r as [q p m|].
  - eapply stay_bind; [apply stay_stat_size|]. intros size _.
    apply stay_ret. constructor; [|constructor]. split; [|done]. by eapply Hr.
  - apply stay_ret. constructor.
Qed.

Lemma stay_collect_candidates work_in a b :
  stays temp_candidates (Hybrid.collect_candidates E work_in a b).
Proof.
  unfold Hybrid.collect_candidates.
  apply (stay_bind temp_candidates).
  { destruct (bool_decide _); [|apply stay_ret, FrameFacts.temp_candidates_nil].
    apply (stay_bind temp_result).
    - apply stay_binary_search_quality; [|intros; by apply stay_metrics_fn].
      intros q p. unfold Hybrid.make_jpeg. destruct (Py.truthy_str _);
        [apply stay_with_note, stay_run_cmd | apply stay_pillow_save_jpeg].
    - intros r Hr. apply stay_appended; [done|]. by left. }
  intros jpg Hjpg. apply (stay_bind temp_candidates).
  { destruct (bool_decide _); [|apply stay_ret, FrameFacts.temp_candidates_nil].
    apply (stay_bind temp_result).
    - apply stay_binary_search_quality; [|intros; by apply stay_metrics_fn].
      intros q p. unfold Hybrid.make_webp. destruct (Py.truthy_str _);
        [apply stay_with_note, stay_run_cmd | apply stay_pillow_save_webp].
    - intros r Hr. apply stay_appended; [done|]. right. by left. }
  intros webp Hwebp. apply (stay_bind temp_candidates).
  { destruct (_ && _); [|apply stay_ret, FrameFacts.temp_candidates_nil].
    apply (stay_bind temp_result).
    - apply stay_binary_search_quality; [|intros; by apply stay_metrics_fn].
      intros q p. apply stay_with_note, stay_run_cmd.
    - intros r Hr. apply stay_appended; [done|]. right. right. by left. }
  intros avif Havif. apply stay_ret.
  unfold temp_candidates. rewrite !Forall_app. done.
Qed.

Lemma stay_smart_resize in_path out_path max_width :
  stays (λ _, True) (ImageOps.smart_resize_width_only E in_path out_path max_width).
Proof.
  apply stay_try_except; [|intros; by apply stay_ret].
  eapply stay_bind; [apply stay_pil_open|]. intros img _.
  destruct (_ <? _).
  - eapply stay_bind; [apply stay_pil_resize_save|]. intros; by apply stay_ret.
  - eapply stay_bind; [apply stay_copy2|]. intros; by apply stay_ret.
Qed.

Lemma stay_select_output in_path out_dir res candidates :
  temp_candidates candidates →
  stays (λ _, True) (Hybrid.select_output in_path out_dir res candidates).
Proof.
  intros Hc. unfold Hybrid.select_output. destruct candidates as [|c cs].
  - eapply stay_bind; [apply stay_copy2|]. intros; by apply stay_ret.
  - eapply stay_bind; [|intros; by apply stay_ret].
    apply stay_move.
    pose proof (SelectFacts.first_smallest_elem _ _ _
                  (SelectFacts.min_by_first_smallest Hybrid.bytes c cs)) as Hin.
    unfold temp_candidates in Hc. rewrite Forall_forall in Hc. by apply Hc.
Qed.

Lemma stay_process_file in_path out_dir a b :
  stays (λ _, True) (Hybrid.process_file E in_path out_dir a b).
Proof.
  unfold Hybrid.process_file.
  eapply stay_bind; [apply stay_stat_size|]. intros size _.
  eapply stay_bind; [apply stay_mkdtemp|]. intros workdir Hwork.
  apply stay_try_finally; [|by apply stay_rmtree].
  apply stay_try_except; [|intros; by apply stay_ret].
  eapply stay_bind; [apply stay_smart_resize|]. intros [resized work_in] _.
  eapply stay_bind; [apply stay_collect_candidates|]. intros candidates Hc.
  by apply stay_select_output.
Qed.

End Job.
End StayFacts.

(** ** The batch of [hybrid_perceptual] *)

Module BatchFacts.
Import StepSpec StepFacts JobSpec FrameSpec.

(** What holds of the futures one by one holds of them in completion order. *)
Lemma as_completed_Forall2 {A B} (P : A → B → Prop) completed (l : list A) (k : list B) :
  Forall2 P l k →
  Forall2 P (Pool.as_completed completed l) (Pool.as_completed completed k).
Proof.
  intros Hlk. unfold Pool.as_completed.
  induction completed as [|i rest IH]; simpl; [constructor|].
  destruct (l !! i) as [x|] eqn:Hx.
  - destruct (Forall2_lookup_l _ _ _ _ _ Hlk Hx) as (y & Hy & Hxy).
    rewrite Hy. simpl. by constructor.
  - assert (k !! i = None) as ->.
    { apply lookup_ge_None. rewrite <- (Forall2_length _ _ _ Hlk). by apply lookup_ge_None. }
    done.
Qed.

Lemma lookup_all_from {A} (done_ l : list A) :
  omap (λ i, (done_ ++ l) !! i) (seq (length done_) (length l)) = l.
Proof.
  revert done_. induction l as [|x l IH]; intros done_; simpl; [done|].
  rewrite lookup_app_r by lia. rewrite Nat.sub_diag. simpl. f_equal.
  specialize (IH (done_ ++ [x])). rewrite length_app, <- app_assoc in IH. simpl in IH.
  by rewrite Nat.add_1_r in IH.
Qed.

(** Every future completes once: a complete schedule yields all of them. *)
Lemma as_completed_all {A} completed (l : list A) :
  completed ≡ₚ seq 0 (length l) → Pool.as_completed completed l ≡ₚ l.
Proof.
  intros Hperm. unfold Pool.as_completed. rewrite Hperm.
  pose proof (lookup_all_from [] l) as Hall. simpl in Hall. by rewrite Hall.
Qed.

Section Batch.
Context (E : externals) (out_dir : path) (a : Hybrid.args) (b : Hybrid.bins).

Lemma submit_all inputs :
  ∀ w, Forall (λ f, is_given f = true ∧ is_Some (files w !! f)) inputs →
    ∃ futures w',
      mapM (λ f, Pool.submit (Hybrid.process_file E f out_dir a b)) inputs w
        = (Ok futures, w') ∧
      Forall2 (λ f fut, ∃ r size, fut = Ok r ∧ well_formed (path_str f) size r)
        inputs futures.
Proof.
  induction inputs as [|f rest IH]; intros w Hall; simpl.
  - exists [], w. split; [done|]. constructor.
  - inversion Hall as [|? ? [Hgiven [c Hc]] Hrest]; subst.
    destruct (HybridJobFacts.hybrid_process_file_run E f out_dir a b w c Hc)
      as (r & w1 & Hrun & Hwf & _).
    destruct (StayFacts.stay_process_file E f out_dir a b w) as [Hstay _].
    rewrite Hrun in Hstay. simpl in Hstay.
    destruct (IH w1) as (futures & w' & Hmap & Hfuts).
    { eapply Forall_impl; [exact Hrest|]. intros g [Hg Hs]. split; [done|]. by apply Hstay. }
    exists (Ok r :: futures), w'. split.
    + unfold mbind at 1, M_bind at 1. unfold Pool.submit at 1. rewrite Hrun.
      rewrite (bind_ok _ _ _ _ _ Hmap). done.
    + constructor; [|done]. by exists r, (size_of c).
Qed.

Lemma collect_all (inputs : list path) (futures : list (outcome Hybrid.job_result)) w :
  Forall2 (λ f fut, ∃ r size, fut = Ok r ∧ well_formed (path_str f) size r)
    inputs futures →
  ∃ results,
    mapM Pool.future_result futures w = (Ok results, w) ∧
    Forall2 (λ f r, ∃ size, well_formed (path_str f) size r) inputs results.
Proof.
  induction 1 as [|f fut inputs futures (r & size & -> & Hwf) _ (results & Hmap & Hres)]; simpl.
  - exists []. split; [done|]. constructor.
  - exists (r :: results). split.
    + unfold mbind at 1, M_bind at 1. simpl. rewrite (bind_ok _ _ _ _ _ Hmap). done.
    + constructor; [by exists size|done].
Qed.

Lemma hybrid_run_all completed inputs w :
  Forall (λ f, is_given f = true ∧ is_Some (files w !! f)) inputs →
  ∃ results w',
    Hybrid.run E completed inputs out_dir a b w = (Ok results, w') ∧
    Forall2 (λ f r, ∃ size, well_formed (path_str f) size r)
      (Pool.as_completed completed inputs) results.
Proof.
  intros Hall. destruct (submit_all inputs w Hall) as (futures & w' & Hmap & Hfuts).
  destruct (collect_all _ _ w' (as_completed_Forall2 _ completed _ _ Hfuts))
    as (results & Hres & Hwf).
  exists results, w'. unfold Hybrid.run. rewrite (bind_ok _ _ _ _ _ Hmap). done.
Qed.

End Batch.
End BatchFacts.

(** For a file that is there, the job of [hybrid_perceptual] returns a
    result, whatever the tools do: it names the file and its size, carries
    either a final size or an error (any exception of the [try] block ends
    up there, with the method "none"), leaves nothing under its [work_]
    directory, and has deleted no file that the user gave. *)
Theorem hybrid_job_always_reports E in_path out_dir a b w c :
  files w !! in_path = Some c →
  ∃ r w',
    Hybrid.process_file E in_path out_dir a b w = (Ok r, w') ∧
    Hybrid.file r = path_str in_path ∧
    Hybrid.original_bytes r = size_of c ∧
    (Hybrid.error r = None ↔ is_Some (Hybrid.final_bytes r)) ∧
    (Hybrid.error r ≠ None → Hybrid.method r = "none") ∧
    (∀ p, inside (Path (Temp "work_" (next_tmp w)) []) p = true → files w' !! p = None) ∧
    StepSpec.inputs_stay w w'.
Proof.
  intros Hc.
  destruct (HybridJobFacts.hybrid_process_file_run E in_path out_dir a b w c Hc)
    as (r & w' & Hrun & (Hf & Hs & He & Hm) & Hwork).
  exists r, w'. repeat (split; [done|]).
  destruct (StayFacts.stay_process_file E in_path out_dir a b w) as [Hstay _].
  by rewrite Hrun in Hstay.
Qed.

Lemma hybrid_job_always_reports_witness :
  ∃ r w',
    Hybrid.process_file Scenario.pillow52 Scenario.original Scenario.out_dir
      Scenario.args_50_52 Scenario.no_bins Scenario.one_file_world = (Ok r, w') ∧
    Hybrid.file r = "/in/photo.png" ∧
    Hybrid.original_bytes r = 3 ∧
    (Hybrid.error r = None ↔ is_Some (Hybrid.final_bytes r)) ∧
    (Hybrid.error r ≠ None → Hybrid.method r = "none") ∧
    (∀ p, inside (Path (Temp "work_" 0) []) p = true → files w' !! p = None) ∧
    StepSpec.inputs_stay Scenario.one_file_world w'.
Proof.
  apply (hybrid_job_always_reports Scenario.pillow52 Scenario.original Scenario.out_dir
           Scenario.args_50_52 Scenario.no_bins Scenario.one_file_world (Scenario.blob 3)).
  reflexivity.
Defined.

(** When every input of a batch is a file the user gave that is there when
    the batch starts, [run] of [hybrid_perceptual] returns one result per
    input, in the order in which the jobs completed, whatever that order
    is; each result names its file and carries either a final size or an
    error.  No job can remove the input of a later one. *)
Theorem hybrid_batch_one_result_per_input E completed inputs out_dir a b w :
  Forall (λ f, FrameSpec.is_given f = true ∧ is_Some (files w !! f)) inputs →
  completed ≡ₚ seq 0 (length inputs) →
  ∃ results w',
    Hybrid.run E completed inputs out_dir a b w = (Ok results, w') ∧
    Forall2 (λ f r, Hybrid.file r = path_str f ∧
                    (Hybrid.error r = None ↔ is_Some (Hybrid.final_bytes r)))
      (Pool.as_completed completed inputs) results ∧
    Pool.as_completed completed inputs ≡ₚ inputs.
Proof.
  intros Hall Hperm.
  destruct (BatchFacts.hybrid_run_all E out_dir a b completed inputs w Hall)
    as (results & w' & Hrun & Hwf).
  exists results, w'. split; [done|]. split; [|by apply BatchFacts.as_completed_all].
  eapply Forall2_impl; [exact Hwf|]. intros f r (size & Hf & _ & He & _). done.
Qed.

Lemma hybrid_batch_one_result_per_input_witness :
  ∃ results w',
    Hybrid.run Scenario.pillow52 [1; 0]%nat [Scenario.original; Scenario.second]
      Scenario.out_dir Scenario.args_50_52 Scenario.no_bins Scenario.two_files_world
      = (Ok results, w') ∧
    Forall2 (λ f r, Hybrid.file r = path_str f ∧
                    (Hybrid.error r = None ↔ is_Some (Hybrid.final_bytes r)))
      [Scenario.second; Scenario.original] results ∧
    [Scenario.second; Scenario.original] ≡ₚ [Scenario.original; Scenario.second].
Proof.
  apply (hybrid_batch_one_result_per_input Scenario.pillow52 [1; 0]%nat
           [Scenario.original; Scenario.second]
           Scenario.out_dir Scenario.args_50_52 Scenario.no_bins Scenario.two_files_world).
  - repeat constructor; by exists (Scenario.blob 3).
  - apply Permutation_swap.
Defined.

(** ** No quality is tried twice *)

Module DistinctFacts.
Import Search SearchSpec SearchFacts.

Section Loop.
Context {B : Type} (probe : Z → M (option B)).
Context (Inv : world → Prop) (lo0 hi0 : Z).



End Loop.




End DistinctFacts.



(** ** The resize helpers *)

Module ResizeFacts.

Lemma pil_open_run E p w :
  Pil.open E p w =
  match files w !! p with
  | Some c =>
      match pil_open E c with
      | inr i => (Ok (Pil.Image c i), w)
      | inl msg => (Raise (OSError msg), w)
      end
  | None =>
      (Raise (FileNotFoundError
                ("[Errno 2] No such file or directory: '" +:+ path_str p +:+ "'")), w)
  end.
Proof.
  unfold Pil.open, get_files, mbind, M_bind, raise. simpl.
  destruct (files w !! p) as [c|]; [|done]. by destruct (pil_open E c).
Qed.

Lemma copy2_cases src dst w :
  FS.copy2 src dst w =
  match files w !! src with
  | Some c =>
      if bool_decide (src = dst)
      then (Raise (SameFileError (path_repr src +:+ " and " +:+ path_repr dst
                                  +:+ " are the same file")), w)
      else (Ok tt, set_files (<[dst := c]>) w)
  | None =>
      (Raise (FileNotFoundError
                ("[Errno 2] No such file or directory: '" +:+ path_str src +:+ "'")), w)
  end.
Proof.
  unfold FS.copy2, get_files, modify_files, mbind, M_bind, raise. simpl.
  destruct (files w !! src) as [c|]; [|done]. by destruct (bool_decide (src = dst)).
Qed.

End ResizeFacts.

(** [smart_resize_width_only] never raises and can only change the output
    file.  Either an exception was caught, nothing was written and the
    second component is the message; or the input opened and the second
    component is the output path, which holds the resized image when the
    input is wider than [max_width] and the bytes of the input otherwise. *)
Theorem smart_resize_width_only_cases E in_path out_path max_width w :
  ∃ resized p w',
    ImageOps.smart_resize_width_only E in_path out_path max_width w
      = (Ok (resized, p), w') ∧
    (∀ q, q ≠ out_path → files w' !! q = files w !! q) ∧
    ((resized = false ∧ w' = w ∧ ∃ msg, p = ImageOps.as_path msg) ∨
     (∃ c i,
        files w !! in_path = Some c ∧ pil_open E c = inr i ∧ p = out_path ∧
        if max_width <? width i
        then resized = true ∧
             ∃ c', pil_resize_save E c max_width = inr c' ∧
                   files w' = <[out_path := c']> (files w)
        else resized = false ∧ in_path ≠ out_path ∧
             files w' = <[out_path := c]> (files w))).
Proof.
  unfold ImageOps.smart_resize_width_only, try_except.
  unfold mbind at 1, M_bind at 1. rewrite ResizeFacts.pil_open_run.
  destruct (files w !! in_path) as [c|] eqn:Hc.
  2:{ eexists false, _, w. split; [reflexivity|]. split; [done|]. left. eauto. }
  destruct (pil_open E c) as [msg|i] eqn:Ho.
  { eexists false, _, w. split; [reflexivity|]. split; [done|]. left. eauto. }
  simpl. destruct (max_width <? width i) eqn:Hwide.
  - unfold Pil.resize_save. simpl.
    destruct (pil_resize_save E c max_width) as [msg|c'] eqn:Hr.
    + eexists false, _, w. split; [reflexivity|]. split; [done|]. left. eauto.
    + eexists true, out_path, _. split; [reflexivity|]. split.
      * intros q Hq. simpl. by rewrite lookup_insert_ne.
      * right. exists c, i. rewrite Hwide. repeat (split; [done|]). by exists c'.
  - unfold mbind, M_bind. rewrite ResizeFacts.copy2_cases, Hc.
    destruct (bool_decide_reflect (in_path = out_path)) as [Heq|Hne].
    + eexists false, _, w. split; [reflexivity|]. split; [done|]. left. eauto.
    + eexists false, out_path, _. split; [reflexivity|]. split.
      * intros q Hq. simpl. by rewrite lookup_insert_ne.
      * right. exists c, i. rewrite Hwide. done.
Qed.

(** [resize_orientation_aware_r2] never raises and can only change the
    output file.  An image is resized exactly when its longer side, after
    the EXIF orientation is applied, exceeds [max_side]; otherwise the
    output holds the bytes of the input.  When an exception was caught,
    nothing was written and the second component is the message. *)
Theorem resize_orientation_aware_r2_cases E L in_path out_path max_side w :
  ∃ resized p w',
    Resize.resize_orientation_aware_r2 E L in_path out_path max_side w
      = (Ok (resized, p), w') ∧
    (∀ q, q ≠ out_path → files w' !! q = files w !! q) ∧
    ((resized = false ∧ w' = w ∧ ∃ msg, p = ImageOps.as_path msg) ∨
     (∃ c i width height,
        files w !! in_path = Some c ∧ pil_open E c = inr i ∧
        transposed_size L c = inr (width, height) ∧ p = out_path ∧
        if max_side <? Z.max width height
        then resized = true ∧
             ∃ c', pil_transpose_resize_save L c (height <=? width) max_side = inr c' ∧
                   files w' = <[out_path := c']> (files w)
        else resized = false ∧ in_path ≠ out_path ∧
             files w' = <[out_path := c]> (files w))).
Proof.
  unfold Resize.resize_orientation_aware_r2, try_except.
  unfold mbind at 1, M_bind at 1. rewrite ResizeFacts.pil_open_run.
  destruct (files w !! in_path) as [c|] eqn:Hc.
  2:{ eexists false, _, w. split; [reflexivity|]. split; [done|]. left. eauto. }
  destruct (pil_open E c) as [msg|i] eqn:Ho.
  { eexists false, _, w. split; [reflexivity|]. split; [done|]. left. eauto. }
  simpl. destruct (transposed_size L c) as [msg|[wd ht]] eqn:Ht.
  { eexists false, _, w. split; [reflexivity|]. split; [done|]. left. eauto. }
  assert (Hcond : (if ht <=? wd then max_side <? wd else max_side <? ht)
                  = (max_side <? Z.max wd ht)).
  { destruct (Z.leb_spec ht wd); [rewrite Z.max_l by lia | rewrite Z.max_r by lia]; done. }
  rewrite Hcond. destruct (max_side <? Z.max wd ht) eqn:Hbig.
  - destruct (pil_transpose_resize_save L c (ht <=? wd) max_side) as [msg|c'] eqn:Hr.
    + eexists false, _, w. split; [reflexivity|]. split; [done|]. left. eauto.
    + eexists true, out_path, _. split; [reflexivity|]. split.
      * intros q Hq. simpl. by rewrite lookup_insert_ne.
      * right. exists c, i, wd, ht. rewrite Hbig. repeat (split; [done|]). by exists c'.
  - unfold mbind, M_bind. rewrite ResizeFacts.copy2_cases, Hc.
    destruct (bool_decide_reflect (in_path = out_path)) as [Heq|Hne].
    + eexists false, _, w. split; [reflexivity|]. split; [done|]. left. eauto.
    + eexists false, out_path, _. split; [reflexivity|]. split.
      * intros q Hq. simpl. by rewrite lookup_insert_ne.
      * right. exists c, i, wd, ht. rewrite Hbig. done.
Qed.

(** [resize_max_dimension], and [resize_image] of [perceptual] which is the
    same text, never raise and can only change the output file.  They
    report success exactly when the output was written: the thumbnail when
    the longer side exceeds [max_dim], the bytes of the input otherwise; a
    failure carries the message and writes nothing. *)
Theorem resize_max_dimension_cases E L in_file out_file max_dim w :
  ∃ ok note w',
    Resize.resize_max_dimension E L in_file out_file max_dim w = (Ok (ok, note), w') ∧
    (∀ q, q ≠ out_file → files w' !! q = files w !! q) ∧
    if ok
    then ∃ c i,
           files w !! in_file = Some c ∧ pil_open E c = inr i ∧
           if max_dim <? Z.max (width i) (height i)
           then note = "Resized" ∧
                ∃ c', pil_thumbnail_save L c max_dim = inr c' ∧
                      files w' = <[out_file := c']> (files w)
           else note = "No resize needed" ∧ in_file ≠ out_file ∧
                files w' = <[out_file := c]> (files w)
    else w' = w.
Proof.
  unfold Resize.resize_max_dimension, try_except.
  unfold mbind at 1, M_bind at 1. rewrite ResizeFacts.pil_open_run.
  destruct (files w !! in_file) as [c|] eqn:Hc.
  2:{ by eexists false, _, w. }
  destruct (pil_open E c) as [msg|i] eqn:Ho.
  { by eexists false, _, w. }
  simpl. destruct (max_dim <? Z.max (width i) (height i)) eqn:Hbig.
  - destruct (pil_thumbnail_save L c max_dim) as [msg|c'] eqn:Hr.
    + by eexists false, _, w.
    + eexists true, _, _. split; [reflexivity|]. split.
      * intros q Hq. simpl. by rewrite lookup_insert_ne.
      * exists c, i. rewrite Hbig. repeat (split; [done|]). by exists c'.
  - unfold mbind, M_bind. rewrite ResizeFacts.copy2_cases, Hc.
    destruct (bool_decide_reflect (in_file = out_file)) as [Heq|Hne].
    + by eexists false, _, w.
    + eexists true, _, _. split; [reflexivity|]. split.
      * intros q Hq. simpl. by rewrite lookup_insert_ne.
      * exists c, i. rewrite Hbig. done.
Qed.

(** ** The choice of [lossless] *)

Module PickFacts.
Import Lossless LosslessSpec.

Section Pick.
Context (a : args) (fs : gmap path content).

Lemma picked_some candidates :
  ∀ c0, picked a fs candidates (Some c0)
        = Some (foldl (smaller fs) c0 (filter (λ c, eligible a fs c = true) candidates)).
Proof.
  induction candidates as [|c rest IH]; intros c0; simpl; [done|].
  destruct (eligible a fs c) eqn:He.
  - rewrite filter_cons_True by done. simpl. apply IH.
  - rewrite filter_cons_False by (by rewrite He). apply IH.
Qed.

Lemma picked_none candidates :
  picked a fs candidates None
  = match filter (λ c, eligible a fs c = true) candidates with
    | [] => None
    | c :: cs => Some (Py.min_by (size_in fs) c cs)
    end.
Proof.
  induction candidates as [|c rest IH]; simpl; [done|].
  destruct (eligible a fs c) eqn:He.
  - rewrite filter_cons_True by done. apply picked_some.
  - rewrite filter_cons_False by (by rewrite He). apply IH.
Qed.

End Pick.

Lemma pick_run a candidates :
  ∀ best_so_far w,
    pick a candidates (as_best (files w) <$> best_so_far) w
    = (Ok (as_best (files w) <$> picked a (files w) candidates best_so_far), w).
Proof.
  induction candidates as [|c rest IH]; intros best_so_far w; simpl; [done|].
  unfold FS.exists_, FS.stat_size, get_files, mbind, M_bind, mret, M_ret, raise. simpl.
  unfold eligible, size_in.
  destruct (ok c); simpl; [|apply IH].
  destruct (files w !! cand_file c) as [data|] eqn:Hdata; simpl; [|apply IH].
  rewrite ?Hdata. simpl.
  destruct (truthy_int (target_kb a) && (default 0 (target_kb a) * 1024 <? size_of data));
    simpl; [apply IH|].
  destruct best_so_far as [b|]; simpl.
  - unfold smaller. fold (size_in (files w) b). unfold size_in at 2. rewrite Hdata.
    destruct (size_of data <? size_in (files w) b) eqn:Hlt.
    + rewrite <- (IH (Some c) w). simpl. unfold as_best, size_in. by rewrite Hdata.
    + apply (IH (Some b) w).
  - rewrite <- (IH (Some c) w). simpl. unfold as_best, size_in. by rewrite Hdata.
Qed.

End PickFacts.

(** The loop of [lossless] that chooses among the candidates never raises
    and changes nothing.  Among the candidates whose file is there and, when
    [--target-kb] is set, is not above the target, it chooses the first of
    least size; it chooses none only when there is no such candidate. *)
Theorem lossless_pick_first_smallest a candidates w :
  let considered := filter (λ c, LosslessSpec.eligible a (files w) c = true) candidates in
  ∃ r,
    Lossless.pick a candidates None w = (Ok r, w) ∧
    match r with
    | Some b =>
        ∃ c, b = LosslessSpec.as_best (files w) c ∧
             SelectSpec.first_smallest (LosslessSpec.size_in (files w)) c considered
    | None => considered = []
    end.
Proof.
  intros considered.
  pose proof (PickFacts.pick_run a candidates None w) as Hrun. simpl in Hrun.
  rewrite Hrun, PickFacts.picked_none. fold considered.
  destruct considered as [|c cs]; [by exists None|].
  eexists. split; [reflexivity|]. simpl. eexists. split; [reflexivity|].
  apply SelectFacts.min_by_first_smallest.
Qed.

(** ** The optimizers of [lossless] *)

Module LosslessFacts.
Import Lossless LosslessSpec ToolSpec ShellSpec.

Lemma spawns_run_cmd E cmd expected timeout w :
  (spawns (procs (Shell.run_cmd E cmd expected timeout w).2) ≤ S (spawns (procs w)))%nat.
Proof.
  destruct (ShellFacts.run_cmd_cases E cmd expected timeout w) as (ok & msg & w' & Hrun & Hc).
  rewrite Hrun. simpl.
  destruct cmd as [|exe rest]; [destruct Hc as [_ ->]; lia|].
  simpl in Hc. destruct (status _) as [|m| |rc out err].
  - destruct Hc as (_ & -> & _). lia.
  - destruct Hc as (_ & -> & _). lia.
  - destruct Hc as (_ & -> & _). simpl. lia.
  - destruct Hc as (-> & _). simpl. lia.
Qed.

Section Tools.
Context (E : externals).

Lemma convert_to_webp_run in_file out_file bin lossless q w :
  ∃ ok note w',
    LosslessTools.convert_to_webp E in_file out_file bin lossless q w = (Ok (ok, note), w') ∧
    (spawns (procs w') ≤ S (spawns (procs w)))%nat ∧
    (ok = true → produced (files w') out_file = true).
Proof.
  unfold LosslessTools.convert_to_webp, Hybrid.with_note.
  set (cmd := if lossless then _ else _).
  destruct (ShellFacts.run_cmd_cases E cmd [out_file] 60 w) as (ok & msg & w' & Hrun & _).
  exists ok, (Some msg), w'. rewrite (bind_ok _ _ _ _ _ Hrun). split; [done|]. split.
  - pose proof (spawns_run_cmd E cmd [out_file] 60 w) as Hs. by rewrite Hrun in Hs.
  - intros ->. by eapply EncoderFacts.run_cmd_true_produced.
Qed.

Lemma convert_to_webp_log in_file out_file bin lossless q w :
  encode_log (LosslessTools.convert_to_webp E in_file out_file bin lossless q w).2
  = encode_log w.
Proof.
  unfold LosslessTools.convert_to_webp, Hybrid.with_note.
  set (cmd := if lossless then _ else _).
  destruct (RunFacts.run_cmd_grows E cmd [out_file] 60 w)
    as (ok & msg & w' & Hrun & (_ & Hlog & _) & _).
  by rewrite (bind_ok _ _ _ _ _ Hrun).
Qed.

Lemma produced_stat fs p :
  produced fs p = true → ∃ data, fs !! p = Some data ∧ 0 < size_of data.
Proof.
  unfold produced. destruct (fs !! p) as [data|]; [|done].
  intros Hnz. exists data. split; [done|]. unfold size_of in *.
  destruct (Z.eqb_spec (Z.of_nat (length data)) 0); [done|]. lia.
Qed.

(** The loop tries the qualities of [qs] in their order and stops at the
    first whose output is small enough. *)
Lemma target_loop_order in_file temp_out bin target_kb qs :
  ∀ w, ∃ r w' tried,
    LosslessTools.target_loop E qs in_file temp_out bin target_kb w = (Ok r, w') ∧
    (spawns (procs w') ≤ spawns (procs w) + length qs)%nat ∧
    encode_log w' = rev tried ++ encode_log w ∧
    tried `prefix_of` qs ∧
    match r with
    | Some (q, size) =>
        last tried = Some q ∧
        ∃ data, files w' !! temp_out = Some data ∧ size_of data = size ∧
                0 < size ≤ target_kb * 1024
    | None => tried = qs
    end.
Proof.
  induction qs as [|q rest IH]; intros w; simpl.
  - exists None, w, []. split; [done|]. split; [lia|]. done.
  - unfold mbind at 1, M_bind at 1. simpl.
    set (w0 := World (files w) (next_tmp w) (procs w) (q :: encode_log w)).
    pose proof (convert_to_webp_log in_file temp_out bin false q w0) as Hlog.
    destruct (convert_to_webp_run in_file temp_out bin false q w0)
      as (ok & note & w1 & Hrun & Hsp & Hprod).
    rewrite Hrun in Hlog. simpl in Hlog, Hsp.
    rewrite (bind_ok _ _ _ _ _ Hrun).
    assert (Hnext : ∀ r w' tried,
              LosslessTools.target_loop E rest in_file temp_out bin target_kb w1 = (Ok r, w') →
              (spawns (procs w') ≤ spawns (procs w1) + length rest)%nat →
              encode_log w' = rev tried ++ encode_log w1 →
              tried `prefix_of` rest →
              match r with
              | Some (q', size) =>
                  last tried = Some q' ∧
                  ∃ data, files w' !! temp_out = Some data ∧ size_of data = size ∧
                          0 < size ≤ target_kb * 1024
              | None => tried = rest
              end →
              (spawns (procs w') ≤ spawns (procs w) + S (length rest))%nat ∧
              encode_log w' = rev (q :: tried) ++ encode_log w ∧
              q :: tried `prefix_of` q :: rest ∧
              match r with
              | Some (q', size) =>
                  last (q :: tried) = Some q' ∧
                  ∃ data, files w' !! temp_out = Some data ∧ size_of data = size ∧
                          0 < size ≤ target_kb * 1024
              | None => q :: tried = q :: rest
              end).
    { intros r w' tried _ Hsp' Hlog' Hpre Hr. split; [lia|]. split.
      { simpl. rewrite <- app_assoc. simpl. by rewrite Hlog', Hlog. }
      split; [by apply prefix_cons|].
      destruct r as [[q' size]|]; [|by rewrite Hr].
      destruct Hr as [Hlast Hd]. split; [|done].
      destruct tried; [done|exact Hlast]. }
    destruct ok; simpl.
    + destruct (produced_stat _ _ (Hprod eq_refl)) as (data & Hdata & Hpos).
      rewrite (bind_ok _ _ _ _ _ (JobFacts.stat_size_run _ _ _ Hdata)).
      destruct (Z.leb_spec (size_of data) (target_kb * 1024)).
      * exists (Some (q, size_of data)), w1, [q]. split; [done|]. split; [lia|].
        split; [by rewrite Hlog|]. split; [apply prefix_cons, prefix_nil|].
        split; [done|]. exists data. done.
      * destruct (IH w1) as (r & w' & tried & Hrest & Hsp' & Hlog' & Hpre & Hr).
        exists r, w', (q :: tried). split; [done|]. by apply Hnext.
    + destruct (IH w1) as (r & w' & tried & Hrest & Hsp' & Hlog' & Hpre & Hr).
      exists r, w', (q :: tried). split; [done|]. by apply Hnext.
Qed.

Lemma compress_to_webp_target_order in_file out_file bin target_kb w :
  ∃ r w' tried,
    LosslessTools.compress_to_webp_target E in_file out_file bin target_kb 30 95 5 w
      = (Ok r, w') ∧
    (spawns (procs w') ≤ spawns (procs w) + 14)%nat ∧
    encode_log w' = rev tried ++ encode_log w ∧
    tried `prefix_of` [95; 90; 85; 80; 75; 70; 65; 60; 55; 50; 45; 40; 35; 30] ∧
    match r with
    | Some (method, size) =>
        ∃ q data,
          last tried = Some q ∧
          method = "webp-q" +:+ Py.str q ∧
          files w' !! out_file = Some data ∧ size_of data = size ∧
          0 < size ≤ target_kb * 1024
    | None => tried = [95; 90; 85; 80; 75; 70; 65; 60; 55; 50; 45; 40; 35; 30]
    end.
Proof.
  unfold LosslessTools.compress_to_webp_target.
  set (temp_out := LosslessTools.with_suffix out_file ".webp").
  destruct (target_loop_order in_file temp_out bin target_kb (Range.down 95 (30 - 1) 5) w)
    as (r & w1 & tried & Hrun & Hsp & Hlog & Hpre & Hr).
  rewrite (bind_ok _ _ _ _ _ Hrun).
  destruct r as [[q size]|].
  - destruct Hr as (Hlast & data & Hdata & Hsize & Hle).
    rewrite (bind_ok _ _ _ _ _ (JobFacts.move_run _ out_file _ _ Hdata)).
    eexists _, _, tried. split; [reflexivity|]. split; [exact Hsp|].
    split; [exact Hlog|]. split; [exact Hpre|].
    exists q, data. split; [exact Hlast|]. split; [done|]. split; [|done].
    simpl. apply lookup_insert_eq.
  - exists None, w1, tried. done.
Qed.

Lemma compress_to_webp_target_run in_file out_file bin target_kb w :
  ∃ r w',
    LosslessTools.compress_to_webp_target E in_file out_file bin target_kb 30 95 5 w
      = (Ok r, w') ∧
    (spawns (procs w') ≤ spawns (procs w) + 14)%nat ∧
    match r with
    | Some (method, size) =>
        ∃ q data,
          q ∈ [95; 90; 85; 80; 75; 70; 65; 60; 55; 50; 45; 40; 35; 30] ∧
          method = "webp-q" +:+ Py.str q ∧
          files w' !! out_file = Some data ∧ size_of data = size ∧
          0 < size ≤ target_kb * 1024
    | None => True
    end.
Proof.
  destruct (compress_to_webp_target_order in_file out_file bin target_kb w)
    as (r & w' & tried & Hrun & Hsp & _ & Hpre & Hr).
  exists r, w'. split; [done|]. split; [done|].
  destruct r as [[method size]|]; [|done].
  destruct Hr as (q & data & Hlast & Hr). exists q, data. split; [|done].
  apply last_Some in Hlast as [l' ->]. destruct Hpre as [k ->].
  apply elem_of_app. left. apply elem_of_app. right. by left.
Qed.

End Tools.
End LosslessFacts.

(** [compress_to_webp_target] never raises.  It starts [cwebp] at most 14
    times.  The qualities it tries are 95, 90, ..., 30 in that order, up to
    the one at which it stops.  When it succeeds, the method names the last
    quality it tried, the output file is there with the size it returns,
    and that size is positive and not above [target_kb * 1024]; when it
    fails, it has tried all fourteen. *)
Theorem compress_to_webp_target_cases E in_file out_file bin target_kb w :
  ∃ r w' tried,
    LosslessTools.compress_to_webp_target E in_file out_file bin target_kb 30 95 5 w
      = (Ok r, w') ∧
    (ToolSpec.spawns (procs w') ≤ ToolSpec.spawns (procs w) + 14)%nat ∧
    encode_log w' = rev tried ++ encode_log w ∧
    tried `prefix_of` [95; 90; 85; 80; 75; 70; 65; 60; 55; 50; 45; 40; 35; 30] ∧
    match r with
    | Some (method, size) =>
        ∃ q data,
          last tried = Some q ∧
          method = "webp-q" +:+ Py.str q ∧
          files w' !! out_file = Some data ∧ size_of data = size ∧
          0 < size ≤ target_kb * 1024
    | None => tried = [95; 90; 85; 80; 75; 70; 65; 60; 55; 50; 45; 40; 35; 30]
    end.
Proof. apply LosslessFacts.compress_to_webp_target_order. Qed.

(** ** The size of what [lossless] promotes *)

Module TargetFacts.
Import Lossless LosslessSpec.

Lemma picked_eligible a fs candidates c :
  picked a fs candidates None = Some c →
  eligible a fs c = true.
Proof.
  rewrite PickFacts.picked_none.
  destruct (filter _ candidates) as [|c0 cs] eqn:Hf; [done|]. intros [= <-].
  pose proof (SelectFacts.first_smallest_elem _ _ _
                (SelectFacts.min_by_first_smallest (size_in fs) c0 cs)) as Hin.
  rewrite <- Hf in Hin. by apply list_elem_of_filter in Hin as [He _].
Qed.

Lemma eligible_sized a fs c :
  eligible a fs c = true →
  ∃ data, fs !! cand_file c = Some data ∧ size_of data = size_in fs c ∧
          ∀ k, target_kb a = Some k → k ≠ 0 → size_in fs c ≤ k * 1024.
Proof.
  unfold eligible, size_in. intros He.
  apply andb_prop in He as [He Ht]. apply andb_prop in He as [_ Hex].
  apply bool_decide_eq_true in Hex as [data Hdata]. rewrite Hdata in *.
  exists data. split; [done|]. split; [done|].
  intros k Hk Hnz. rewrite Hk in Ht. simpl in Ht.
  destruct (Z.eqb_spec k 0); [done|]. simpl in Ht.
  destruct (Z.ltb_spec (k * 1024) (size_of data)); [done|lia].
Qed.

Lemma lossless_promoted E optimize_with_pillow optimize_with_oxipng
    optimize_with_zopflipng convert_to_webp files_identical in_path out_dir a b w r w' :
  Lossless.process_file optimize_with_pillow optimize_with_oxipng optimize_with_zopflipng
    convert_to_webp files_identical
    (λ source out bin target,
       LosslessTools.compress_to_webp_target E source out bin target 30 95 5)
    in_path out_dir a b w = (Ok r, w') →
  error r = None →
  ∃ data,
    files w' !! (out_dir // path_name in_path) = Some data ∧
    final_size r = Py.to_kb (size_of data) ∧
    ∀ k, target_kb a = Some k → k ≠ 0 → size_of data ≤ k * 1024.
Proof.
  intros Hrun Herr. unfold Lossless.process_file in Hrun.
  apply JobFacts.bind_inv in Hrun as (orig_size & w1 & _ & Hrun).
  apply JobFacts.bind_inv in Hrun as (r1 & w2 & _ & Hrun).
  apply JobFacts.bind_inv in Hrun as (c2 & w3 & _ & Hrun).
  apply JobFacts.bind_inv in Hrun as (c3 & w4 & _ & Hrun).
  apply JobFacts.bind_inv in Hrun as (c4 & w5 & _ & Hrun).
  apply JobFacts.bind_inv in Hrun as (c5 & w6 & _ & Hrun).
  set (candidates := (_ ++ c2 ++ c3 ++ c4 ++ c5)%list) in Hrun.
  apply JobFacts.bind_inv in Hrun as (pick_result & w7 & Hpick & Hrun).
  pose proof (PickFacts.pick_run a candidates None w6) as Hp. simpl in Hp.
  rewrite Hp in Hpick. injection Hpick as <- <-.
  apply JobFacts.bind_inv in Hrun as (chosen & w8 & Hchosen & Hrun).
  assert (Hsized : ∀ bst, chosen = Some bst → sized a (files w8) bst).
  { intros bst ->.
    destruct (picked a (files w6) candidates None) as [c|] eqn:Hpicked; simpl in Hchosen.
    - injection Hchosen as <- <-.
      destruct (eligible_sized a (files w6) c (picked_eligible _ _ _ _ Hpicked))
        as (data & Hdata & Hsize & Hk).
      by exists data.
    - destruct (truthy_int (target_kb a) && Py.truthy_str (cwebp b)) eqn:Hcond;
        [|by injection Hchosen].
      apply andb_prop in Hcond as [Htk _].
      apply JobFacts.bind_inv in Hchosen as (forced & w9 & Hforced & Hchosen).
      destruct (LosslessFacts.compress_to_webp_target_run E in_path
                  (out_dir // (path_stem in_path +:+ ".webp")) (default "" (cwebp b))
                  (default 0 (target_kb a)) w6) as (r' & w'' & Hrun' & _ & Hr').
      rewrite Hforced in Hrun'. injection Hrun' as <- <-.
      destruct forced as [[method size]|]; [|by injection Hchosen].
      injection Hchosen as <- <-.
      destruct Hr' as (q & data & _ & _ & Hdata & Hsize & Hle).
      exists data. split; [done|]. split; [done|].
      intros k Hk _. rewrite Hk in Hle. simpl in *. lia. }
  unfold Lossless.finish in Hrun. destruct chosen as [bst|].
  - destruct (Hsized bst eq_refl) as (data & Hdata & Hsize & Hk).
    apply JobFacts.bind_inv in Hrun as (u & w9 & Hmove & Hrun).
    apply JobFacts.move_inv in Hmove as (data' & Hsrc & Hw9).
    rewrite Hdata in Hsrc. injection Hsrc as <-.
    apply JobFacts.bind_inv in Hrun as (us & w10 & Hclean & Hrun).
    injection Hrun as <- <-.
    destruct (JobFacts.lossless_cleanup (out_dir // path_name in_path) candidates w9)
      as (r' & w' & Hclean' & Hkeep).
    rewrite Hclean in Hclean'. injection Hclean' as <- <-.
    exists data. simpl. split; [rewrite Hkeep, Hw9; apply lookup_insert_eq|].
    rewrite Hsize. done.
  - apply JobFacts.bind_inv in Hrun as (us & w9 & _ & Hrun). injection Hrun as <- _.
    discriminate.
Qed.

End TargetFacts.

(** What [lossless] promotes.  With its own [compress_to_webp_target], and
    whatever the other optimizers do: when a job ends without an error, the
    result reports as [final_size] the size of the file at
    [out_dir / in_path.name], in KB as [to_kb] rounds it, and that file is
    not above [--target-kb] kilobytes when a non-zero target was given. *)
Theorem lossless_output_size_within_target E optimize_with_pillow optimize_with_oxipng
    optimize_with_zopflipng convert_to_webp files_identical in_path out_dir a b w r w' :
  Lossless.process_file optimize_with_pillow optimize_with_oxipng optimize_with_zopflipng
    convert_to_webp files_identical
    (λ source out bin target,
       LosslessTools.compress_to_webp_target E source out bin target 30 95 5)
    in_path out_dir a b w = (Ok r, w') →
  Lossless.error r = None →
  ∃ data,
    files w' !! (out_dir // path_name in_path) = Some data ∧
    Lossless.final_size r = Py.to_kb (size_of data) ∧
    ∀ k, Lossless.target_kb a = Some k → k ≠ 0 → size_of data ≤ k * 1024.
Proof. apply TargetFacts.lossless_promoted. Qed.

Lemma lossless_output_size_within_target_witness :
  ∃ data,
    files (Lossless.process_file Scenario.pillow_fails Scenario.never_optimize
             Scenario.never_optimize Scenario.webp_writer Scenario.always_identical
             (λ source out bin target,
                LosslessTools.compress_to_webp_target Scenario.pillow52 source out bin
                  target 30 95 5)
             Scenario.original Scenario.out_dir More.lossless_target1
             Scenario.lossless_cwebp Scenario.one_file_world).2
      !! (Scenario.out_dir // path_name Scenario.original) = Some data ∧
    Py.to_kb 2 = Py.to_kb (size_of data) ∧
    ∀ k, Lossless.target_kb More.lossless_target1 = Some k → k ≠ 0 → size_of data ≤ k * 1024.
Proof.
  destruct (Lossless.process_file Scenario.pillow_fails Scenario.never_optimize
              Scenario.never_optimize Scenario.webp_writer Scenario.always_identical
              (λ source out bin target,
                 LosslessTools.compress_to_webp_target Scenario.pillow52 source out bin
                   target 30 95 5)
              Scenario.original Scenario.out_dir More.lossless_target1
              Scenario.lossless_cwebp Scenario.one_file_world) as [r w'] eqn:Hrun.
  assert (Hr : r = Ok (Lossless.JobResult "/in/photo.png" (Py.to_kb 3) (Py.to_kb 2)
                         "webp_lossless" (Some (Some "")) None)).
  { change r with (r, w').1. rewrite <- Hrun. vm_compute. reflexivity. }
  subst r.
  exact (lossless_output_size_within_target Scenario.pillow52 _ _ _ _ _ _ _ _ _ _ _ w'
           Hrun eq_refl).
Defined.

(** ** The encoding steps of [perceptual] *)

Module PerceptualFacts.
Import Perceptual ToolSpec ShellSpec.

Lemma unlink_if_exists_gone p w :
  ∃ w', unlink_if_exists p w = (Ok tt, w') ∧ files w' !! p = None ∧ procs w' = procs w.
Proof.
  unfold unlink_if_exists, FS.exists_, FS.unlink, get_files, modify_files, mbind, M_bind,
    mret, M_ret. simpl.
  destruct (files w !! p) as [c|] eqn:Hc; simpl.
  - rewrite Hc. simpl. eexists. split; [reflexivity|]. simpl. split; [|done].
    apply lookup_delete_eq.
  - by exists w.
Qed.

Section Tools.
Context (E : externals) (L : library).

Lemma exists_run p w : FS.exists_ p w = (Ok (bool_decide (is_Some (files w !! p))), w).
Proof. done. Qed.

Lemma convert_inv cmd in_file out_file threshold kind label w r w' :
  PerceptualTools.convert E L cmd in_file out_file threshold kind label w = (Ok r, w') →
  (spawns (procs w') ≤ S (spawns (procs w)))%nat ∧
  match r with
  | Done method size =>
      ∃ data s,
        files w' !! out_file = Some data ∧ size_of data = size ∧ 0 < size ∧
        method = label +:+ "_ssim" +:+ format_3f L s ∧
        PrimFloat.ltb s threshold = false
  | Failed note =>
      Shell.run_cmd E cmd [out_file] 60 w = (Ok (false, note), w') ∨
      (files w' !! out_file = None ∧
       ∃ s, note = kind +:+ " SSIM " +:+ format_3f L s +:+ " below threshold" ∧
            PrimFloat.ltb s threshold = true)
  end.
Proof.
  unfold PerceptualTools.convert. intros Hrun.
  pose proof (LosslessFacts.spawns_run_cmd E cmd [out_file] 60 w) as Hsp.
  destruct (ShellFacts.run_cmd_cases E cmd [out_file] 60 w) as (ok & msg & w1 & Hcmd & _).
  rewrite Hcmd in Hsp. simpl in Hsp.
  rewrite (bind_ok _ _ _ _ _ Hcmd) in Hrun.
  destruct ok; simpl in Hrun.
  2:{ unfold mbind, M_bind, mret, M_ret in Hrun. simpl in Hrun.
      injection Hrun as <- <-. split; [done|]. by left. }
  pose proof (EncoderFacts.run_cmd_true_produced E cmd out_file 60 w msg w1 Hcmd) as Hprod.
  destruct (LosslessFacts.produced_stat _ _ Hprod) as (data & Hdata & Hpos).
  rewrite (bind_ok _ _ _ _ _ (exists_run out_file w1)) in Hrun.
  rewrite Hdata in Hrun. rewrite bool_decide_true in Hrun by by eexists. simpl in Hrun.
  rewrite (bind_ok _ _ _ _ _ (compute_ssim_cv2_run L in_file out_file w1)) in Hrun.
  remember (cv2_score L (files w1) in_file out_file) as s eqn:Hs. clear Hs.
  destruct (have_cv2 L); [|done]. simpl in Hrun.
  destruct (PrimFloat.ltb s threshold) eqn:Hlt.
  - destruct (unlink_if_exists_gone out_file w1) as (w2 & Hun & Hgone & Hprocs).
    rewrite (bind_ok _ _ _ _ _ Hun) in Hrun. injection Hrun as <- <-.
    split; [by rewrite Hprocs|]. right. split; [done|]. by exists s.
  - rewrite (bind_ok _ _ _ _ _ (JobFacts.stat_size_run _ _ _ Hdata)) in Hrun.
    injection Hrun as <- <-. split; [done|]. by exists data, s.
Qed.

Lemma convert_converted cmd in_file out_file threshold kind label w r w' :
  PerceptualTools.convert E L cmd in_file out_file threshold kind label w = (Ok r, w') →
  converted E L cmd in_file out_file threshold kind label w r w'.
Proof.
  unfold PerceptualTools.convert, converted. intros Hrun.
  pose proof (LosslessFacts.spawns_run_cmd E cmd [out_file] 60 w) as Hsp.
  destruct (ShellFacts.run_cmd_cases E cmd [out_file] 60 w) as (ok & msg & w1 & Hcmd & _).
  rewrite Hcmd in Hsp. simpl in Hsp.
  rewrite (bind_ok _ _ _ _ _ Hcmd) in Hrun.
  destruct ok; simpl in Hrun.
  2:{ unfold mbind, M_bind, mret, M_ret in Hrun. simpl in Hrun.
      injection Hrun as <- <-. split; [done|]. by left. }
  pose proof (EncoderFacts.run_cmd_true_produced E cmd out_file 60 w msg w1 Hcmd) as Hprod.
  destruct (LosslessFacts.produced_stat _ _ Hprod) as (data & Hdata & Hpos).
  rewrite (bind_ok _ _ _ _ _ (exists_run out_file w1)) in Hrun.
  rewrite Hdata in Hrun. rewrite bool_decide_true in Hrun by by eexists. simpl in Hrun.
  pose proof (compute_ssim_cv2_run L in_file out_file w1) as Hssim.
  rewrite (bind_ok _ _ _ _ _ Hssim) in Hrun.
  destruct (have_cv2 L); [|done]. simpl in Hrun.
  set (s := cv2_score L (files w1) in_file out_file) in *.
  destruct (PrimFloat.ltb s threshold) eqn:Hlt.
  - assert (Hun : unlink_if_exists out_file w1 = (Ok tt, set_files (delete out_file) w1)).
    { unfold unlink_if_exists, FS.exists_, FS.unlink, get_files, modify_files, mbind,
        M_bind, mret, M_ret. simpl. rewrite Hdata. simpl. by rewrite Hdata. }
    rewrite (bind_ok _ _ _ _ _ Hun) in Hrun. injection Hrun as <- <-.
    split; [simpl; lia|]. right. by exists msg, w1, s.
  - rewrite (bind_ok _ _ _ _ _ (JobFacts.stat_size_run _ _ _ Hdata)) in Hrun.
    injection Hrun as <- <-. split; [done|]. by exists msg, data, s.
Qed.

(** [convert] deletes no file but its own output. *)
Lemma convert_keeps cmd in_file out_file threshold kind label w r w' :
  PerceptualTools.convert E L cmd in_file out_file threshold kind label w = (Ok r, w') →
  ∀ p, p ≠ out_file → is_Some (files w !! p) → is_Some (files w' !! p).
Proof.
  unfold PerceptualTools.convert. intros Hrun p Hne Hs.
  destruct (RunFacts.run_cmd_grows E cmd [out_file] 60 w)
    as (ok & msg & w1 & Hcmd & (_ & _ & Hkeep) & _).
  specialize (Hkeep p Hs).
  rewrite (bind_ok _ _ _ _ _ Hcmd) in Hrun.
  destruct ok; simpl in Hrun.
  2:{ unfold mbind, M_bind, mret, M_ret in Hrun. simpl in Hrun.
      by injection Hrun as <- <-. }
  rewrite (bind_ok _ _ _ _ _ (exists_run out_file w1)) in Hrun.
  destruct (bool_decide (is_Some (files w1 !! out_file))); simpl in Hrun.
  2:{ by injection Hrun as <- <-. }
  rewrite (bind_ok _ _ _ _ _ (compute_ssim_cv2_run L in_file out_file w1)) in Hrun.
  remember (cv2_score L (files w1) in_file out_file) as s eqn:Hscore. clear Hscore.
  destruct (have_cv2 L); [|done]. simpl in Hrun.
  destruct (PrimFloat.ltb s threshold).
  - pose proof (JobFacts.unlink_if_exists_other out_file p w1 ltac:(done)) as Hother.
    destruct (unlink_if_exists_gone out_file w1) as (w2 & Hun & _).
    rewrite Hun in Hother. simpl in Hother.
    rewrite (bind_ok _ _ _ _ _ Hun) in Hrun. injection Hrun as <- <-.
    by rewrite Hother.
  - apply JobFacts.bind_inv in Hrun as (size & w2 & Hstat & Hrun).
    injection Hrun as <- <-.
    unfold FS.stat_size, get_files, mbind, M_bind, raise in Hstat. simpl in Hstat.
    destruct (files w1 !! out_file); [|done]. by injection Hstat as <- <-.
Qed.

Lemma convert_without_cv2 cmd in_file out_file threshold kind label w msg w1 :
  have_cv2 L = false →
  Shell.run_cmd E cmd [out_file] 60 w = (Ok (true, msg), w1) →
  PerceptualTools.convert E L cmd in_file out_file threshold kind label w
  = (Raise (TypeError "'<' not supported between instances of 'NoneType' and 'float'"), w1).
Proof.
  intros Hcv Hcmd. unfold PerceptualTools.convert.
  rewrite (bind_ok _ _ _ _ _ Hcmd). simpl.
  pose proof (EncoderFacts.run_cmd_true_produced E cmd out_file 60 w msg w1 Hcmd) as Hprod.
  destruct (LosslessFacts.produced_stat _ _ Hprod) as (data & Hdata & Hpos).
  rewrite (bind_ok _ _ _ _ _ (exists_run out_file w1)).
  rewrite Hdata. rewrite bool_decide_true by by eexists. simpl.
  rewrite (bind_ok _ _ _ _ _ (compute_ssim_cv2_run L in_file out_file w1)).
  by rewrite Hcv.
Qed.

Lemma jpeg_loop_inv in_file out_file bin threshold qs :
  ∀ best w r w',
    PerceptualTools.jpeg_loop E L qs in_file out_file bin threshold best w = (Ok r, w') →
    (spawns (procs w') ≤ spawns (procs w) + length qs)%nat ∧
    (r = best ∨ ∃ q size, r = Some (q, size) ∧ q ∈ qs).
Proof.
  induction qs as [|q rest IH]; intros best w r w' Hrun; simpl in Hrun.
  { rewrite ret_run in Hrun. injection Hrun as <- <-. split; [simpl; lia|by left]. }
  set (cmd := PerceptualTools.cjpeg_cmd bin q in_file out_file) in Hrun.
  pose proof (LosslessFacts.spawns_run_cmd E cmd [out_file] 60 w) as Hsp.
  destruct (ShellFacts.run_cmd_cases E cmd [out_file] 60 w) as (ok & msg & w1 & Hcmd & _).
  rewrite Hcmd in Hsp. simpl in Hsp.
  rewrite (bind_ok _ _ _ _ _ Hcmd) in Hrun.
  assert (Hstep : ∀ b w2 , procs w2 = procs w1 →
            PerceptualTools.jpeg_loop E L rest in_file out_file bin threshold b w2 = (Ok r, w') →
            (b = best ∨ ∃ size, b = Some (q, size)) →
            (spawns (procs w') ≤ spawns (procs w) + length (q :: rest))%nat ∧
            (r = best ∨ ∃ q' size, r = Some (q', size) ∧ q' ∈ q :: rest)).
  { intros b w2 Hp Hloop Hb. destruct (IH b w2 r w' Hloop) as [Hsp' Hr].
    rewrite Hp in Hsp'. split; [simpl; lia|].
    destruct Hr as [->|(q' & size & -> & Hin)].
    - destruct Hb as [->|[size ->]]; [by left|]. right. exists q, size. split; [done|by left].
    - right. exists q', size. split; [done|by right]. }
  destruct ok; simpl in Hrun; [|by apply (Hstep best w1); [done|done|left]].
  rewrite (bind_ok _ _ _ _ _ (compute_ssim_cv2_run L in_file out_file w1)) in Hrun.
  destruct (have_cv2 L); [|done]. simpl in Hrun.
  destruct (Py.ge _ threshold).
  - apply JobFacts.bind_inv in Hrun as (size & w2 & Hstat & Hrun).
    assert (w2 = w1) as ->.
    { unfold FS.stat_size, get_files, mbind, M_bind, raise in Hstat. simpl in Hstat.
      destruct (files w1 !! out_file); by injection Hstat. }
    apply (Hstep (Some (q, size)) w1); [done|done|]. right. by exists size.
  - rewrite ret_run in Hrun. injection Hrun as <- <-. split; [simpl; lia|by left].
Qed.

Lemma optimize_jpeg_advanced_inv in_file out_file bin quality_start quality_min threshold
    w r w' :
  PerceptualTools.optimize_jpeg_advanced E L in_file out_file bin quality_start quality_min
    threshold w = (Ok r, w') →
  (spawns (procs w')
   ≤ spawns (procs w) + S (length (Range.down quality_start (quality_min - 1) 2)))%nat ∧
  match r with
  | Done method size =>
      ∃ q shown data,
        q ∈ Range.down quality_start (quality_min - 1) 2 ∧
        method = "jpeg_q" +:+ Py.str q +:+ "_ssim" +:+ shown ∧
        files w' !! out_file = Some data ∧ size_of data = size
  | Failed note => note = "Could not meet SSIM threshold" ∧ files w' !! out_file = None
  end.
Proof.
  unfold PerceptualTools.optimize_jpeg_advanced. intros Hrun.
  apply JobFacts.bind_inv in Hrun as (best & w1 & Hloop & Hrun).
  destruct (jpeg_loop_inv _ _ _ _ _ _ _ _ _ Hloop) as [Hsp Hbest].
  destruct best as [[best_q best_size]|].
  - destruct Hbest as [[=]|(q & size & [= <- <-] & Hin)].
    apply JobFacts.bind_inv in Hrun as ([ok msg] & w2 & Hcmd & Hrun).
    pose proof (LosslessFacts.spawns_run_cmd E
                  (PerceptualTools.cjpeg_cmd bin best_q in_file out_file) [out_file] 60 w1)
      as Hsp2.
    rewrite Hcmd in Hsp2. simpl in Hsp2.
    rewrite (bind_ok _ _ _ _ _ (compute_ssim_cv2_run L in_file out_file w2)) in Hrun.
    apply JobFacts.bind_inv in Hrun as (shown & w3 & Hshown & Hrun).
    assert (w3 = w2) as ->.
    { unfold PerceptualTools.formatted in Hshown. destruct (if have_cv2 L then _ else _);
        [by injection Hshown|done]. }
    apply JobFacts.bind_inv in Hrun as (size & w3 & Hstat & Hrun).
    injection Hrun as <- <-.
    unfold FS.stat_size, get_files, mbind, M_bind, raise in Hstat. simpl in Hstat.
    destruct (files w2 !! out_file) as [data|] eqn:Hdata; [|done].
    injection Hstat as <- <-. split; [lia|]. by exists best_q, shown, data.
  - destruct (unlink_if_exists_gone out_file w1) as (w2 & Hun & Hgone & Hprocs).
    rewrite (bind_ok _ _ _ _ _ Hun) in Hrun. injection Hrun as <- <-.
    split; [rewrite Hprocs; lia|done].
Qed.

End Tools.
End PerceptualFacts.

(** [convert_to_webp] and [convert_to_avif] of [perceptual] start their
    tool at most once.  A success means that the command answered [True],
    that the output file is there, is not empty and has the size returned,
    and that the score which [compute_ssim_cv2] gives for the input and
    this output is not below the threshold and is the one shown in the
    method; a failure is either the failure of the command, or such a score
    below the threshold, in which case the output file has been deleted.
    Without OpenCV a successful encode ends in a [TypeError], for both. *)
Theorem perceptual_converters_check_ssim E L in_file out_file bin quality threshold w :
  (∀ r w',
     PerceptualTools.convert_to_webp E L in_file out_file bin quality threshold w
       = (Ok r, w') →
     ToolSpec.converted E L (ToolSpec.webp_cmd bin quality in_file out_file)
       in_file out_file threshold "WebP" ("webp_q" +:+ Py.str quality) w r w')
  ∧
  (∀ r w',
     PerceptualTools.convert_to_avif E L in_file out_file bin quality threshold w
       = (Ok r, w') →
     ToolSpec.converted E L (ToolSpec.avif_cmd bin quality in_file out_file)
       in_file out_file threshold "AVIF" ("avif_cq" +:+ Py.str quality) w r w')
  ∧
  (∀ msg w1,
     have_cv2 L = false →
     Shell.run_cmd E (ToolSpec.webp_cmd bin quality in_file out_file) [out_file] 60 w
       = (Ok (true, msg), w1) →
     PerceptualTools.convert_to_webp E L in_file out_file bin quality threshold w
     = (Raise (TypeError "'<' not supported between instances of 'NoneType' and 'float'"),
        w1))
  ∧
  (∀ msg w1,
     have_cv2 L = false →
     Shell.run_cmd E (ToolSpec.avif_cmd bin quality in_file out_file) [out_file] 60 w
       = (Ok (true, msg), w1) →
     PerceptualTools.convert_to_avif E L in_file out_file bin quality threshold w
     = (Raise (TypeError "'<' not supported between instances of 'NoneType' and 'float'"),
        w1)).
Proof.
  split; [|split; [|split]].
  - intros r w' Hrun. by apply PerceptualFacts.convert_converted in Hrun.
  - intros r w' Hrun. by apply PerceptualFacts.convert_converted in Hrun.
  - intros msg w1 Hcv Hcmd.
    by apply (PerceptualFacts.convert_without_cv2 E L _ _ _ _ _ _ _ msg).
  - intros msg w1 Hcv Hcmd.
    by apply (PerceptualFacts.convert_without_cv2 E L _ _ _ _ _ _ _ msg).
Qed.

Lemma perceptual_converters_check_ssim_witness :
  ToolSpec.converted (More.writer More.temp_webp) More.with_cv2
    (ToolSpec.webp_cmd "cwebp" 85 Scenario.original More.temp_webp)
    Scenario.original More.temp_webp 0.5%float "WebP" ("webp_q" +:+ Py.str 85)
    Scenario.one_file_world (Perceptual.Done "webp_q85_ssim1.000" 2)
    (PerceptualTools.convert_to_webp (More.writer More.temp_webp) More.with_cv2
       Scenario.original More.temp_webp "cwebp" 85 0.5%float Scenario.one_file_world).2.
Proof.
  destruct (PerceptualTools.convert_to_webp (More.writer More.temp_webp) More.with_cv2
              Scenario.original More.temp_webp "cwebp" 85 0.5%float
              Scenario.one_file_world) as [r w'] eqn:Hrun.
  assert (Hr : r = Ok (Perceptual.Done "webp_q85_ssim1.000" 2)).
  { change r with (r, w').1. rewrite <- Hrun. vm_compute. reflexivity. }
  subst r.
  exact (proj1 (perceptual_converters_check_ssim (More.writer More.temp_webp)
                  More.with_cv2 Scenario.original More.temp_webp "cwebp" 85
                  0.5%float Scenario.one_file_world) _ w' Hrun).
Defined.

(** [optimize_jpeg_advanced], as [process_file] calls it (from quality 90
    down to 50 in steps of 2), starts [cjpeg] at most 22 times.  A success
    names an even quality between 50 and 90 and returns the size of the
    output file as it then is; a failure has removed the output file. *)
Theorem optimize_jpeg_advanced_result E L in_file out_file bin threshold w r w' :
  PerceptualTools.optimize_jpeg_advanced E L in_file out_file bin 90 50 threshold w
    = (Ok r, w') →
  (ToolSpec.spawns (procs w') ≤ ToolSpec.spawns (procs w) + 22)%nat ∧
  match r with
  | Perceptual.Done method size =>
      ∃ q shown data,
        50 ≤ q ≤ 90 ∧ Z.even q = true ∧
        method = "jpeg_q" +:+ Py.str q +:+ "_ssim" +:+ shown ∧
        files w' !! out_file = Some data ∧ size_of data = size
  | Perceptual.Failed note =>
      note = "Could not meet SSIM threshold" ∧ files w' !! out_file = None
  end.
Proof.
  intros Hrun. apply PerceptualFacts.optimize_jpeg_advanced_inv in Hrun as [Hsp Hr].
  split; [exact Hsp|]. destruct r as [method size|note]; [|done].
  destruct Hr as (q & shown & data & Hin & Hm & Hd & Hs).
  exists q, shown, data. split; [|split]; [| |done].
  - vm_compute in Hin. repeat (apply elem_of_cons in Hin as [->|Hin]; [lia|]).
    by apply elem_of_nil in Hin.
  - vm_compute in Hin. repeat (apply elem_of_cons in Hin as [->|Hin]; [done|]).
    by apply elem_of_nil in Hin.
Qed.

Lemma optimize_jpeg_advanced_result_witness :
  ∃ q shown data,
    50 ≤ q ≤ 90 ∧ Z.even q = true ∧
    "jpeg_q50_ssim1.000" = "jpeg_q" +:+ Py.str q +:+ "_ssim" +:+ shown ∧
    files (PerceptualTools.optimize_jpeg_advanced (More.writer More.temp_jpeg) More.with_cv2
             Scenario.original More.temp_jpeg "cjpeg" 90 50 0.5%float
             Scenario.one_file_world).2 !! More.temp_jpeg = Some data ∧
    size_of data = 2.
Proof.
  destruct (PerceptualTools.optimize_jpeg_advanced (More.writer More.temp_jpeg) More.with_cv2
              Scenario.original More.temp_jpeg "cjpeg" 90 50 0.5%float
              Scenario.one_file_world) as [r w'] eqn:Hrun.
  assert (Hr : r = Ok (Perceptual.Done "jpeg_q50_ssim1.000" 2)).
  { change r with (r, w').1. rewrite <- Hrun. vm_compute. reflexivity. }
  subst r.
  exact (proj2 (optimize_jpeg_advanced_result (More.writer More.temp_jpeg) More.with_cv2
                  Scenario.original More.temp_jpeg "cjpeg" 0.5%float
                  Scenario.one_file_world _ w' Hrun)).
Defined.

(** ** The candidates of a job *)

Module PipelineFacts.
Import PipelineSpec.

Lemma ran_app {T R C} (yield : T → R → gmap path content → list C → Prop)
    ps1 ps2 w rs1 l1 w1 rs2 l2 w2 :
  ran yield ps1 w rs1 l1 w1 → ran yield ps2 w1 rs2 l2 w2 →
  ran yield (ps1 ++ ps2) w (rs1 ++ rs2) (l1 ++ l2) w2.
Proof.
  intros H1 H2. induction H1; simpl; [done|].
  rewrite <- app_assoc. econstructor; eauto.
Qed.

Lemma ran_one {T R C} (yield : T → R → gmap path content → list C → Prop) t m w r w1 l :
  m w = (Ok r, w1) → yield t r (files w1) l → ran yield [(t, m)] w [r] l w1.
Proof.
  intros Hrun Hy. rewrite <- (app_nil_r l). econstructor; [done|done|constructor].
Qed.

Lemma inside_anchor d p : inside d p = true → anchor_of p = anchor_of d.
Proof.
  unfold inside. intros H. apply andb_true_iff in H as [H _].
  apply andb_true_iff in H as [H _]. by apply bool_decide_eq_true in H.
Qed.

Lemma settled_later w w' c :
  (next_tmp w ≤ next_tmp w')%nat →
  (∀ p, inside (Path (Temp "search_" (next_tmp w)) []) p = false →
        is_Some (files w !! p) → is_Some (files w' !! p)) →
  settled w c → settled w' c.
Proof.
  intros Hn Hkeep [Hs (n & Hlt & Ha)]. split.
  - apply Hkeep; [|done]. destruct (inside _ _) eqn:Hin; [|done].
    apply inside_anchor in Hin. rewrite Ha in Hin. simpl in Hin.
    injection Hin as ->. lia.
  - exists n. split; [lia|done].
Qed.

Section Hybrid.
Import Hybrid HybridSpec.
Context (E : externals) (work_in : path) (a : args) (b : bins).

(** One pipeline: the search returns; when it succeeds its file is there
    and becomes a candidate with the size of that file. *)
Lemma hybrid_stage make fmt lo hi (cond : bool) prev w :
  encoder_runs make →
  Forall (settled w) prev →
  ∃ rs l w1,
    (if cond
     then r ← binary_search_quality make (metrics_fn E) work_in lo hi a (butter b);
          appended fmt r
     else mret []) w = (Ok l, w1) ∧
    ran hybrid_yield
      (if cond
       then [(fmt, binary_search_quality make (metrics_fn E) work_in lo hi a (butter b))]
       else []) w rs l w1 ∧
    Forall (settled w1) (prev ++ l) ∧
    (Exists (λ r, success r = true) rs → l ≠ []).
Proof.
  intros Hmake Hprev. destruct cond.
  2:{ exists [], [], w. split; [done|]. split; [constructor|]. rewrite app_nil_r.
      split; [done|]. intros H. by apply Exists_nil in H. }
  destruct (RunFacts.search_runs make (metrics_fn E) work_in (butter b) a Hmake
              (RunFacts.metrics_fn_runs E) lo hi w)
    as (r & w1 & vis & Hrun & Hn & _ & _ & Hkeep & _ & Hsound).
  rewrite (bind_ok _ _ _ _ _ Hrun).
  assert (Hprev1 : Forall (settled w1) prev).
  { eapply Forall_impl; [exact Hprev|]. intros c. apply settled_later; [lia|done]. }
  destruct r as [q p mt|]; simpl.
  - destruct (Hsound q p mt eq_refl) as (_ & _ & [data Hdata] & Hp).
    rewrite (bind_ok _ _ _ _ _ (JobFacts.stat_size_run _ _ _ Hdata)).
    exists [Success q p mt], [Candidate fmt (size_of data) p q], w1.
    split; [done|]. split; [apply ran_one; [done|]; by exists data|]. split; [|done].
    apply Forall_app. split; [done|]. constructor; [|constructor].
    split; [simpl; by eexists|]. exists (next_tmp w). split; [lia|]. simpl. by rewrite Hp.
  - exists [Failure], [], w1. split; [done|]. split; [by apply ran_one|].
    rewrite app_nil_r. split; [done|].
    intros H. apply Exists_cons in H as [[=]|H]. by apply Exists_nil in H.
Qed.

(** [collect_candidates] runs the pipelines of the job, all of which
    return, and hands on what they contributed; the file of every candidate
    is still there at the end. *)
Lemma hybrid_collect_ran w :
  ∃ rs cands w1,
    ran hybrid_yield (hybrid_pipelines E work_in a b) w rs cands w1 ∧
    collect_candidates E work_in a b w = (Ok cands, w1) ∧
    Forall (settled w1) cands ∧
    (Exists (λ r, success r = true) rs → cands ≠ []).
Proof.
  unfold collect_candidates, hybrid_pipelines.
  destruct (hybrid_stage (make_jpeg E work_in a b) "jpg" (min_q a) (max_q a)
              (bool_decide (mode_of a = Jpeg ∨ mode_of a = Best)) [] w
              (RunFacts.encoder_of_runs E work_in a b _ (jpeg_encoder E work_in a b))
              (Forall_nil_2 _))
    as (rs1 & l1 & w1 & Hrun1 & Hran1 & Hs1 & Hne1).
  destruct (hybrid_stage (make_webp E work_in b) "webp" 10 100
              (bool_decide (mode_of a = Best)) ([] ++ l1) w1
              (RunFacts.encoder_of_runs E work_in a b _ (webp_encoder E work_in a b)) Hs1)
    as (rs2 & l2 & w2 & Hrun2 & Hran2 & Hs2 & Hne2).
  destruct (hybrid_stage (make_avif E work_in b) "avif" 10 90
              (bool_decide (mode_of a = Best) && Py.truthy_str (avifenc b))
              (([] ++ l1) ++ l2) w2
              (RunFacts.encoder_of_runs E work_in a b _ (avif_encoder E work_in a b)) Hs2)
    as (rs3 & l3 & w3 & Hrun3 & Hran3 & Hs3 & Hne3).
  rewrite (bind_ok _ _ _ _ _ Hrun1), (bind_ok _ _ _ _ _ Hrun2), (bind_ok _ _ _ _ _ Hrun3).
  exists (rs1 ++ rs2 ++ rs3), (l1 ++ l2 ++ l3), w3.
  split; [by repeat eapply ran_app|]. split; [done|]. split.
  - simpl in Hs3. by rewrite <- app_assoc in Hs3.
  - intros Hex. apply Exists_app in Hex as [Hex|Hex].
    + specialize (Hne1 Hex). by destruct l1.
    + apply Exists_app in Hex as [Hex|Hex].
      * specialize (Hne2 Hex). destruct l1; [by destruct l2|done].
      * specialize (Hne3 Hex). destruct l1; [|done]. destruct l2; [by destruct l3|done].
Qed.

Lemma select_output_promotes in_path out_dir res c cs w :
  Forall (settled w) (c :: cs) →
  ∃ data r w',
    files w !! cand_path (Py.min_by bytes c cs) = Some data ∧
    select_output in_path out_dir res (c :: cs) w = (Ok r, w') ∧
    final_bytes r = Some (bytes (Py.min_by bytes c cs)) ∧
    method r = fmt (Py.min_by bytes c cs) +:+ " (q=" +:+
               Py.str (cand_q (Py.min_by bytes c cs)) +:+ ")" ∧
    files w' !! (out_dir // (path_stem in_path +:+ "." +:+ fmt (Py.min_by bytes c cs)))
      = Some data.
Proof.
  intros Hall. set (best := Py.min_by bytes c cs).
  assert (Hbest : best ∈ c :: cs).
  { eapply SelectFacts.first_smallest_elem, SelectFacts.min_by_first_smallest. }
  rewrite Forall_forall in Hall. destruct (Hall best Hbest) as [[data Hfile] _].
  exists data. unfold select_output. fold best.
  rewrite (bind_ok _ _ _ _ _ (JobFacts.move_run _ _ _ _ Hfile)).
  eexists _, _. split; [done|]. split; [reflexivity|]. simpl.
  split; [done|]. split; [done|]. apply lookup_insert_eq.
Qed.

End Hybrid.

Lemma append_inj_r (s t1 t2 : string) : s +:+ t1 = s +:+ t2 → t1 = t2.
Proof. induction s as [|ch s IH]; simpl; [done|]. intros [= H]. by apply IH. Qed.

Lemma child_inj d n1 n2 : d // n1 = d // n2 → n1 = n2.
Proof.
  unfold child. intros [= H]. apply app_inv_head in H. by injection H.
Qed.

Lemma outputs_differ d base (s1 s2 : string) :
  s1 ≠ s2 → d // (base +:+ s1) ≠ d // (base +:+ s2).
Proof. intros Hne Heq. apply Hne. eapply append_inj_r, child_inj, Heq. Qed.

Section Perceptual.
Import Perceptual.
Context (E : externals) (L : library).

(** One pipeline of [perceptual]. *)
Lemma perceptual_stage (cond : bool) (m : M attempt) out w l w1 :
  (∀ r w', m w = (Ok r, w') →
     match r with
     | Done method size => ∃ data, files w' !! out = Some data ∧ size_of data = size
     | Failed _ => True
     end) →
  (if cond then r ← m; mret (appended r out) else mret []) w = (Ok l, w1) →
  ∃ rs,
    ran perceptual_yield (if cond then [(out, m)] else []) w rs l w1 ∧
    Forall (λ c, cand_file c = out ∧ is_Some (files w1 !! out)) l ∧
    (Exists (λ r, done r = true) rs → l ≠ []).
Proof.
  intros Hsize Hrun. destruct cond.
  2:{ injection Hrun as <- <-. exists []. split; [constructor|]. split; [constructor|].
      intros H. by apply Exists_nil in H. }
  apply JobFacts.bind_inv in Hrun as (r & w' & Hm & Hrun). injection Hrun as <- <-.
  specialize (Hsize r w' Hm).
  exists [r]. destruct r as [method size|note]; simpl.
  - destruct Hsize as (data & Hdata & Hsz).
    split; [apply ran_one; [done|]; split; [by exists data|done]|].
    split; [constructor; [|constructor]; split; [done|by eexists]|]. done.
  - split; [by apply ran_one|]. split; [constructor|].
    intros H. apply Exists_cons in H as [[=]|H]. by apply Exists_nil in H.
Qed.

Lemma perceptual_stage_keeps (cond : bool) (m : M attempt) out w l w1 :
  (∀ r w', m w = (Ok r, w') →
     ∀ p, p ≠ out → is_Some (files w !! p) → is_Some (files w' !! p)) →
  (if cond then r ← m; mret (appended r out) else mret []) w = (Ok l, w1) →
  ∀ p, p ≠ out → is_Some (files w !! p) → is_Some (files w1 !! p).
Proof.
  intros Hkeep Hrun. destruct cond.
  2:{ by injection Hrun as <- <-. }
  apply JobFacts.bind_inv in Hrun as (r & w' & Hm & Hrun). injection Hrun as <- <-.
  by apply (Hkeep r w').
Qed.

Lemma jpeg_step_size source out bin threshold w r w' :
  PerceptualTools.optimize_jpeg_advanced E L source out bin 90 50 threshold w = (Ok r, w') →
  match r with
  | Done method size => ∃ data, files w' !! out = Some data ∧ size_of data = size
  | Failed _ => True
  end.
Proof.
  intros Hrun. apply PerceptualFacts.optimize_jpeg_advanced_inv in Hrun as [_ Hr].
  destruct r as [method size|note]; [|done].
  destruct Hr as (q & shown & data & _ & _ & Hd & Hs). by exists data.
Qed.

Lemma convert_size cmd source out threshold kind label w r w' :
  PerceptualTools.convert E L cmd source out threshold kind label w = (Ok r, w') →
  match r with
  | Done method size => ∃ data, files w' !! out = Some data ∧ size_of data = size
  | Failed _ => True
  end.
Proof.
  intros Hrun. apply PerceptualFacts.convert_inv in Hrun as [_ Hr].
  destruct r as [method size|note]; [|done].
  destruct Hr as (data & sc & Hd & Hs & _). by exists data.
Qed.

(** What [collect_candidates] returns is what its pipelines contributed, in
    their order, and the file of every candidate is still there. *)
Lemma perceptual_collect_ran source temp_dir base_name a b w cands w1 :
  PerceptualTools.collect_candidates E L source temp_dir base_name a b w = (Ok cands, w1) →
  ∃ rs,
    ran perceptual_yield (perceptual_pipelines E L source temp_dir base_name a b)
      w rs cands w1 ∧
    (Exists (λ r, done r = true) rs → cands ≠ []) ∧
    Forall (λ c, is_Some (files w1 !! cand_file c) ∧ ∃ n, cand_file c = temp_dir // n) cands.
Proof.
  unfold PerceptualTools.collect_candidates, Perceptual.collect_candidates,
    perceptual_pipelines.
  intros Hrun.
  apply JobFacts.bind_inv in Hrun as (l1 & wa & H1 & Hrun).
  apply JobFacts.bind_inv in Hrun as (l2 & wb & H2 & Hrun).
  apply JobFacts.bind_inv in Hrun as (l3 & wc & H3 & Hrun).
  injection Hrun as <- <-.
  pose proof (perceptual_stage_keeps _ _ _ _ _ _
                ltac:(intros r w'; apply PerceptualFacts.convert_keeps) H2) as Hk2.
  pose proof (perceptual_stage_keeps _ _ _ _ _ _
                ltac:(intros r w'; apply PerceptualFacts.convert_keeps) H3) as Hk3.
  apply perceptual_stage in H1 as (rs1 & Hran1 & Hf1 & Hne1);
    [|intros r w'; apply jpeg_step_size].
  apply perceptual_stage in H2 as (rs2 & Hran2 & Hf2 & Hne2);
    [|intros r w'; apply convert_size].
  apply perceptual_stage in H3 as (rs3 & Hran3 & Hf3 & Hne3);
    [|intros r w'; apply convert_size].
  exists (rs1 ++ rs2 ++ rs3). split; [by repeat eapply ran_app|]. split.
  - intros Hex. apply Exists_app in Hex as [Hex|Hex].
    + specialize (Hne1 Hex). by destruct l1.
    + apply Exists_app in Hex as [Hex|Hex].
      * specialize (Hne2 Hex). destruct l1; [by destruct l2|done].
      * specialize (Hne3 Hex). destruct l1; [|done]. destruct l2; [by destruct l3|done].
  - apply Forall_app. split; [|apply Forall_app; split].
    + eapply Forall_impl; [exact Hf1|]. intros c [-> Hs]. split; [|by eexists].
      apply Hk3; [by apply outputs_differ|]. apply Hk2; [by apply outputs_differ|]. done.
    + eapply Forall_impl; [exact Hf2|]. intros c [-> Hs]. split; [|by eexists].
      apply Hk3; [by apply outputs_differ|]. done.
    + eapply Forall_impl; [exact Hf3|]. intros c [-> Hs]. split; [done|by eexists].
Qed.

(** [finish] promotes the first smallest candidate when its file is there. *)
Lemma finish_promotes in_path out_dir resized_name orig_size c cs w :
  Forall (λ c, is_Some (files w !! cand_file c) ∧ ∃ n, cand_file c = out_dir // "temp" // n)
    (c :: cs) →
  ∃ data r w',
    files w !! cand_file (Py.min_by size c cs) = Some data ∧
    finish in_path out_dir (out_dir // "temp" // resized_name) orig_size (c :: cs) w
      = (Ok r, w') ∧
    final_size r = Some (Py.to_kb (size (Py.min_by size c cs))) ∧
    method_used r = Some (method (Py.min_by size c cs)) ∧
    output_file r = Some (path_name (cand_file (Py.min_by size c cs))) ∧
    error r = None ∧
    files w' !! (out_dir // path_name (cand_file (Py.min_by size c cs))) = Some data.
Proof.
  intros Hall. set (best := Py.min_by size c cs).
  assert (Hbest : best ∈ c :: cs).
  { eapply SelectFacts.first_smallest_elem, SelectFacts.min_by_first_smallest. }
  rewrite Forall_forall in Hall. destruct (Hall best Hbest) as [[data Hfile] _].
  exists data. unfold finish. fold best.
  set (final := out_dir // path_name (cand_file best)).
  rewrite (bind_ok _ _ _ _ _ (JobFacts.move_run _ _ _ _ Hfile)).
  set (w1 := set_files _ w).
  destruct (SelectFacts.unlink_all_run (c :: cs) w1) as (u & w2 & Hrun2).
  rewrite (bind_ok _ _ _ _ _ Hrun2).
  destruct (SelectFacts.unlink_if_exists_run (out_dir // "temp" // resized_name) w2)
    as (w3 & Hrun3).
  rewrite (bind_ok _ _ _ _ _ Hrun3).
  eexists _, _. split; [done|]. split; [reflexivity|]. simpl.
  split; [done|]. split; [done|].
  split; [f_equal; apply JobFacts.path_name_child|].
  split; [done|].
  pose proof (JobFacts.unlink_if_exists_other (out_dir // "temp" // resized_name)
                final w2) as H3.
  rewrite Hrun3 in H3. simpl in H3. rewrite H3.
  2:{ intros Heq. symmetry in Heq. by apply JobFacts.child_ne_grandchild in Heq. }
  pose proof (JobFacts.unlink_all_other (c :: cs) final w1) as H2.
  rewrite Hrun2 in H2. simpl in H2. rewrite H2.
  2:{ intros c' Hc' Heq. destruct (Hall c' Hc') as [_ [n Hn]]. rewrite Hn in Heq.
      symmetry in Heq. by apply JobFacts.child_ne_grandchild in Heq. }
  apply lookup_insert_eq.
Qed.

End Perceptual.

End PipelineFacts.

(** C2.  In a job of [hybrid_perceptual] the pipelines run in the order in
    which they are declared (JPEG, WebP, AVIF) and every one of them returns;
    each search that succeeds becomes one candidate, which carries the size
    of the artifact that the search left, and the candidates are listed in
    the order of the pipelines.  When at least one search succeeds, the
    selector promotes the first candidate of smallest size: no candidate is
    smaller and every candidate listed before it is strictly larger, so a tie
    goes to the pipeline declared first; its artifact is moved to the output
    path and its size is the size reported.  The same holds for a job of
    [perceptual] with its own encoding steps whenever these return (they
    raise a [TypeError] without OpenCV): each step that succeeds becomes one
    candidate with the size of its output file, and the first smallest is
    promoted to the output directory under the name of that file. *)
Theorem best_of_selects_first_smallest :
  (∀ E in_path out_dir res work_in a b w,
     ∃ rs cands w1,
       PipelineSpec.ran PipelineSpec.hybrid_yield
         (PipelineSpec.hybrid_pipelines E work_in a b) w rs cands w1 ∧
       Hybrid.collect_candidates E work_in a b w = (Ok cands, w1) ∧
       (Exists (λ r, Hybrid.success r = true) rs → cands ≠ []) ∧
       ∀ c cs, cands = c :: cs →
         let best := Py.min_by Hybrid.bytes c cs in
         SelectSpec.first_smallest Hybrid.bytes best cands ∧
         ∃ data r w2,
           files w1 !! Hybrid.cand_path best = Some data ∧
           Hybrid.select_output in_path out_dir res cands w1 = (Ok r, w2) ∧
           Hybrid.final_bytes r = Some (Hybrid.bytes best) ∧
           Hybrid.method r
             = Hybrid.fmt best +:+ " (q=" +:+ Py.str (Hybrid.cand_q best) +:+ ")" ∧
           files w2 !! (out_dir // (path_stem in_path +:+ "." +:+ Hybrid.fmt best))
             = Some data)
  ∧
  (∀ E L in_path out_dir resized_name orig_size source base_name a b w cands w1,
     PerceptualTools.collect_candidates E L source (out_dir // "temp") base_name a b w
       = (Ok cands, w1) →
     ∃ rs,
       PipelineSpec.ran PipelineSpec.perceptual_yield
         (PipelineSpec.perceptual_pipelines E L source (out_dir // "temp") base_name a b)
         w rs cands w1 ∧
       (Exists (λ r, PipelineSpec.done r = true) rs → cands ≠ []) ∧
       ∀ c cs, cands = c :: cs →
         let best := Py.min_by Perceptual.size c cs in
         SelectSpec.first_smallest Perceptual.size best cands ∧
         ∃ data r w2,
           files w1 !! Perceptual.cand_file best = Some data ∧
           Perceptual.finish in_path out_dir (out_dir // "temp" // resized_name) orig_size
             cands w1 = (Ok r, w2) ∧
           Perceptual.final_size r = Some (Py.to_kb (Perceptual.size best)) ∧
           Perceptual.method_used r = Some (Perceptual.method best) ∧
           Perceptual.output_file r = Some (path_name (Perceptual.cand_file best)) ∧
           Perceptual.error r = None ∧
           files w2 !! (out_dir // path_name (Perceptual.cand_file best)) = Some data).
Proof.
  split.
  - intros E in_path out_dir res work_in a b w.
    destruct (PipelineFacts.hybrid_collect_ran E work_in a b w)
      as (rs & cands & w1 & Hran & Hrun & Hall & Hne).
    exists rs, cands, w1. split; [done|]. split; [done|]. split; [done|].
    intros c cs -> best. split; [apply SelectFacts.min_by_first_smallest|].
    apply PipelineFacts.select_output_promotes. done.
  - intros E L in_path out_dir resized_name orig_size source base_name a b w cands w1 Hrun.
    destruct (PipelineFacts.perceptual_collect_ran E L source (out_dir // "temp")
                base_name a b w cands w1 Hrun) as (rs & Hran & Hne & Hall).
    exists rs. split; [done|]. split; [done|].
    intros c cs -> best. split; [apply SelectFacts.min_by_first_smallest|].
    apply PipelineFacts.finish_promotes. done.
Qed.

Lemma best_of_selects_first_smallest_witness :
  ∃ rs,
    PipelineSpec.ran PipelineSpec.perceptual_yield
      (PipelineSpec.perceptual_pipelines (More.writer More.temp_jpeg) More.with_cv2
         Scenario.original (Scenario.out_dir // "temp") "photo" Scenario.perceptual_args
         Scenario.perceptual_cjpeg)
      Scenario.one_file_world rs
      [Perceptual.Candidate "jpeg_q50_ssim1.000" More.temp_jpeg 2]
      (PerceptualTools.collect_candidates (More.writer More.temp_jpeg) More.with_cv2
         Scenario.original (Scenario.out_dir // "temp") "photo" Scenario.perceptual_args
         Scenario.perceptual_cjpeg Scenario.one_file_world).2.
Proof.
  destruct (PerceptualTools.collect_candidates (More.writer More.temp_jpeg) More.with_cv2
              Scenario.original (Scenario.out_dir // "temp") "photo" Scenario.perceptual_args
              Scenario.perceptual_cjpeg Scenario.one_file_world) as [r w'] eqn:Hrun.
  assert (Hr : r = Ok [Perceptual.Candidate "jpeg_q50_ssim1.000" More.temp_jpeg 2]).
  { change r with (r, w').1. rewrite <- Hrun. vm_compute. reflexivity. }
  subst r.
  destruct (proj2 best_of_selects_first_smallest (More.writer More.temp_jpeg) More.with_cv2
              Scenario.original Scenario.out_dir "photo.png" 3 Scenario.original "photo"
              Scenario.perceptual_args Scenario.perceptual_cjpeg Scenario.one_file_world
              _ w' Hrun) as (rs & Hran & _).
  by exists rs.
Defined.

(** The pipelines of a [hybrid_perceptual] job on the scenario of one file:
    the JPEG search succeeds at quality 52 and its two bytes are the only
    candidate. *)
Example collect_candidates_one_file :
  (Hybrid.collect_candidates Scenario.pillow52 Scenario.original Scenario.args_50_52
     Scenario.no_bins Scenario.one_file_world).1
  = Ok [Hybrid.Candidate "jpg" 2 (Path (Temp "search_" 0) ["best_q52.bin"]) 52].
Proof. vm_compute. reflexivity. Qed.

(** ** One job of [jpeg_binary_search] *)

Module JpegJobFacts.
Import JpegSearch JpegJob StepSpec StepFacts.

Lemma try_bound_returns {A B} (m : M A) (rest : A → M B) (h : option A → exn → M B) w :
  (∀ bound e w1, ∃ b w', h bound e w1 = (Ok b, w')) →
  ∃ b w', Shell.try_bound m rest h w = (Ok b, w').
Proof.
  intros Hh. unfold Shell.try_bound. destruct (m w) as [[x|e] w1]; [|apply Hh].
  destruct (rest x w1) as [[b|e] w2]; [by eexists _, _|apply Hh].
Qed.

(** The record that a search returns is for a quality of its range. *)
Lemma bisect_key_in_range {B} (probe : Z → M (option B)) (key : B → Z) :
  (∀ q w b w', probe q w = (Ok (Some b), w') → key b = q) →
  ∀ n lo hi best w r w',
    Z.to_nat (hi + 1 - lo) = n →
    Search.bisect probe lo hi best w = (Ok r, w') →
    r = best ∨ ∃ b, r = Some b ∧ lo ≤ key b ≤ hi.
Proof.
  intros Hkey n. induction (lt_wf n) as [n _ IH].
  intros lo hi best w r w' Hn Hrun.
  rewrite SearchFacts.bisect_unfold in Hrun. destruct (Z.leb_spec lo hi) as [Hle|Hgt].
  - pose proof (SearchFacts.mid_bounds lo hi Hle) as Hmid.
    apply JobFacts.bind_inv in Hrun as (p & w1 & Hprobe & Hrun).
    set (mid := (lo + hi) `div` 2) in *.
    destruct p as [b|].
    + apply Hkey in Hprobe.
      destruct (IH (Z.to_nat (mid - 1 + 1 - lo)) ltac:(lia) lo (mid - 1) (Some b) w1 r w'
                  eq_refl Hrun) as [->|(b' & -> & Hb')].
      * right. exists b. split; [done|]. lia.
      * right. exists b'. split; [done|]. lia.
    + destruct (IH (Z.to_nat (hi + 1 - (mid + 1))) ltac:(lia) (mid + 1) hi best w1 r w'
                  eq_refl Hrun) as [->|(b' & -> & Hb')].
      * by left.
      * right. exists b'. split; [done|]. lia.
  - rewrite ret_run in Hrun. injection Hrun as <- <-. by left.
Qed.

Section Job.
Context (E : externals) (L : library).

Lemma find_best_jpeg_in_range in_work_path orig_path tmp_dir lo hi target_psnr target_ssim
    use_ssim w b w' :
  find_best_jpeg E in_work_path orig_path tmp_dir lo hi target_psnr target_ssim use_ssim w
    = (Ok (Success b), w') →
  lo ≤ best_q b ≤ hi.
Proof.
  unfold find_best_jpeg. intros Hrun.
  apply JobFacts.bind_inv in Hrun as (r & w1 & Hbisect & Hrun).
  destruct r as [b'|]; [|by injection Hrun]. injection Hrun as -> <-.
  eapply (bisect_key_in_range _ best_q) in Hbisect as [[=]|(b' & [= <-] & Hb)];
    [done| |reflexivity].
  intros q w0 b0 w0' Hq. rewrite JpegFacts.jpeg_try_quality_run in Hq.
  destruct (JpegSpec.encoded E _ q); [|by injection Hq].
  cbv zeta in Hq.
  match type of Hq with context [if ?c then _ else _] => destruct c end;
    [|by injection Hq].
  by injection Hq as <- _.
Qed.

Lemma lower_loop_inv a in_path work_in tmp_root n :
  ∀ q_try cand_path q w p q' w',
    lower_loop E n a in_path work_in tmp_root q_try cand_path q w = (Ok (p, q'), w') →
    q' = q ∨ min_q a ≤ q' ≤ q_try.
Proof.
  induction n as [|n IH]; intros q_try cand_path q w p q' w' Hrun; simpl in Hrun.
  { rewrite ret_run in Hrun. injection Hrun as _ <- _. by left. }
  destruct (Z.leb_spec (min_q a) q_try) as [Hle|Hgt].
  2:{ rewrite ret_run in Hrun. injection Hrun as _ <- _. by left. }
  apply JobFacts.bind_inv in Hrun as ([ok note] & w1 & _ & Hrun).
  destruct ok; simpl in Hrun.
  2:{ rewrite ret_run in Hrun. injection Hrun as _ <- _. by left. }
  apply JobFacts.bind_inv in Hrun as ([mse psnr_t] & w2 & _ & Hrun).
  apply JobFacts.bind_inv in Hrun as (ssim_t & w3 & _ & Hrun).
  destruct (still_passes a psnr_t ssim_t).
  2:{ rewrite ret_run in Hrun. injection Hrun as _ <- _. by left. }
  apply JobFacts.bind_inv in Hrun as (size & w4 & _ & Hrun).
  destruct (size <=? kb_to_bytes (target_size_kb a)).
  - rewrite ret_run in Hrun. injection Hrun as _ <- _. right. lia.
  - apply IH in Hrun as [->|Hq]; right; lia.
Qed.

(** What the [try] block returns, whatever happens on the way. *)
Lemma search_and_promote_shape in_path out_dir tmp_root work_in a file size was_resized :
  step any_world
    (λ r, JpegJob.file r = file ∧ original_bytes r = size ∧ error r = None ∧
          match quality r with
          | Some q => q = fallback_q a ∨ min_q a ≤ q ≤ max_q a
          | None => final_bytes r = size
          end)
    (search_and_promote E in_path out_dir tmp_root work_in a
       (JobResult file size size was_resized None None)).
Proof.
  intros w. split; [done|]. intros r Hrun.
  destruct (search_and_promote _ _ _ _ _ _ _ w) as [r0 w'] eqn:Hrun0. simpl in Hrun. subst r0.
  unfold search_and_promote in Hrun0.
  apply JobFacts.bind_inv in Hrun0 as (search & w1 & Hsearch & Hrun).
  destruct search as [b|reason].
  - apply find_best_jpeg_in_range in Hsearch.
    apply JobFacts.bind_inv in Hrun as (cand_bytes & w2 & _ & Hrun).
    apply JobFacts.bind_inv in Hrun as ([cand_path q] & w3 & Hlower & Hrun).
    apply JobFacts.bind_inv in Hrun as (u & w4 & _ & Hrun).
    apply JobFacts.bind_inv in Hrun as (final & w5 & _ & Hrun).
    injection Hrun as <- _. simpl. repeat (split; [done|]). right.
    destruct (negb _ && _).
    + apply lower_loop_inv in Hlower as [->|Hq]; lia.
    + rewrite ret_run in Hlower. injection Hlower as _ <- _. lia.
  - apply JobFacts.bind_inv in Hrun as ([ok note] & w2 & _ & Hrun).
    destruct ok.
    + apply JobFacts.bind_inv in Hrun as (u & w3 & _ & Hrun).
      apply JobFacts.bind_inv in Hrun as (final & w4 & _ & Hrun).
      injection Hrun as <- _. simpl. repeat (split; [done|]). by left.
    + apply JobFacts.bind_inv in Hrun as (u & w3 & _ & Hrun).
      by injection Hrun as <- _.
Qed.

Lemma jpeg_process_file_run in_path out_dir a w c :
  files w !! in_path = Some c →
  ∃ r w',
    JpegJob.process_file E L in_path out_dir a w = (Ok r, w') ∧
    JpegJob.file r = path_str in_path ∧ original_bytes r = size_of c ∧
    (error r ≠ None → quality r = None) ∧
    match quality r with
    | Some q => q = fallback_q a ∨ min_q a ≤ q ≤ max_q a
    | None => final_bytes r = size_of c
    end ∧
    (∀ p, inside (Path (Temp "jpgopt_" (next_tmp w)) []) p = true → files w' !! p = None).
Proof.
  intros Hc. unfold JpegJob.process_file.
  rewrite (bind_ok _ _ _ _ _ (JobFacts.stat_size_run _ _ _ Hc)).
  rewrite (bind_ok _ _ _ _ _ (JobFacts.stat_size_run _ _ _ Hc)).
  unfold mbind at 1, M_bind at 1. simpl.
  set (tmp_root := Path (Temp "jpgopt_" (next_tmp w)) []).
  set (w1 := World (files w) (S (next_tmp w)) (procs w) (encode_log w)).
  set (body := Shell.try_bound _ _ _).
  assert (Hbody : step any_world
            (λ r, JpegJob.file r = path_str in_path ∧ original_bytes r = size_of c ∧
                  (error r ≠ None → quality r = None) ∧
                  match quality r with
                  | Some q => q = fallback_q a ∨ min_q a ≤ q ≤ max_q a
                  | None => final_bytes r = size_of c
                  end) body).
  { apply (step_try_bound _ any_world_trans (λ _, True)).
    - apply step_any.
    - intros [was_resized work_in] _.
      eapply (step_weaken _ _ _ _ (search_and_promote_shape _ _ _ _ _ _ _ _)).
      intros r (Hf & Ho & He & Hq). by rewrite He.
    - intros e. by apply (step_ret _ any_world_refl).
    - intros [was_resized work_in] e _. by apply (step_ret _ any_world_refl). }
  destruct (try_bound_returns
              (Resize.resize_orientation_aware_r2 E L in_path (tmp_root // path_name in_path)
                 (max_side a))
              (λ '(was_resized, work_in),
                 search_and_promote E in_path out_dir tmp_root work_in a
                   (JobResult (path_str in_path) (size_of c) (size_of c) was_resized None None))
              (λ bound e,
                 mret (JobResult (path_str in_path) (size_of c) (size_of c)
                         (match bound with Some (was_resized, _) => was_resized | None => false end)
                         (Some (exn_str e)) None)) w1) as (r & w2 & Hrun).
  { intros bound e w0. by eexists _, _. }
  fold body in Hrun.
  destruct (Hbody w1) as [_ Hq]. rewrite Hrun in Hq.
  exists r, (FS.rmtree tmp_root w2).2.
  unfold try_finally. rewrite Hrun. simpl.
  split; [done|]. destruct (Hq r eq_refl) as (Hf & Ho & He & Hqual).
  repeat (split; [done|]).
  intros p Hp. by apply (HybridJobFacts.rmtree_inside tmp_root w2 p).
Qed.

Lemma stat_size_inv p w size w' :
  FS.stat_size p w = (Ok size, w') →
  w' = w ∧ ∃ data, files w !! p = Some data ∧ size = size_of data.
Proof.
  unfold FS.stat_size, get_files, mbind, M_bind, raise. simpl.
  destruct (files w !! p) as [data|]; [|done]. intros [= <- <-]. split; [done|]. by exists data.
Qed.

Lemma copy2_inv src dst w u w' :
  FS.copy2 src dst w = (Ok u, w') →
  ∃ data, files w !! src = Some data ∧ files w' !! dst = Some data.
Proof.
  rewrite ResizeFacts.copy2_cases. destruct (files w !! src) as [data|]; [|done].
  destruct (bool_decide (src = dst)); [done|]. intros [= _ <-].
  exists data. split; [done|]. simpl. apply lookup_insert_eq.
Qed.

Lemma moved_and_measured src dst w r w' (f : Z → JpegJob.job_result) :
  (FS.move src dst;; final ← FS.stat_size dst; mret (f final)) w = (Ok r, w') →
  ∃ data, files w' !! dst = Some data ∧ r = f (size_of data).
Proof.
  intros Hrun.
  apply JobFacts.bind_inv in Hrun as (u & w1 & Hmove & Hrun).
  apply JobFacts.move_inv in Hmove as (data & _ & Hw1).
  apply JobFacts.bind_inv in Hrun as (final & w2 & Hstat & Hrun).
  apply stat_size_inv in Hstat as (-> & data' & Hdata' & ->).
  injection Hrun as <- <-.
  rewrite Hw1, lookup_insert_eq in Hdata'. injection Hdata' as <-.
  exists data. split; [|done]. rewrite Hw1. apply lookup_insert_eq.
Qed.

Lemma search_and_promote_output in_path out_dir tmp_root work_in a result w r w' :
  quality result = None →
  search_and_promote E in_path out_dir tmp_root work_in a result w = (Ok r, w') →
  ∃ name data,
    name ∈ [path_stem in_path +:+ ".jpg"; path_name in_path] ∧
    files w' !! (out_dir // name) = Some data ∧
    match quality r with
    | Some q => final_bytes r = size_of data
    | None => r = result ∧ name = path_name in_path
    end.
Proof.
  unfold search_and_promote. intros Hnone Hrun.
  apply JobFacts.bind_inv in Hrun as (search & w1 & _ & Hrun).
  destruct search as [b|reason].
  - apply JobFacts.bind_inv in Hrun as (cand_bytes & w2 & _ & Hrun).
    apply JobFacts.bind_inv in Hrun as ([cand_path q] & w3 & _ & Hrun).
    apply moved_and_measured in Hrun as (data & Hdata & ->).
    exists (path_stem in_path +:+ ".jpg"), data. split; [by left|]. done.
  - apply JobFacts.bind_inv in Hrun as ([ok note] & w2 & _ & Hrun).
    destruct ok.
    + apply moved_and_measured in Hrun as (data & Hdata & ->).
      exists (path_name in_path), data. split; [right; by left|]. done.
    + apply JobFacts.bind_inv in Hrun as (u & w3 & Hcopy & Hrun).
      injection Hrun as <- <-.
      apply copy2_inv in Hcopy as (data & _ & Hdata).
      exists (path_name in_path), data. split; [right; by left|]. split; [done|].
      by rewrite Hnone.
Qed.

Lemma jpeg_process_file_output in_path out_dir a w r w' :
  JpegJob.process_file E L in_path out_dir a w = (Ok r, w') →
  error r = None →
  FrameSpec.is_given out_dir = true →
  ∃ name data,
    name ∈ [path_stem in_path +:+ ".jpg"; path_name in_path] ∧
    files w' !! (out_dir // name) = Some data ∧
    match quality r with
    | Some q => final_bytes r = size_of data
    | None => name = path_name in_path
    end.
Proof.
  unfold JpegJob.process_file. intros Hrun Herr Hout.
  apply JobFacts.bind_inv in Hrun as (size & w1 & _ & Hrun).
  apply JobFacts.bind_inv in Hrun as (size' & w2 & _ & Hrun).
  unfold mbind at 1, M_bind at 1 in Hrun. simpl in Hrun.
  set (tmp_root := Path (Temp "jpgopt_" (next_tmp w2)) []) in Hrun.
  unfold try_finally in Hrun.
  match type of Hrun with context [Shell.try_bound ?m ?rest ?h ?w0] =>
    destruct (Shell.try_bound m rest h w0) as [r0 w3] eqn:Hbody
  end.
  simpl in Hrun. injection Hrun as -> <-.
  unfold Shell.try_bound in Hbody.
  match type of Hbody with context [Resize.resize_orientation_aware_r2 ?a1 ?a2 ?a3 ?a4 ?a5 ?w0] =>
    destruct (Resize.resize_orientation_aware_r2 a1 a2 a3 a4 a5 w0)
      as [[[was_resized work_in]|e] w4] eqn:Hresize
  end.
  2:{ injection Hbody as <- _. done. }
  match type of Hbody with context [search_and_promote ?a1 ?a2 ?a3 ?a4 ?a5 ?a6 ?a7 ?w0] =>
    destruct (search_and_promote a1 a2 a3 a4 a5 a6 a7 w0) as [[r1|e] w5] eqn:Hsp
  end.
  2:{ injection Hbody as <- _. done. }
  injection Hbody as -> ->.
  apply search_and_promote_output in Hsp as (name & data & Hname & Hdata & Hq); [|done].
  exists name, data. split; [done|]. split.
  - pose proof (JobFacts.rmtree_given tmp_root w3 (out_dir // name) eq_refl) as Hrm.
    simpl in Hrm |- *. rewrite Hrm; done.
  - destruct (quality r); [done|]. by destruct Hq.
Qed.

End Job.
End JpegJobFacts.

(** For a file that is there, the job of [jpeg_binary_search] returns a
    result, whatever Pillow does: it names the file and its size; a quality
    it reports is the fallback quality or lies between [--min-q] and
    [--max-q]; a result with an error, or without a quality, reports the
    original size as final size; and nothing is left under its [jpgopt_]
    directory. *)
Theorem jpeg_job_always_reports E L in_path out_dir a w c :
  files w !! in_path = Some c →
  ∃ r w',
    JpegJob.process_file E L in_path out_dir a w = (Ok r, w') ∧
    JpegJob.file r = path_str in_path ∧
    JpegJob.original_bytes r = size_of c ∧
    (JpegJob.error r ≠ None → JpegJob.quality r = None) ∧
    match JpegJob.quality r with
    | Some q => q = JpegJob.fallback_q a ∨ JpegJob.min_q a ≤ q ≤ JpegJob.max_q a
    | None => JpegJob.final_bytes r = size_of c
    end ∧
    (∀ p, inside (Path (Temp "jpgopt_" (next_tmp w)) []) p = true → files w' !! p = None).
Proof. apply JpegJobFacts.jpeg_process_file_run. Qed.

Lemma jpeg_job_always_reports_witness :
  ∃ r w',
    JpegJob.process_file Scenario.pillow52 More.bare Scenario.jpeg_orig Scenario.out_dir
      More.jpeg_args Scenario.jpeg_world = (Ok r, w') ∧
    JpegJob.file r = "/in/photo.jpg" ∧
    JpegJob.original_bytes r = 3 ∧
    (JpegJob.error r ≠ None → JpegJob.quality r = None) ∧
    match JpegJob.quality r with
    | Some q => q = 95 ∨ 30 ≤ q ≤ 95
    | None => JpegJob.final_bytes r = 3
    end ∧
    (∀ p, inside (Path (Temp "jpgopt_" 1) []) p = true → files w' !! p = None).
Proof.
  apply (jpeg_job_always_reports Scenario.pillow52 More.bare Scenario.jpeg_orig
           Scenario.out_dir More.jpeg_args Scenario.jpeg_world (Scenario.blob 3)).
  reflexivity.
Defined.

(** When the job of [jpeg_binary_search] ends without an error and the
    output directory is one the user gave, its output is in that directory
    under the input's name with the suffix [.jpg] (the quality found) or
    under the input's own name (the fallback quality, or a copy of the
    original); when a quality is reported, [final_bytes] is the size of that
    file. *)
Theorem jpeg_job_output_name E L in_path out_dir a w r w' :
  JpegJob.process_file E L in_path out_dir a w = (Ok r, w') →
  JpegJob.error r = None →
  FrameSpec.is_given out_dir = true →
  ∃ name data,
    name ∈ [path_stem in_path +:+ ".jpg"; path_name in_path] ∧
    files w' !! (out_dir // name) = Some data ∧
    match JpegJob.quality r with
    | Some q => JpegJob.final_bytes r = size_of data
    | None => name = path_name in_path
    end.
Proof. apply JpegJobFacts.jpeg_process_file_output. Qed.

Lemma jpeg_job_output_name_witness :
  ∃ name data,
    name ∈ [path_stem Scenario.jpeg_orig +:+ ".jpg"; path_name Scenario.jpeg_orig] ∧
    files (JpegJob.process_file Scenario.pillow52 More.bare Scenario.jpeg_orig
             Scenario.out_dir More.jpeg_args Scenario.jpeg_world).2
      !! (Scenario.out_dir // name) = Some data ∧
    2 = size_of data.
Proof.
  destruct (JpegJob.process_file Scenario.pillow52 More.bare Scenario.jpeg_orig
              Scenario.out_dir More.jpeg_args Scenario.jpeg_world) as [r w'] eqn:Hrun.
  assert (Hr : r = Ok (JpegJob.JobResult "/in/photo.jpg" 3 2 false None (Some 52))).
  { change r with (r, w').1. rewrite <- Hrun. vm_compute. reflexivity. }
  subst r.
  exact (jpeg_job_output_name Scenario.pillow52 More.bare Scenario.jpeg_orig
           Scenario.out_dir More.jpeg_args Scenario.jpeg_world _ w' Hrun eq_refl eq_refl).
Defined.

(** ** An input that Pillow cannot open *)

Module UnreadableFacts.
Import Hybrid SearchSpec.

Section Unreadable.
Context (E : externals) (work_in : path) (fs0 : gmap path content).
Context (Hmissing : fs0 !! work_in = None).

Lemma pil_open_missing w :
  files w = fs0 → ∃ e, Pil.open E work_in w = (Raise e, w).
Proof.
  intros Hfs. rewrite ResizeFacts.pil_open_run, Hfs, Hmissing. by eexists.
Qed.

Lemma pillow_save_jpeg_missing p q keep_exif w :
  files w = fs0 →
  ∃ note, pillow_save_jpeg E work_in p q keep_exif w = (Ok (false, note), w).
Proof.
  intros Hfs. destruct (pil_open_missing w Hfs) as [e He].
  unfold pillow_save_jpeg, try_except. rewrite (bind_raise _ _ _ _ _ He). by eexists.
Qed.

Lemma pillow_save_webp_missing p q w :
  files w = fs0 →
  ∃ note, pillow_save_webp E work_in p q w = (Ok (false, note), w).
Proof.
  intros Hfs. destruct (pil_open_missing w Hfs) as [e He].
  unfold pillow_save_webp, try_except. rewrite (bind_raise _ _ _ _ _ He). by eexists.
Qed.

(** A search whose encoder fails every time, leaving the files alone. *)
Lemma search_fails make_cand_fn metrics_fn orig lo hi a butter_bin w :
  (∀ q p w1, files w1 = fs0 → ∃ note, make_cand_fn q p w1 = (Ok (false, note), w1)) →
  files w = fs0 →
  ∃ w',
    binary_search_quality make_cand_fn metrics_fn orig lo hi a butter_bin w
      = (Ok Failure, w') ∧
    files w' = fs0.
Proof.
  intros Hmake Hfs. unfold binary_search_quality.
  unfold mbind at 1, M_bind at 1. simpl.
  set (tmpdir := Path (Temp "search_" (next_tmp w)) []).
  set (w0 := World (files w) (S (next_tmp w)) (procs w) (encode_log w)).
  assert (Hprobe : probe_spec (try_quality make_cand_fn metrics_fn orig a butter_bin tmpdir)
                     best_q (λ _, false) (λ w1, files w1 = fs0) (λ _ _, True) lo hi).
  { intros q w1 _ Hw1. unfold try_quality.
    unfold mbind at 1, M_bind at 1. simpl.
    destruct (Hmake q (tmpdir // ("q" +:+ Py.str q +:+ ".tmp"))
                (World (files w1) (next_tmp w1) (procs w1) (q :: encode_log w1)) Hw1)
      as [note Hrun].
    rewrite (bind_ok _ _ _ _ _ Hrun). simpl.
    eexists None, _. split; [reflexivity|]. by repeat split. }
  destruct (SearchFacts.bisect_spec _ _ _ _ _ lo hi Hprobe _ lo hi None w0 eq_refl
              ltac:(lia) ltac:(lia) Hfs ltac:(done))
    as (r & w1 & vis & Hrun & Hfs1 & _ & _ & _ & Hleast).
  destruct Hleast as [[_ ->]|(b & _ & _ & [=] & _)]; [by intros q q' | ].
  exists w1. unfold try_finally. rewrite (bind_ok _ _ _ _ _ Hrun). done.
Qed.

Lemma no_candidates a b w :
  Py.truthy_str (cjpeg b) = false → Py.truthy_str (cwebp b) = false →
  Py.truthy_str (avifenc b) = false →
  files w = fs0 →
  ∃ w', collect_candidates E work_in a b w = (Ok [], w') ∧ files w' = fs0.
Proof.
  intros Hj Hw Ha Hfs. unfold collect_candidates, make_jpeg, make_webp. rewrite Hj, Hw, Ha.
  rewrite andb_false_r.
  assert (Hjpg : ∃ w1,
            (if bool_decide (mode_of a = Jpeg ∨ mode_of a = Best)
             then r ← binary_search_quality
                        (λ q p, pillow_save_jpeg E work_in p q (keep_exif a))
                        (metrics_fn E) work_in (min_q a) (max_q a) a (butter b);
                  appended "jpg" r
             else mret []) w = (Ok [], w1) ∧ files w1 = fs0).
  { destruct (bool_decide (mode_of a = Jpeg ∨ mode_of a = Best)); [|by exists w].
    destruct (search_fails (λ q p, pillow_save_jpeg E work_in p q (keep_exif a))
                (metrics_fn E) work_in (min_q a) (max_q a) a (butter b) w) as (w1 & Hrun & Hfs1);
      [intros; by apply pillow_save_jpeg_missing|done|].
    exists w1. by rewrite (bind_ok _ _ _ _ _ Hrun). }
  destruct Hjpg as (w1 & Hrun1 & Hfs1). rewrite (bind_ok _ _ _ _ _ Hrun1).
  assert (Hwebp : ∃ w2,
            (if bool_decide (mode_of a = Best)
             then r ← binary_search_quality (λ q p, pillow_save_webp E work_in p q)
                        (metrics_fn E) work_in 10 100 a (butter b);
                  appended "webp" r
             else mret []) w1 = (Ok [], w2) ∧ files w2 = fs0).
  { destruct (bool_decide (mode_of a = Best)); [|by exists w1].
    destruct (search_fails (λ q p, pillow_save_webp E work_in p q)
                (metrics_fn E) work_in 10 100 a (butter b) w1) as (w2 & Hrun & Hfs2);
      [intros; by apply pillow_save_webp_missing|done|].
    exists w2. by rewrite (bind_ok _ _ _ _ _ Hrun). }
  destruct Hwebp as (w2 & Hrun2 & Hfs2). rewrite (bind_ok _ _ _ _ _ Hrun2).
  by exists w2.
Qed.

End Unreadable.

Lemma unreadable_input_run E in_path out_dir a b w c msg :
  files w !! in_path = Some c →
  pil_open E c = inl msg →
  files w !! ImageOps.as_path msg = None →
  Py.truthy_str (cjpeg b) = false → Py.truthy_str (cwebp b) = false →
  Py.truthy_str (avifenc b) = false →
  FrameSpec.is_given out_dir = true →
  in_path ≠ out_dir // path_name in_path →
  ∃ w',
    process_file E in_path out_dir a b w
      = (Ok (JobResult (path_str in_path) (size_of c) "none" None
               (Some "No candidates met criteria")), w') ∧
    files w' !! (out_dir // path_name in_path) = Some c.
Proof.
  intros Hc Hopen Hmsg Hj Hw Ha Hout Hne. unfold process_file.
  rewrite (bind_ok _ _ _ _ _ (JobFacts.stat_size_run _ _ _ Hc)).
  unfold mbind at 1, M_bind at 1. simpl.
  set (workdir := Path (Temp "work_" (next_tmp w)) []).
  set (w1 := World (files w) (S (next_tmp w)) (procs w) (encode_log w)).
  assert (Hresize : ImageOps.smart_resize_width_only E in_path (workdir // path_name in_path)
                      3000 w1 = (Ok (false, ImageOps.as_path msg), w1)).
  { unfold ImageOps.smart_resize_width_only, try_except.
    unfold mbind at 1, M_bind at 1. rewrite ResizeFacts.pil_open_run. simpl.
    by rewrite Hc, Hopen. }
  destruct (no_candidates E (ImageOps.as_path msg) (files w) Hmsg a b w1 Hj Hw Ha eq_refl)
    as (w2 & Hcollect & Hfs2).
  unfold try_finally, try_except.
  rewrite (bind_ok _ _ _ _ _ Hresize). simpl.
  rewrite (bind_ok _ _ _ _ _ Hcollect). simpl.
  assert (Hc2 : files w2 !! in_path = Some c) by by rewrite Hfs2.
  rewrite (bind_ok _ _ _ _ _ (JobFacts.copy2_run _ _ _ _ Hc2 Hne)). simpl.
  eexists. split; [reflexivity|].
  pose proof (JobFacts.rmtree_given workdir
                (set_files <[out_dir // path_name in_path := c]> w2)
                (out_dir // path_name in_path) eq_refl) as Hrm.
  simpl in Hrm |- *. rewrite Hrm by done. apply lookup_insert_eq.
Qed.

End UnreadableFacts.

(** An input that Pillow cannot open does not end in that error.  The
    resize helper hands its message on in place of the work image; when the
    Pillow encoders are used (none of [cjpeg], [cwebp], [avifenc] was found)
    every search then fails.  Provided that no file is named by the message,
    that the output directory is a path the user gave (not one under a
    temporary directory) and that the input is not itself the file
    [out_dir / in_path.name], the result is "No candidates met criteria"
    with an unchanged copy of the input in the output directory. *)
Theorem unreadable_input_is_copied E in_path out_dir a b w c msg :
  files w !! in_path = Some c →
  pil_open E c = inl msg →
  files w !! ImageOps.as_path msg = None →
  Py.truthy_str (Hybrid.cjpeg b) = false →
  Py.truthy_str (Hybrid.cwebp b) = false →
  Py.truthy_str (Hybrid.avifenc b) = false →
  FrameSpec.is_given out_dir = true →
  in_path ≠ out_dir // path_name in_path →
  ∃ w',
    Hybrid.process_file E in_path out_dir a b w
      = (Ok (Hybrid.JobResult (path_str in_path) (size_of c) "none" None
               (Some "No candidates met criteria")), w') ∧
    files w' !! (out_dir // path_name in_path) = Some c.
Proof. apply UnreadableFacts.unreadable_input_run. Qed.

Lemma unreadable_input_is_copied_witness :
  ∃ w',
    Hybrid.process_file More.cannot_open Scenario.original Scenario.out_dir
      Scenario.args38 Scenario.no_bins Scenario.one_file_world
      = (Ok (Hybrid.JobResult "/in/photo.png" 3 "none" None
               (Some "No candidates met criteria")), w') ∧
    files w' !! (Scenario.out_dir // "photo.png") = Some (Scenario.blob 3).
Proof.
  apply (unreadable_input_is_copied More.cannot_open Scenario.original Scenario.out_dir
           Scenario.args38 Scenario.no_bins Scenario.one_file_world (Scenario.blob 3)
           "cannot identify image file"); try reflexivity.
  discriminate.
Defined.

(** ** One job of [lossless], with its own optimizers *)

Module LosslessJobFacts.
Import Lossless LosslessSpec.

Section Job.
Context (E : externals) (L : library).

Lemma with_note_returns (m : M (bool * string)) w :
  (∃ r w', m w = (Ok r, w')) → ∃ r w', Hybrid.with_note m w = (Ok r, w').
Proof.
  intros ([ok msg] & w' & Hrun). unfold Hybrid.with_note.
  rewrite (bind_ok _ _ _ _ _ Hrun). by eexists _, _.
Qed.

Lemma run_cmd_returns cmd expected timeout w :
  ∃ r w', Shell.run_cmd E cmd expected timeout w = (Ok r, w').
Proof.
  destruct (ShellFacts.run_cmd_cases E cmd expected timeout w) as (ok & msg & w' & Hrun & _).
  by exists (ok, msg), w'.
Qed.

Lemma stage_returns (cond : bool) (m : M (bool * option string)) method out w :
  (∀ w0, ∃ r w', m w0 = (Ok r, w')) →
  ∃ l w', (if cond then r ← m; mret (appended method out r) else mret []) w = (Ok l, w').
Proof.
  intros Hm. destruct cond; [|by eexists _, _].
  destruct (Hm w) as (r & w' & Hrun). rewrite (bind_ok _ _ _ _ _ Hrun). by eexists _, _.
Qed.

Lemma webp_stage_returns (cond : bool) in_path webp_out bin w :
  ∃ l w',
    (if cond
     then '(ok, note) ← LosslessTools.convert_to_webp E in_path webp_out bin true 100;
          same ← (if (ok : bool) then PixelMetrics.files_identical E L in_path webp_out
                  else mret false);
          mret (appended "webp_lossless" webp_out (same, note))
     else mret []) w = (Ok l, w').
Proof.
  destruct cond; [|by eexists _, _].
  destruct (LosslessFacts.convert_to_webp_run E in_path webp_out bin true 100 w)
    as (ok & note & w1 & Hrun & _).
  rewrite (bind_ok _ _ _ _ _ Hrun). simpl.
  destruct ok.
  - destruct (files_identical_run E L in_path webp_out w1) as (same & Hsame & _).
    rewrite (bind_ok _ _ _ _ _ Hsame). by eexists _, _.
  - by eexists _, _.
Qed.

(** What is chosen after the loop over the candidates. *)
Lemma chosen_run in_path out_dir a b candidates w :
  ∃ chosen w',
    (match as_best (files w) <$> picked a (files w) candidates None with
     | None =>
         if truthy_int (target_kb a) && Py.truthy_str (cwebp b) then
           r ← LosslessTools.compress_to_webp_target E in_path
                 (out_dir // (path_stem in_path +:+ ".webp")) (default "" (cwebp b))
                 (default 0 (target_kb a)) 30 95 5;
           match r with
           | Some (method, final_size) =>
               mret (Some (BestOf method (out_dir // (path_stem in_path +:+ ".webp"))
                             final_size (Some "forced lossy")))
           | None => mret None
           end
         else mret None
     | Some bst => mret (Some bst)
     end) w = (Ok chosen, w') ∧
    ∀ bst, chosen = Some bst → sized a (files w') bst.
Proof.
  destruct (picked a (files w) candidates None) as [c|] eqn:Hpicked; simpl.
  - eexists _, _. split; [reflexivity|]. intros bst [= <-].
    destruct (TargetFacts.eligible_sized a (files w) c
                (TargetFacts.picked_eligible _ _ _ _ Hpicked)) as (data & Hdata & Hsize & Hk).
    by exists data.
  - destruct (truthy_int (target_kb a) && Py.truthy_str (cwebp b)) eqn:Hcond.
    2:{ eexists _, _. split; [reflexivity|]. by intros bst [=]. }
    destruct (LosslessFacts.compress_to_webp_target_run E in_path
                (out_dir // (path_stem in_path +:+ ".webp")) (default "" (cwebp b))
                (default 0 (target_kb a)) w) as (r & w' & Hrun & _ & Hr).
    rewrite (bind_ok _ _ _ _ _ Hrun).
    destruct r as [[method size]|].
    + eexists _, _. split; [reflexivity|]. intros bst [= <-].
      destruct Hr as (q & data & _ & _ & Hdata & Hsize & Hle).
      exists data. split; [done|]. split; [done|].
      intros k Hk _. rewrite Hk in Hle. simpl in *. lia.
    + eexists _, _. split; [reflexivity|]. by intros bst [=].
Qed.

Lemma cleanup_all_returns (l : list candidate) w :
  ∃ r w',
    mapM (λ c, ex ← FS.exists_ (cand_file c);
               if (ex : bool) then FS.unlink (cand_file c) else mret tt) l w = (Ok r, w').
Proof.
  revert w. induction l as [|c l IH]; intros w; simpl; [by eexists _, _|].
  assert (∃ w1, (ex ← FS.exists_ (cand_file c);
                 if (ex : bool) then FS.unlink (cand_file c) else mret tt) w = (Ok tt, w1))
    as [w1 H1].
  { unfold FS.exists_, FS.unlink, get_files, modify_files, mbind, M_bind, mret, M_ret. simpl.
    destruct (files w !! cand_file c) as [d|] eqn:Hc; simpl; [|by eexists].
    rewrite Hc. by eexists. }
  rewrite (bind_ok _ _ _ _ _ H1).
  destruct (IH w1) as (r & w' & Hrun). rewrite (bind_ok _ _ _ _ _ Hrun). by eexists _, _.
Qed.

Lemma finish_run in_path out_dir orig_size a candidates chosen w :
  (∀ bst, chosen = Some bst → sized a (files w) bst) →
  ∃ r w',
    finish in_path out_dir orig_size candidates chosen w = (Ok r, w') ∧
    file r = path_str in_path ∧ original_size r = Py.to_kb orig_size ∧
    match error r with
    | None =>
        ∃ data,
          files w' !! (out_dir // path_name in_path) = Some data ∧
          final_size r = Py.to_kb (size_of data) ∧
          ∀ k, target_kb a = Some k → k ≠ 0 → size_of data ≤ k * 1024
    | Some e =>
        e = "No valid compression met criteria" ∧ method_used r = "none" ∧
        final_size r = Py.to_kb orig_size
    end.
Proof.
  intros Hsized. unfold finish. destruct chosen as [bst|].
  - destruct (Hsized bst eq_refl) as (data & Hdata & Hsize & Hk).
    rewrite (bind_ok _ _ _ _ _ (JobFacts.move_run _ (out_dir // path_name in_path) _ _ Hdata)).
    destruct (JobFacts.lossless_cleanup (out_dir // path_name in_path) candidates
                (set_files (λ fs, <[out_dir // path_name in_path := data]>
                                    (delete (best_file bst) fs)) w))
      as (us & w' & Hclean & Hkeep).
    rewrite (bind_ok _ _ _ _ _ Hclean).
    eexists _, _. split; [reflexivity|]. simpl. repeat (split; [done|]).
    exists data. rewrite Hsize. split; [|done]. rewrite Hkeep. simpl. apply lookup_insert_eq.
  - destruct (cleanup_all_returns candidates w) as (us & w' & Hclean).
    rewrite (bind_ok _ _ _ _ _ Hclean). eexists _, _. split; [reflexivity|]. done.
Qed.

Lemma lossless_process_file_run in_path out_dir a b w c :
  files w !! in_path = Some c →
  ∃ r w',
    LosslessTools.process_file E L in_path out_dir a b w = (Ok r, w') ∧
    file r = path_str in_path ∧ original_size r = Py.to_kb (size_of c) ∧
    match error r with
    | None =>
        ∃ data,
          files w' !! (out_dir // path_name in_path) = Some data ∧
          final_size r = Py.to_kb (size_of data) ∧
          ∀ k, target_kb a = Some k → k ≠ 0 → size_of data ≤ k * 1024
    | Some e =>
        e = "No valid compression met criteria" ∧ method_used r = "none" ∧
        final_size r = Py.to_kb (size_of c)
    end.
Proof.
  intros Hc. unfold LosslessTools.process_file, Lossless.process_file.
  rewrite (bind_ok _ _ _ _ _ (JobFacts.stat_size_run _ _ _ Hc)).
  destruct (HybridJobFacts.try_except_returns
              (img ← Pil.open E in_path;
               Pil.save E img (out_dir // (path_stem in_path +:+ "_pillow.png"))
                 (SaveOpts (Some "PNG") None true false None false false);;
               mret (true, None))
              (λ e, mret (false, Some (exn_str e))) w) as (r1 & w1 & H1).
  { intros e w0. by eexists _, _. }
  unfold LosslessTools.optimize_with_pillow at 1.
  rewrite (bind_ok _ _ _ _ _ H1).
  destruct (stage_returns (Py.truthy_str (oxipng b))
              (LosslessTools.optimize_with_oxipng E in_path
                 (out_dir // (path_stem in_path +:+ "_oxipng.png")) (default "" (oxipng b))
                 (oxipng_level a))
              "oxipng" (out_dir // (path_stem in_path +:+ "_oxipng.png")) w1)
    as (c2 & w2 & H2).
  { intros w0. apply with_note_returns, run_cmd_returns. }
  rewrite (bind_ok _ _ _ _ _ H2).
  destruct (stage_returns (Py.truthy_str (zopflipng b))
              (LosslessTools.optimize_with_zopflipng E in_path
                 (out_dir // (path_stem in_path +:+ "_zopfli.png")) (default "" (zopflipng b))
                 (zopfli_iter a))
              "zopfli" (out_dir // (path_stem in_path +:+ "_zopfli.png")) w2)
    as (c3 & w3 & H3).
  { intros w0. apply with_note_returns, run_cmd_returns. }
  rewrite (bind_ok _ _ _ _ _ H3).
  destruct (webp_stage_returns (Py.truthy_str (cwebp b)) in_path
              (out_dir // (path_stem in_path +:+ "_lossless.webp")) (default "" (cwebp b)) w3)
    as (c4 & w4 & H4).
  rewrite (bind_ok _ _ _ _ _ H4).
  destruct (stage_returns (allow_lossy a && truthy_int (lossy_quality a)
                           && Py.truthy_str (cwebp b))
              (LosslessTools.convert_to_webp E in_path
                 (out_dir // (path_stem in_path +:+ "_lossy.webp")) (default "" (cwebp b))
                 false (default 0 (lossy_quality a)))
              ("webp_q" +:+ Py.str (default 0 (lossy_quality a)))
              (out_dir // (path_stem in_path +:+ "_lossy.webp")) w4)
    as (c5 & w5 & H5).
  { intros w0. apply with_note_returns, run_cmd_returns. }
  rewrite (bind_ok _ _ _ _ _ H5).
  set (candidates := (_ ++ c2 ++ c3 ++ c4 ++ c5)%list).
  pose proof (PickFacts.pick_run a candidates None w5) as Hpick. simpl in Hpick.
  rewrite (bind_ok _ _ _ _ _ Hpick).
  destruct (chosen_run in_path out_dir a b candidates w5) as (chosen & w6 & Hchosen & Hsized).
  rewrite (bind_ok _ _ _ _ _ Hchosen).
  destruct (finish_run in_path out_dir (size_of c) a candidates chosen w6 Hsized)
    as (r & w' & Hrun & Hr).
  by exists r, w'.
Qed.

End Job.
End LosslessJobFacts.

(** For a file that is there, the job of [lossless] with its own
    optimizers returns a result, whatever the tools do.  The sizes it
    reports are in KB, as [to_kb] rounds them.  Without an error, the
    final size is that of the file at [out_dir / in_path.name], which
    respects a non-zero [--target-kb]; the only error is "No valid
    compression met criteria", with the method "none" and the original size
    as final size. *)
Theorem lossless_job_always_reports E L in_path out_dir a b w c :
  files w !! in_path = Some c →
  ∃ r w',
    LosslessTools.process_file E L in_path out_dir a b w = (Ok r, w') ∧
    Lossless.file r = path_str in_path ∧
    Lossless.original_size r = Py.to_kb (size_of c) ∧
    match Lossless.error r with
    | None =>
        ∃ data,
          files w' !! (out_dir // path_name in_path) = Some data ∧
          Lossless.final_size r = Py.to_kb (size_of data) ∧
          ∀ k, Lossless.target_kb a = Some k → k ≠ 0 → size_of data ≤ k * 1024
    | Some e =>
        e = "No valid compression met criteria" ∧ Lossless.method_used r = "none" ∧
        Lossless.final_size r = Py.to_kb (size_of c)
    end.
Proof. apply LosslessJobFacts.lossless_process_file_run. Qed.

Lemma lossless_job_always_reports_witness :
  ∃ r w',
    LosslessTools.process_file Scenario.pillow52 More.bare Scenario.original
      Scenario.out_dir More.lossless_target1 Scenario.lossless_cwebp
      Scenario.one_file_world = (Ok r, w') ∧
    Lossless.file r = "/in/photo.png" ∧
    Lossless.original_size r = Py.to_kb (size_of (Scenario.blob 3)) ∧
    match Lossless.error r with
    | None =>
        ∃ data,
          files w' !! (Scenario.out_dir // "photo.png") = Some data ∧
          Lossless.final_size r = Py.to_kb (size_of data) ∧
          ∀ k, Lossless.target_kb More.lossless_target1 = Some k → k ≠ 0 →
               size_of data ≤ k * 1024
    | Some e =>
        e = "No valid compression met criteria" ∧ Lossless.method_used r = "none" ∧
        Lossless.final_size r = Py.to_kb (size_of (Scenario.blob 3))
    end.
Proof.
  apply (lossless_job_always_reports Scenario.pillow52 More.bare Scenario.original
           Scenario.out_dir More.lossless_target1 Scenario.lossless_cwebp
           Scenario.one_file_world (Scenario.blob 3)).
  reflexivity.
Defined.

(** ** An input that Pillow cannot open, in [jpeg_binary_search] *)

Module JpegUnreadableFacts.
Import JpegSearch JpegJob SearchSpec.

Section Unreadable.
Context (E : externals) (work_in : path) (fs0 : gmap path content).
Context (Hmissing : fs0 !! work_in = None).

Lemma save_jpeg_pillow_missing p q subsampling progressive optimize keep_exif w :
  files w = fs0 →
  ∃ note,
    save_jpeg_pillow E work_in p q subsampling progressive optimize keep_exif w
      = (Ok (false, note), w).
Proof.
  intros Hfs. destruct (UnreadableFacts.pil_open_missing E work_in fs0 Hmissing w Hfs) as [e He].
  unfold save_jpeg_pillow, try_except. rewrite (bind_raise _ _ _ _ _ He). by eexists.
Qed.

Lemma find_best_jpeg_missing orig_path tmp_dir lo hi target_psnr target_ssim use_ssim w :
  files w = fs0 →
  ∃ w',
    find_best_jpeg E work_in orig_path tmp_dir lo hi target_psnr target_ssim use_ssim w
      = (Ok (Failure "no q met thresholds"), w') ∧
    files w' = fs0.
Proof.
  intros Hfs. unfold find_best_jpeg.
  assert (Hprobe : probe_spec
            (try_quality E work_in orig_path tmp_dir target_psnr target_ssim use_ssim)
            best_q (λ _, false) (λ w1, files w1 = fs0) (λ _ _, True) lo hi).
  { intros q w1 _ Hw1. unfold try_quality.
    unfold mbind at 1, M_bind at 1. simpl.
    destruct (save_jpeg_pillow_missing (tmp_dir // ("cand_q" +:+ Py.str q +:+ ".jpg")) q
                (Some 0) true true false
                (World (files w1) (next_tmp w1) (procs w1) (q :: encode_log w1)) Hw1)
      as [note Hrun].
    rewrite (bind_ok _ _ _ _ _ Hrun). simpl.
    eexists None, _. split; [reflexivity|]. by repeat split. }
  destruct (SearchFacts.bisect_spec _ _ _ _ _ lo hi Hprobe _ lo hi None w eq_refl
              ltac:(lia) ltac:(lia) Hfs ltac:(done))
    as (r & w1 & vis & Hrun & Hfs1 & _ & _ & _ & Hleast).
  destruct Hleast as [[_ ->]|(b & _ & _ & [=] & _)]; [by intros q q' | ].
  exists w1. by rewrite (bind_ok _ _ _ _ _ Hrun).
Qed.

End Unreadable.

Lemma jpeg_unreadable_input_run E L in_path out_dir a w c msg :
  files w !! in_path = Some c →
  pil_open E c = inl msg →
  files w !! ImageOps.as_path msg = None →
  FrameSpec.is_given out_dir = true →
  in_path ≠ out_dir // path_name in_path →
  ∃ w',
    JpegJob.process_file E L in_path out_dir a w
      = (Ok (JobResult (path_str in_path) (size_of c) (size_of c) false None None), w') ∧
    files w' !! (out_dir // path_name in_path) = Some c.
Proof.
  intros Hc Hopen Hmsg Hout Hne. unfold JpegJob.process_file.
  rewrite (bind_ok _ _ _ _ _ (JobFacts.stat_size_run _ _ _ Hc)).
  rewrite (bind_ok _ _ _ _ _ (JobFacts.stat_size_run _ _ _ Hc)).
  unfold mbind at 1, M_bind at 1. simpl.
  set (tmp_root := Path (Temp "jpgopt_" (next_tmp w)) []).
  set (w1 := World (files w) (S (next_tmp w)) (procs w) (encode_log w)).
  assert (Hresize : Resize.resize_orientation_aware_r2 E L in_path
                      (tmp_root // path_name in_path) (max_side a) w1
                    = (Ok (false, ImageOps.as_path msg), w1)).
  { unfold Resize.resize_orientation_aware_r2, try_except.
    unfold mbind at 1, M_bind at 1. rewrite ResizeFacts.pil_open_run. simpl.
    by rewrite Hc, Hopen. }
  destruct (find_best_jpeg_missing E (ImageOps.as_path msg) (files w) Hmsg in_path tmp_root
              (min_q a) (max_q a) (target_psnr a) (target_ssim a) (use_ssim a) w1 eq_refl)
    as (w2 & Hsearch & Hfs2).
  destruct (save_jpeg_pillow_missing E (ImageOps.as_path msg) (files w) Hmsg
              (tmp_root // "fallback.jpg") (fallback_q a) (Some 0) true true (keep_exif a)
              w2 Hfs2) as [note Hsave].
  assert (Hc2 : files w2 !! in_path = Some c) by by rewrite Hfs2.
  unfold try_finally, Shell.try_bound, try_except. rewrite Hresize.
  unfold search_and_promote.
  rewrite (bind_ok _ _ _ _ _ Hsearch).
  rewrite (bind_ok _ _ _ _ _ Hsave). simpl.
  rewrite (bind_ok _ _ _ _ _ (JobFacts.copy2_run _ _ _ _ Hc2 Hne)). simpl.
  eexists. split; [reflexivity|].
  pose proof (JobFacts.rmtree_given tmp_root
                (set_files <[out_dir // path_name in_path := c]> w2)
                (out_dir // path_name in_path) eq_refl) as Hrm.
  simpl in Hrm |- *. rewrite Hrm by done. apply lookup_insert_eq.
Qed.

End JpegUnreadableFacts.

(** In [jpeg_binary_search] an input that Pillow cannot open leaves no
    trace in the result.  The resize helper hands its message on in place
    of the work image, and the search and the fallback encode both fail.
    Provided that no file is named by the message, that the output
    directory is a path the user gave (not one under a temporary directory)
    and that the input is not itself the file [out_dir / in_path.name], the
    input is copied unchanged to the output directory: the result has no
    error and no quality, and reports the original size as final size. *)
Theorem jpeg_unreadable_input_is_copied_silently E L in_path out_dir a w c msg :
  files w !! in_path = Some c →
  pil_open E c = inl msg →
  files w !! ImageOps.as_path msg = None →
  FrameSpec.is_given out_dir = true →
  in_path ≠ out_dir // path_name in_path →
  ∃ w',
    JpegJob.process_file E L in_path out_dir a w
      = (Ok (JpegJob.JobResult (path_str in_path) (size_of c) (size_of c) false None None),
         w') ∧
    files w' !! (out_dir // path_name in_path) = Some c.
Proof. apply JpegUnreadableFacts.jpeg_unreadable_input_run. Qed.

Lemma jpeg_unreadable_input_is_copied_silently_witness :
  ∃ w',
    JpegJob.process_file More.cannot_open More.bare Scenario.jpeg_orig Scenario.out_dir
      More.jpeg_args Scenario.jpeg_world
      = (Ok (JpegJob.JobResult "/in/photo.jpg" 3 3 false None None), w') ∧
    files w' !! (Scenario.out_dir // "photo.jpg") = Some (Scenario.blob 3).
Proof.
  apply (jpeg_unreadable_input_is_copied_silently More.cannot_open More.bare
           Scenario.jpeg_orig Scenario.out_dir More.jpeg_args Scenario.jpeg_world
           (Scenario.blob 3) "cannot identify image file"); try reflexivity.
  discriminate.
Defined.
